(* ===== verification/_CoqProject ===== *)
-Q . S2P
Prelude.v
Text.v
Domain.v
StateMachine.v
Money.v
External.v
Fingerprint.v
Merkle.v
EventXml.v
Database.v
Ledger.v
EventLedger.v
Ports.v
ChainVerification.v
AuditAnchor.v
Services.v
Reconciliation.v
References.v
Numbers.v
MobileMoney.v
BankWorker.v
Webhook.v
Refunds.v
Treasury.v
Anchoring.v
AnchorLock.v
Transfers.v
SoapService.v
ApiKeys.v
Base64.v
FieldCipher.v
Iban.v
Simulator.v
Masking.v
Responses.v
Doubles.v
MonetaryAmount.v
Gateway.v
Books.v
Metrics.v
HttpLayer.v
AccessLog.v
Requests.v
Environment.v
AuditTrail.v
EncryptionMigration.v
SchemaMigrations.v
RestoreVerification.v
LedgerGuards.v
