(* ===== verification/Prelude.v ===== *)
(** * Verification of the banking and blockchain audit gateway

    The gateway ([src/], a NestJS application in TypeScript) takes bank transfers and Mobile
    Money payments, instructs a bank over SOAP, keeps an append-only register of sealed
    facts for each payment, posts their accounting consequence, and publishes on a chain
    the Merkle root of the cases that are closed.  This library is a shallow embedding of
    its services: each file models one part from its source, with the theorems that make
    it correct.  This file is the root: the header of the library, then what every file
    shares.

    ** The parts and their sources

    Foundations.  [Prelude] (this file): the effect monad [Eff S E A] of computations that
    return or throw over a state, record assignment [r <| f := v |>], the [Respects]
    framework with its tactic [respects], tables, lists and characters.  [Text], [Numbers]
    and [Base64]: the operations of JavaScript and Node the sources use.  [Domain]: the
    enumerations and entities ([**/enums/], [**/entities/]), the errors.  [External]: what
    the sources call and do not define ([Hashing], [XsdEngine], [Entropy]), as classes.
    [Database]: the tables with the columns, [CHECK] conditions, indexes, foreign keys and
    triggers the entities declare, the repository calls, SQL transactions and savepoints.
    [Ports]: the chain, the bank and the refund service,
    whose answers depend on every call made before.  [Services]: methods that assign the
    fields of an entity their caller still holds.

    The register.  [StateMachine] ([transactions/state/]): transition tables, invariants,
    the two assertions.  [Money] ([mobile-money/amount.util.ts]).  [Fingerprint] and
    [Merkle] ([blockchain/fingerprint.util.ts], [merkle.util.ts]): seals, trees, proofs.
    [EventXml] ([events/transaction-event-xml.builder.ts]): the canonical document.
    [Ledger] ([accounting/]): posting rules, posting, trial balance.  [EventLedger]
    ([events/transaction-events.service.ts]): [record] with its retries, [closeCase].
    [ChainVerification] ([events/event-chain-verification.service.ts]): the audit of a
    chain.  [AuditAnchor] ([contracts/AuditAnchor.sol], [blockchain/evm-anchor.client.ts]):
    the contract and the client that implements the port of the chain.  [Anchoring]
    ([blockchain/anchor.service.ts]): batches, publication, recovery; [AnchorLock]: its lock
    between instances, as a step relation.
    [RestoreVerification] ([observability/restore-verification.service.ts]).

    The payments.  [References] ([transactions/reference.generator.ts]).  [Transfers]
    ([transactions/transactions.service.ts], [xml/transfer-xml.builder.ts]).  [MobileMoney]
    ([mobile-money/mobile-money.service.ts]), [Webhook]
    ([mobile-money/mobile-money-webhook.service.ts]), [BankWorker]
    ([mobile-money/bank-instruction.worker.ts]), [Reconciliation]
    ([mobile-money/reconciliation.service.ts]), [Refunds] ([refunds/]), [Treasury]
    ([treasury/treasury.service.ts]), [Simulator] (the aggregator simulator and the
    simulated refund adapter), [SoapService] ([soap/]).

    The surroundings.  [ApiKeys] ([auth/]), [Iban] and [MonetaryAmount]
    ([common/validators/]; [Doubles] has the lemmas on the rounding of numbers), [FieldCipher]
    ([security/]), [EncryptionMigration] (the migration that encrypts the party columns),
    [SchemaMigrations] (the other migrations that move, check or may lose data),
    [Environment] ([config/]), [Masking] and [AuditTrail] ([common/utils/masking.util.ts],
    [audit/]), [LedgerGuards] (the triggers of the journal and what installs them),
    [Metrics] (the gauges of the supervision), [Responses] (the DTOs of the answers),
    [Gateway] (the controllers behind the guard, and the workers), [Requests] (the DTO
    classes and the validation pipe between the guard and a controller), [HttpLayer]
    (correlation, error filter, probes), [AccessLog] ([common/interceptors/]) and [Books]
    (the journal under every execution).

    ** How the parts interact

    A service is an [App] computation over a [World]: the database, the number of random
    draws, the clock, the correlation identifier and the history of external calls.  An
    [Ent] or [Obj] computation also holds the entity the source mutates, so that what was
    assigned survives a rollback.  Services call each other as in the source: callbacks go
    through [Webhook] to [MobileMoney], which queues an instruction for [BankWorker], whose
    executor is [Webhook]'s, which calls [Reconciliation]; all record through [EventLedger],
    which posts through [Ledger].  What other sessions commit meanwhile is an argument
    ([interfere]) of the operations that race; what they lock or hold is one too ([locked],
    [running], [acquired]).  [Gateway.execution] is any sequence of requests, rounds of
    workers and passing of time.

    ** What the theorems show

    Register: [record] refines an abstract ledger that only appends sealed, linked and
    ranked facts and their postings, whatever other sessions do; it ends; a case is closed
    once; the audit is sound against forgery up to a collision of the digest, and does not
    accuse an honest case; trees are sound; batches are provable and published once, by one
    instance at a time; the contract verifies a proof as the gateway does, and a receipt is
    permanent; a restored base that lost anchored facts is counted as such.
    Payments: the state machine decides its specification; the bank is instructed only of
    what was collected, and an attempt it answered positively is never turned into a debt;
    a callback is applied once and released when it fails; the verdict and its proof are atomic; refunds
    are made under one key and extinguish the debt only on the provider's word; transfers
    converge; collections are swept once.
    Whole gateway: every execution keeps the books and every balance sheet closes; the
    triggers keep the journal balanced and append-only, whatever rows are written by roles
    without [TRUNCATE], in any interleaving; the gauges tell the books; with authentication
    on, nothing moves without a right, and without it only notifications are checked; every
    request is answered, and an error tells only its kind.
    Secrets and inputs: encrypted columns are read back and never downgraded; their
    migration goes both ways for parties that fit their columns, and a rollback that is
    accepted loses nothing; the audit trail masks the account elements, and the trail and
    the logged bodies any word that reads as an account; a production that starts is closed; an accepted environment
    gives sound numbers; keys in force are those declared once; one wrong character of an
    account number is refused; a number is accepted as an amount only if it is one of cents,
    and tells them; what is not valid never reaches a service, and what is satisfies what
    the services assume.

    ** Conventions, bounds and fuel

    Amounts are integers of cents, dates integers of milliseconds; strings are their UTF-8
    bytes.  [slice] cuts a stored reason by UTF-16 units and the width of a column is in
    characters, but [Masking] counts bytes, and upper case is that of ASCII: a text outside
    ASCII may be masked at another place, and a dotless i, which JavaScript turns into I, is
    refused in an account number.  The commission is computed on doubles, as the code does;
    sums and differences of amounts are exact.  The clock stands still during an operation.  A loop of the source with a bound
    of its own takes that bound as fuel ([MAX_SEQUENCE_ATTEMPTS], [MAX_REFERENCE_ATTEMPTS],
    [maxAttempts], the limit of a drain), so that running out is the behaviour of the
    source: the theorems say what is then thrown.  Other recursions are structural.
    Hypotheses on external code are classes of laws ([HashingLaws], [EntropyLaws],
    [AeadLaws], [UuidLaws]...); [External.Toy] and the [sample_*] instances satisfy what
    the witnesses need.

    ** Not modelled

    NestJS, TypeORM and their decorators (routing, the start-up of [main.ts] but its
    validation pipe; the decorators of class-validator are an interface, bodies are objects);
    the transport of SOAP, the XML parser, libxml2, the cryptographic primitives and the
    text of errors, which are parameters; counters and the log lines of the services, which
    nothing reads; the widths that encryption adds to the parties and the range of [numeric(18,2)], which
    [transaction_fits] and [event_fits] leave out ([FieldCipher.encrypted_field_width] gives
    the former); [keccak256] is total, where ethers throws on a text that is not
    hexadecimal; a transaction that is rolled back restores the whole base, rows that other
    sessions would have committed meanwhile included; [Gateway.handle_request] leaves the
    route of the audit trail to [AuditTrail.getAuditTrail]; optimistic-locking versions,
    storage-only columns and the remaining migrations, SQL text whose constraints are those
    of the entities; intervals of the schedulers; batches of snapshots of transactions,
    which nothing produces any more; the scripts. *)
From stdpp Require Export base decidable list strings pretty option numbers relations.
From Stdlib Require Export ZArith Lia Ascii Sorted.

(** * Scopes and global settings *)

#[export] Set Warnings "-clear-no-such-hyp".

Declare Scope gateway_scope.
Delimit Scope gateway_scope with gateway.
Open Scope gateway_scope.

(** * Record assignment

    TypeScript assigns the fields of an entity one at a time
    ([transaction.status = ...]).  [r <| f := v |>] is the functional form: a
    record type provides one [Eta] instance that lists its fields, and the
    update of any field is derived from it on demand. *)

Class Eta (R : Type) := eta : R → R.

Class Field {R E : Type} (proj : R → E) := assign : E → R → R.
Arguments assign {R E} proj {_} v r /.

Ltac derive_field :=
  lazymatch goal with
  | |- @Field ?R ?E ?proj =>
      let i := constr:(_ : Eta R) in
      let e := eval red in i in
      exact (fun (v : E) (r : R) => ltac:(
        let b := eval cbv beta in (e r) in
        lazymatch b with
        | context C [proj r] => let b' := context C [v] in exact b'
        end))
  end.

#[export] Hint Extern 1 (Field _) => derive_field : typeclass_instances.

Notation "r <| f := v |>" := (assign f v r)
  (at level 1, f at level 0, v at level 99, left associativity,
   format "r  <| f  :=  v |>") : gateway_scope.

(** * Effects

    Service methods read and write a state, call external systems and throw.
    [Eff S E A] is a computation over the state [S] that either returns an [A]
    or throws an [E].  The state reached before a [throw] is kept: only an SQL
    transaction undoes writes, and that is [atomic]. *)

Inductive Outcome (E A : Type) :=
  | Return (a : A)
  | Throw (e : E).
Arguments Return {E A} a.
Arguments Throw {E A} e.

Definition Eff (S E A : Type) : Type := S → Outcome E A * S.

#[export] Instance Eff_ret {S E} : MRet (Eff S E) :=
  λ A (a : A) (s : S), (Return a, s).

#[export] Instance Eff_bind {S E} : MBind (Eff S E) :=
  λ A B (k : A → Eff S E B) (m : Eff S E A) (s : S),
    match m s with
    | (Return a, s') => k a s'
    | (Throw e, s') => (Throw e, s')
    end.

Definition throw {S E A} (e : E) : Eff S E A := λ s, (Throw e, s).

Definition gets {S E A} (f : S → A) : Eff S E A := λ s, (Return (f s), s).

Definition modify {S E} (f : S → S) : Eff S E unit := λ s, (Return tt, f s).

(** [try { m } catch (error) { h(error) }] *)
Definition try_catch {S E A} (m : Eff S E A) (h : E → Eff S E A) : Eff S E A :=
  λ s, match m s with
       | (Throw e, s') => h e s'
       | r => r
       end.

(** An SQL transaction over the part [get] of the state: an exception that
    leaves it restores that part, and only that part, to what it was. *)
Definition atomic {S E D A} (get : S → D) (put : D → S → S) (m : Eff S E A) : Eff S E A :=
  λ s, match m s with
       | (Throw e, s') => (Throw e, put (get s) s')
       | r => r
       end.

(** [if (!b) throw e] *)
Definition throw_unless {S E} (b : bool) (e : E) : Eff S E unit :=
  if b then mret tt else throw e.

Definition ret_option {S E A} (o : option A) (e : E) : Eff S E A :=
  match o with Some a => mret a | None => throw e end.

Arguments Eff_ret {S E} A a s /.
Arguments Eff_bind {S E} A B k m s /.
Arguments throw {S E A} e s /.
Arguments gets {S E A} f s /.
Arguments modify {S E} f s /.

(** ** Reasoning about effects *)

(** Whichever way the computation ends, the state it leaves is related to the
    state it found.  With a preorder, statements compose; [λ s s', I s → I s'] is
    the preservation of an invariant. *)
Definition Respects {S E A} (R : S → S → Prop) (m : Eff S E A) : Prop :=
  ∀ s, R s (m s).2.

Create HintDb effects.
#[export] Hint Constants Opaque : effects.

Section effect_lemmas.
Context {S E : Type}.
Implicit Types (I : S → Prop).

Lemma bind_return {A B} (m : Eff S E A) (k : A → Eff S E B) s a s' :
  m s = (Return a, s') → (m ≫= k) s = k a s'.
Proof. intros Hm. unfold mbind; simpl. by rewrite Hm. Qed.

Lemma bind_throw {A B} (m : Eff S E A) (k : A → Eff S E B) s e s' :
  m s = (Throw e, s') → (m ≫= k) s = (Throw e, s').
Proof. intros Hm. unfold mbind; simpl. by rewrite Hm. Qed.

Lemma bind_inv {A B} (m : Eff S E A) (k : A → Eff S E B) s b s' :
  (m ≫= k) s = (Return b, s') → ∃ a s1, m s = (Return a, s1) ∧ k a s1 = (Return b, s').
Proof.
  unfold mbind; simpl. destruct (m s) as [[a|e] s1]; [|done].
  intros Hk. by exists a, s1.
Qed.

Lemma bind_throw_inv {A B} (m : Eff S E A) (k : A → Eff S E B) s e s' :
  (m ≫= k) s = (Throw e, s') →
  m s = (Throw e, s') ∨ ∃ a s1, m s = (Return a, s1) ∧ k a s1 = (Throw e, s').
Proof.
  unfold mbind; simpl. destruct (m s) as [[a|e'] s1]; [|by intros [= <- <-]; left].
  intros Hk. right. by exists a, s1.
Qed.

Lemma atomic_return {D A} get (put : D → S → S) (m : Eff S E A) s a s' :
  m s = (Return a, s') → atomic get put m s = (Return a, s').
Proof. intros Hm. unfold atomic. by rewrite Hm. Qed.

Lemma atomic_throw {D A} get (put : D → S → S) (m : Eff S E A) s e s' :
  m s = (Throw e, s') → atomic get put m s = (Throw e, put (get s) s').
Proof. intros Hm. unfold atomic. by rewrite Hm. Qed.

Lemma atomic_inv {D A} get (put : D → S → S) (m : Eff S E A) s a s' :
  atomic get put m s = (Return a, s') → m s = (Return a, s').
Proof. unfold atomic. by destruct (m s) as [[?|?] ?]. Qed.

Lemma respects_run (R : S → S → Prop) {A} (m : Eff S E A) s o s' :
  Respects R m → m s = (o, s') → R s s'.
Proof. intros Hm Hrun. specialize (Hm s). by rewrite Hrun in Hm. Qed.

Section respects_lemmas.
Context (R : S → S → Prop) `{!PreOrder R}.

Lemma respects_ret {A} (a : A) : Respects R (mret a : Eff S E A).
Proof. intros s. reflexivity. Qed.

Lemma respects_throw {A} (e : E) : Respects R (throw e : Eff S E A).
Proof. intros s. reflexivity. Qed.

Lemma respects_gets {A} (f : S → A) : Respects R (gets f : Eff S E A).
Proof. intros s. reflexivity. Qed.

Lemma respects_modify (f : S → S) :
  (∀ s, R s (f s)) → Respects R (modify f : Eff S E unit).
Proof. intros Hf s. apply Hf. Qed.

Lemma respects_bind {A B} (m : Eff S E A) (k : A → Eff S E B) :
  Respects R m → (∀ a, Respects R (k a)) → Respects R (m ≫= k).
Proof.
  intros Hm Hk s. specialize (Hm s). unfold mbind; simpl.
  destruct (m s) as [[a|e] s1]; simpl in *; [|done]. by transitivity s1; [|apply Hk].
Qed.

Lemma respects_try_catch {A} (m : Eff S E A) h :
  Respects R m → (∀ e, Respects R (h e)) → Respects R (try_catch m h).
Proof.
  intros Hm Hh s. specialize (Hm s). unfold try_catch.
  destruct (m s) as [[a|e] s1]; simpl in *; [done|]. by transitivity s1; [|apply Hh].
Qed.

Lemma respects_throw_unless b (e : E) : Respects R (throw_unless b e).
Proof. destruct b; intros s; reflexivity. Qed.

Lemma respects_ret_option {A} (o : option A) (e : E) : Respects R (ret_option o e).
Proof. destruct o; intros s; reflexivity. Qed.
End respects_lemmas.

(** A relation on the transactional part survives [atomic]: its errors are rolled
    back. *)
Lemma respects_atomic {D A} (get : S → D) put (R : D → D → Prop) `{!PreOrder R}
    (m : Eff S E A) :
  (∀ d s, get (put d s) = d) →
  Respects (λ s s', R (get s) (get s')) m →
  Respects (λ s s', R (get s) (get s')) (atomic get put m).
Proof.
  intros Hlens Hm s. specialize (Hm s). unfold atomic.
  destruct (m s) as [[a|e] s1]; simpl in *; [done|by rewrite Hlens].
Qed.

(** ... and so does a relation that the rollback keeps. *)
Lemma respects_rollback {D A} (get : S → D) put (R : S → S → Prop) (m : Eff S E A) :
  (∀ d s s', R s s' → R s (put d s')) → Respects R m → Respects R (atomic get put m).
Proof.
  intros Hput Hm s. specialize (Hm s). unfold atomic.
  destruct (m s) as [[a|e] s1]; simpl in *; [done|by apply Hput].
Qed.
End effect_lemmas.

#[export] Hint Extern 1 (PreOrder _) => apply _ : effects.

(** Splits a [Respects] goal along the statements of the computation. *)
Ltac respects_apply lemma :=
  apply lemma;
  lazymatch goal with |- PreOrder _ => apply _ | |- forall _, _ => intros ? | |- _ => idtac end.

Ltac respects_step :=
  lazymatch goal with
  | |- Respects _ (mbind _ _) => respects_apply respects_bind
  | |- Respects _ (mret _) => respects_apply respects_ret
  | |- Respects _ (throw _) => respects_apply respects_throw
  | |- Respects _ (gets _) => respects_apply respects_gets
  | |- Respects _ (throw_unless _ _) => respects_apply respects_throw_unless
  | |- Respects _ (ret_option _ _) => respects_apply respects_ret_option
  | |- Respects _ (try_catch _ _) => respects_apply respects_try_catch
  | |- Respects _ (if ?b then _ else _) => destruct b
  | |- Respects _ (match ?x with _ => _ end) => destruct x
  | |- Respects _ (let _ := _ in _) => cbv zeta
  end.

(** The structural steps of later files: they extend this tactic. *)
Ltac respects_more := fail.

Ltac respects := repeat (first [progress (eauto with effects; []) | respects_step | respects_more]);
  eauto with effects.

(** Runs a computation one statement forward, using the equations at hand. *)
Ltac run_step :=
  first
    [ erewrite bind_return by eassumption
    | erewrite bind_throw by eassumption
    | erewrite atomic_return by eassumption
    | erewrite atomic_throw by eassumption ].

(** Splits every [match] of the goal, or of a hypothesis, on its scrutinee. *)
Ltac split_matches :=
  repeat (case_match; simplify_eq/=; try done).

(** * Tables

    A table is the list of its rows in insertion order, and an [UPDATE] reports
    how many rows it changed ([outcome.affected]). *)

Definition update_where {A} (p : A → bool) (f : A → A) (rows : list A) : list A :=
  (λ r, if p r then f r else r) <$> rows.

Definition affected {A} (p : A → bool) (rows : list A) : nat :=
  length (List.filter p rows).

(** [repository.save]: replaces the row that has the entity's key, or adds it. *)
Definition upsert {A} (same : A → A → bool) (x : A) (rows : list A) : list A :=
  if existsb (same x) rows then update_where (same x) (λ _, x) rows else rows ++ [x].

(** [ORDER BY key ASC]: a stable insertion sort. *)
Fixpoint insert_by {A} (key : A → Z) (x : A) (l : list A) : list A :=
  match l with
  | [] => [x]
  | y :: l' => if Z.leb (key x) (key y) then x :: l else y :: insert_by key x l'
  end.

Fixpoint sort_by {A} (key : A → Z) (l : list A) : list A :=
  match l with
  | [] => []
  | x :: l => insert_by key x (sort_by key l)
  end.

(** [s.includes(needle)] *)
Definition includes (needle s : string) : bool :=
  match String.index 0 needle s with Some _ => true | None => false end.

(** ** Lists and options *)

Section table_lemmas.
Context {A : Type}.
Implicit Types (p : A → bool) (rows l : list A) (key : A → Z) (x : A).

Lemma length_update_where p f rows : length (update_where p f rows) = length rows.
Proof. apply length_fmap. Qed.

Lemma update_where_none p f rows : affected p rows = 0 → update_where p f rows = rows.
Proof.
  unfold affected, update_where. induction rows as [|r rows IH]; simpl; [done|].
  destruct (p r); simpl; [done|]. intros H. f_equal. by apply IH.
Qed.

Lemma affected_pos p rows : 0 < affected p rows ↔ ∃ r, r ∈ rows ∧ p r = true.
Proof.
  unfold affected. split.
  - intros H. destruct (List.filter p rows) as [|r l] eqn:E; simpl in H; [lia|].
    assert (Hin : In r (List.filter p rows)) by (rewrite E; by left).
    apply filter_In in Hin as [Hin Hp]. exists r. by rewrite list_elem_of_In.
  - intros (r & Hr & Hp). rewrite list_elem_of_In in Hr.
    assert (Hin : In r (List.filter p rows)) by by apply filter_In.
    destruct (List.filter p rows); [done|simpl; lia].
Qed.

Lemma elem_of_update_where p f rows x :
  x ∈ update_where p f rows ↔
  ∃ r, r ∈ rows ∧ x = if p r then f r else r.
Proof. unfold update_where. rewrite list_elem_of_fmap. split; intros (r & H1 & H2); eauto. Qed.

Lemma update_where_app p f rows1 rows2 :
  update_where p f (rows1 ++ rows2) = update_where p f rows1 ++ update_where p f rows2.
Proof. apply fmap_app. Qed.

Lemma find_update_where p q f rows :
  (∀ r, r ∈ rows → q (if p r then f r else r) = q r) →
  List.find q (update_where p f rows) =
  (λ r, if p r then f r else r) <$> List.find q rows.
Proof.
  unfold update_where. induction rows as [|r rows IH]; intros Hq; simpl; [done|].
  rewrite Hq by (left; done). destruct (q r); simpl; [done|].
  apply IH. intros r' Hr'. apply Hq. by right.
Qed.

Lemma find_app_l (q : A → bool) rows1 rows2 x :
  List.find q rows1 = Some x → List.find q (rows1 ++ rows2) = Some x.
Proof. induction rows1 as [|r rows IH]; simpl; [done|]. by destruct (q r). Qed.

Lemma find_app_r (q : A → bool) rows1 rows2 :
  List.find q rows1 = None → List.find q (rows1 ++ rows2) = List.find q rows2.
Proof. induction rows1 as [|r rows IH]; simpl; [done|]. by destruct (q r). Qed.

Lemma insert_by_least key x l :
  Forall (λ y, (key x <= key y)%Z) l → insert_by key x l = x :: l.
Proof. destruct 1 as [|y l Hy _]; simpl; [done|]. by rewrite (proj2 (Z.leb_le _ _) Hy). Qed.

(** Sorting what is already sorted changes nothing. *)
Lemma sort_by_sorted key l :
  StronglySorted (λ x y, (key x <= key y)%Z) l → sort_by key l = l.
Proof.
  induction 1 as [|x l _ IH Hx]; simpl; [done|]. rewrite IH. by apply insert_by_least.
Qed.

Lemma insert_by_perm key x l : Permutation (insert_by key x l) (x :: l).
Proof.
  induction l as [|y l IH]; simpl; [done|]. destruct (Z.leb _ _); [done|].
  rewrite IH. apply Permutation_swap.
Qed.

Lemma sort_by_perm key l : Permutation (sort_by key l) l.
Proof. induction l as [|x l IH]; simpl; [done|]. by rewrite insert_by_perm, IH. Qed.

Lemma sort_by_length key l : length (sort_by key l) = length l.
Proof. by rewrite sort_by_perm. Qed.

Lemma elem_of_sort_by key l x : x ∈ sort_by key l ↔ x ∈ l.
Proof. by rewrite sort_by_perm. Qed.

Lemma insert_by_ordered key x l :
  StronglySorted (λ x y, (key x <= key y)%Z) l →
  StronglySorted (λ x y, (key x <= key y)%Z) (insert_by key x l).
Proof.
  induction 1 as [|y l Hl IH Hy]; simpl; [by repeat constructor|].
  destruct (Z.leb (key x) (key y)) eqn:Hle.
  - apply Z.leb_le in Hle. constructor; [by constructor|]. constructor; [done|].
    eapply Forall_impl; [exact Hy|]. intros z Hz. cbv beta in *. lia.
  - apply Z.leb_gt in Hle. constructor; [done|].
    rewrite insert_by_perm. constructor; [lia|done].
Qed.

Lemma sort_by_ordered key l : StronglySorted (λ x y, (key x <= key y)%Z) (sort_by key l).
Proof. induction l as [|x l IH]; simpl; [constructor|]. by apply insert_by_ordered. Qed.

(** The first of [ORDER BY key ASC]. *)
Lemma head_sort_by key l x :
  head (sort_by key l) = Some x → x ∈ l ∧ ∀ y, y ∈ l → (key x <= key y)%Z.
Proof.
  intros Hx. assert (Hs := sort_by_ordered key l).
  destruct (sort_by key l) as [|z r] eqn:Hr; [done|]. injection Hx as ->.
  inversion_clear Hs as [|?? _ Hall]. split.
  - rewrite <- (elem_of_sort_by key), Hr. by left.
  - intros y. rewrite <- (elem_of_sort_by key), Hr, elem_of_cons. intros [->|Hy]; [lia|].
    rewrite Forall_forall in Hall. by apply Hall.
Qed.

Lemma elem_of_upsert (same : A → A → bool) x rows : x ∈ upsert same x rows.
Proof.
  unfold upsert. destruct (existsb (same x) rows) eqn:He.
  - apply existsb_exists in He as (r & Hr & Hs). apply elem_of_update_where.
    exists r. by rewrite Hs, list_elem_of_In.
  - apply elem_of_app. right. by apply list_elem_of_singleton.
Qed.

Lemma filter_snoc p rows x :
  List.filter p (rows ++ [x]) = List.filter p rows ++ (if p x then [x] else []).
Proof. rewrite List.filter_app. simpl. by destruct (p x). Qed.

Lemma existsb_false p rows : existsb p rows = false ↔ Forall (λ r, p r = false) rows.
Proof.
  induction rows as [|r rows IH]; simpl; [by split|].
  rewrite orb_false_iff, IH. split; [intros [? ?]; by constructor|by inversion 1].
Qed.

Lemma find_snoc p rows x :
  List.find p rows = None → p x = true → List.find p (rows ++ [x]) = Some x.
Proof. intros Hn Hx. rewrite find_app_r by done. simpl. by rewrite Hx. Qed.

Lemma find_upsert (same : A → A → bool) (p : A → bool) x rows :
  (∀ y, p y = same x y) → p x = true → List.find p (upsert same x rows) = Some x.
Proof.
  intros Hp Hx. unfold upsert. destruct (existsb (same x) rows) eqn:He.
  - clear - Hp Hx He. induction rows as [|r rows IH]; [done|]. simpl in *.
    destruct (same x r) eqn:Hr; simpl; [by rewrite Hx|]. rewrite Hp, Hr. by apply IH.
  - apply existsb_false in He. induction He as [|r rows Hr _ IH]; simpl; [by rewrite Hx|].
    by rewrite Hp, Hr.
Qed.
End table_lemmas.

(** * Lists *)

Lemma forall2_partner {A B} (R : A → B → Prop) l k x :
  x ∈ l → Forall2 R l k → ∃ y, y ∈ k ∧ R x y.
Proof.
  intros [i Hi]%list_elem_of_lookup Hall. destruct (Forall2_lookup_l _ _ _ _ _ Hall Hi) as (y & Hy & HR).
  exists y. split; [by eapply list_elem_of_lookup_2|done].
Qed.

Lemma filter_split {A} (p q : A → bool) (l : list A) :
  (∀ x, q x = negb (p x)) → List.filter p l ++ List.filter q l ≡ₚ l.
Proof.
  intros Hq. induction l as [|x l IH]; simpl; [done|]. rewrite Hq. destruct (p x); simpl.
  - by rewrite IH.
  - by rewrite <- Permutation_middle, IH.
Qed.

Lemma filter_sublist {A} (p : A → bool) (l : list A) : List.filter p l `sublist_of` l.
Proof. induction l as [|x l IH]; simpl; [constructor|]. destruct (p x); by constructor. Qed.

(** A page of a query: rows of the table that satisfy it, each once. *)
Lemma page_rows {A} (key : A → string) (p : A → bool) n rows sorted :
  sorted ≡ₚ List.filter p rows → NoDup (key <$> rows) →
  NoDup (key <$> take n sorted) ∧ Forall (λ x, x ∈ rows ∧ p x = true) (take n sorted).
Proof.
  intros Hsorted Huniq. split.
  - eapply sublist_NoDup; [|apply fmap_sublist, sublist_take].
    rewrite Hsorted. eapply sublist_NoDup; [exact Huniq|]. apply fmap_sublist, filter_sublist.
  - apply Forall_forall. intros x Hx.
    eapply elem_of_submseteq in Hx; [|apply sublist_submseteq, sublist_take].
    rewrite Hsorted in Hx. by rewrite list_elem_of_In, filter_In, <- list_elem_of_In in Hx.
Qed.

(** ** Rows with a key *)

Section keyed_rows.
Context {A : Type} (key : A → string).
Implicit Types (rows : list A) (p : A → bool).

Definition same_key (x y : A) : bool := String.eqb (key x) (key y).

Lemma affected_keyed p rows r :
  NoDup (key <$> rows) → r ∈ rows → (∀ x, p x = true → key x = key r) →
  affected p rows = (if p r then 1 else 0)%nat.
Proof.
  intros Hdup Hr Hp. unfold affected. induction rows as [|x rows IH]; [by apply not_elem_of_nil in Hr|].
  rewrite fmap_cons, NoDup_cons in Hdup. destruct Hdup as [Hnew Hdup]. simpl.
  apply elem_of_cons in Hr as [->|Hr].
  - assert (Hrest : List.filter p rows = []).
    { destruct (List.filter p rows) as [|y l] eqn:He; [done|].
      assert (Hy : In y (List.filter p rows)) by (rewrite He; by left).
      apply filter_In in Hy as [Hy Hpy]. exfalso. apply Hnew. rewrite <- (Hp y Hpy).
      apply list_elem_of_fmap_2. by apply list_elem_of_In. }
    destruct (p x); simpl; by rewrite Hrest.
  - destruct (p x) eqn:Hx; [|by apply IH]. exfalso. apply Hnew. rewrite (Hp x Hx).
    by apply list_elem_of_fmap_2.
Qed.

Lemma upsert_keys x rows :
  key <$> upsert same_key x rows =
  if existsb (same_key x) rows then key <$> rows else (key <$> rows) ++ [key x].
Proof.
  unfold upsert. destruct (existsb (same_key x) rows); [|by rewrite fmap_app].
  unfold update_where. rewrite <- list_fmap_compose. apply list_fmap_ext. intros _ y _. simpl.
  unfold same_key. destruct (String.eqb (key x) (key y)) eqn:He; [by apply String.eqb_eq in He|done].
Qed.

Lemma upsert_nodup x rows : NoDup (key <$> rows) → NoDup (key <$> upsert same_key x rows).
Proof.
  intros Hdup. rewrite upsert_keys. destruct (existsb (same_key x) rows) eqn:He; [done|].
  apply NoDup_app. split_and!; [done| |apply NoDup_singleton].
  intros k Hk ->%list_elem_of_singleton. apply list_elem_of_fmap in Hk as (y & Hy & Hin).
  apply existsb_false in He. rewrite Forall_forall in He. specialize (He y Hin). cbv beta in He.
  unfold same_key in He. by rewrite Hy, String.eqb_refl in He.
Qed.
End keyed_rows.

(** [left ?? right] *)
Definition or_default {A} (o : option A) (d : A) : A := default d o.

(** A line feed and a double quote. *)
Definition newline : string := String (Ascii.ascii_of_N 10) EmptyString.
Definition quote : string := String (Ascii.ascii_of_N 34) EmptyString.

(** [a === b] on values whose equality is decidable. *)
Abbreviation is_eq a b := (bool_decide (a = b)).

(** Equality of strings, as the [===] of the source. *)
Definition str_eqb (a b : string) : bool := String.eqb a b.

Lemma str_eqb_spec a b : str_eqb a b = true ↔ a = b.
Proof. apply String.eqb_eq. Qed.

Lemma str_eqb_refl a : str_eqb a a = true.
Proof. apply String.eqb_refl. Qed.

Lemma str_eqb_sym a b : str_eqb a b = str_eqb b a.
Proof. apply eq_bool_prop_intro. by rewrite !Is_true_true, !str_eqb_spec. Qed.

(** ** Exhaustive checks *)

Open Scope Z_scope.

(** [p] holds of [0], ..., [n - 1]. *)
Definition all_below (n : Z) (p : Z → bool) : bool :=
  (Z.iter n (λ '(i, ok), (i + 1, ok && p i)) (0, true)).2.

Lemma all_below_spec n p i : all_below n p = true → 0 <= i < n → p i = true.
Proof.
  intros Hall Hi. destruct n as [|n|]; [lia| |lia]. unfold all_below in Hall. simpl in Hall.
  revert Hall.
  assert (Hinv : ∀ m : positive,
    let r := Pos.iter (λ '(i, ok), (i + 1, ok && p i)) (0, true) m in
    r.1 = Z.pos m ∧ (r.2 = true → ∀ j, 0 <= j < Z.pos m → p j = true)).
  { apply Pos.peano_ind.
    - simpl. split; [done|]. intros Hp j Hj. by replace j with 0 by lia.
    - intros m [H1 H2]. rewrite Pos.iter_succ. destruct (Pos.iter _ _ m) as [k ok]. simpl in *. subst k.
      split; [lia|]. intros [Hok Hp]%andb_true_iff j Hj.
      destruct (decide (j = Z.pos m)) as [->|]; [done|]. apply H2; [done|lia]. }
  intros Hok. by apply (Hinv n).
Qed.

(** ** Characters *)

Definition in_range (lo hi : Ascii.ascii) (c : Ascii.ascii) : bool :=
  N.leb (Ascii.N_of_ascii lo) (Ascii.N_of_ascii c) && N.leb (Ascii.N_of_ascii c) (Ascii.N_of_ascii hi).

Definition is_digit : Ascii.ascii → bool := in_range "0" "9".

Fixpoint all_chars (p : Ascii.ascii → bool) (s : string) : bool :=
  match s with
  | EmptyString => true
  | String c s => p c && all_chars p s
  end.

Lemma all_chars_app p s t : all_chars p (s +:+ t) = all_chars p s && all_chars p t.
Proof.
  induction s as [|c s IH]; [done|].
  change (p c && all_chars p (s +:+ t) = p c && all_chars p s && all_chars p t).
  rewrite IH. apply andb_assoc.
Qed.

(** Cutting at the first character that is not of a class. *)
Lemma cut_inj p c a b x y :
  p c = false → all_chars p a = true → all_chars p b = true →
  a +:+ String c x = b +:+ String c y → a = b ∧ x = y.
Proof.
  intros Hc. revert b. induction a as [|u a IH]; intros [|v b] Ha Hb Heq; simpl in *.
  - by injection Heq.
  - injection Heq as -> _. by rewrite Hc in Hb.
  - injection Heq as <- _. by rewrite Hc in Ha.
  - injection Heq as -> Heq. apply andb_true_iff in Ha as [_ Ha], Hb as [_ Hb].
    destruct (IH b Ha Hb Heq) as [-> ->]. done.
Qed.

Lemma pretty_N_digits x s : all_chars is_digit s = true → all_chars is_digit (pretty_N_go x s) = true.
Proof.
  revert s. induction (N.lt_wf_0 x) as [x _ IH]. intros s Hs.
  destruct (decide (x = 0)%N) as [->|Hx]; [by rewrite pretty_N_go_0|].
  rewrite pretty_N_go_step by lia. apply IH; [apply N.div_lt; lia|]. simpl. rewrite Hs, andb_true_r.
  assert (Hm : (x `mod` 10 < 10)%N) by (apply N.mod_lt; lia).
  revert Hm. generalize (x `mod` 10)%N. intros m Hm.
  assert (H : all_below 10 (λ z, is_digit (pretty_N_char (Z.to_N z))) = true) by by vm_compute.
  apply (all_below_spec _ _ (Z.of_N m)) in H; [|lia]. cbv beta in H.
  by rewrite N2Z.id in H.
Qed.

Lemma pretty_Z_digits z : (0 <= z)%Z → all_chars is_digit (pretty z) = true.
Proof.
  intros Hz. destruct z as [|q|q]; [done| |lia].
  change (all_chars is_digit (pretty (N.pos q)) = true).
  unfold pretty, pretty_N. destruct (decide _); [done|]. by apply pretty_N_digits.
Qed.
