(* ===== verification/Text.v ===== *)
(** Operations of JavaScript on texts that several components use: [trim],
    [toUpperCase], [split], [indexOf] with [slice], and the character classes of the
    patterns.  A string is its UTF-8 bytes; [trim] is on the ASCII range. *)
From S2P Require Import Prelude.
Open Scope Z_scope.

(** * Trimming *)

Definition is_space (c : Ascii.ascii) : bool :=
  let n := Ascii.N_of_ascii c in N.eqb n 32 || (N.leb 9 n && N.leb n 13).

Fixpoint trim_start (s : string) : string :=
  match s with
  | String c s' => if is_space c then trim_start s' else s
  | EmptyString => EmptyString
  end.

Fixpoint trim_end (s : string) : string :=
  match s with
  | EmptyString => EmptyString
  | String c s =>
      match trim_end s with
      | EmptyString => if is_space c then EmptyString else String c EmptyString
      | s' => String c s'
      end
  end.

(** [s.trim()] *)
Definition trim (s : string) : string := trim_end (trim_start s).

(** * Case *)

Definition to_upper (c : Ascii.ascii) : Ascii.ascii :=
  let n := Ascii.N_of_ascii c in
  if N.leb 97 n && N.leb n 122 then Ascii.ascii_of_N (n - 32) else c.

(** [s.toUpperCase()], on the ASCII range. *)
Fixpoint toUpperCase (s : string) : string :=
  match s with
  | EmptyString => EmptyString
  | String c s => String (to_upper c) (toUpperCase s)
  end.

(** * Length *)

(** [s.length], in UTF-16 units: a character beyond the first plane, whose first byte is
    at least 240, counts twice; the bytes that continue a character do not count. *)
Fixpoint utf16_length (s : string) : nat :=
  match s with
  | EmptyString => 0
  | String c s =>
      let n := Ascii.N_of_ascii c in
      (if N.eqb (N.land n 192) 128 then 0 else if N.leb 240 n then 2 else 1) + utf16_length s
  end.

(** * Cutting *)

(** [s.indexOf(c)] with the two slices around it; [None] is [-1]. *)
Fixpoint cut_at (c : Ascii.ascii) (s : string) : option (string * string) :=
  match s with
  | EmptyString => None
  | String d s =>
      if Ascii.eqb d c then Some (EmptyString, s)
      else (λ p, (String d p.1, p.2)) <$> cut_at c s
  end.

(** [s.split(c)] *)
Fixpoint split (c : Ascii.ascii) (s : string) : list string :=
  match s with
  | EmptyString => [EmptyString]
  | String d s =>
      if Ascii.eqb d c then EmptyString :: split c s
      else match split c s with
           | part :: parts => String d part :: parts
           | [] => [String d EmptyString]
           end
  end.

(** [list.filter(Boolean)], of strings. *)
Definition non_empty (s : string) : bool := match s with EmptyString => false | _ => true end.

(** [[...new Set(list)]]: each value where it first appears. *)
Fixpoint uniq_from (seen values : list string) : list string :=
  match values with
  | [] => []
  | s :: values => if bool_decide (s ∈ seen) then uniq_from seen values
                   else s :: uniq_from (s :: seen) values
  end.
Definition uniq (values : list string) : list string := uniq_from [] values.

(** * Classes of characters *)

(** [s.charCodeAt(0)] *)
Definition code_of (c : Ascii.ascii) : Z := Z.of_N (Ascii.N_of_ascii c).

Definition is_upper : Ascii.ascii → bool := in_range "A" "Z".
Definition is_lower : Ascii.ascii → bool := in_range "a" "z".

(** [[A-Za-z0-9_-]] *)
Definition is_url_char (c : Ascii.ascii) : bool :=
  is_upper c || is_lower c || is_digit c || Ascii.eqb c "_" || Ascii.eqb c "-".

(** [/^[class]{lo,hi}$/.test(s)] *)
Definition of_class (class : Ascii.ascii → bool) (lo hi : nat) (s : string) : bool :=
  Nat.leb lo (String.length s) && Nat.leb (String.length s) hi && all_chars class s.

(** * Lemmas *)

Lemma cut_at_spec c s left right :
  cut_at c s = Some (left, right) ↔
  s = left +:+ String c right ∧ all_chars (λ d, negb (Ascii.eqb d c)) left = true.
Proof.
  revert left. induction s as [|d s IH]; intros left; simpl.
  - split; [done|]. intros [H _]. by destruct left.
  - destruct (Ascii.eqb d c) eqn:Hd.
    + apply Ascii.eqb_eq in Hd as ->. split; [by intros [= <- <-]|].
      intros [H Hl]. destruct left as [|e left]; [by injection H as <-|].
      injection H as -> _. simpl in Hl. by rewrite Ascii.eqb_refl in Hl.
    + destruct (cut_at c s) as [[l r]|] eqn:Hcut; simpl.
      * split.
        -- intros [= <- <-]. destruct (proj1 (IH l)) as [-> Hl]; [done|]. simpl. by rewrite Hd, Hl.
        -- intros [H Hl]. destruct left as [|e left]; [injection H as -> _; by rewrite Ascii.eqb_refl in Hd|].
           injection H as <- H. simpl in Hl. apply andb_true_iff in Hl as [_ Hl].
           assert (Heq : Some (l, r) = Some (left, right)) by by apply IH. by injection Heq as <- <-.
      * split; [done|]. intros [H Hl].
        destruct left as [|e left]; [injection H as -> _; by rewrite Ascii.eqb_refl in Hd|].
        injection H as <- H. simpl in Hl. apply andb_true_iff in Hl as [_ Hl].
        discriminate (proj2 (IH left) (conj H Hl)).
Qed.

Lemma uniq_from_elem seen values s : s ∈ uniq_from seen values ↔ s ∈ values ∧ s ∉ seen.
Proof.
  revert seen. induction values as [|t values IH]; intros seen; simpl.
  { rewrite elem_of_nil. tauto. }
  case_bool_decide as Ht; rewrite ?elem_of_cons, IH, ?elem_of_cons; split;
    try (intros [-> | [? ?]]; tauto); try tauto.
  - intros [[->|?] ?]; tauto.
  - intros [[->|?] ?]; [by left|]. destruct (decide (s = t)); tauto.
Qed.

Lemma uniq_elem values s : s ∈ uniq values ↔ s ∈ values.
Proof. unfold uniq. rewrite uniq_from_elem, elem_of_nil. tauto. Qed.

Lemma uniq_from_nodup seen values : NoDup (uniq_from seen values).
Proof.
  revert seen. induction values as [|t values IH]; intros seen; simpl; [constructor|].
  case_bool_decide; [apply IH|]. constructor; [|apply IH]. rewrite uniq_from_elem, elem_of_cons. tauto.
Qed.

Lemma all_chars_weaken (p q : Ascii.ascii → bool) s :
  (∀ c, p c = true → q c = true) → all_chars p s = true → all_chars q s = true.
Proof.
  intros Hpq. induction s as [|c s IH]; [done|]. simpl.
  intros [Hc Hs]%andb_true_iff. by rewrite (Hpq c Hc), IH.
Qed.

Lemma append_assoc (a b c : string) : (a +:+ b) +:+ c = a +:+ (b +:+ c).
Proof. induction a as [|x a IH]; [done|]. exact (f_equal (String x) IH). Qed.

(** ** Normal forms: trimming and upper case, twice, are once. *)

Lemma to_upper_space c : is_space (to_upper c) = is_space c.
Proof. destruct c as [[] [] [] [] [] [] [] []]; reflexivity. Qed.
Lemma to_upper_twice c : to_upper (to_upper c) = to_upper c.
Proof. destruct c as [[] [] [] [] [] [] [] []]; reflexivity. Qed.

Lemma toUpperCase_twice s : toUpperCase (toUpperCase s) = toUpperCase s.
Proof. induction s as [|c s IH]; [done|]. simpl. by rewrite to_upper_twice, IH. Qed.

Lemma trim_start_upper s : trim_start (toUpperCase s) = toUpperCase (trim_start s).
Proof. induction s as [|c s IH]; [done|]. simpl. rewrite to_upper_space. by destruct (is_space c). Qed.

Lemma trim_end_upper s : trim_end (toUpperCase s) = toUpperCase (trim_end s).
Proof.
  induction s as [|c s IH]; [done|]. simpl. rewrite IH. destruct (trim_end s) as [|d t]; [|done].
  simpl. rewrite to_upper_space. by destruct (is_space c).
Qed.

Lemma trim_upper s : trim (toUpperCase s) = toUpperCase (trim s).
Proof. unfold trim. by rewrite trim_start_upper, trim_end_upper. Qed.

Lemma trim_end_twice s : trim_end (trim_end s) = trim_end s.
Proof.
  induction s as [|c s IH]; [done|]. simpl. destruct (trim_end s) as [|d t] eqn:E.
  - destruct (is_space c) eqn:Hc; [done|]. simpl. by rewrite Hc.
  - change (trim_end (String c (String d t))) with
      (match trim_end (String d t) with
       | EmptyString => if is_space c then EmptyString else String c EmptyString
       | s' => String c s'
       end). by rewrite IH.
Qed.

Lemma trim_start_end s : trim_start (trim_end (trim_start s)) = trim_end (trim_start s).
Proof.
  induction s as [|c s IH]; [done|]. simpl. destruct (is_space c) eqn:Hc; [exact IH|].
  simpl. destruct (trim_end s); rewrite ?Hc; simpl; by rewrite Hc.
Qed.

Lemma trim_twice s : trim (trim s) = trim s.
Proof. unfold trim. by rewrite trim_start_end, trim_end_twice. Qed.
