(* ===== verification/Domain.v ===== *)
(** Data of the gateway: the enumerations and the entities of the TypeScript
    sources, one inductive type per [enum] and one record per entity.

    An enumeration lives in a module of its own name, so that its values read as
    in the source ([ProviderStatus.CONFIRMED]); its [show] function is the string
    the source gives the value, which the XML documents and the tables hold.
    Columns the code no longer writes (the retired snapshot sealing of
    [transactions]) and the storage-only [encryption_version] are left out.
    Amounts are integers of cents, dates are milliseconds since the epoch. *)
From S2P Require Import Prelude.
Open Scope Z_scope.

(** * Enumerations *)

(** Life cycle of a transfer request. *)
Module TransactionStatus.
Inductive TransactionStatus :=
  | PENDING | PROCESSING | COMPLETED | FAILED.
Definition show (v : TransactionStatus) : string :=
  match v with
  | PENDING => "PENDING"
  | PROCESSING => "PROCESSING"
  | COMPLETED => "COMPLETED"
  | FAILED => "FAILED"
  end.
#[export] Instance eq_dec : EqDecision TransactionStatus.
Proof. solve_decision. Defined.
End TransactionStatus.
Abbreviation TransactionStatus := TransactionStatus.TransactionStatus.
#[export] Existing Instance TransactionStatus.eq_dec.

(** Operators of the aggregator. *)
Module MobileMoneyOperator.
Inductive MobileMoneyOperator :=
  | MPESA | AIRTEL_MONEY | ORANGE_MONEY.
Definition show (v : MobileMoneyOperator) : string :=
  match v with
  | MPESA => "MPESA"
  | AIRTEL_MONEY => "AIRTEL_MONEY"
  | ORANGE_MONEY => "ORANGE_MONEY"
  end.
#[export] Instance eq_dec : EqDecision MobileMoneyOperator.
Proof. solve_decision. Defined.
End MobileMoneyOperator.
Abbreviation MobileMoneyOperator := MobileMoneyOperator.MobileMoneyOperator.
#[export] Existing Instance MobileMoneyOperator.eq_dec.

(** Provider leg: what the aggregator collected. *)
Module ProviderStatus.
Inductive ProviderStatus :=
  | INITIATED | PENDING | CONFIRMED | FAILED.
Definition show (v : ProviderStatus) : string :=
  match v with
  | INITIATED => "INITIATED"
  | PENDING => "PENDING"
  | CONFIRMED => "CONFIRMED"
  | FAILED => "FAILED"
  end.
#[export] Instance eq_dec : EqDecision ProviderStatus.
Proof. solve_decision. Defined.
End ProviderStatus.
Abbreviation ProviderStatus := ProviderStatus.ProviderStatus.
#[export] Existing Instance ProviderStatus.eq_dec.

(** Bank leg: the instruction sent to the SOAP back office. *)
Module BankProcessingStatus.
Inductive BankProcessingStatus :=
  | NOT_STARTED | PROCESSING | COMPLETED | FAILED | BLOCKED.
Definition show (v : BankProcessingStatus) : string :=
  match v with
  | NOT_STARTED => "NOT_STARTED"
  | PROCESSING => "PROCESSING"
  | COMPLETED => "COMPLETED"
  | FAILED => "FAILED"
  | BLOCKED => "BLOCKED"
  end.
#[export] Instance eq_dec : EqDecision BankProcessingStatus.
Proof. solve_decision. Defined.
End BankProcessingStatus.
Abbreviation BankProcessingStatus := BankProcessingStatus.BankProcessingStatus.
#[export] Existing Instance BankProcessingStatus.eq_dec.

(** Verdict of the comparison of the two legs. *)
Module ReconciliationStatus.
Inductive ReconciliationStatus :=
  | PENDING | MATCHED | MISMATCH | AMOUNT_MISMATCH | CURRENCY_MISMATCH |
  NOT_APPLICABLE | MANUAL_REVIEW.
Definition show (v : ReconciliationStatus) : string :=
  match v with
  | PENDING => "PENDING"
  | MATCHED => "MATCHED"
  | MISMATCH => "MISMATCH"
  | AMOUNT_MISMATCH => "AMOUNT_MISMATCH"
  | CURRENCY_MISMATCH => "CURRENCY_MISMATCH"
  | NOT_APPLICABLE => "NOT_APPLICABLE"
  | MANUAL_REVIEW => "MANUAL_REVIEW"
  end.
#[export] Instance eq_dec : EqDecision ReconciliationStatus.
Proof. solve_decision. Defined.
End ReconciliationStatus.
Abbreviation ReconciliationStatus := ReconciliationStatus.ReconciliationStatus.
#[export] Existing Instance ReconciliationStatus.eq_dec.

(** Obligation to refund the payer. *)
Module RefundStatus.
Inductive RefundStatus :=
  | NOT_REQUIRED | REQUIRED | REQUESTED | COMPLETED | FAILED.
Definition show (v : RefundStatus) : string :=
  match v with
  | NOT_REQUIRED => "NOT_REQUIRED"
  | REQUIRED => "REQUIRED"
  | REQUESTED => "REQUESTED"
  | COMPLETED => "COMPLETED"
  | FAILED => "FAILED"
  end.
#[export] Instance eq_dec : EqDecision RefundStatus.
Proof. solve_decision. Defined.
End RefundStatus.
Abbreviation RefundStatus := RefundStatus.RefundStatus.
#[export] Existing Instance RefundStatus.eq_dec.

(** Follow-up of the exception case. *)
Module CaseStatus.
Inductive CaseStatus :=
  | NONE | MANUAL_REVIEW | RESOLVED.
Definition show (v : CaseStatus) : string :=
  match v with
  | NONE => "NONE"
  | MANUAL_REVIEW => "MANUAL_REVIEW"
  | RESOLVED => "RESOLVED"
  end.
#[export] Instance eq_dec : EqDecision CaseStatus.
Proof. solve_decision. Defined.
End CaseStatus.
Abbreviation CaseStatus := CaseStatus.CaseStatus.
#[export] Existing Instance CaseStatus.eq_dec.

(** Kind of a row of the transactions table. *)
Module PaymentChannel.
Inductive PaymentChannel :=
  | LEGACY_TRANSFER | MOBILE_MONEY.
Definition show (v : PaymentChannel) : string :=
  match v with
  | LEGACY_TRANSFER => "LEGACY_TRANSFER"
  | MOBILE_MONEY => "MOBILE_MONEY"
  end.
#[export] Instance eq_dec : EqDecision PaymentChannel.
Proof. solve_decision. Defined.
End PaymentChannel.
Abbreviation PaymentChannel := PaymentChannel.PaymentChannel.
#[export] Existing Instance PaymentChannel.eq_dec.

(** Persistent states of a webhook event. *)
Module WebhookProcessingStatus.
Inductive WebhookProcessingStatus :=
  | RECEIVED | PROCESSING | PROCESSED | FAILED.
Definition show (v : WebhookProcessingStatus) : string :=
  match v with
  | RECEIVED => "RECEIVED"
  | PROCESSING => "PROCESSING"
  | PROCESSED => "PROCESSED"
  | FAILED => "FAILED"
  end.
#[export] Instance eq_dec : EqDecision WebhookProcessingStatus.
Proof. solve_decision. Defined.
End WebhookProcessingStatus.
Abbreviation WebhookProcessingStatus := WebhookProcessingStatus.WebhookProcessingStatus.
#[export] Existing Instance WebhookProcessingStatus.eq_dec.

(** States of a queued bank instruction. *)
Module BankInstructionStatus.
Inductive BankInstructionStatus :=
  | PENDING | IN_FLIGHT | COMPLETED | DEAD_LETTER.
Definition show (v : BankInstructionStatus) : string :=
  match v with
  | PENDING => "PENDING"
  | IN_FLIGHT => "IN_FLIGHT"
  | COMPLETED => "COMPLETED"
  | DEAD_LETTER => "DEAD_LETTER"
  end.
#[export] Instance eq_dec : EqDecision BankInstructionStatus.
Proof. solve_decision. Defined.
End BankInstructionStatus.
Abbreviation BankInstructionStatus := BankInstructionStatus.BankInstructionStatus.
#[export] Existing Instance BankInstructionStatus.eq_dec.

(** Anchoring of a fact on the chain. *)
Module AnchorStatus.
Inductive AnchorStatus :=
  | NOT_SEALED | PENDING | ANCHORED | FAILED.
Definition show (v : AnchorStatus) : string :=
  match v with
  | NOT_SEALED => "NOT_SEALED"
  | PENDING => "PENDING"
  | ANCHORED => "ANCHORED"
  | FAILED => "FAILED"
  end.
#[export] Instance eq_dec : EqDecision AnchorStatus.
Proof. solve_decision. Defined.
End AnchorStatus.
Abbreviation AnchorStatus := AnchorStatus.AnchorStatus.
#[export] Existing Instance AnchorStatus.eq_dec.

(** States of an anchoring batch. *)
Module BatchStatus.
Inductive BatchStatus :=
  | PENDING | ANCHORING | ANCHORED | FAILED.
Definition show (v : BatchStatus) : string :=
  match v with
  | PENDING => "PENDING"
  | ANCHORING => "ANCHORING"
  | ANCHORED => "ANCHORED"
  | FAILED => "FAILED"
  end.
#[export] Instance eq_dec : EqDecision BatchStatus.
Proof. solve_decision. Defined.
End BatchStatus.
Abbreviation BatchStatus := BatchStatus.BatchStatus.
#[export] Existing Instance BatchStatus.eq_dec.

(** Role of the actor a fact names. *)
Module EventActorRole.
Inductive EventActorRole :=
  | REFUND_OPERATOR | REFUND_APPROVER | SYSTEM.
Definition show (v : EventActorRole) : string :=
  match v with
  | REFUND_OPERATOR => "REFUND_OPERATOR"
  | REFUND_APPROVER => "REFUND_APPROVER"
  | SYSTEM => "SYSTEM"
  end.
#[export] Instance eq_dec : EqDecision EventActorRole.
Proof. solve_decision. Defined.
End EventActorRole.
Abbreviation EventActorRole := EventActorRole.EventActorRole.
#[export] Existing Instance EventActorRole.eq_dec.

(** Origin of the action a fact names. *)
Module EventActionOrigin.
Inductive EventActionOrigin :=
  | API | RETRY_WORKER | SYSTEM.
Definition show (v : EventActionOrigin) : string :=
  match v with
  | API => "API"
  | RETRY_WORKER => "RETRY_WORKER"
  | SYSTEM => "SYSTEM"
  end.
#[export] Instance eq_dec : EqDecision EventActionOrigin.
Proof. solve_decision. Defined.
End EventActionOrigin.
Abbreviation EventActionOrigin := EventActionOrigin.EventActionOrigin.
#[export] Existing Instance EventActionOrigin.eq_dec.

(** Business facts of the append-only register. *)
Module TransactionEventType.
Inductive TransactionEventType :=
  | TRANSFER_INITIATED | TRANSFER_COMPLETED | TRANSFER_FAILED |
  PAYMENT_INITIATED | PROVIDER_CONFIRMED | PROVIDER_FAILED |
  AMOUNT_MISMATCH_DETECTED | BANK_PROCESSING_BLOCKED |
  BANK_PROCESSING_COMPLETED | BANK_PROCESSING_FAILED |
  RECONCILIATION_MATCHED | RECONCILIATION_MISMATCH | CASE_OPENED |
  CASE_RESOLVED | CASE_CLOSED | REFUND_REQUESTED | REFUND_REOPENED |
  REFUND_COMPLETED | REFUND_FAILED | SETTLEMENT_SWEPT.
Definition show (v : TransactionEventType) : string :=
  match v with
  | TRANSFER_INITIATED => "TRANSFER_INITIATED"
  | TRANSFER_COMPLETED => "TRANSFER_COMPLETED"
  | TRANSFER_FAILED => "TRANSFER_FAILED"
  | PAYMENT_INITIATED => "PAYMENT_INITIATED"
  | PROVIDER_CONFIRMED => "PROVIDER_CONFIRMED"
  | PROVIDER_FAILED => "PROVIDER_FAILED"
  | AMOUNT_MISMATCH_DETECTED => "AMOUNT_MISMATCH_DETECTED"
  | BANK_PROCESSING_BLOCKED => "BANK_PROCESSING_BLOCKED"
  | BANK_PROCESSING_COMPLETED => "BANK_PROCESSING_COMPLETED"
  | BANK_PROCESSING_FAILED => "BANK_PROCESSING_FAILED"
  | RECONCILIATION_MATCHED => "RECONCILIATION_MATCHED"
  | RECONCILIATION_MISMATCH => "RECONCILIATION_MISMATCH"
  | CASE_OPENED => "CASE_OPENED"
  | CASE_RESOLVED => "CASE_RESOLVED"
  | CASE_CLOSED => "CASE_CLOSED"
  | REFUND_REQUESTED => "REFUND_REQUESTED"
  | REFUND_REOPENED => "REFUND_REOPENED"
  | REFUND_COMPLETED => "REFUND_COMPLETED"
  | REFUND_FAILED => "REFUND_FAILED"
  | SETTLEMENT_SWEPT => "SETTLEMENT_SWEPT"
  end.
#[export] Instance eq_dec : EqDecision TransactionEventType.
Proof. solve_decision. Defined.
End TransactionEventType.
Abbreviation TransactionEventType := TransactionEventType.TransactionEventType.
#[export] Existing Instance TransactionEventType.eq_dec.

(** Chart of accounts. *)
Module LedgerAccount.
Inductive LedgerAccount :=
  | PROVIDER_FLOAT | SETTLEMENT | CREDITOR_PAYABLE | PAYER_PAYABLE |
  FEE_REVENUE.
Definition show (v : LedgerAccount) : string :=
  match v with
  | PROVIDER_FLOAT => "PROVIDER_FLOAT"
  | SETTLEMENT => "SETTLEMENT"
  | CREDITOR_PAYABLE => "CREDITOR_PAYABLE"
  | PAYER_PAYABLE => "PAYER_PAYABLE"
  | FEE_REVENUE => "FEE_REVENUE"
  end.
#[export] Instance eq_dec : EqDecision LedgerAccount.
Proof. solve_decision. Defined.
End LedgerAccount.
Abbreviation LedgerAccount := LedgerAccount.LedgerAccount.
#[export] Existing Instance LedgerAccount.eq_dec.

(** Nature of an account. *)
Module AccountKind.
Inductive AccountKind :=
  | ASSET | LIABILITY | REVENUE.
Definition show (v : AccountKind) : string :=
  match v with
  | ASSET => "ASSET"
  | LIABILITY => "LIABILITY"
  | REVENUE => "REVENUE"
  end.
#[export] Instance eq_dec : EqDecision AccountKind.
Proof. solve_decision. Defined.
End AccountKind.
Abbreviation AccountKind := AccountKind.AccountKind.
#[export] Existing Instance AccountKind.eq_dec.

(** Side of an accounting line. *)
Module EntryDirection.
Inductive EntryDirection :=
  | DEBIT | CREDIT.
Definition show (v : EntryDirection) : string :=
  match v with
  | DEBIT => "DEBIT"
  | CREDIT => "CREDIT"
  end.
#[export] Instance eq_dec : EqDecision EntryDirection.
Proof. solve_decision. Defined.
End EntryDirection.
Abbreviation EntryDirection := EntryDirection.EntryDirection.
#[export] Existing Instance EntryDirection.eq_dec.

(** Status a notification of the aggregator carries. *)
Module MobileMoneyWebhookStatus.
Inductive MobileMoneyWebhookStatus :=
  | CONFIRMED | FAILED.
Definition show (v : MobileMoneyWebhookStatus) : string :=
  match v with
  | CONFIRMED => ProviderStatus.show ProviderStatus.CONFIRMED
  | FAILED => ProviderStatus.show ProviderStatus.FAILED
  end.
#[export] Instance eq_dec : EqDecision MobileMoneyWebhookStatus.
Proof. solve_decision. Defined.
End MobileMoneyWebhookStatus.
Abbreviation MobileMoneyWebhookStatus := MobileMoneyWebhookStatus.MobileMoneyWebhookStatus.
#[export] Existing Instance MobileMoneyWebhookStatus.eq_dec.

(** * Entities *)

(** A row of [transactions]: a transfer or a Mobile Money payment. *)
Record Transaction := mkTransaction {
  tx_id : string;
  tx_reference : string;
  tx_idempotencyKey : option string;
  tx_status : TransactionStatus;
  tx_paymentChannel : PaymentChannel;
  tx_debtorIban : string;
  tx_debtorName : option string;
  tx_creditorIban : string;
  tx_creditorName : string;
  tx_amount : Z;
  tx_currency : string;
  tx_endToEndLabel : option string;
  tx_amountInWords : option string;
  tx_soapOperation : option string;
  tx_soapDurationMs : option Z;
  tx_soapAttempts : option Z;
  tx_faultCode : option string;
  tx_faultString : option string;
  tx_failureReason : option string;
  tx_correlationId : string;
  tx_processedAt : option Z;
  tx_mobileMoneyOperator : option MobileMoneyOperator;
  tx_payerMsisdn : option string;
  tx_aggregatorReference : option string;
  tx_providerStatus : option ProviderStatus;
  tx_bankStatus : option BankProcessingStatus;
  tx_reconciliationStatus : option ReconciliationStatus;
  tx_aggregatorAmount : option Z;
  tx_aggregatorCurrency : option string;
  tx_feeAmount : Z;
  tx_mobileMoneyConfirmedAt : option Z;
  tx_reconciledAt : option Z;
  tx_reconciliationReason : option string;
  tx_refundStatus : RefundStatus;
  tx_caseStatus : CaseStatus;
  tx_caseReason : option string;
  tx_createdAt : Z;
  tx_anchorStatus : AnchorStatus
}.
#[export] Instance eta_Transaction : Eta Transaction :=
  λ r, mkTransaction
    (tx_id r) (tx_reference r) (tx_idempotencyKey r) (tx_status r)
    (tx_paymentChannel r) (tx_debtorIban r) (tx_debtorName r) (tx_creditorIban
    r) (tx_creditorName r) (tx_amount r) (tx_currency r) (tx_endToEndLabel r)
    (tx_amountInWords r) (tx_soapOperation r) (tx_soapDurationMs r)
    (tx_soapAttempts r) (tx_faultCode r) (tx_faultString r) (tx_failureReason
    r) (tx_correlationId r) (tx_processedAt r) (tx_mobileMoneyOperator r)
    (tx_payerMsisdn r) (tx_aggregatorReference r) (tx_providerStatus r)
    (tx_bankStatus r) (tx_reconciliationStatus r) (tx_aggregatorAmount r)
    (tx_aggregatorCurrency r) (tx_feeAmount r) (tx_mobileMoneyConfirmedAt r)
    (tx_reconciledAt r) (tx_reconciliationReason r) (tx_refundStatus r)
    (tx_caseStatus r) (tx_caseReason r) (tx_createdAt r) (tx_anchorStatus r).

(** What the canonical document of a fact is built from. *)
Record SerializableEvent := mkSerializableEvent {
  se_id : string;
  se_eventType : TransactionEventType;
  se_sequence : Z;
  se_transactionReference : string;
  se_providerReference : option string;
  se_bankReference : option string;
  se_providerStatus : option ProviderStatus;
  se_bankStatus : option BankProcessingStatus;
  se_reconciliationStatus : option ReconciliationStatus;
  se_refundStatus : option RefundStatus;
  se_caseStatus : option CaseStatus;
  se_expectedAmount : Z;
  se_observedAmount : option Z;
  se_currency : string;
  se_observedCurrency : option string;
  se_occurredAt : Z;
  se_correlationId : string;
  se_detail : option string;
  se_actorId : option string;
  se_actorRole : option EventActorRole;
  se_actionOrigin : option EventActionOrigin;
  se_previousFingerprint : option string;
  se_closureEventCount : option Z;
  se_closureChainHead : option string;
  se_debtorIban : option string;
  se_debtorName : option string;
  se_creditorIban : option string;
  se_creditorName : option string;
  se_endToEndLabel : option string;
  se_recordFormatVersion : option string
}.
#[export] Instance eta_SerializableEvent : Eta SerializableEvent :=
  λ r, mkSerializableEvent
    (se_id r) (se_eventType r) (se_sequence r) (se_transactionReference r)
    (se_providerReference r) (se_bankReference r) (se_providerStatus r)
    (se_bankStatus r) (se_reconciliationStatus r) (se_refundStatus r)
    (se_caseStatus r) (se_expectedAmount r) (se_observedAmount r) (se_currency
    r) (se_observedCurrency r) (se_occurredAt r) (se_correlationId r)
    (se_detail r) (se_actorId r) (se_actorRole r) (se_actionOrigin r)
    (se_previousFingerprint r) (se_closureEventCount r) (se_closureChainHead
    r) (se_debtorIban r) (se_debtorName r) (se_creditorIban r)
    (se_creditorName r) (se_endToEndLabel r) (se_recordFormatVersion r).

(** A row of [transaction_events]: the fact [ev_data], its seal and its anchoring columns. *)
Record TransactionEvent := mkTransactionEvent {
  ev_data : SerializableEvent;
  ev_fingerprint : string;
  ev_fingerprintSalt : string;
  ev_anchorStatus : AnchorStatus;
  ev_batchId : option string;
  ev_leafIndex : option Z;
  ev_merkleProof : option (list string);
  ev_createdAt : Z
}.
#[export] Instance eta_TransactionEvent : Eta TransactionEvent :=
  λ r, mkTransactionEvent
    (ev_data r) (ev_fingerprint r) (ev_fingerprintSalt r) (ev_anchorStatus r)
    (ev_batchId r) (ev_leafIndex r) (ev_merkleProof r) (ev_createdAt r).

(** An elementary movement: an account, a side, a positive amount. *)
Record PostingLine := mkPostingLine {
  pl_account : LedgerAccount;
  pl_direction : EntryDirection;
  pl_amount : Z
}.
#[export] Instance eta_PostingLine : Eta PostingLine :=
  λ r, mkPostingLine
    (pl_account r) (pl_direction r) (pl_amount r).

(** A row of [journal_entries] with its [journal_lines]. *)
Record JournalEntry := mkJournalEntry {
  je_id : string;
  je_transactionReference : string;
  je_eventId : string;
  je_eventType : TransactionEventType;
  je_narration : string;
  je_currency : string;
  je_lines : list PostingLine;
  je_correlationId : string;
  je_occurredAt : Z
}.
#[export] Instance eta_JournalEntry : Eta JournalEntry :=
  λ r, mkJournalEntry
    (je_id r) (je_transactionReference r) (je_eventId r) (je_eventType r)
    (je_narration r) (je_currency r) (je_lines r) (je_correlationId r)
    (je_occurredAt r).

(** A row of [refunds]: the refund case of one transaction. *)
Record Refund := mkRefund {
  rf_transactionReference : string;
  rf_status : RefundStatus;
  rf_amount : Z;
  rf_currency : string;
  rf_reason : option string;
  rf_providerIdempotencyKey : string;
  rf_providerRefundReference : option string;
  rf_attempts : Z;
  rf_lastError : option string;
  rf_retryable : bool;
  rf_requestedAt : option Z;
  rf_completedAt : option Z;
  rf_createdBy : option string;
  rf_lastRequestedBy : option string;
  rf_lastApprovedBy : option string;
  rf_correlationId : string;
  rf_updatedAt : Z
}.
#[export] Instance eta_Refund : Eta Refund :=
  λ r, mkRefund
    (rf_transactionReference r) (rf_status r) (rf_amount r) (rf_currency r)
    (rf_reason r) (rf_providerIdempotencyKey r) (rf_providerRefundReference r)
    (rf_attempts r) (rf_lastError r) (rf_retryable r) (rf_requestedAt r)
    (rf_completedAt r) (rf_createdBy r) (rf_lastRequestedBy r)
    (rf_lastApprovedBy r) (rf_correlationId r) (rf_updatedAt r).

(** A row of [bank_instructions]: a queued bank instruction. *)
Record BankInstruction := mkBankInstruction {
  bi_transactionReference : string;
  bi_status : BankInstructionStatus;
  bi_attempts : Z;
  bi_nextAttemptAt : Z;
  bi_lastError : option string;
  bi_retryable : bool;
  bi_correlationId : string;
  bi_updatedAt : Z
}.
#[export] Instance eta_BankInstruction : Eta BankInstruction :=
  λ r, mkBankInstruction
    (bi_transactionReference r) (bi_status r) (bi_attempts r)
    (bi_nextAttemptAt r) (bi_lastError r) (bi_retryable r) (bi_correlationId
    r) (bi_updatedAt r).

(** The notification of the aggregator, after validation. *)
Record MobileMoneyWebhookDto := mkMobileMoneyWebhookDto {
  dto_eventId : string;
  dto_aggregatorReference : string;
  dto_status : MobileMoneyWebhookStatus;
  dto_amount : Z;
  dto_currency : string;
  dto_occurredAt : string;
  dto_failureReason : option string
}.
#[export] Instance eta_MobileMoneyWebhookDto : Eta MobileMoneyWebhookDto :=
  λ r, mkMobileMoneyWebhookDto
    (dto_eventId r) (dto_aggregatorReference r) (dto_status r) (dto_amount r)
    (dto_currency r) (dto_occurredAt r) (dto_failureReason r).

(** A row of [mobile_money_webhook_events]. *)
Record MobileMoneyWebhookEvent := mkMobileMoneyWebhookEvent {
  wh_eventId : string;
  wh_aggregatorReference : string;
  wh_processingStatus : WebhookProcessingStatus;
  wh_payload : MobileMoneyWebhookDto;
  wh_failureReason : option string;
  wh_processedAt : option Z;
  wh_updatedAt : Z
}.
#[export] Instance eta_MobileMoneyWebhookEvent : Eta MobileMoneyWebhookEvent :=
  λ r, mkMobileMoneyWebhookEvent
    (wh_eventId r) (wh_aggregatorReference r) (wh_processingStatus r)
    (wh_payload r) (wh_failureReason r) (wh_processedAt r) (wh_updatedAt r).

(** A row of [anchor_batches]. *)
Record AnchorBatch := mkAnchorBatch {
  ab_id : string;
  ab_status : BatchStatus;
  ab_merkleRoot : string;
  ab_leafCount : Z;
  ab_chainId : option string;
  ab_contractAddress : option string;
  ab_txHash : option string;
  ab_blockNumber : option string;
  ab_gasUsed : option string;
  ab_anchoredAt : option Z;
  ab_attempts : Z;
  ab_lastError : option string;
  ab_createdAt : Z
}.
#[export] Instance eta_AnchorBatch : Eta AnchorBatch :=
  λ r, mkAnchorBatch
    (ab_id r) (ab_status r) (ab_merkleRoot r) (ab_leafCount r) (ab_chainId r)
    (ab_contractAddress r) (ab_txHash r) (ab_blockNumber r) (ab_gasUsed r)
    (ab_anchoredAt r) (ab_attempts r) (ab_lastError r) (ab_createdAt r).

(** * Errors

    The exceptions the services throw or receive.  A [QueryFailedError] carries
    the SQLSTATE and the constraint PostgreSQL reports. *)
Inductive GatewayError :=
  | HttpException (status : Z) (error : string)
  | IllegalTransitionException (reference : string) (violations : list string)
  | QueryFailedError (code : string) (constraint : string)
  | EntityNotFoundError (entity : string)
  | XsdValidationException (schemaName : string) (violations : list string)
  | SoapFaultException (operation faultCode faultString : string)
  | SoapCommunicationException (operation message : string) (attempts : Z) (timedOut : bool)
  | SoapParsingException (operation message : string)
  | ProviderRefundRejectedException (reason : string)
  | ProviderRefundUnavailableException (reason : string)
  | PlainError (message : string).

Definition PG_UNIQUE_VIOLATION : string := "23505".
Definition PG_CHECK_VIOLATION : string := "23514".
Definition PG_FOREIGN_KEY_VIOLATION : string := "23503".
Definition PG_RESTRICT_VIOLATION : string := "23001".
Definition PG_STRING_TRUNCATION : string := "22001".
Definition PG_INVALID_LIMIT : string := "2201W".
