(* ===== verification/StateMachine.v ===== *)
(** The transaction state machine: [src/transactions/state/].

    [TransactionState] is the projection of a transaction on its status
    dimensions, [TRANSITIONS] the table of allowed moves of each dimension,
    [INVARIANTS] the rules that cross dimensions, and [assertTransition] the
    check every service makes inside its SQL transaction.  The last section
    holds the [CHECK] constraints of the [transactions] table, which the entity
    declares as the database's copy of the invariants, in the three-valued logic
    of SQL. *)
From S2P Require Import Prelude Domain.
Open Scope Z_scope.

(** * States *)

Record TransactionState := mkTransactionState {
  st_status : TransactionStatus;
  st_providerStatus : option ProviderStatus;
  st_bankStatus : option BankProcessingStatus;
  st_reconciliationStatus : option ReconciliationStatus;
  st_refundStatus : option RefundStatus;
  st_caseStatus : option CaseStatus;
  st_paymentChannel : PaymentChannel
}.

#[export] Instance eta_TransactionState : Eta TransactionState :=
  λ r, mkTransactionState (st_status r) (st_providerStatus r) (st_bankStatus r)
    (st_reconciliationStatus r) (st_refundStatus r) (st_caseStatus r) (st_paymentChannel r).

#[export] Instance TransactionState_eq_dec : EqDecision TransactionState.
Proof. solve_decision. Defined.

Definition stateOf (transaction : Transaction) : TransactionState := {|
  st_status := tx_status transaction;
  st_providerStatus := tx_providerStatus transaction;
  st_bankStatus := tx_bankStatus transaction;
  st_reconciliationStatus := tx_reconciliationStatus transaction;
  st_refundStatus := Some (tx_refundStatus transaction);
  st_caseStatus := Some (tx_caseStatus transaction);
  st_paymentChannel := tx_paymentChannel transaction
|}.

(** * Transition tables

    [TRANSITIONS.<dimension>]: the values reachable from a value.  A value the
    source table does not list maps to the empty list ([?? []]). *)
Module TRANSITIONS.
Definition status (from : TransactionStatus) : list TransactionStatus :=
  match from with
  | TransactionStatus.PENDING =>
      [TransactionStatus.PROCESSING; TransactionStatus.COMPLETED; TransactionStatus.FAILED]
  | TransactionStatus.PROCESSING => [TransactionStatus.COMPLETED; TransactionStatus.FAILED]
  | TransactionStatus.COMPLETED | TransactionStatus.FAILED => []
  end.

Definition providerStatus (from : ProviderStatus) : list ProviderStatus :=
  match from with
  | ProviderStatus.INITIATED =>
      [ProviderStatus.PENDING; ProviderStatus.CONFIRMED; ProviderStatus.FAILED]
  | ProviderStatus.PENDING => [ProviderStatus.CONFIRMED; ProviderStatus.FAILED]
  | ProviderStatus.CONFIRMED | ProviderStatus.FAILED => []
  end.

Definition bankStatus (from : BankProcessingStatus) : list BankProcessingStatus :=
  match from with
  | BankProcessingStatus.NOT_STARTED =>
      [BankProcessingStatus.PROCESSING; BankProcessingStatus.BLOCKED]
  | BankProcessingStatus.PROCESSING =>
      [BankProcessingStatus.COMPLETED; BankProcessingStatus.FAILED]
  | BankProcessingStatus.COMPLETED | BankProcessingStatus.FAILED
  | BankProcessingStatus.BLOCKED => []
  end.

Definition reconciliationStatus (from : ReconciliationStatus) : list ReconciliationStatus :=
  match from with
  | ReconciliationStatus.PENDING =>
      [ReconciliationStatus.MATCHED; ReconciliationStatus.MISMATCH;
       ReconciliationStatus.AMOUNT_MISMATCH; ReconciliationStatus.CURRENCY_MISMATCH;
       ReconciliationStatus.NOT_APPLICABLE; ReconciliationStatus.MANUAL_REVIEW]
  | ReconciliationStatus.MANUAL_REVIEW =>
      [ReconciliationStatus.MATCHED; ReconciliationStatus.MISMATCH;
       ReconciliationStatus.PENDING]
  | ReconciliationStatus.MISMATCH => [ReconciliationStatus.MANUAL_REVIEW]
  | ReconciliationStatus.MATCHED | ReconciliationStatus.AMOUNT_MISMATCH
  | ReconciliationStatus.CURRENCY_MISMATCH | ReconciliationStatus.NOT_APPLICABLE => []
  end.

Definition refundStatus (from : RefundStatus) : list RefundStatus :=
  match from with
  | RefundStatus.NOT_REQUIRED => [RefundStatus.REQUIRED]
  | RefundStatus.REQUIRED =>
      [RefundStatus.REQUESTED; RefundStatus.COMPLETED; RefundStatus.FAILED]
  | RefundStatus.REQUESTED => [RefundStatus.COMPLETED; RefundStatus.FAILED]
  | RefundStatus.FAILED =>
      [RefundStatus.REQUESTED; RefundStatus.REQUIRED; RefundStatus.COMPLETED]
  | RefundStatus.COMPLETED => []
  end.

Definition caseStatus (from : CaseStatus) : list CaseStatus :=
  match from with
  | CaseStatus.NONE => [CaseStatus.MANUAL_REVIEW]
  | CaseStatus.MANUAL_REVIEW => [CaseStatus.RESOLVED]
  | CaseStatus.RESOLVED => []
  end.
End TRANSITIONS.

(** * Invariants *)

Record StateInvariant := mkStateInvariant {
  inv_name : string;
  inv_holds : TransactionState → bool;
  inv_because : string
}.

Definition REFUND_ENGAGED : list RefundStatus :=
  [RefundStatus.REQUIRED; RefundStatus.REQUESTED; RefundStatus.COMPLETED; RefundStatus.FAILED].

Definition bank_requires_provider_confirmation (state : TransactionState) : bool :=
  negb (is_eq (st_paymentChannel state) PaymentChannel.MOBILE_MONEY)
  || is_eq (st_bankStatus state) None
  || is_eq (st_bankStatus state) (Some BankProcessingStatus.NOT_STARTED)
  || is_eq (st_providerStatus state) (Some ProviderStatus.CONFIRMED).

Definition refund_requires_collection (state : TransactionState) : bool :=
  negb (is_eq (st_paymentChannel state) PaymentChannel.MOBILE_MONEY)
  || match st_refundStatus state with
     | None => true
     | Some refundStatus => negb (bool_decide (refundStatus ∈ REFUND_ENGAGED))
     end
  || is_eq (st_providerStatus state) (Some ProviderStatus.CONFIRMED).

Definition resolved_case_requires_extinct_debt (state : TransactionState) : bool :=
  negb (is_eq (st_caseStatus state) (Some CaseStatus.RESOLVED))
  || is_eq (st_refundStatus state) (Some RefundStatus.COMPLETED)
  || is_eq (st_refundStatus state) (Some RefundStatus.NOT_REQUIRED)
  || is_eq (st_refundStatus state) None.

Definition matched_requires_both_legs_done (state : TransactionState) : bool :=
  negb (is_eq (st_reconciliationStatus state) (Some ReconciliationStatus.MATCHED))
  || negb (is_eq (st_paymentChannel state) PaymentChannel.MOBILE_MONEY)
  || (is_eq (st_providerStatus state) (Some ProviderStatus.CONFIRMED)
      && is_eq (st_bankStatus state) (Some BankProcessingStatus.COMPLETED)).

Definition blocked_bank_implies_declared_gap (state : TransactionState) : bool :=
  negb (is_eq (st_bankStatus state) (Some BankProcessingStatus.BLOCKED))
  || is_eq (st_reconciliationStatus state) (Some ReconciliationStatus.AMOUNT_MISMATCH)
  || is_eq (st_reconciliationStatus state) (Some ReconciliationStatus.CURRENCY_MISMATCH).

Definition INVARIANTS : list StateInvariant := [
  mkStateInvariant "bank-requires-provider-confirmation" bank_requires_provider_confirmation
    ("la banque ne peut etre instruite que sur un encaissement fournisseur confirme : "
     +:+ "c est le garde-fou qui empeche un mouvement de fonds sans contrepartie");
  mkStateInvariant "refund-requires-collection" refund_requires_collection
    "on ne rembourse que ce qui a ete encaisse";
  mkStateInvariant "resolved-case-requires-extinct-debt" resolved_case_requires_extinct_debt
    ("un dossier ne peut etre resolu tant que la dette envers le payeur subsiste — "
     +:+ "or la resolution ouvre la cloture, donc l ancrage");
  mkStateInvariant "matched-requires-both-legs-done" matched_requires_both_legs_done
    "un rapprochement conforme suppose que les deux jambes ont abouti";
  mkStateInvariant "blocked-bank-implies-declared-gap" blocked_bank_implies_declared_gap
    "un blocage bancaire est toujours motive par un ecart constate et nomme"
].

(** * The machine *)

(** One turn of the loop of [illegalMoves]: the violation of one dimension. *)
Definition illegalMove `{EqDecision D} (dimension : string) (show : D → string)
    (table : D → list D) (from to : option D) : list string :=
  match from, to with
  | Some f, Some t =>
      if bool_decide (f = t) then []
      else
        let allowed := table f in
        if bool_decide (t ∈ allowed) then []
        else if Nat.eqb (length allowed) 0 then
          [dimension +:+ " : " +:+ show f +:+ " est terminal, passage vers " +:+ show t
             +:+ " refuse"]
        else
          [dimension +:+ " : " +:+ show f +:+ " -> " +:+ show t
             +:+ " hors des transitions admises (" +:+ String.concat ", " (show <$> allowed)
             +:+ ")"]
  | _, _ => []
  end.

Definition illegalMoves (before after : TransactionState) : list string :=
  illegalMove "status" TransactionStatus.show TRANSITIONS.status
    (Some (st_status before)) (Some (st_status after))
  ++ illegalMove "providerStatus" ProviderStatus.show TRANSITIONS.providerStatus
       (st_providerStatus before) (st_providerStatus after)
  ++ illegalMove "bankStatus" BankProcessingStatus.show TRANSITIONS.bankStatus
       (st_bankStatus before) (st_bankStatus after)
  ++ illegalMove "reconciliationStatus" ReconciliationStatus.show TRANSITIONS.reconciliationStatus
       (st_reconciliationStatus before) (st_reconciliationStatus after)
  ++ illegalMove "refundStatus" RefundStatus.show TRANSITIONS.refundStatus
       (st_refundStatus before) (st_refundStatus after)
  ++ illegalMove "caseStatus" CaseStatus.show TRANSITIONS.caseStatus
       (st_caseStatus before) (st_caseStatus after).

Definition brokenInvariants (state : TransactionState) : list string :=
  (λ invariant, inv_name invariant +:+ " : " +:+ inv_because invariant)
    <$> List.filter (λ invariant, negb (inv_holds invariant state)) INVARIANTS.

Definition assertTransition {S} (before after : TransactionState) (reference : string) :
    Eff S GatewayError unit :=
  let violations := illegalMoves before after ++ brokenInvariants after in
  if Nat.eqb (length violations) 0 then mret tt
  else throw (IllegalTransitionException reference violations).

Definition assertInitialState {S} (state : TransactionState) (reference : string) :
    Eff S GatewayError unit :=
  let violations := brokenInvariants state in
  if Nat.eqb (length violations) 0 then mret tt
  else throw (IllegalTransitionException reference violations).

(** * The [CHECK] constraints of the table

    An SQL condition is true, false or unknown ([None]); a [CHECK] rejects a row
    only when its condition is false. *)

Definition sql_or (a b : option bool) : option bool :=
  match a, b with
  | Some true, _ | _, Some true => Some true
  | Some false, Some false => Some false
  | _, _ => None
  end.

Definition sql_and (a b : option bool) : option bool :=
  match a, b with
  | Some false, _ | _, Some false => Some false
  | Some true, Some true => Some true
  | _, _ => None
  end.

Definition sql_eq `{EqDecision A} (column : option A) (value : A) : option bool :=
  (λ x, bool_decide (x = value)) <$> column.

Definition sql_ne `{EqDecision A} (column : option A) (value : A) : option bool :=
  negb <$> sql_eq column value.

Definition sql_in `{EqDecision A} (column : option A) (values : list A) : option bool :=
  (λ x, bool_decide (x ∈ values)) <$> column.

Definition sql_is_null {A} (column : option A) : option bool :=
  Some (match column with None => true | Some _ => false end).

Definition check_passes (condition : option bool) : bool :=
  match condition with Some false => false | _ => true end.

Definition CHK_bank_requires_provider (s : TransactionState) : option bool :=
  sql_or (sql_or (sql_or
    (sql_ne (Some (st_paymentChannel s)) PaymentChannel.MOBILE_MONEY)
    (sql_is_null (st_bankStatus s)))
    (sql_eq (st_bankStatus s) BankProcessingStatus.NOT_STARTED))
    (sql_eq (st_providerStatus s) ProviderStatus.CONFIRMED).

Definition CHK_refund_requires_collection (s : TransactionState) : option bool :=
  sql_or (sql_or (sql_or
    (sql_ne (Some (st_paymentChannel s)) PaymentChannel.MOBILE_MONEY)
    (sql_is_null (st_refundStatus s)))
    (sql_eq (st_refundStatus s) RefundStatus.NOT_REQUIRED))
    (sql_eq (st_providerStatus s) ProviderStatus.CONFIRMED).

Definition CHK_resolved_case_needs_extinct_debt (s : TransactionState) : option bool :=
  sql_or (sql_or
    (sql_ne (st_caseStatus s) CaseStatus.RESOLVED)
    (sql_is_null (st_refundStatus s)))
    (sql_in (st_refundStatus s) [RefundStatus.COMPLETED; RefundStatus.NOT_REQUIRED]).

Definition CHK_matched_needs_both_legs (s : TransactionState) : option bool :=
  sql_or (sql_or
    (sql_ne (st_reconciliationStatus s) ReconciliationStatus.MATCHED)
    (sql_ne (Some (st_paymentChannel s)) PaymentChannel.MOBILE_MONEY))
    (sql_and
      (sql_eq (st_providerStatus s) ProviderStatus.CONFIRMED)
      (sql_eq (st_bankStatus s) BankProcessingStatus.COMPLETED)).

Definition CHK_blocked_bank_needs_gap (s : TransactionState) : option bool :=
  sql_or
    (sql_ne (st_bankStatus s) BankProcessingStatus.BLOCKED)
    (sql_in (st_reconciliationStatus s)
       [ReconciliationStatus.AMOUNT_MISMATCH; ReconciliationStatus.CURRENCY_MISMATCH]).

Definition transaction_checks : list (string * (TransactionState → option bool)) := [
  ("CHK_transactions_bank_requires_provider", CHK_bank_requires_provider);
  ("CHK_transactions_refund_requires_collection", CHK_refund_requires_collection);
  ("CHK_transactions_resolved_case_needs_extinct_debt", CHK_resolved_case_needs_extinct_debt);
  ("CHK_transactions_matched_needs_both_legs", CHK_matched_needs_both_legs);
  ("CHK_transactions_blocked_bank_needs_gap", CHK_blocked_bank_needs_gap)
].

(** The first constraint a row violates. *)
Definition failed_check (s : TransactionState) : option string :=
  fst <$> List.find (λ c, negb (check_passes (c.2 s))) transaction_checks.

(** * Specification of the machine *)

(** A dimension may keep its value, appear, disappear, or follow its table. *)
Definition dimension_moves {D} (table : D → list D) (from to : option D) : Prop :=
  from = to ∨ from = None ∨ to = None ∨ ∃ f t, from = Some f ∧ to = Some t ∧ t ∈ table f.

Record legal_move (before after : TransactionState) : Prop := {
  move_status :
    dimension_moves TRANSITIONS.status (Some (st_status before)) (Some (st_status after));
  move_provider :
    dimension_moves TRANSITIONS.providerStatus (st_providerStatus before) (st_providerStatus after);
  move_bank : dimension_moves TRANSITIONS.bankStatus (st_bankStatus before) (st_bankStatus after);
  move_reconciliation :
    dimension_moves TRANSITIONS.reconciliationStatus
      (st_reconciliationStatus before) (st_reconciliationStatus after);
  move_refund :
    dimension_moves TRANSITIONS.refundStatus (st_refundStatus before) (st_refundStatus after);
  move_case : dimension_moves TRANSITIONS.caseStatus (st_caseStatus before) (st_caseStatus after)
}.

(** The five invariants as propositions on the business values. *)
Record consistent (s : TransactionState) : Prop := {
  consistent_bank :
    st_paymentChannel s = PaymentChannel.MOBILE_MONEY →
    st_bankStatus s ≠ None → st_bankStatus s ≠ Some BankProcessingStatus.NOT_STARTED →
    st_providerStatus s = Some ProviderStatus.CONFIRMED;
  consistent_refund :
    st_paymentChannel s = PaymentChannel.MOBILE_MONEY →
    st_refundStatus s ≠ None → st_refundStatus s ≠ Some RefundStatus.NOT_REQUIRED →
    st_providerStatus s = Some ProviderStatus.CONFIRMED;
  consistent_case :
    st_caseStatus s = Some CaseStatus.RESOLVED →
    st_refundStatus s = Some RefundStatus.COMPLETED ∨
    st_refundStatus s = Some RefundStatus.NOT_REQUIRED ∨ st_refundStatus s = None;
  consistent_matched :
    st_reconciliationStatus s = Some ReconciliationStatus.MATCHED →
    st_paymentChannel s = PaymentChannel.MOBILE_MONEY →
    st_providerStatus s = Some ProviderStatus.CONFIRMED ∧
    st_bankStatus s = Some BankProcessingStatus.COMPLETED;
  consistent_blocked :
    st_bankStatus s = Some BankProcessingStatus.BLOCKED →
    st_reconciliationStatus s = Some ReconciliationStatus.AMOUNT_MISMATCH ∨
    st_reconciliationStatus s = Some ReconciliationStatus.CURRENCY_MISMATCH
}.

(** The moves the machine lets through, and those that erase no dimension (the
    services never write [null] over a status). *)
Definition accepts (before after : TransactionState) : bool :=
  Nat.eqb (length (illegalMoves before after ++ brokenInvariants after)) 0.

Definition kept {D} (from to : option D) : Prop := from = None ∨ to ≠ None.

Definition keeps_dimensions (before after : TransactionState) : Prop :=
  kept (st_providerStatus before) (st_providerStatus after)
  ∧ kept (st_bankStatus before) (st_bankStatus after)
  ∧ kept (st_reconciliationStatus before) (st_reconciliationStatus after)
  ∧ kept (st_refundStatus before) (st_refundStatus after)
  ∧ kept (st_caseStatus before) (st_caseStatus after).

Definition machine_step (before after : TransactionState) : Prop :=
  accepts before after = true ∧ keeps_dimensions before after.

(** The life of a transaction: any number of accepted moves. *)
Inductive machine_run : TransactionState → TransactionState → Prop :=
  | run_refl s : machine_run s s
  | run_step s1 s2 s3 : machine_run s1 s2 → machine_step s2 s3 → machine_run s1 s3.

Definition terminal {D} (table : D → list D) (value : D) : Prop := table value = [].

(** Longest remaining path of the dimensions whose table has no cycle. *)
Definition rank_status (s : TransactionStatus) : nat :=
  match s with TransactionStatus.PENDING => 2 | TransactionStatus.PROCESSING => 1 | _ => 0 end.
Definition rank_provider (p : option ProviderStatus) : nat :=
  match p with
  | None => 3
  | Some ProviderStatus.INITIATED => 2 | Some ProviderStatus.PENDING => 1 | Some _ => 0
  end.
Definition rank_bank (b : option BankProcessingStatus) : nat :=
  match b with
  | None => 3
  | Some BankProcessingStatus.NOT_STARTED => 2 | Some BankProcessingStatus.PROCESSING => 1
  | Some _ => 0
  end.
Definition rank_case (c : option CaseStatus) : nat :=
  match c with
  | None => 3
  | Some CaseStatus.NONE => 2 | Some CaseStatus.MANUAL_REVIEW => 1
  | Some CaseStatus.RESOLVED => 0
  end.

(** * Lemmas *)

Lemma illegalMove_nil `{EqDecision D} dimension show (table : D → list D) from to :
  illegalMove dimension show table from to = [] ↔ dimension_moves table from to.
Proof.
  unfold illegalMove, dimension_moves. destruct from as [f|], to as [t|]; [|naive_solver..].
  case_bool_decide as Hft; [naive_solver|].
  case_bool_decide as Hin; [naive_solver|].
  split; [by case_match|naive_solver].
Qed.

Lemma illegalMoves_nil before after :
  illegalMoves before after = [] ↔ legal_move before after.
Proof.
  unfold illegalMoves. rewrite !app_nil, !illegalMove_nil.
  split; [intros (?&?&?&?&?&?); by constructor|by intros []].
Qed.

Lemma brokenInvariants_nil s :
  brokenInvariants s = [] ↔ Forall (λ i, inv_holds i s = true) INVARIANTS.
Proof.
  unfold brokenInvariants. induction INVARIANTS as [|i l IH]; simpl.
  - split; [by constructor|done].
  - rewrite Forall_cons_iff. destruct (inv_holds i s); simpl; [|split; [done|by intros [? _]]].
    etransitivity; [exact IH|]. split; [by split|by intros [_ ?]].
Qed.

(** Case analysis on every status of a state. *)
Ltac destruct_state s :=
  destruct s as [? [[]|] [[]|] [[]|] [[]|] [[]|] []].

Lemma bank_rule_spec s : bank_requires_provider_confirmation s = true ↔
  (st_paymentChannel s = PaymentChannel.MOBILE_MONEY →
   st_bankStatus s ≠ None → st_bankStatus s ≠ Some BankProcessingStatus.NOT_STARTED →
   st_providerStatus s = Some ProviderStatus.CONFIRMED).
Proof.
  unfold bank_requires_provider_confirmation.
  rewrite !orb_true_iff, negb_true_iff, bool_decide_eq_false, !bool_decide_eq_true.
  destruct (decide (st_paymentChannel s = PaymentChannel.MOBILE_MONEY)),
    (decide (st_bankStatus s = None)),
    (decide (st_bankStatus s = Some BankProcessingStatus.NOT_STARTED)); naive_solver.
Qed.

Lemma refund_rule_spec s : refund_requires_collection s = true ↔
  (st_paymentChannel s = PaymentChannel.MOBILE_MONEY →
   st_refundStatus s ≠ None → st_refundStatus s ≠ Some RefundStatus.NOT_REQUIRED →
   st_providerStatus s = Some ProviderStatus.CONFIRMED).
Proof.
  unfold refund_requires_collection.
  destruct (st_paymentChannel s), (st_refundStatus s) as [[]|],
    (st_providerStatus s) as [[]|]; vm_compute; naive_solver.
Qed.

Lemma case_rule_spec s : resolved_case_requires_extinct_debt s = true ↔
  (st_caseStatus s = Some CaseStatus.RESOLVED →
   st_refundStatus s = Some RefundStatus.COMPLETED ∨
   st_refundStatus s = Some RefundStatus.NOT_REQUIRED ∨ st_refundStatus s = None).
Proof.
  unfold resolved_case_requires_extinct_debt.
  destruct (st_caseStatus s) as [[]|], (st_refundStatus s) as [[]|];
    vm_compute; naive_solver.
Qed.

Lemma matched_rule_spec s : matched_requires_both_legs_done s = true ↔
  (st_reconciliationStatus s = Some ReconciliationStatus.MATCHED →
   st_paymentChannel s = PaymentChannel.MOBILE_MONEY →
   st_providerStatus s = Some ProviderStatus.CONFIRMED ∧
   st_bankStatus s = Some BankProcessingStatus.COMPLETED).
Proof.
  unfold matched_requires_both_legs_done.
  rewrite !orb_true_iff, andb_true_iff, !negb_true_iff, !bool_decide_eq_false,
    !bool_decide_eq_true.
  destruct (decide (st_paymentChannel s = PaymentChannel.MOBILE_MONEY)),
    (decide (st_reconciliationStatus s = Some ReconciliationStatus.MATCHED)); naive_solver.
Qed.

Lemma blocked_rule_spec s : blocked_bank_implies_declared_gap s = true ↔
  (st_bankStatus s = Some BankProcessingStatus.BLOCKED →
   st_reconciliationStatus s = Some ReconciliationStatus.AMOUNT_MISMATCH ∨
   st_reconciliationStatus s = Some ReconciliationStatus.CURRENCY_MISMATCH).
Proof.
  unfold blocked_bank_implies_declared_gap.
  rewrite !orb_true_iff, negb_true_iff, bool_decide_eq_false, !bool_decide_eq_true.
  destruct (decide (st_bankStatus s = Some BankProcessingStatus.BLOCKED)); naive_solver.
Qed.

Lemma invariants_consistent s :
  Forall (λ i, inv_holds i s = true) INVARIANTS ↔ consistent s.
Proof.
  unfold INVARIANTS. rewrite !Forall_cons_iff. simpl.
  rewrite bank_rule_spec, refund_rule_spec, case_rule_spec, matched_rule_spec, blocked_rule_spec.
  split; [intros (?&?&?&?&?&_); by constructor|intros []; repeat (split; [assumption|]); constructor].
Qed.

Lemma accepts_spec before after :
  accepts before after = true ↔ legal_move before after ∧ consistent after.
Proof.
  unfold accepts. rewrite Nat.eqb_eq, length_zero_iff_nil, app_nil.
  by rewrite illegalMoves_nil, brokenInvariants_nil, invariants_consistent.
Qed.

Lemma assertTransition_accepts {S} before after reference (w : S) :
  accepts before after = true → assertTransition before after reference w = (Return tt, w).
Proof. unfold accepts, assertTransition. by intros ->. Qed.

Lemma assertTransition_refuses {S} before after reference (w : S) :
  accepts before after = false →
  assertTransition before after reference w =
    (Throw (IllegalTransitionException reference
       (illegalMoves before after ++ brokenInvariants after)), w).
Proof. unfold accepts, assertTransition. by intros ->. Qed.

Lemma assertTransition_inv {S} before after reference (w w' : S) :
  assertTransition before after reference w = (Return tt, w') →
  accepts before after = true ∧ w' = w.
Proof.
  destruct (accepts before after) eqn:E.
  - rewrite assertTransition_accepts by done. naive_solver.
  - by rewrite assertTransition_refuses by done.
Qed.

Lemma assertTransition_respects {S} (R : S → S → Prop) `{!PreOrder R} before after reference :
  Respects R (assertTransition before after reference).
Proof. unfold assertTransition. respects. Qed.

Lemma assertInitialState_respects {S} (R : S → S → Prop) `{!PreOrder R} state reference :
  Respects R (assertInitialState state reference).
Proof. unfold assertInitialState. respects. Qed.

#[export] Hint Resolve assertTransition_respects assertInitialState_respects : effects.

Lemma machine_run_consistent s1 s2 :
  consistent s1 → machine_run s1 s2 → consistent s2.
Proof. intros Hs. induction 1 as [|s1 s2 s3 _ IH [Ha _]]; [done|]. by apply accepts_spec in Ha as [_ ?]. Qed.

(** A terminal value survives one step that erases nothing. *)
Lemma terminal_step {D} (table : D → list D) v to :
  terminal table v → dimension_moves table (Some v) to → kept (Some v) to → to = Some v.
Proof.
  unfold terminal, kept. intros Ht [<-|[?|[->|(f & t & [= <-] & -> & Hin)]]] Hk; [done|done| |].
  - naive_solver.
  - rewrite Ht in Hin. by apply not_elem_of_nil in Hin.
Qed.

Lemma rank_dimension {D} (table : D → list D) (rank : option D → nat) from to :
  (∀ f t, t ∈ table f → rank (Some t) < rank (Some f))%nat →
  (∀ t, rank (Some t) < rank None)%nat →
  dimension_moves table from to → kept from to →
  (rank to <= rank from)%nat ∧ (from ≠ to → rank to < rank from)%nat.
Proof.
  unfold kept. intros Htab Hnone [<-|[->|[->|(f & t & -> & -> & Hin)]]] Hk; [done| | |].
  - destruct to as [t|]; [|done]. specialize (Hnone t). split; [lia|done].
  - destruct from; naive_solver.
  - specialize (Htab f t Hin). split; [lia|done].
Qed.

Lemma rank_tables :
  (∀ f t, t ∈ TRANSITIONS.status f → rank_status t < rank_status f)%nat
  ∧ (∀ f t, t ∈ TRANSITIONS.providerStatus f → rank_provider (Some t) < rank_provider (Some f))%nat
  ∧ (∀ f t, t ∈ TRANSITIONS.bankStatus f → rank_bank (Some t) < rank_bank (Some f))%nat
  ∧ (∀ f t, t ∈ TRANSITIONS.caseStatus f → rank_case (Some t) < rank_case (Some f))%nat.
Proof.
  repeat split; intros [] []; rewrite list_elem_of_In; simpl; intros; try lia; naive_solver.
Qed.

(** The per-dimension facts of one step, in the form the theorems use. *)
Lemma step_terminal s1 s2 :
  machine_step s1 s2 →
  (∀ v, terminal TRANSITIONS.status v → st_status s1 = v → st_status s2 = v)
  ∧ (∀ v, terminal TRANSITIONS.providerStatus v →
          st_providerStatus s1 = Some v → st_providerStatus s2 = Some v)
  ∧ (∀ v, terminal TRANSITIONS.bankStatus v →
          st_bankStatus s1 = Some v → st_bankStatus s2 = Some v)
  ∧ (∀ v, terminal TRANSITIONS.reconciliationStatus v →
          st_reconciliationStatus s1 = Some v → st_reconciliationStatus s2 = Some v)
  ∧ (∀ v, terminal TRANSITIONS.refundStatus v →
          st_refundStatus s1 = Some v → st_refundStatus s2 = Some v)
  ∧ (∀ v, terminal TRANSITIONS.caseStatus v →
          st_caseStatus s1 = Some v → st_caseStatus s2 = Some v).
Proof.
  intros [[[] _]%accepts_spec (Hp & Hb & Hr & Hf & Hc)].
  split_and!; intros v Hv Hs;
    first [rewrite Hs in *; eapply terminal_step; eassumption
          |apply (inj Some); eapply terminal_step; [eassumption| |by right];
           rewrite <- Hs; assumption].
Qed.

(** Irreversibility: along every run of the machine that erases no status, a
    value its table does not list as a starting point (a collection observed, a
    bank leg completed, failed or blocked, a named gap, a refund completed, a
    case resolved, a final status) is never left. *)
Theorem terminal_values_are_final s1 s2 :
  machine_run s1 s2 →
  (∀ v, terminal TRANSITIONS.status v → st_status s1 = v → st_status s2 = v)
  ∧ (∀ v, terminal TRANSITIONS.providerStatus v →
          st_providerStatus s1 = Some v → st_providerStatus s2 = Some v)
  ∧ (∀ v, terminal TRANSITIONS.bankStatus v →
          st_bankStatus s1 = Some v → st_bankStatus s2 = Some v)
  ∧ (∀ v, terminal TRANSITIONS.reconciliationStatus v →
          st_reconciliationStatus s1 = Some v → st_reconciliationStatus s2 = Some v)
  ∧ (∀ v, terminal TRANSITIONS.refundStatus v →
          st_refundStatus s1 = Some v → st_refundStatus s2 = Some v)
  ∧ (∀ v, terminal TRANSITIONS.caseStatus v →
          st_caseStatus s1 = Some v → st_caseStatus s2 = Some v).
Proof.
  induction 1 as [|s1 s2 s3 _ IH Hstep]; [split_and!; auto|].
  apply step_terminal in Hstep. destruct IH as (?&?&?&?&?&?), Hstep as (?&?&?&?&?&?).
  split_and!; intros v Hv Hs; eauto.
Qed.

(** Progress: each accepted move that erases no status never lengthens the
    remaining path of the status, provider, bank and case dimensions, and
    shortens it strictly for every one of them that changes; a transaction
    therefore goes through at most two changes of each once it is set. *)
Theorem moves_make_progress s1 s2 :
  machine_step s1 s2 →
  (rank_status (st_status s2) <= rank_status (st_status s1)
   ∧ (st_status s1 ≠ st_status s2 → rank_status (st_status s2) < rank_status (st_status s1)))%nat
  ∧ (rank_provider (st_providerStatus s2) <= rank_provider (st_providerStatus s1)
     ∧ (st_providerStatus s1 ≠ st_providerStatus s2 →
        rank_provider (st_providerStatus s2) < rank_provider (st_providerStatus s1)))%nat
  ∧ (rank_bank (st_bankStatus s2) <= rank_bank (st_bankStatus s1)
     ∧ (st_bankStatus s1 ≠ st_bankStatus s2 →
        rank_bank (st_bankStatus s2) < rank_bank (st_bankStatus s1)))%nat
  ∧ (rank_case (st_caseStatus s2) <= rank_case (st_caseStatus s1)
     ∧ (st_caseStatus s1 ≠ st_caseStatus s2 →
        rank_case (st_caseStatus s2) < rank_case (st_caseStatus s1)))%nat.
Proof.
  intros [[[Hst Hpr Hba _ _ Hca] _]%accepts_spec (Hp & Hb & _ & _ & Hc)].
  destruct rank_tables as (Ts & Tp & Tb & Tc). split_and!.
  1, 2: destruct (rank_dimension TRANSITIONS.status (from_option rank_status 3%nat) _ _
          Ts (λ t, ltac:(destruct t; simpl; lia)) Hst) as [Hle Hlt];
    [by right|assumption || (intros Hne; apply Hlt; by intros [= ?])].
  1, 2: eapply (rank_dimension TRANSITIONS.providerStatus rank_provider); eauto;
    intros []; simpl; lia.
  1, 2: eapply (rank_dimension TRANSITIONS.bankStatus rank_bank); eauto; intros []; simpl; lia.
  all: eapply (rank_dimension TRANSITIONS.caseStatus rank_case); eauto; intros []; simpl; lia.
Qed.

(** C1. The machine decides its specification: [assertTransition] returns,
    leaving the state untouched, exactly when the five invariants hold of the
    resulting state and every dimension keeps its value, appears (from null),
    disappears (to null) or follows its table; in every other case it throws an
    [IllegalTransitionException] that carries the reference and at least one
    violation.  The tables alone bind a dimension that has a value before and
    after: an optional dimension may leave a terminal value through null. *)
Theorem assertTransition_correct {S} before after reference (w : S) :
  (assertTransition before after reference w = (Return tt, w) ↔
     legal_move before after ∧ consistent after)
  ∧ (¬ (legal_move before after ∧ consistent after) →
     ∃ violations, violations ≠ [] ∧
       assertTransition before after reference w =
         (Throw (IllegalTransitionException reference violations), w)).
Proof.
  rewrite <- accepts_spec. split.
  - split; [by intros [??]%assertTransition_inv|apply assertTransition_accepts].
  - rewrite not_true_iff_false. intros Ha.
    exists (illegalMoves before after ++ brokenInvariants after).
    split; [|by apply assertTransition_refuses].
    intros Hnil. unfold accepts in Ha. by rewrite Hnil in Ha.
Qed.

(** ** The constraints one by one *)

Lemma failed_check_None s :
  failed_check s = None ↔ Forall (λ c, check_passes (c.2 s) = true) transaction_checks.
Proof.
  unfold failed_check. induction transaction_checks as [|c l IH]; [by split; [constructor|]|].
  rewrite Forall_cons_iff. simpl. destruct (check_passes (c.2 s)); simpl.
  - etransitivity; [exact IH|]. naive_solver.
  - naive_solver.
Qed.

Lemma check_bank_weaker s :
  bank_requires_provider_confirmation s = true →
  check_passes (CHK_bank_requires_provider s) = true.
Proof.
  unfold bank_requires_provider_confirmation, CHK_bank_requires_provider.
  destruct (st_paymentChannel s), (st_bankStatus s) as [[]|], (st_providerStatus s) as [[]|];
    vm_compute; done.
Qed.

Lemma check_bank_strong s :
  st_providerStatus s ≠ None → check_passes (CHK_bank_requires_provider s) = true →
  bank_requires_provider_confirmation s = true.
Proof.
  unfold bank_requires_provider_confirmation, CHK_bank_requires_provider.
  destruct (st_paymentChannel s), (st_bankStatus s) as [[]|], (st_providerStatus s) as [[]|];
    vm_compute; done.
Qed.

Lemma check_refund_weaker s :
  refund_requires_collection s = true →
  check_passes (CHK_refund_requires_collection s) = true.
Proof.
  unfold refund_requires_collection, CHK_refund_requires_collection.
  destruct (st_paymentChannel s), (st_refundStatus s) as [[]|], (st_providerStatus s) as [[]|];
    vm_compute; done.
Qed.

Lemma check_refund_strong s :
  st_providerStatus s ≠ None → check_passes (CHK_refund_requires_collection s) = true →
  refund_requires_collection s = true.
Proof.
  unfold refund_requires_collection, CHK_refund_requires_collection.
  destruct (st_paymentChannel s), (st_refundStatus s) as [[]|], (st_providerStatus s) as [[]|];
    vm_compute; done.
Qed.

Lemma check_case_exact s :
  resolved_case_requires_extinct_debt s = true
  ↔ check_passes (CHK_resolved_case_needs_extinct_debt s) = true.
Proof.
  unfold resolved_case_requires_extinct_debt, CHK_resolved_case_needs_extinct_debt.
  destruct (st_caseStatus s) as [[]|], (st_refundStatus s) as [[]|]; vm_compute; done.
Qed.

Lemma check_matched_weaker s :
  matched_requires_both_legs_done s = true →
  check_passes (CHK_matched_needs_both_legs s) = true.
Proof.
  unfold matched_requires_both_legs_done, CHK_matched_needs_both_legs.
  destruct (st_paymentChannel s), (st_reconciliationStatus s) as [[]|],
    (st_providerStatus s) as [[]|], (st_bankStatus s) as [[]|]; vm_compute; done.
Qed.

Lemma check_matched_strong s :
  st_providerStatus s ≠ None → st_bankStatus s ≠ None →
  check_passes (CHK_matched_needs_both_legs s) = true →
  matched_requires_both_legs_done s = true.
Proof.
  unfold matched_requires_both_legs_done, CHK_matched_needs_both_legs.
  destruct (st_paymentChannel s), (st_reconciliationStatus s) as [[]|],
    (st_providerStatus s) as [[]|], (st_bankStatus s) as [[]|]; vm_compute; done.
Qed.

Lemma check_blocked_weaker s :
  blocked_bank_implies_declared_gap s = true →
  check_passes (CHK_blocked_bank_needs_gap s) = true.
Proof.
  unfold blocked_bank_implies_declared_gap, CHK_blocked_bank_needs_gap.
  destruct (st_bankStatus s) as [[]|], (st_reconciliationStatus s) as [[]|]; vm_compute; done.
Qed.

Lemma check_blocked_strong s :
  st_reconciliationStatus s ≠ None → check_passes (CHK_blocked_bank_needs_gap s) = true →
  blocked_bank_implies_declared_gap s = true.
Proof.
  unfold blocked_bank_implies_declared_gap, CHK_blocked_bank_needs_gap.
  destruct (st_bankStatus s) as [[]|], (st_reconciliationStatus s) as [[]|]; vm_compute; done.
Qed.

(** The channels the Mobile Money services create and update: no leg is null. *)
Definition legs_set (s : TransactionState) : Prop :=
  st_providerStatus s ≠ None ∧ st_bankStatus s ≠ None ∧ st_reconciliationStatus s ≠ None.

(** Database refinement: every state the machine accepts passes the five
    [CHECK] constraints of the table, and on rows whose three legs are set the
    constraints are as strong as the machine's invariants. *)
Theorem checks_refine_invariants s :
  (consistent s → failed_check s = None)
  ∧ (legs_set s → failed_check s = None → consistent s).
Proof.
  rewrite <- invariants_consistent, failed_check_None.
  unfold legs_set, INVARIANTS, transaction_checks. rewrite !Forall_cons_iff. simpl. split.
  - intros (?&?&?&?&?&_). split_and!; [apply check_bank_weaker|apply check_refund_weaker
      |apply check_case_exact|apply check_matched_weaker|apply check_blocked_weaker|]; done.
  - intros (Hp & Hb & Hr) (?&?&?&?&?&_). split_and!; [apply check_bank_strong
      |apply check_refund_strong|apply check_case_exact|apply check_matched_strong
      |apply check_blocked_strong|]; done.
Qed.

(** The [CHECK]s are weaker on null legs: SQL's unknown lets through rows the
    machine refuses, a bank leg in progress with no provider status and a blocked
    bank leg with no verdict. *)
Theorem checks_accept_unknown_legs :
  ∃ instructed blocked,
    st_bankStatus instructed = Some BankProcessingStatus.PROCESSING
    ∧ st_providerStatus instructed = None
    ∧ failed_check instructed = None ∧ ¬ consistent instructed
    ∧ st_bankStatus blocked = Some BankProcessingStatus.BLOCKED
    ∧ st_reconciliationStatus blocked = None
    ∧ failed_check blocked = None ∧ ¬ consistent blocked.
Proof.
  exists (mkTransactionState TransactionStatus.PROCESSING None
            (Some BankProcessingStatus.PROCESSING) (Some ReconciliationStatus.PENDING)
            (Some RefundStatus.NOT_REQUIRED) (Some CaseStatus.NONE) PaymentChannel.MOBILE_MONEY).
  exists (mkTransactionState TransactionStatus.FAILED (Some ProviderStatus.CONFIRMED)
            (Some BankProcessingStatus.BLOCKED) None
            (Some RefundStatus.REQUIRED) (Some CaseStatus.MANUAL_REVIEW)
            PaymentChannel.MOBILE_MONEY).
  split_and!; try reflexivity.
  - intros [Hb _ _ _ _]. by discriminate Hb.
  - intros [_ _ _ _ Hb]. destruct Hb; done.
Qed.

(** The machine itself lets a status be erased, so a terminal value can be
    left through [null]: an observed collection may disappear and become a
    failure in two accepted moves. *)
Theorem erased_status_escapes_terminality :
  ∃ s1 s2 s3,
    terminal TRANSITIONS.providerStatus ProviderStatus.CONFIRMED
    ∧ st_providerStatus s1 = Some ProviderStatus.CONFIRMED
    ∧ accepts s1 s2 = true ∧ accepts s2 s3 = true
    ∧ st_providerStatus s3 = Some ProviderStatus.FAILED.
Proof.
  set (s p := mkTransactionState TransactionStatus.PENDING p
                (Some BankProcessingStatus.NOT_STARTED) (Some ReconciliationStatus.PENDING)
                (Some RefundStatus.NOT_REQUIRED) (Some CaseStatus.NONE)
                PaymentChannel.MOBILE_MONEY).
  exists (s (Some ProviderStatus.CONFIRMED)), (s None), (s (Some ProviderStatus.FAILED)).
  split_and!; reflexivity.
Qed.

(** A payment awaiting its notification, then confirmed with its bank leg begun. *)
Lemma terminal_values_are_final_witness :
  ∃ s1 s2,
    machine_run s1 s2 ∧ st_providerStatus s1 = Some ProviderStatus.CONFIRMED
    ∧ st_providerStatus s2 = Some ProviderStatus.CONFIRMED.
Proof.
  pose (s b := mkTransactionState TransactionStatus.PROCESSING (Some ProviderStatus.CONFIRMED)
                (Some b) (Some ReconciliationStatus.PENDING)
                (Some RefundStatus.NOT_REQUIRED) (Some CaseStatus.NONE)
                PaymentChannel.MOBILE_MONEY).
  assert (Hrun : machine_run (s BankProcessingStatus.NOT_STARTED) (s BankProcessingStatus.PROCESSING)).
  { eapply run_step; [apply run_refl|]. split; [reflexivity|].
    by repeat split; right. }
  exists (s BankProcessingStatus.NOT_STARTED), (s BankProcessingStatus.PROCESSING).
  split; [exact Hrun|]. split; [reflexivity|].
  apply (terminal_values_are_final _ _ Hrun); reflexivity.
Defined.

Lemma moves_make_progress_witness :
  ∃ s1 s2,
    machine_step s1 s2 ∧ (rank_bank (st_bankStatus s2) < rank_bank (st_bankStatus s1))%nat.
Proof.
  pose (s b := mkTransactionState TransactionStatus.PROCESSING (Some ProviderStatus.CONFIRMED)
                (Some b) (Some ReconciliationStatus.PENDING)
                (Some RefundStatus.NOT_REQUIRED) (Some CaseStatus.NONE)
                PaymentChannel.MOBILE_MONEY).
  assert (Hstep : machine_step (s BankProcessingStatus.NOT_STARTED) (s BankProcessingStatus.PROCESSING)).
  { split; [reflexivity|]. by repeat split; right. }
  exists (s BankProcessingStatus.NOT_STARTED), (s BankProcessingStatus.PROCESSING).
  split; [exact Hstep|].
  destruct (moves_make_progress _ _ Hstep) as (_ & _ & [_ Hb] & _). apply Hb. discriminate.
Defined.
