(* ===== verification/Money.v ===== *)
(** Amounts and currencies: [src/mobile-money/amount.util.ts] and the small
    numeric helpers of the services.

    A monetary [number] of the source is validated to at most two decimals and
    stored as [numeric(18,2)], so the services of this development carry amounts
    as integers of cents.  The comparison helper is modelled on arbitrary finite
    numbers (exact rationals), since rounding is what it is about; [cents]
    embeds the former in the latter. *)
From Stdlib Require Export QArith Qround Lqa.
From S2P Require Import Prelude Text Domain.
Open Scope Z_scope.

(** * Numbers *)

(** A JavaScript number: finite, or one of [NaN], [Infinity], [-Infinity]. *)
Inductive JsNumber :=
  | Finite (q : Q)
  | NotFinite.

Definition cents (c : Z) : JsNumber := Finite (Qmake c 100).

(** [Math.round]: the nearest integer, ties towards [+Infinity]. *)
Definition math_round (q : Q) : Z := Qfloor (q + (1 # 2)).

(** * Comparison of amounts *)

Definition toMinorUnits (amount : option JsNumber) : option Z :=
  match amount with
  | None => None
  | Some (Finite parsed) => Some (math_round (parsed * 100))
  | Some NotFinite => None
  end.

Definition amountsMatch (left right : option JsNumber) : bool :=
  let a := toMinorUnits left in
  let b := toMinorUnits right in
  match a, b with
  | Some a, Some b => a =? b
  | _, _ => false
  end.

Definition currenciesMatch (left right : option string) : bool :=
  match left, right with
  | Some l, Some r =>
      if str_eqb l "" || str_eqb r "" then false
      else str_eqb (toUpperCase (trim l)) (toUpperCase (trim r))
  | _, _ => false
  end.

(** * Rounding and printing *)

(** [Math.round(value * 100) / 100] on an amount that is already in cents. *)
Definition round (value : Z) : Z := math_round ((value # 100) * 100).

Definition pad2 (n : Z) : string :=
  if n <? 10 then "0" +:+ pretty n else pretty n.

(** [amount.toFixed(2)]. *)
Definition toFixed2 (amount : Z) : string :=
  (if amount <? 0 then "-" else "")
  +:+ pretty (Z.abs amount / 100) +:+ "." +:+ pad2 (Z.abs amount mod 100).

(** * Lemmas *)

Lemma math_round_int z : math_round (inject_Z z) = z.
Proof.
  unfold math_round, Qfloor, inject_Z, Qplus. simpl.
  symmetry. apply (Z.div_unique _ _ z 1); lia.
Qed.

Lemma math_round_cents c : math_round ((c # 100) * 100) = c.
Proof.
  unfold math_round, Qfloor, Qplus, Qmult. simpl.
  symmetry. apply (Z.div_unique _ _ c 100); lia.
Qed.

Lemma round_id c : round c = c.
Proof. apply math_round_cents. Qed.

Lemma toMinorUnits_cents c : toMinorUnits (Some (cents c)) = Some c.
Proof. unfold toMinorUnits, cents. by rewrite math_round_cents. Qed.

Lemma amountsMatch_cents a b :
  amountsMatch (Some (cents a)) (Some (cents b)) = (a =? b).
Proof. unfold amountsMatch. by rewrite !toMinorUnits_cents. Qed.

Lemma amountsMatch_refl a : amountsMatch (Some (cents a)) (Some (cents a)) = true.
Proof. rewrite amountsMatch_cents. apply Z.eqb_refl. Qed.

(** [Math.round] moves a number by at most one half. *)
Lemma math_round_bounds q :
  (inject_Z (math_round q) - (1 # 2) <= q)%Q ∧ (q < inject_Z (math_round q) + (1 # 2))%Q.
Proof.
  unfold math_round.
  pose proof (Qfloor_le (q + (1 # 2))) as Hlow.
  pose proof (Qlt_floor (q + (1 # 2))) as Hhigh.
  rewrite inject_Z_plus in Hhigh. change (inject_Z 1) with 1%Q in Hhigh.
  split; lra.
Qed.

(** ** Printed amounts *)

Lemma pad2_inj m n : 0 <= m < 100 → 0 <= n < 100 → pad2 m = pad2 n → m = n.
Proof.
  intros Hm Hn Heq.
  assert (H := all_below_spec 100 (λ i, all_below 100 (λ j,
    negb (str_eqb (pad2 i) (pad2 j)) || (i =? j))) m ltac:(by vm_compute) Hm). cbv beta in H.
  apply (all_below_spec _ _ n) in H; [|done]. cbv beta in H.
  rewrite Heq, str_eqb_refl in H. by apply Z.eqb_eq.
Qed.

(** The unsigned part of [toFixed2]. *)
Definition fixed2_body (n : Z) : string := pretty (n / 100) +:+ "." +:+ pad2 (n mod 100).

Lemma fixed2_body_inj m n : 0 <= m → 0 <= n → fixed2_body m = fixed2_body n → m = n.
Proof.
  intros Hm Hn Heq. unfold fixed2_body in Heq.
  apply (cut_inj is_digit "."%char) in Heq as [Hq Hr];
    [|done|apply pretty_Z_digits, Z.div_pos; lia..].
  apply (inj pretty) in Hq. apply pad2_inj in Hr; [|by apply Z.mod_pos_bound..].
  rewrite (Z.div_mod m 100), (Z.div_mod n 100) by lia. congruence.
Qed.

Lemma fixed2_body_unsigned n s : 0 <= n → fixed2_body n ≠ String "-" s.
Proof.
  intros Hn. unfold fixed2_body. pose proof (pretty_Z_digits (n / 100)) as Hd.
  destruct (pretty (n / 100)) as [|c r]; [done|]. intros Heq. simpl in Heq. injection Heq as -> _.
  discriminate Hd. apply Z.div_pos; lia.
Qed.

(** [toFixed(2)] loses nothing on amounts of at most two decimals. *)
Lemma toFixed2_inj a b : toFixed2 a = toFixed2 b → a = b.
Proof.
  unfold toFixed2. fold (fixed2_body (Z.abs a)) (fixed2_body (Z.abs b)).
  destruct (a <? 0) eqn:Ha, (b <? 0) eqn:Hb; intros Heq;
    try apply Z.ltb_lt in Ha; try apply Z.ltb_ge in Ha;
    try apply Z.ltb_lt in Hb; try apply Z.ltb_ge in Hb.
  - injection Heq as Heq. apply fixed2_body_inj in Heq; lia.
  - symmetry in Heq. by apply fixed2_body_unsigned in Heq; [|lia].
  - by apply fixed2_body_unsigned in Heq; [|lia].
  - apply fixed2_body_inj in Heq; lia.
Qed.

(** The two sides of the guard-rail comparison agree with exact equality of
    cents, and never accept amounts a cent or more apart. *)

(** [amountsMatch] compares to the cent: on amounts of at most two decimals
    it is exact equality; on any two finite numbers an accepted pair differs by
    less than one cent; a missing or non-finite amount never matches. *)
Theorem amountsMatch_to_the_cent :
  (∀ a b, amountsMatch (Some (cents a)) (Some (cents b)) = true ↔ a = b)
  ∧ (∀ x y, amountsMatch (Some (Finite x)) (Some (Finite y)) = true →
       (- (1 # 100) < x - y)%Q ∧ (x - y < 1 # 100)%Q)
  ∧ (∀ x, amountsMatch None x = false ∧ amountsMatch x None = false
          ∧ amountsMatch (Some NotFinite) x = false ∧ amountsMatch x (Some NotFinite) = false).
Proof.
  split_and!.
  - intros a b. rewrite amountsMatch_cents. apply Z.eqb_eq.
  - intros x y. unfold amountsMatch. simpl. rewrite Z.eqb_eq. intros Heq.
    pose proof (math_round_bounds (x * 100)) as [Hx1 Hx2].
    pose proof (math_round_bounds (y * 100)) as [Hy1 Hy2].
    rewrite Heq in *. lra.
  - intros [[x|]|]; vm_compute; done.
Qed.
