(* ===== verification/External.v ===== *)
(** What the sources call and do not define, as type classes.

    [Hashing] is the part of [ethers] the seals use, [XsdEngine] is libxml2's
    validator, [Entropy] is the operating system's generator.  The classes only
    fix the shapes; the documented behaviour a theorem relies on is a separate
    class of laws ([HashingLaws], [EntropyLaws]), so that it appears among the
    theorem's hypotheses.  [Toy] instantiates all of them with concrete functions:
    the witnesses run on it. *)
From S2P Require Import Prelude.
Open Scope Z_scope.

(** * Interfaces *)

(** [keccak256], [concat], [toUtf8Bytes] and [zeroPadValue] of [ethers]. *)
Class Hashing := {
  keccak256 : string → string;
  concat : list string → string;
  toUtf8Bytes : string → string;
  zeroPadValue : string → nat → string
}.

(** [validateXML] of [xmllint-wasm]: the messages for a schema and a document. *)
Class XsdEngine := {
  validateXML : string → string → list string
}.

(** The [n]-th draw of the process: [randomBytes(length)] and [randomUUID()]. *)
Class Entropy := {
  randomBytes : nat → nat → list Z;
  randomUUID : nat → string
}.

(** * Hexadecimal *)

Definition hex_digit (n : Z) : Ascii.ascii :=
  Ascii.ascii_of_N (Z.to_N (if n <? 10 then 48 + n else 87 + n)).

(** [Buffer.toString('hex')]. *)
Fixpoint toHex (bytes : list Z) : string :=
  match bytes with
  | [] => EmptyString
  | b :: bytes => String (hex_digit (b / 16)) (String (hex_digit (b mod 16)) (toHex bytes))
  end.

Definition is_hex_char (c : Ascii.ascii) : bool :=
  let n := Ascii.N_of_ascii c in
  (N.leb 48 n && N.leb n 57) || (N.leb 97 n && N.leb n 102) || (N.leb 65 n && N.leb n 70).

(** [/^0x[0-9a-fA-F]{64}$/.test(s)] *)
Definition is_bytes32 (s : string) : bool :=
  match s with
  | String "0"%char (String "x"%char digits) =>
      Nat.eqb (String.length digits) 64 && all_chars is_hex_char digits
  | _ => false
  end.

(** [toLowerCase], on the ASCII range. *)
Definition to_lower (c : Ascii.ascii) : Ascii.ascii :=
  let n := Ascii.N_of_ascii c in
  if N.leb 65 n && N.leb n 90 then Ascii.ascii_of_N (n + 32) else c.

Fixpoint toLowerCase (s : string) : string :=
  match s with
  | EmptyString => EmptyString
  | String c s => String (to_lower c) (toLowerCase s)
  end.

(** * Documented behaviour *)

(** [ethers] returns digests as lower-case hexadecimal words of 32 bytes.  Its
    [BytesLike] arguments are hexadecimal strings, read without regard to case:
    [concat] of two words determines both, is 64 bytes long and so is no word, and
    [concat] of a salt and an encoded text determines the text. *)
Class HashingLaws `{Hashing} := {
  keccak256_bytes32 s : is_bytes32 (keccak256 s) = true;
  keccak256_lower s : toLowerCase (keccak256 s) = keccak256 s;
  concat_lower l : concat (toLowerCase <$> l) = concat l;
  concat_words_inj a b c d :
    is_bytes32 a = true → is_bytes32 b = true → is_bytes32 c = true → is_bytes32 d = true →
    toLowerCase (concat [a; b]) = toLowerCase (concat [c; d]) →
    toLowerCase a = toLowerCase c ∧ toLowerCase b = toLowerCase d;
  concat_no_word a b w :
    is_bytes32 a = true → is_bytes32 b = true → is_bytes32 w = true →
    toLowerCase (concat [a; b]) ≠ toLowerCase w;
  concat_text_inj salt x y :
    toLowerCase (concat [salt; toUtf8Bytes x]) = toLowerCase (concat [salt; toUtf8Bytes y]) →
    x = y
}.

(** [randomBytes(n)] is [n] bytes. *)
Class EntropyLaws `{Entropy} := {
  randomBytes_length n len : length (randomBytes n len) = len;
  randomBytes_range n len b : b ∈ randomBytes n len → 0 <= b < 256
}.

(** Two different byte strings with one digest: what a forger would have to
    exhibit. *)
Definition keccak_collision `{Hashing} : Prop :=
  ∃ a b, toLowerCase a ≠ toLowerCase b ∧ keccak256 a = keccak256 b.

(** * Concrete instances *)

Module Toy.
(** A polynomial checksum printed on 64 hexadecimal digits. *)
Fixpoint digest (s : string) (acc : Z) : Z :=
  match s with
  | EmptyString => acc
  | String c s => digest s ((acc * 257 + Z.of_N (Ascii.N_of_ascii c) + 1) mod 65521)
  end.

Fixpoint to_bytes (n : nat) (z : Z) : list Z :=
  match n with
  | O => []
  | S n => to_bytes n (z / 256) ++ [z mod 256]
  end.

(** The digits of a hexadecimal string, and the codes of a text. *)
Definition strip (s : string) : string :=
  match s with
  | String _ (String _ digits) => digits
  | s => s
  end.

Fixpoint byte_codes (s : string) : list Z :=
  match s with
  | EmptyString => []
  | String c s => Z.of_N (Ascii.N_of_ascii c) :: byte_codes s
  end.

#[export] Instance hashing : Hashing := {|
  keccak256 s := "0x" +:+ toHex (to_bytes 32 (digest s 7));
  concat l := toLowerCase ("0x" +:+ String.concat "" (strip <$> l));
  toUtf8Bytes s := "0x" +:+ toHex (byte_codes s);
  zeroPadValue data length :=
    "0x" +:+ String.concat "" (replicate (2 * length + 2 - String.length data) "0")
    +:+ strip data
|}.

#[export] Instance xsd : XsdEngine := {| validateXML _ _ := [] |}.

#[export] Instance entropy : Entropy := {|
  randomBytes n len := (λ i, (Z.of_nat n * 31 + Z.of_nat i * 7) mod 256) <$> seq 0 len;
  randomUUID n := "uuid-" +:+ pretty (Z.of_nat n)
|}.
End Toy.

(** * Lemmas *)

Lemma toHex_length bytes : String.length (toHex bytes) = (2 * length bytes)%nat.
Proof. induction bytes as [|b bytes IH]; simpl; [done|]. rewrite IH. lia. Qed.

Lemma hex_digit_ok n :
  0 <= n < 16 → is_hex_char (hex_digit n) = true ∧ to_lower (hex_digit n) = hex_digit n.
Proof.
  intros Hn. assert (Hin : In (Z.to_nat n) (seq 0 16)) by (apply in_seq; lia).
  replace n with (Z.of_nat (Z.to_nat n)) by lia. revert Hin. generalize (Z.to_nat n).
  intros m Hm. simpl in Hm.
  repeat (destruct Hm as [<-|Hm]; [vm_compute; done|]). done.
Qed.

Lemma toHex_digits bytes :
  (∀ b, b ∈ bytes → 0 <= b < 256) →
  all_chars is_hex_char (toHex bytes) = true ∧ toLowerCase (toHex bytes) = toHex bytes.
Proof.
  induction bytes as [|b bytes IH]; intros Hb; simpl; [done|].
  assert (Hr : 0 <= b < 256) by (apply Hb; left).
  destruct IH as [-> ->]; [intros b' ?; apply Hb; by right|].
  destruct (hex_digit_ok (b / 16)) as [-> ->];
    [split; [apply Z.div_pos|apply Z.div_lt_upper_bound]; lia|].
  destruct (hex_digit_ok (b mod 16)) as [-> ->]; [by apply Z.mod_pos_bound|done].
Qed.

Lemma is_bytes32_hex bytes :
  length bytes = 32%nat → (∀ b, b ∈ bytes → 0 <= b < 256) →
  is_bytes32 ("0x" +:+ toHex bytes) = true.
Proof.
  intros Hlen Hb. change (is_bytes32 ("0x" +:+ toHex bytes)) with
    (Nat.eqb (String.length (toHex bytes)) 64 && all_chars is_hex_char (toHex bytes)).
  rewrite toHex_length, Hlen. by destruct (toHex_digits bytes Hb) as [-> _].
Qed.

Lemma Toy_to_bytes_length n z : length (Toy.to_bytes n z) = n.
Proof. revert z. induction n as [|n IH]; intros z; simpl; [done|]. rewrite length_app, IH. simpl. lia. Qed.

Lemma Toy_to_bytes_range n z b : b ∈ Toy.to_bytes n z → 0 <= b < 256.
Proof.
  revert z. induction n as [|n IH]; intros z; simpl.
  - by intros ?%not_elem_of_nil.
  - rewrite elem_of_app, list_elem_of_singleton. intros [?| ->]; [by eapply IH|].
    by apply Z.mod_pos_bound.
Qed.

Lemma to_lower_idem c : to_lower (to_lower c) = to_lower c.
Proof. destruct c as [[] [] [] [] [] [] [] []]; reflexivity. Qed.

Lemma toLowerCase_idem s : toLowerCase (toLowerCase s) = toLowerCase s.
Proof. induction s as [|c s IH]; simpl; [done|]. by rewrite to_lower_idem, IH. Qed.

Lemma toLowerCase_app a b : toLowerCase (a +:+ b) = toLowerCase a +:+ toLowerCase b.
Proof. induction a as [|c a IH]; [done|]. exact (f_equal (String (to_lower c)) IH). Qed.

Lemma toLowerCase_length s : String.length (toLowerCase s) = String.length s.
Proof. induction s as [|c s IH]; simpl; [done|]. by rewrite IH. Qed.

Lemma append_length (a b : string) :
  String.length (a +:+ b) = (String.length a + String.length b)%nat.
Proof. induction a as [|c a IH]; [done|]. exact (f_equal S IH). Qed.

Lemma append_inj (a b c d : string) :
  String.length a = String.length c → a +:+ b = c +:+ d → a = c ∧ b = d.
Proof.
  revert c. induction a as [|x a IH]; intros [|y c] Hlen; try discriminate Hlen; [done|].
  simpl in Hlen. intros [= -> Happ]. destruct (IH c) as [-> ->]; [lia|exact Happ|done].
Qed.

Lemma is_bytes32_shape s :
  is_bytes32 s = true →
  ∃ digits, s = "0x" +:+ digits ∧ String.length digits = 64%nat ∧ all_chars is_hex_char digits = true.
Proof.
  destruct s as [|[[] [] [] [] [] [] [] []] s]; try discriminate.
  destruct s as [|[[] [] [] [] [] [] [] []] digits]; try discriminate.
  simpl. intros [?%Nat.eqb_eq ?]%andb_true_iff. by exists digits.
Qed.

Lemma is_bytes32_length s : is_bytes32 s = true → String.length s = 66%nat.
Proof. intros (d & -> & Hd & _)%is_bytes32_shape. rewrite append_length, Hd. done. Qed.

Lemma Toy_strip_lower s : Toy.strip (toLowerCase s) = toLowerCase (Toy.strip s).
Proof. by destruct s as [|? [|? ?]]. Qed.

Lemma toLowerCase_concat_empty l :
  toLowerCase (String.concat "" l) = String.concat "" (toLowerCase <$> l).
Proof.
  induction l as [|s [|t l] IH]; [done..|].
  change (String.concat "" (s :: t :: l)) with (s +:+ "" +:+ String.concat "" (t :: l)).
  rewrite !toLowerCase_app, IH. done.
Qed.

Lemma Toy_concat_two a b :
  toLowerCase (@concat Toy.hashing [a; b]) =
  "0x" +:+ (toLowerCase (Toy.strip a) +:+ toLowerCase (Toy.strip b)).
Proof.
  change (@concat Toy.hashing [a; b]) with
    (toLowerCase ("0x" +:+ (Toy.strip a +:+ "" +:+ Toy.strip b))).
  by rewrite toLowerCase_idem, !toLowerCase_app.
Qed.

Lemma hex_digit_inj m n :
  0 <= m < 16 → 0 <= n < 16 → hex_digit m = hex_digit n → m = n.
Proof.
  unfold hex_digit. intros Hm Hn Heq%(f_equal Ascii.N_of_ascii).
  rewrite !Ascii.N_ascii_embedding in Heq by (repeat case_match; lia).
  repeat case_match; lia.
Qed.

Lemma Toy_byte_codes_range s b : b ∈ Toy.byte_codes s → 0 <= b < 256.
Proof.
  induction s as [|c s IH]; simpl; [by intros ?%not_elem_of_nil|].
  intros [->|?]%elem_of_cons; [|by apply IH].
  pose proof (Ascii.N_ascii_bounded c). lia.
Qed.

Lemma toHex_inj l1 l2 :
  (∀ b, b ∈ l1 → 0 <= b < 256) → (∀ b, b ∈ l2 → 0 <= b < 256) →
  toHex l1 = toHex l2 → l1 = l2.
Proof.
  revert l2. induction l1 as [|a l1 IH]; intros [|b l2] H1 H2; simpl; try discriminate; [done|].
  intros [= Hhi Hlo Htl].
  assert (Ha : 0 <= a < 256) by (apply H1; left).
  assert (Hb : 0 <= b < 256) by (apply H2; left).
  pose proof (Z.mod_pos_bound a 16 eq_refl). pose proof (Z.mod_pos_bound b 16 eq_refl).
  apply hex_digit_inj in Hlo; [|lia..].
  apply hex_digit_inj in Hhi;
    [|split; [apply Z.div_pos|apply Z.div_lt_upper_bound]; lia..].
  rewrite (IH l2); [|intros ??; apply H1; by right|intros ??; apply H2; by right|done].
  f_equal. rewrite (Z.div_mod a 16), (Z.div_mod b 16) by lia. congruence.
Qed.

Lemma Toy_byte_codes_inj x y : Toy.byte_codes x = Toy.byte_codes y → x = y.
Proof.
  revert y. induction x as [|c x IH]; intros [|d y]; simpl; try discriminate; [done|].
  intros [= Hcd%N2Z.inj Hxy]. rewrite (IH y Hxy). f_equal.
  rewrite <- (Ascii.ascii_N_embedding c), <- (Ascii.ascii_N_embedding d). by rewrite Hcd.
Qed.

#[export] Instance Toy_hashing_laws : @HashingLaws Toy.hashing.
Proof.
  assert (Hk : ∀ s, @keccak256 Toy.hashing s = "0x" +:+ toHex (Toy.to_bytes 32 (Toy.digest s 7)))
    by reflexivity.
  split.
  - intros s. rewrite Hk. apply is_bytes32_hex; [apply Toy_to_bytes_length|apply Toy_to_bytes_range].
  - intros s. rewrite Hk, toLowerCase_app. f_equal. apply toHex_digits, Toy_to_bytes_range.
  - intros l. change (@concat Toy.hashing) with
      (λ l, toLowerCase ("0x" +:+ String.concat "" (Toy.strip <$> l))). cbv beta.
    rewrite !toLowerCase_app, !toLowerCase_concat_empty. f_equal. f_equal.
    rewrite <- !list_fmap_compose. apply list_fmap_ext. intros _ s _. simpl.
    by rewrite Toy_strip_lower, toLowerCase_idem.
  - intros a b c d (a' & -> & Ha & _)%is_bytes32_shape (b' & -> & Hb & _)%is_bytes32_shape
      (c' & -> & Hc & _)%is_bytes32_shape (d' & -> & Hd & _)%is_bytes32_shape.
    rewrite !Toy_concat_two. intros H. apply append_inj in H as [_ H]; [|done].
    destruct (append_inj (toLowerCase a') (toLowerCase b') (toLowerCase c') (toLowerCase d'))
      as [H1 H2]; [by rewrite !toLowerCase_length, Ha, Hc|exact H|].
    by rewrite !toLowerCase_app, H1, H2.
  - intros a b w (a' & -> & Ha & _)%is_bytes32_shape (b' & -> & Hb & _)%is_bytes32_shape Hw.
    rewrite Toy_concat_two. intros H%(f_equal String.length).
    rewrite toLowerCase_length, (is_bytes32_length w Hw), !append_length, !toLowerCase_length in H.
    change (Toy.strip ("0x" +:+ a')) with a' in H. change (Toy.strip ("0x" +:+ b')) with b' in H.
    rewrite Ha, Hb in H. discriminate H.
  - intros salt x y. rewrite !Toy_concat_two. intros H. apply append_inj in H as [_ H]; [|done].
    apply append_inj in H as [_ H]; [|done].
    change (Toy.strip (@toUtf8Bytes Toy.hashing x)) with (toHex (Toy.byte_codes x)) in H.
    change (Toy.strip (@toUtf8Bytes Toy.hashing y)) with (toHex (Toy.byte_codes y)) in H.
    destruct (toHex_digits _ (Toy_byte_codes_range x)) as [_ Hx].
    destruct (toHex_digits _ (Toy_byte_codes_range y)) as [_ Hy].
    rewrite Hx, Hy in H.
    apply Toy_byte_codes_inj, toHex_inj; [apply Toy_byte_codes_range..|exact H].
Qed.

#[export] Instance Toy_entropy_laws : @EntropyLaws Toy.entropy.
Proof.
  split; simpl; intros n len.
  - by rewrite length_fmap, length_seq.
  - intros b (i & -> & _)%list_elem_of_fmap. by apply Z.mod_pos_bound.
Qed.
