(* ===== verification/Fingerprint.v ===== *)
(** Seals: [src/blockchain/fingerprint.util.ts].

    A fact is sealed by the hash of its salt and canonical document; the Merkle
    leaf of a fact is the hash of its seal.  Ill-formed salts and seals throw. *)
From S2P Require Import Prelude Domain External.
Open Scope Z_scope.

Section Fingerprint.
Context `{Hashing}.

Definition SALT_BYTES : nat := 32.

(** [generateSalt()], from the bytes [randomBytes] returned. *)
Definition generateSalt (bytes : list Z) : string := "0x" +:+ toHex bytes.

Definition computeFingerprint {S} (salt canonicalXml : string) : Eff S GatewayError string :=
  if is_bytes32 salt then mret (keccak256 (concat [salt; toUtf8Bytes canonicalXml]))
  else throw (PlainError "Le sel doit etre un hexadecimal de 32 octets").

Definition toLeaf {S} (fingerprint : string) : Eff S GatewayError string :=
  if is_bytes32 fingerprint then mret (keccak256 fingerprint)
  else throw (PlainError "L'empreinte doit etre un hexadecimal de 32 octets").

(** [uuid.replace(/-/g, '')] *)
Fixpoint remove_dashes (uuid : string) : string :=
  match uuid with
  | EmptyString => EmptyString
  | String "-"%char uuid => remove_dashes uuid
  | String c uuid => String c (remove_dashes uuid)
  end.

Definition uuidToBytes32 {S} (uuid : string) : Eff S GatewayError string :=
  let hex := remove_dashes uuid in
  if Nat.eqb (String.length hex) 32 && all_chars is_hex_char hex
  then mret (zeroPadValue ("0x" +:+ hex) 32)
  else throw (PlainError ("Identifiant de lot invalide : " +:+ quote +:+ uuid +:+ quote)).

(** ** Lemmas *)

Lemma generateSalt_bytes32 {HE : Entropy} {HL : EntropyLaws} n :
  is_bytes32 (generateSalt (randomBytes n SALT_BYTES)) = true.
Proof. unfold generateSalt. apply is_bytes32_hex; [apply randomBytes_length|apply randomBytes_range]. Qed.

Lemma computeFingerprint_return {S} salt xml (w : S) :
  is_bytes32 salt = true →
  computeFingerprint salt xml w = (Return (keccak256 (concat [salt; toUtf8Bytes xml])), w).
Proof. unfold computeFingerprint. by intros ->. Qed.

Lemma computeFingerprint_inv {S} salt xml fp (w w' : S) :
  computeFingerprint salt xml w = (Return fp, w') →
  is_bytes32 salt = true ∧ fp = keccak256 (concat [salt; toUtf8Bytes xml]) ∧ w' = w.
Proof. unfold computeFingerprint. destruct (is_bytes32 salt); [by intros [= <- <-]|done]. Qed.

Lemma toLeaf_inv {S} fp leaf (w w' : S) :
  toLeaf fp w = (Return leaf, w') → is_bytes32 fp = true ∧ leaf = keccak256 fp ∧ w' = w.
Proof. unfold toLeaf. destruct (is_bytes32 fp); [by intros [= <- <-]|done]. Qed.

Lemma toLeaf_return {S} fp (w : S) :
  is_bytes32 fp = true → toLeaf fp w = (Return (keccak256 fp), w).
Proof. unfold toLeaf. by intros ->. Qed.

Lemma computeFingerprint_respects {S} (R : S → S → Prop) `{!PreOrder R} salt xml :
  Respects R (computeFingerprint salt xml).
Proof. unfold computeFingerprint. respects. Qed.

Lemma toLeaf_respects {S} (R : S → S → Prop) `{!PreOrder R} fp : Respects R (toLeaf fp).
Proof. unfold toLeaf. respects. Qed.

(** Two documents with one salt and one seal are equal, or exhibit a collision. *)
Lemma fingerprint_binding `{!HashingLaws} salt x y :
  keccak256 (concat [salt; toUtf8Bytes x]) = keccak256 (concat [salt; toUtf8Bytes y]) →
  x = y ∨ keccak_collision.
Proof.
  intros Heq.
  destruct (String.string_dec (toLowerCase (concat [salt; toUtf8Bytes x]))
              (toLowerCase (concat [salt; toUtf8Bytes y]))) as [Hc|Hc].
  - left. by eapply concat_text_inj.
  - right. by exists (concat [salt; toUtf8Bytes x]), (concat [salt; toUtf8Bytes y]).
Qed.
End Fingerprint.

#[export] Hint Resolve computeFingerprint_respects toLeaf_respects : effects.

(** A seal binds its document: two documents sealed with one salt under one
    fingerprint are the same document, unless two different byte strings with one
    digest are exhibited; and a seal is always a 32-byte word, so [toLeaf]
    accepts it. *)
Theorem computeFingerprint_binds `{HashingLaws} {S} salt x y fp (w : S) :
  computeFingerprint salt x w = (Return fp, w) →
  computeFingerprint salt y w = (Return fp, w) →
  (x = y ∨ keccak_collision) ∧ toLeaf fp w = (Return (keccak256 fp), w).
Proof.
  intros (_ & -> & _)%computeFingerprint_inv (_ & Hfp & _)%computeFingerprint_inv. split.
  - by eapply fingerprint_binding.
  - apply toLeaf_return, keccak256_bytes32.
Qed.

#[local] Existing Instances Toy.hashing Toy.entropy.

Lemma computeFingerprint_binds_witness :
  let salt := generateSalt (randomBytes 0 SALT_BYTES) in
  let fp := keccak256 (concat [salt; toUtf8Bytes "<fact/>"]) in
  ("<fact/>" = "<fact/>" ∨ keccak_collision) ∧ toLeaf fp tt = (Return (keccak256 fp), tt).
Proof.
  apply (computeFingerprint_binds (generateSalt (randomBytes 0 SALT_BYTES)));
    vm_compute; reflexivity.
Defined.
