(* ===== verification/Merkle.v ===== *)
(** Merkle trees: [src/blockchain/merkle.util.ts].

    Pairs are hashed in sorted order and the orphan of an odd level is promoted
    unchanged.  The tree of a batch is proved complete (every leaf has a proof
    that verifies) and sound (a seal that verifies against the root of a batch is
    one of its seals, unless a collision is exhibited): the second hash of
    [toLeaf] is what the soundness proof needs to tell a leaf from a node. *)
From S2P Require Import Prelude Domain External Fingerprint.
Open Scope Z_scope.

Record MerkleTree := mkMerkleTree {
  mt_root : string;
  mt_leaves : list string;
  mt_layers : list (list string)
}.

(** * Operations *)

Definition assertBytes32 {S} (value label : string) : Eff S GatewayError unit :=
  throw_unless (is_bytes32 value)
    (PlainError (label +:+ " doit etre un hexadecimal de 32 octets (recu: "
                 +:+ quote +:+ value +:+ quote +:+ ")")).

(** [leaves.forEach((leaf, index) => assertBytes32(leaf, ...))] *)
Fixpoint assert_leaves {S} (values : list string) (index : Z) : Eff S GatewayError unit :=
  match values with
  | [] => mret tt
  | leaf :: values =>
      assertBytes32 leaf ("La feuille " +:+ pretty index) ;;
      assert_leaves values (index + 1)
  end.

Section Merkle.
Context `{Hashing}.

Definition hashPair (a b : string) : string :=
  let '(left', right') :=
    if String.leb (toLowerCase a) (toLowerCase b) then (a, b) else (b, a) in
  keccak256 (concat [left'; right']).

(** The inner [for] loop: one level to the next. *)
Fixpoint next_layer (current : list string) : list string :=
  match current with
  | a :: b :: rest => hashPair a b :: next_layer rest
  | rest => rest
  end.

(** The outer [while] loop; each level is at least one shorter than the last, so
    the number of leaves bounds its turns ([build_layers_done]). *)
Fixpoint build_layers (fuel : nat) (current : list string) : list (list string) :=
  match fuel with
  | O => [current]
  | S fuel =>
      if Nat.ltb 1 (length current) then current :: build_layers fuel (next_layer current)
      else [current]
  end.

Definition buildMerkleTree {S} (leaves : list string) : Eff S GatewayError MerkleTree :=
  if Nat.eqb (length leaves) 0 then
    throw (PlainError "Impossible de construire un arbre de Merkle sans feuille")
  else
    assert_leaves leaves 0 ;;
    let layers := build_layers (length leaves) leaves in
    mret (mkMerkleTree (List.hd "" (List.last layers [])) leaves layers).

(** The loop of [getProof] over all levels but the last. *)
Fixpoint proof_path (layers : list (list string)) (index : Z) : list string :=
  match layers with
  | layer :: ((_ :: _) as rest) =>
      let siblingIndex := Z.lxor index 1 in
      (if siblingIndex <? Z.of_nat (length layer)
       then [List.nth (Z.to_nat siblingIndex) layer ""] else [])
      ++ proof_path rest (index / 2)
  | _ => []
  end.

Definition getProof {S} (tree : MerkleTree) (leafIndex : Z) :
    Eff S GatewayError (list string) :=
  if (leafIndex <? 0) || (leafIndex >=? Z.of_nat (length (mt_leaves tree))) then
    throw (PlainError ("Indice de feuille hors bornes : " +:+ pretty leafIndex
             +:+ " (l'arbre compte " +:+ pretty (Z.of_nat (length (mt_leaves tree)))
             +:+ " feuilles)"))
  else mret (proof_path (mt_layers tree) leafIndex).

(** The [reduce] of [processProof]. *)
Fixpoint process_siblings {S} (computed : string) (proof : list string) (index : Z) :
    Eff S GatewayError string :=
  match proof with
  | [] => mret computed
  | sibling :: proof =>
      assertBytes32 sibling ("L'element " +:+ pretty index +:+ " de la preuve") ;;
      process_siblings (hashPair computed sibling) proof (index + 1)
  end.

Definition processProof {S} (leaf : string) (proof : list string) :
    Eff S GatewayError string :=
  assertBytes32 leaf "La feuille" ;;
  process_siblings leaf proof 0.

Definition verifyProof (leaf : string) (proof : list string) (root : string) : bool :=
  match processProof leaf proof tt with
  | (Return computed, _) => str_eqb (toLowerCase computed) (toLowerCase root)
  | (Throw _, _) => false
  end.
End Merkle.

(** A batch of five seals, for the witnesses. *)
Definition sample_seals : list string :=
  (λ n : Z, @keccak256 Toy.hashing (pretty n)) <$> [1; 2; 3; 4; 5].
Definition sample_leaves : list string := @keccak256 Toy.hashing <$> sample_seals.

(** * Lemmas *)

Section merkle_lemmas.
Context `{HashingLaws}.

Definition words (l : list string) : Prop := Forall (λ x, is_bytes32 x = true) l.

Lemma assertBytes32_return {S} value label (w : S) :
  is_bytes32 value = true → assertBytes32 value label w = (Return tt, w).
Proof. unfold assertBytes32. by intros ->. Qed.

Lemma assertBytes32_inv {S} value label (w w' : S) :
  assertBytes32 value label w = (Return tt, w') → is_bytes32 value = true ∧ w' = w.
Proof. unfold assertBytes32. destruct (is_bytes32 value); [by intros [= <-]|done]. Qed.

Lemma assert_leaves_return {S} l i (w : S) : words l → assert_leaves l i w = (Return tt, w).
Proof.
  intros Hl. revert i. induction Hl as [|x l Hx Hl IH]; intros i; [done|].
  cbn [assert_leaves]. erewrite bind_return by by apply assertBytes32_return. apply IH.
Qed.

Lemma assert_leaves_inv {S} l i (w w' : S) :
  assert_leaves l i w = (Return tt, w') → words l ∧ w' = w.
Proof.
  revert i w. induction l as [|x l IH]; intros i w.
  - intros [= <-]. by split; [constructor|].
  - intros ([] & w1 & [Hx ->]%assertBytes32_inv & [? ->]%IH)%bind_inv. by split; [constructor|].
Qed.

Lemma next_layer_length l : length (next_layer l) = Nat.div2 (S (length l)).
Proof.
  induction l as [l IH] using (induction_ltof1 _ (@length string)). unfold ltof in IH.
  destruct l as [|a [|b l]]; [done..|]. simpl. f_equal. rewrite IH by (simpl; lia). done.
Qed.

Lemma hashPair_word a b : is_bytes32 (hashPair a b) = true.
Proof. unfold hashPair. case_match; apply keccak256_bytes32. Qed.

Lemma hashPair_lower a b : toLowerCase (hashPair a b) = hashPair a b.
Proof. unfold hashPair. case_match; apply keccak256_lower. Qed.

Lemma leb_antisym a b : String.leb a b = true → String.leb b a = true → a = b.
Proof. apply String.leb_antisym. Qed.

(** The order of the arguments and their case do not matter. *)
Lemma hashPair_case a b c d :
  toLowerCase a = toLowerCase c → toLowerCase b = toLowerCase d → hashPair a b = hashPair c d.
Proof.
  intros Hac Hbd. unfold hashPair. rewrite Hac, Hbd.
  destruct (String.leb _ _).
  - rewrite <- (concat_lower [a; b]), <- (concat_lower [c; d]). simpl. by rewrite Hac, Hbd.
  - rewrite <- (concat_lower [b; a]), <- (concat_lower [d; c]). simpl. by rewrite Hac, Hbd.
Qed.

Lemma hashPair_comm a b : hashPair a b = hashPair b a.
Proof.
  unfold hashPair.
  destruct (String.leb (toLowerCase a) (toLowerCase b)) eqn:E1,
    (String.leb (toLowerCase b) (toLowerCase a)) eqn:E2; [|done..|].
  - f_equal. rewrite <- (concat_lower [a; b]), <- (concat_lower [b; a]). simpl.
    by rewrite (leb_antisym _ _ E1 E2).
  - destruct (String.leb_total (toLowerCase a) (toLowerCase b)); congruence.
Qed.

Lemma next_layer_words l : words l → words (next_layer l).
Proof.
  induction l as [l IH] using (induction_ltof1 _ (@length string)). unfold ltof in IH.
  destruct l as [|a [|b l]]; [done..|]. intros Hl. simpl.
  inversion Hl as [|?? _ Hl']; subst. inversion Hl' as [|?? _ Hl'']; subst.
  constructor; [apply hashPair_word|apply IH; [simpl; lia|done]].
Qed.

Lemma build_layers_cons n l :
  ∃ rest, build_layers n l = l :: rest.
Proof. destruct n; simpl; [by eexists|]. case_match; by eexists. Qed.

Lemma next_layer_shrinks n l :
  (1 < length l <= S n)%nat → (length (next_layer l) <= n)%nat.
Proof.
  rewrite next_layer_length. destruct (length l) as [|[|m]]; [lia..|]. intros Hm.
  pose proof (Nat.div2_decr (S m) m ltac:(lia)).
  change (Nat.div2 (S (S (S m)))) with (S (Nat.div2 (S m))). lia.
Qed.

Lemma last_build_layers n l :
  List.last (l :: build_layers n (next_layer l)) [] = List.last (build_layers n (next_layer l)) [].
Proof. by destruct (build_layers_cons n (next_layer l)) as [rest ->]. Qed.

(** Enough fuel: the last level is a single node, whatever the number of leaves. *)
Lemma build_layers_done n l :
  l ≠ [] → (length l <= n)%nat → ∃ r, List.last (build_layers n l) [] = [r].
Proof.
  revert l. induction n as [|n IH]; intros l Hne Hn.
  - destruct l; simpl in Hn; [done|lia].
  - simpl. destruct (Nat.ltb 1 (length l)) eqn:E.
    + apply Nat.ltb_lt in E. destruct (IH (next_layer l)) as [r Hr].
      * intros Hnil%(f_equal length). rewrite next_layer_length in Hnil. simpl in Hnil.
        destruct l as [|? [|? ?]]; simpl in *; lia.
      * by apply next_layer_shrinks.
      * exists r. by rewrite <- Hr, <- last_build_layers.
    + apply Nat.ltb_ge in E. destruct l as [|r [|? ?]]; simpl in *; [done| |lia]. by exists r.
Qed.

(** A level's node is the parent of the nodes below it. *)
Lemma next_layer_parent l i x :
  l !! i = Some x →
  ∃ y, next_layer l !! (Nat.div2 i) = Some y ∧
       match l !! (if Nat.even i then S i else pred i) with
       | Some sibling => y = hashPair x sibling
       | None => y = x
       end.
Proof.
  revert i. induction l as [l IH] using (induction_ltof1 _ (@length string)). unfold ltof in IH.
  intros i Hi. destruct l as [|a [|b l]]; [done| |].
  - destruct i as [|[|]]; [|done..]. simplify_eq/=. by exists x.
  - destruct i as [|[|i]]; simplify_eq/=.
    + by eexists.
    + eexists. split; [done|]. apply hashPair_comm.
    + destruct (IH l ltac:(simpl; lia) i Hi) as (y & Hy & Hs). exists y. split; [done|].
      destruct (Nat.even i) eqn:E; [exact Hs|].
      destruct i as [|i]; [discriminate E|exact Hs].
Qed.

Lemma lxor_even k : Z.lxor (2 * k) 1 = 2 * k + 1.
Proof.
  rewrite Z.add_nocarry_lxor; [done|].
  rewrite (Z.land_ones _ 1) by lia. rewrite Z.mul_comm. apply Z.mod_mul. lia.
Qed.

Lemma sibling_index i :
  Z.lxor (Z.of_nat i) 1 = Z.of_nat (if Nat.even i then S i else pred i).
Proof.
  destruct (Nat.even i) eqn:E.
  - apply Nat.even_spec in E as [k ->].
    replace (Z.of_nat (2 * k)) with (2 * Z.of_nat k) by lia. rewrite lxor_even. lia.
  - assert (Hodd : Nat.odd i = true) by (rewrite <- Nat.negb_even, E; done).
    apply Nat.odd_spec in Hodd as [k ->].
    replace (Z.of_nat (2 * k + 1)) with (2 * Z.of_nat k + 1) by lia.
    rewrite <- lxor_even, Z.lxor_assoc, Z.lxor_nilpotent, Z.lxor_0_r. lia.
Qed.

Lemma proof_path_cons layer layer' rest i :
  proof_path (layer :: layer' :: rest) i =
  (if Z.lxor i 1 <? Z.of_nat (length layer) then [List.nth (Z.to_nat (Z.lxor i 1)) layer ""]
   else []) ++ proof_path (layer' :: rest) (i / 2).
Proof. reflexivity. Qed.

(** The siblings [getProof] collects lead from a node to the last level. *)
Lemma proof_path_complete {St} n l i x j (w : St) :
  (length l <= n)%nat → words l → l !! i = Some x →
  ∃ proof r,
    proof_path (build_layers n l) (Z.of_nat i) = proof
    ∧ List.last (build_layers n l) [] = [r]
    ∧ process_siblings x proof j w = (Return r, w).
Proof.
  revert l i x j. induction n as [|n IH]; intros l i x j Hn Hl Hi.
  { apply lookup_lt_Some in Hi. lia. }
  assert (Hne : l ≠ []) by (intros ->; done).
  destruct (Nat.ltb 1 (length l)) eqn:E.
  2: { apply Nat.ltb_ge in E. destruct l as [|r [|? ?]]; simpl in E; [done| |lia].
       destruct i; [|done]. simplify_eq/=. by exists [], x. }
  apply Nat.ltb_lt in E.
  destruct (next_layer_parent l i x Hi) as (y & Hy & Hsib).
  cbn [build_layers]. rewrite (proj2 (Nat.ltb_lt 1 _) E), last_build_layers.
  destruct (IH (next_layer l) (Nat.div2 i) y (match l !! (if Nat.even i then S i else pred i)
    with Some _ => j + 1 | None => j end)) as (proof & r & Hproof & Hlast & Hrun);
    [by apply next_layer_shrinks|by apply next_layer_words|done|].
  eexists _, r. split; [reflexivity|]. split; [exact Hlast|].
  destruct (build_layers_cons n (next_layer l)) as [rest Hrest]. rewrite Hrest in *.
  rewrite proof_path_cons, sibling_index, Nat2Z.id.
  replace (Z.of_nat i / 2) with (Z.of_nat (Nat.div2 i))
    by (rewrite Nat.div2_div, Nat2Z.inj_div; done).
  rewrite Hproof.
  destruct (l !! (if Nat.even i then S i else pred i)) as [sibling|] eqn:Es.
  - assert (Hlt := lookup_lt_Some _ _ _ Es).
    replace (Z.of_nat (if Nat.even i then S i else pred i) <? Z.of_nat (length l))
      with true by (symmetry; apply Z.ltb_lt; lia).
    rewrite (nth_lookup_Some _ _ _ _ Es). cbn [app process_siblings].
    erewrite bind_return; [by rewrite <- Hsib|].
    apply assertBytes32_return. exact (Forall_lookup_1 _ _ _ _ Hl Es).
  - apply lookup_ge_None in Es.
    replace (Z.of_nat (if Nat.even i then S i else pred i) <? Z.of_nat (length l))
      with false by (symmetry; apply Z.ltb_ge; lia).
    by rewrite <- Hsib.
Qed.

Lemma buildMerkleTree_return {S} l (w : S) :
  l ≠ [] → words l →
  ∃ r, List.last (build_layers (length l) l) [] = [r] ∧
    buildMerkleTree l w = (Return (mkMerkleTree r l (build_layers (length l) l)), w).
Proof.
  intros Hne Hl. destruct (build_layers_done (length l) l) as [r Hr]; [done..|].
  exists r. split; [done|]. unfold buildMerkleTree.
  destruct (Nat.eqb (length l) 0) eqn:E; [by destruct l|].
  erewrite bind_return by by apply assert_leaves_return. by rewrite Hr.
Qed.

Lemma buildMerkleTree_inv {S} l t (w w' : S) :
  buildMerkleTree l w = (Return t, w') →
  l ≠ [] ∧ words l ∧ w' = w ∧ mt_leaves t = l ∧ mt_layers t = build_layers (length l) l
  ∧ List.last (mt_layers t) [] = [mt_root t].
Proof.
  unfold buildMerkleTree. destruct (Nat.eqb (length l) 0) eqn:E; [done|].
  intros ([] & w1 & [Hl ->]%assert_leaves_inv & [= <- <-])%bind_inv.
  assert (Hne : l ≠ []) by by intros ->.
  destruct (build_layers_done (length l) l Hne) as [r Hr]; [done|]. simpl. by rewrite Hr.
Qed.

(** The values of a tree over sealed leaves. *)
Inductive tree_node (fingerprints : list string) : string → Prop :=
  | node_leaf fp :
      fp ∈ fingerprints → is_bytes32 fp = true → tree_node fingerprints (keccak256 fp)
  | node_pair a b :
      tree_node fingerprints a → tree_node fingerprints b →
      tree_node fingerprints (hashPair a b).

Lemma tree_node_word fps x : tree_node fps x → is_bytes32 x = true ∧ toLowerCase x = x.
Proof.
  destruct 1; split; auto using keccak256_bytes32, keccak256_lower, hashPair_word, hashPair_lower.
Qed.

Lemma next_layer_nodes fps l : Forall (tree_node fps) l → Forall (tree_node fps) (next_layer l).
Proof.
  induction l as [l IH] using (induction_ltof1 _ (@length string)). unfold ltof in IH.
  destruct l as [|a [|b l]]; [done..|]. intros Hl. simpl.
  inversion Hl as [|?? Ha Hl']; subst. inversion Hl' as [|?? Hb Hl'']; subst.
  constructor; [by constructor|apply IH; [simpl; lia|done]].
Qed.

Lemma root_node fps n l r :
  Forall (tree_node fps) l → List.last (build_layers n l) [] = [r] → tree_node fps r.
Proof.
  revert l. induction n as [|n IH]; intros l Hl; cbn [build_layers].
  - intros [= ->]. by apply Forall_cons_iff in Hl as [? _].
  - destruct (Nat.ltb 1 (length l));
      [|intros [= ->]; by apply Forall_cons_iff in Hl as [? _]].
    rewrite last_build_layers. apply IH. by apply next_layer_nodes.
Qed.

Lemma keccak_inj_or a b :
  keccak256 a = keccak256 b → toLowerCase a = toLowerCase b ∨ keccak_collision.
Proof.
  intros Heq. destruct (String.string_dec (toLowerCase a) (toLowerCase b)); [by left|].
  right. by exists a, b.
Qed.

Lemma hashPair_shape a b :
  ∃ c d, hashPair a b = keccak256 (concat [c; d]) ∧ ((c = a ∧ d = b) ∨ (c = b ∧ d = a)).
Proof. unfold hashPair. destruct (String.leb _ _); eauto 10. Qed.

(** A hashed pair of words is not a hashed word. *)
Lemma hashPair_no_leaf a b fp :
  is_bytes32 a = true → is_bytes32 b = true → is_bytes32 fp = true →
  hashPair a b = keccak256 fp → keccak_collision.
Proof.
  intros Ha Hb Hfp. destruct (hashPair_shape a b) as (c & d & -> & Hcd).
  intros [Heq|?]%keccak_inj_or; [|done].
  apply concat_no_word in Heq; [done|..]; by destruct Hcd as [[-> ->]|[-> ->]].
Qed.

(** Hashing a pair into a node forces both members to be nodes. *)
Lemma hashPair_node fps x s v :
  is_bytes32 x = true → is_bytes32 s = true → hashPair x s = v → tree_node fps v →
  tree_node fps (toLowerCase x) ∨ keccak_collision.
Proof.
  intros Hx Hs Heq Hv. destruct Hv as [fp _ Hfp|a b Ha Hb].
  - right. by apply (hashPair_no_leaf x s fp).
  - destruct (tree_node_word _ _ Ha) as [Wa La], (tree_node_word _ _ Hb) as [Wb Lb].
    destruct (hashPair_shape x s) as (c & d & Hxs & Hcd).
    destruct (hashPair_shape a b) as (e & f & Hab & Hef). rewrite Hxs, Hab in Heq.
    apply keccak_inj_or in Heq as [Heq|?]; [left|by right].
    apply concat_words_inj in Heq as [E1 E2];
      destruct Hcd as [[-> ->]|[-> ->]], Hef as [[-> ->]|[-> ->]]; congruence.
Qed.

Lemma process_siblings_sound {S} fps x proof j r (w w' : S) :
  is_bytes32 x = true → tree_node fps (toLowerCase r) →
  process_siblings x proof j w = (Return r, w') →
  tree_node fps (toLowerCase x) ∨ keccak_collision.
Proof.
  revert x j w. induction proof as [|s proof IH]; intros x j w Hx Hr.
  - intros [= -> <-]. by left.
  - intros ([] & w1 & [Hs ->]%assertBytes32_inv & Hrun)%bind_inv.
    apply IH in Hrun as [Hn|?]; [|by right|apply hashPair_word|done].
    rewrite hashPair_lower in Hn. by eapply hashPair_node.
Qed.

Lemma leaf_sound fps fp :
  is_bytes32 fp = true → tree_node fps (keccak256 fp) →
  (∃ fp', fp' ∈ fps ∧ toLowerCase fp' = toLowerCase fp) ∨ keccak_collision.
Proof.
  intros Hfp. remember (keccak256 fp) as v eqn:Hv. destruct 1 as [fp' Hin _|a b Ha Hb].
  - apply keccak_inj_or in Hv as [Hv|?]; [left; by exists fp'|by right].
  - destruct (tree_node_word _ _ Ha) as [Wa _], (tree_node_word _ _ Hb) as [Wb _].
    right. by apply (hashPair_no_leaf a b fp).
Qed.

Lemma verifyProof_inv leaf proof root :
  verifyProof leaf proof root = true →
  is_bytes32 leaf = true ∧ ∃ r, process_siblings leaf proof 0 tt = (Return r, tt)
    ∧ toLowerCase r = toLowerCase root.
Proof.
  unfold verifyProof. destruct (processProof leaf proof tt) as [[r|] []] eqn:E; [|done].
  intros Heq%str_eqb_spec.
  apply bind_inv in E as ([] & [] & [Hl _]%assertBytes32_inv & Hr). eauto.
Qed.
End merkle_lemmas.

(** Every leaf of a tree has a proof, in any state. *)
Lemma tree_proofs `{HashingLaws} {St} l (w : St) :
  l ≠ [] → words l →
  ∃ tree, buildMerkleTree l w = (Return tree, w) ∧ mt_leaves tree = l ∧
    ∀ i leaf, l !! i = Some leaf → ∀ w' : St,
      ∃ proof, getProof tree (Z.of_nat i) w' = (Return proof, w')
               ∧ verifyProof leaf proof (mt_root tree) = true.
Proof.
  intros Hne Hl. destruct (buildMerkleTree_return l w Hne Hl) as (r & Hr & Hrun).
  eexists. split; [exact Hrun|]. split; [done|]. intros i leaf Hi w'.
  destruct (proof_path_complete (length l) l i leaf 0 tt) as (proof & r' & Hp & Hr' & Hs);
    [done..|].
  assert (Hlt := lookup_lt_Some _ _ _ Hi). exists proof. split.
  - unfold getProof. cbn [mt_leaves mt_layers].
    replace (Z.of_nat i <? 0) with false by (symmetry; apply Z.ltb_ge; lia).
    replace (Z.of_nat i >=? Z.of_nat (length l)) with false
      by (symmetry; rewrite Z.geb_leb; apply Z.leb_gt; lia).
    simpl. by rewrite Hp.
  - unfold verifyProof, processProof.
    erewrite bind_return by (apply assertBytes32_return, (Forall_lookup_1 _ _ _ _ Hl Hi)).
    rewrite Hs. apply str_eqb_spec. simpl. congruence.
Qed.

(** Completeness: a non-empty list of 32-byte leaves has a tree, and for every
    index of the list [getProof] returns a proof with which the leaf verifies
    against the root. *)
Theorem merkle_complete `{HashingLaws} l :
  l ≠ [] → words l →
  ∃ tree, buildMerkleTree l tt = (Return tree, tt) ∧ mt_leaves tree = l ∧
    ∀ i leaf, l !! i = Some leaf →
      ∃ proof, getProof tree (Z.of_nat i) tt = (Return proof, tt)
               ∧ verifyProof leaf proof (mt_root tree) = true.
Proof.
  intros Hne Hl. destruct (tree_proofs l tt Hne Hl) as (tree & Hb & Hleaves & Hp).
  exists tree. split_and!; [done..|]. intros i leaf Hi. exact (Hp i leaf Hi tt).
Qed.


#[local] Existing Instance Toy.hashing.

Lemma merkle_complete_witness :
  ∃ tree, buildMerkleTree sample_leaves tt = (Return tree, tt) ∧ mt_leaves tree = sample_leaves ∧
    ∀ i leaf, sample_leaves !! i = Some leaf →
      ∃ proof, getProof tree (Z.of_nat i) tt = (Return proof, tt)
               ∧ verifyProof leaf proof (mt_root tree) = true.
Proof.
  apply (merkle_complete sample_leaves); [by vm_compute|].
  unfold words, sample_leaves, sample_seals. cbn [fmap list_fmap].
  repeat (constructor; [vm_compute; reflexivity|]). constructor.
Defined.

