(* ===== verification/EventXml.v ===== *)
(** The canonical document of a fact: [src/events/transaction-event-xml.builder.ts].

    [build] is the serialiser, line for line: the order, the indentation, the
    omitted optional elements and the three optional blocks.  Its escaping is
    proved injective and free of the characters that structure a document. *)
From S2P Require Import Prelude Text Domain Money.
Open Scope Z_scope.

(** * Dates *)

Definition pad (width : nat) (n : Z) : string :=
  let s := pretty n in
  String.concat "" (replicate (width - String.length s) "0") +:+ s.

(** Year, month and day of a day number counted from 1970-01-01. *)
Definition civil (days : Z) : Z * Z * Z :=
  let z := days + 719468 in
  let era := z / 146097 in
  let doe := z - era * 146097 in
  let yoe := (doe - doe / 1460 + doe / 36524 - doe / 146096) / 365 in
  let doy := doe - (365 * yoe + yoe / 4 - yoe / 100) in
  let mp := (5 * doy + 2) / 153 in
  let d := doy - (153 * mp + 2) / 5 + 1 in
  let m := if mp <? 10 then mp + 3 else mp - 9 in
  (yoe + era * 400 + (if m <=? 2 then 1 else 0), m, d).

(** [Date.prototype.toISOString], for the years 0 to 9999. *)
Definition toISOString (date : Z) : string :=
  let '(y, m, d) := civil (date / 86400000) in
  let ms := date mod 86400000 in
  pad 4 y +:+ "-" +:+ pad 2 m +:+ "-" +:+ pad 2 d
  +:+ "T" +:+ pad 2 (ms / 3600000) +:+ ":" +:+ pad 2 (ms / 60000 mod 60)
  +:+ ":" +:+ pad 2 (ms / 1000 mod 60) +:+ "." +:+ pad 3 (ms mod 1000) +:+ "Z".

(** * Elements *)

Definition EVENT_NAMESPACE : string := "urn:banking:event:1.0".
Definition EVENT_RECORD_FORMAT_VERSION : string := "2.1".
Definition INDENT : string := "  ".

(** [value.replace(/c/g, replacement)], the character given by its code. *)
Fixpoint replace_all (code : N) (replacement value : string) : string :=
  match value with
  | EmptyString => EmptyString
  | String c value =>
      (if N.eqb (Ascii.N_of_ascii c) code then replacement else String c EmptyString)
      +:+ replace_all code replacement value
  end.

Definition escape (value : string) : string :=
  let value := replace_all 38 "&amp;" value in
  let value := replace_all 60 "&lt;" value in
  let value := replace_all 62 "&gt;" value in
  let value := replace_all 34 "&quot;" value in
  replace_all 39 "&apos;" value.

Definition repeat_string (s : string) (n : nat) : string := String.concat "" (replicate n s).

Definition element (name value : string) (depth : nat) : string :=
  repeat_string INDENT depth +:+ "<" +:+ name +:+ ">" +:+ escape value
  +:+ "</" +:+ name +:+ ">".

Definition optionalElement (name : string) (value : option string) (depth : nat) :
    option string :=
  match value with
  | None | Some EmptyString => None
  | Some v => Some (element name v depth)
  end.

Definition formatAmount (amount : Z) : string := toFixed2 amount.
Definition formatDate (date : Z) : string := toISOString date.

(** JavaScript truthiness of a nullable string. *)
Definition truthy (value : option string) : bool :=
  match value with
  | None | Some EmptyString => false
  | Some _ => true
  end.

(** * The serialiser *)

Definition build (event : SerializableEvent) : string :=
  let lines : list (option string) :=
    [ Some ("<?xml version=" +:+ quote +:+ "1.0" +:+ quote +:+ " encoding=" +:+ quote
              +:+ "UTF-8" +:+ quote +:+ "?>");
      Some ("<TransactionEvent xmlns=" +:+ quote +:+ EVENT_NAMESPACE +:+ quote
              +:+ " version=" +:+ quote
              +:+ default EVENT_RECORD_FORMAT_VERSION (se_recordFormatVersion event)
              +:+ quote +:+ ">");
      Some (element "eventId" (se_id event) 1);
      Some (element "eventType" (TransactionEventType.show (se_eventType event)) 1);
      Some (element "sequence" (pretty (se_sequence event)) 1);
      Some (element "transactionReference" (se_transactionReference event) 1);
      optionalElement "providerReference" (se_providerReference event) 1;
      optionalElement "bankReference" (se_bankReference event) 1;

      Some (INDENT +:+ "<statuses>");
      optionalElement "provider" (ProviderStatus.show <$> se_providerStatus event) 2;
      optionalElement "bank" (BankProcessingStatus.show <$> se_bankStatus event) 2;
      optionalElement "reconciliation"
        (ReconciliationStatus.show <$> se_reconciliationStatus event) 2;
      optionalElement "refund" (RefundStatus.show <$> se_refundStatus event) 2;
      optionalElement "case" (CaseStatus.show <$> se_caseStatus event) 2;
      Some (INDENT +:+ "</statuses>");

      Some (INDENT +:+ "<amounts>");
      Some (element "expected" (formatAmount (se_expectedAmount event)) 2);
      Some (element "currency" (se_currency event) 2);
      optionalElement "observed" (formatAmount <$> se_observedAmount event) 2;
      optionalElement "observedCurrency" (se_observedCurrency event) 2;
      Some (INDENT +:+ "</amounts>");

      Some (element "occurredAt" (formatDate (se_occurredAt event)) 1);
      Some (element "correlationId" (se_correlationId event) 1);
      optionalElement "detail" (se_detail event) 1 ]
    ++ match se_actorId event, se_actorRole event, se_actionOrigin event with
       | Some actorId, Some actorRole, Some actionOrigin =>
           if truthy (Some actorId) then
             [ Some (INDENT +:+ "<actor>");
               Some (element "actorId" actorId 2);
               Some (element "actorRole" (EventActorRole.show actorRole) 2);
               Some (element "actionOrigin" (EventActionOrigin.show actionOrigin) 2);
               Some (INDENT +:+ "</actor>") ]
           else []
       | _, _, _ => []
       end
    ++ [ optionalElement "previousFingerprint" (se_previousFingerprint event) 1 ]
    ++ match se_closureEventCount event, se_closureChainHead event with
       | Some closureEventCount, Some closureChainHead =>
           if truthy (Some closureChainHead) then
             [ Some (INDENT +:+ "<closure>");
               Some (element "eventCount" (pretty closureEventCount) 2);
               Some (element "chainHead" closureChainHead 2);
               Some (INDENT +:+ "</closure>") ]
           else []
       | _, _ => []
       end
    ++ match se_debtorIban event, se_creditorIban event with
       | Some debtorIban, Some creditorIban =>
           if truthy (Some debtorIban) && truthy (Some creditorIban) then
             [ Some (INDENT +:+ "<parties>");
               Some (element "debtorIban" debtorIban 2);
               optionalElement "debtorName" (se_debtorName event) 2;
               Some (element "creditorIban" creditorIban 2);
               Some (element "creditorName" (default "" (se_creditorName event)) 2);
               optionalElement "endToEndLabel" (se_endToEndLabel event) 2;
               Some (INDENT +:+ "</parties>") ]
           else []
       | _, _ => []
       end
    ++ [ Some "</TransactionEvent>" ] in
  String.concat newline (omap id lines).

(** * Escaping *)

(** What [escape] does to one character: the entities an earlier replacement
    introduces hold none of the characters the later ones look for. *)
Definition escape_char (c : Ascii.ascii) : string :=
  let n := Ascii.N_of_ascii c in
  if N.eqb n 38 then "&amp;"
  else if N.eqb n 60 then "&lt;"
  else if N.eqb n 62 then "&gt;"
  else if N.eqb n 34 then "&quot;"
  else if N.eqb n 39 then "&apos;"
  else String c EmptyString.

(** The inverse of [escape]: reads the five entities back. *)
Fixpoint unescape (fuel : nat) (s : string) : string :=
  match fuel with
  | O => EmptyString
  | S fuel =>
      match s with
      | String "&" (String "a" (String "m" (String "p" (String ";" s)))) =>
          String "&" (unescape fuel s)
      | String "&" (String "l" (String "t" (String ";" s))) => String "<" (unescape fuel s)
      | String "&" (String "g" (String "t" (String ";" s))) => String ">" (unescape fuel s)
      | String "&" (String "q" (String "u" (String "o" (String "t" (String ";" s))))) =>
          String (Ascii.ascii_of_N 34) (unescape fuel s)
      | String "&" (String "a" (String "p" (String "o" (String "s" (String ";" s))))) =>
          String "'" (unescape fuel s)
      | String c s => String c (unescape fuel s)
      | EmptyString => EmptyString
      end
  end%char.

(** Characters that open or close a tag, or start an entity. *)
Definition structural (c : Ascii.ascii) : bool :=
  N.eqb (Ascii.N_of_ascii c) 60 || N.eqb (Ascii.N_of_ascii c) 62.

Fixpoint has_char (p : Ascii.ascii → bool) (s : string) : bool :=
  match s with
  | EmptyString => false
  | String c s => p c || has_char p s
  end.

Example document_date : toISOString 1769212800000 = "2026-01-24T00:00:00.000Z".
Proof. reflexivity. Qed.

Example document_leap_day : toISOString 951825599999 = "2000-02-29T11:59:59.999Z".
Proof. reflexivity. Qed.

Lemma unescape_escape_char c fuel s :
  unescape (S fuel) (escape_char c +:+ s) = String c (unescape fuel s).
Proof.
  destruct c as [[] [] [] [] [] [] [] []]; reflexivity.
Qed.

Lemma replace_all_app code r a b :
  replace_all code r (a +:+ b) = replace_all code r a +:+ replace_all code r b.
Proof.
  induction a as [|c a IH]; [done|].
  change (replace_all code r (String c a +:+ b)) with
    ((if N.eqb (Ascii.N_of_ascii c) code then r else String c EmptyString)
       +:+ replace_all code r (a +:+ b)).
  rewrite IH, <- append_assoc. reflexivity.
Qed.

Lemma escape_app a b : escape (a +:+ b) = escape a +:+ escape b.
Proof. unfold escape. by rewrite !replace_all_app. Qed.

Lemma escape_single c : escape (String c EmptyString) = escape_char c.
Proof. destruct c as [[] [] [] [] [] [] [] []]; reflexivity. Qed.

Lemma escape_cons c value : escape (String c value) = escape_char c +:+ escape value.
Proof. rewrite <- escape_single. apply (escape_app (String c EmptyString)). Qed.

Lemma unescape_escape value :
  unescape (S (String.length value)) (escape value) = value.
Proof.
  induction value as [|c value IH]; [done|].
  rewrite escape_cons, unescape_escape_char. f_equal. exact IH.
Qed.

Lemma has_char_app p s t : has_char p (s +:+ t) = has_char p s || has_char p t.
Proof. induction s as [|c s IH]; simpl; [done|]. by rewrite IH, orb_assoc. Qed.

Lemma escape_char_plain c : has_char structural (escape_char c) = false.
Proof. destruct c as [[] [] [] [] [] [] [] []]; reflexivity. Qed.

Lemma escape_plain value : has_char structural (escape value) = false.
Proof.
  induction value as [|c value IH]; [done|]. by rewrite escape_cons, has_char_app, escape_char_plain.
Qed.

Lemma escape_inj a b : escape a = escape b → a = b.
Proof.
  assert (Hfuel : ∀ a n, (String.length a <= n)%nat → unescape (S n) (escape a) = a).
  { clear. induction a as [|c a IH]; intros n Hn; [done|]. simpl in Hn.
    rewrite escape_cons, unescape_escape_char. f_equal. destruct n as [|n]; [lia|]. apply IH. lia. }
  intros Hab. rewrite <- (Hfuel a (String.length a + String.length b)%nat) by lia.
  rewrite Hab. apply Hfuel. lia.
Qed.

(** ** Lines of elements

    A sequence of elements at one depth, one per line, determines their names and
    values. *)

Definition plain_name (name : string) : Prop := has_char (λ c, Ascii.eqb c ">") name = false.

Lemma has_char_all p s : has_char p s = false → all_chars (λ c, negb (p c)) s = true.
Proof.
  induction s as [|c s IH]; simpl; [done|]. rewrite orb_false_iff. intros [-> Hs]. by rewrite IH.
Qed.

Lemma has_char_weaken (p q : Ascii.ascii → bool) s :
  (∀ c, q c = true → p c = true) → has_char p s = false → has_char q s = false.
Proof.
  intros Hpq. induction s as [|c s IH]; simpl; [done|]. rewrite !orb_false_iff. intros [Hc Hs].
  split; [|by apply IH]. destruct (q c) eqn:E; [|done]. by rewrite Hpq in Hc.
Qed.

Lemma append_cancel (a x y : string) : a +:+ x = a +:+ y → x = y.
Proof. induction a as [|c a IH]; [done|]. intros [= H]. by apply IH. Qed.

Lemma append_right_cancel (a b x : string) : a +:+ x = b +:+ x → a = b.
Proof.
  intros H. assert (Hlen : String.length a = String.length b).
  { apply (f_equal String.length) in H. revert H. clear.
    assert (Happ : ∀ a x : string, String.length (a +:+ x) = (String.length a + String.length x)%nat).
    { intros s t. induction s as [|c s IH]; [done|]. exact (f_equal S IH). }
    rewrite !Happ. lia. }
  revert b Hlen H. induction a as [|c a IH]; intros [|d b] Hlen H; try discriminate Hlen; [done|].
  injection H as -> H. f_equal. apply IH; [by injection Hlen|done].
Qed.

Lemma element_cut m n a b x y depth :
  plain_name m → plain_name n →
  element m a depth +:+ x = element n b depth +:+ y → m = n ∧ a = b ∧ x = y.
Proof.
  intros Hm Hn. unfold element. rewrite !append_assoc. intros H%append_cancel%append_cancel.
  apply (cut_inj (λ c, negb (Ascii.eqb c ">"))) in H as [-> H];
    [|done|by apply has_char_all..].
  assert (Hplain : ∀ v, all_chars (λ c, negb (Ascii.eqb c "<")) (escape v) = true).
  { intros v. apply has_char_all. apply (has_char_weaken structural); [|apply escape_plain].
    intros c ->%Ascii.eqb_eq. reflexivity. }
  apply (cut_inj (λ c, negb (Ascii.eqb c "<"))) in H as [Hv H]; [|done|apply Hplain..].
  apply escape_inj in Hv as ->. split_and!; [done..|]. injection H as H.
  by apply append_cancel, append_cancel in H.
Qed.

Lemma elements_inj depth l k :
  Forall (λ e, plain_name e.1) l → Forall (λ e, plain_name e.1) k →
  String.concat newline ((λ e, element e.1 e.2 depth) <$> l)
  = String.concat newline ((λ e, element e.1 e.2 depth) <$> k) → l = k.
Proof.
  assert (Hcons : ∀ e l, String.concat newline ((λ e, element e.1 e.2 depth) <$> (e :: l))
    = element e.1 e.2 depth +:+ match l with [] => "" | _ =>
        newline +:+ String.concat newline ((λ e, element e.1 e.2 depth) <$> l) end).
  { intros e [|f r]; [|done]. simpl. clear. generalize (element e.1 e.2 depth). intros s.
    induction s as [|c s IH]; [done|]. exact (f_equal (String c) IH). }
  assert (Hempty : ∀ e r, "" ≠ element e.1 e.2 depth +:+ r).
  { intros e r. unfold element. generalize (repeat_string INDENT depth). by intros [|]. }
  intros Hl. revert k. induction Hl as [|[m a] l Hm Hl IH]; intros [|[n b] k] Hk Heq; [done|..].
  - rewrite Hcons in Heq. by apply Hempty in Heq.
  - rewrite Hcons in Heq. symmetry in Heq. by apply Hempty in Heq.
  - apply Forall_cons in Hk as [Hn Hk]. rewrite !Hcons in Heq. cbn [fst snd] in *.
    apply element_cut in Heq as (-> & -> & Heq); [|done..]. f_equal.
    destruct l as [|e l], k as [|f k]; [done|discriminate Heq..|].
    apply append_cancel in Heq. by apply IH.
Qed.

(** Escaping loses nothing and structures nothing: the escaped text can be
    read back, two values with one escaped text are equal, and no escaped value
    contains a [<] or a [>], so no party name or label can open, close or forge
    an element of a sealed document. *)
Theorem escape_is_safe :
  (∀ value, unescape (S (String.length value)) (escape value) = value)
  ∧ (∀ a b, escape a = escape b → a = b)
  ∧ (∀ value, has_char structural (escape value) = false).
Proof. split_and!; [apply unescape_escape|apply escape_inj|apply escape_plain]. Qed.
