(* ===== verification/Database.v ===== *)
(** The PostgreSQL database as the services see it, and the state they run in.

    A [Db] holds the rows of each table in insertion order.  The operations below
    are the repository calls of the services: each checks the column lengths, the
    [CHECK] conditions, the unique indexes and the foreign keys the entities
    declare, in the order PostgreSQL does, and otherwise changes the table.  A
    [World] adds the number of random draws made, the clock and the history of
    calls to external systems.  Row identities are the natural key where the
    table has a unique one ([refunds], [bank_instructions], webhook events). *)
From S2P Require Import Prelude Domain StateMachine External.
Open Scope Z_scope.

(** * State *)

Record Db := mkDb {
  db_transactions : list Transaction;
  db_events : list TransactionEvent;
  db_entries : list JournalEntry;
  db_refunds : list Refund;
  db_instructions : list BankInstruction;
  db_webhooks : list MobileMoneyWebhookEvent;
  db_batches : list AnchorBatch
}.
#[export] Instance eta_Db : Eta Db :=
  λ d, mkDb (db_transactions d) (db_events d) (db_entries d) (db_refunds d)
         (db_instructions d) (db_webhooks d) (db_batches d).

(** A call that left the gateway, with what the callee saw. *)
Inductive ExternalCall :=
  | CallConvertAmountToWords (amount : Z)
  | CallTransferSoap (reference : string)
  | CallRefund (idempotencyKey : string) (providerReference : option string) (amount : Z)
      (currency : string)
  | CallGetBatch (batchId : string)
  | CallVerifyInclusion (batchId leaf : string)
  | CallAnchorBatch (batchId merkleRoot : string) (leafCount : Z).

Record World := mkWorld {
  w_db : Db;
  w_draws : nat;
  w_now : Z;
  w_correlation : string;
  w_calls : list ExternalCall
}.
#[export] Instance eta_World : Eta World :=
  λ w, mkWorld (w_db w) (w_draws w) (w_now w) (w_correlation w) (w_calls w).

Abbreviation App := (Eff World GatewayError).

Definition empty_db : Db := mkDb [] [] [] [] [] [] [].

(** * Ambient effects *)

(** [new Date()] and [Date.now()]: the clock stands still during an operation. *)
Definition now : App Z := gets w_now.

(** [getCorrelationId()]: the identifier of the request being served. *)
Definition getCorrelationId : App string := gets w_correlation.

Definition next_draw : App nat :=
  n ← gets w_draws; modify (λ w, w <| w_draws := S n |>) ;; mret n.

Definition draw_uuid `{Entropy} : App string := n ← next_draw; mret (randomUUID n).
Definition draw_bytes `{Entropy} (len : nat) : App (list Z) :=
  n ← next_draw; mret (randomBytes n len).

(** Records a call and returns the history that ends with it: what an external
    system answers may depend on everything it was asked before. *)
Definition call (c : ExternalCall) : App (list ExternalCall) :=
  modify (λ w, w <| w_calls := w_calls w ++ [c] |>) ;; gets w_calls.

Definition get_db : App Db := gets w_db.
Definition put_db (d : Db) : App unit := modify (λ w, w <| w_db := d |>).
Definition modify_db (f : Db → Db) : App unit := modify (λ w, w <| w_db := f (w_db w) |>).

Definition sql_error {A} (code constraint : string) : App A :=
  throw (QueryFailedError code constraint).

(** * Column types *)

(** Characters of a UTF-8 string: its bytes that do not continue a character. *)
Definition continues (c : Ascii.ascii) : bool := N.eqb (N.land (Ascii.N_of_ascii c) 192) 128.

Fixpoint char_length (s : string) : nat :=
  match s with
  | EmptyString => 0
  | String c s => if continues c then char_length s else S (char_length s)
  end.

(** A character of four bytes, which is a pair of UTF-16 units. *)
Definition is_pair (c : Ascii.ascii) : bool := N.leb 240 (Ascii.N_of_ascii c).

(** Half of a pair, as it is written in UTF-8: U+FFFD. *)
Definition LONE_HALF : string := "�".

(** [s.slice(0, n)], by UTF-16 units; a pair may be cut in two. *)
Fixpoint slice (n : nat) (s : string) : string :=
  match s with
  | EmptyString => EmptyString
  | String c s =>
      if continues c then String c (slice n s)
      else match n with
           | O => EmptyString
           | S O => if is_pair c then LONE_HALF else String c (slice 0 s)
           | S (S m as n) => String c (slice (if is_pair c then m else n) s)
           end
  end.

Example slice_examples :
  slice 3 "été!" = "été" ∧ slice 3 "a😀!" = "a😀" ∧ slice 2 "a😀!" = "a�" ∧ slice 0 "é" = "".
Proof. by vm_compute. Qed.

Definition fits (n : nat) (value : string) : bool := Nat.leb (char_length value) n.
Definition fits_opt (n : nat) (value : option string) : bool :=
  match value with None => true | Some v => fits n v end.

(** [varchar(n)] and [char(n)] columns of [transactions]. *)
Definition transaction_fits (t : Transaction) : bool :=
  fits 32 (tx_reference t) && fits_opt 128 (tx_idempotencyKey t) && fits 3 (tx_currency t)
  && fits_opt 140 (tx_endToEndLabel t) && fits_opt 64 (tx_soapOperation t)
  && fits_opt 128 (tx_faultCode t) && fits_opt 1024 (tx_faultString t)
  && fits_opt 512 (tx_failureReason t) && fits 128 (tx_correlationId t)
  && fits_opt 16 (tx_payerMsisdn t) && fits_opt 64 (tx_aggregatorReference t)
  && fits_opt 3 (tx_aggregatorCurrency t) && fits_opt 512 (tx_reconciliationReason t)
  && fits_opt 512 (tx_caseReason t).

(** Columns of [transaction_events]. *)
Definition event_fits (e : TransactionEvent) : bool :=
  let d := ev_data e in
  fits 32 (se_transactionReference d) && fits_opt 64 (se_providerReference d)
  && fits_opt 64 (se_bankReference d) && fits 3 (se_currency d)
  && fits_opt 3 (se_observedCurrency d) && fits 128 (se_correlationId d)
  && fits_opt 1024 (se_detail d) && fits_opt 128 (se_actorId d)
  && fits_opt 66 (se_previousFingerprint d) && fits_opt 66 (se_closureChainHead d)
  && fits_opt 140 (se_endToEndLabel d) && fits 66 (ev_fingerprint e)
  && fits 66 (ev_fingerprintSalt e) && fits_opt 8 (se_recordFormatVersion d).

(** * [transactions] *)

Definition same_id (t u : Transaction) : bool := str_eqb (tx_id t) (tx_id u).

Definition opt_clash (a b : option string) : bool :=
  match a, b with Some x, Some y => str_eqb x y | _, _ => false end.

(** The error PostgreSQL raises for a row, given the other rows. *)
Definition transaction_error (others : list Transaction) (t : Transaction) :
    option GatewayError :=
  if negb (transaction_fits t) then Some (QueryFailedError PG_STRING_TRUNCATION "")
  else match failed_check (stateOf t) with
  | Some c => Some (QueryFailedError PG_CHECK_VIOLATION c)
  | None =>
      if existsb (λ u, str_eqb (tx_reference u) (tx_reference t)) others then
        Some (QueryFailedError PG_UNIQUE_VIOLATION "UQ_transactions_reference")
      else if existsb (λ u, opt_clash (tx_idempotencyKey u) (tx_idempotencyKey t)) others then
        Some (QueryFailedError PG_UNIQUE_VIOLATION "UQ_transactions_idempotency_key")
      else if existsb (λ u, opt_clash (tx_aggregatorReference u) (tx_aggregatorReference t)) others
      then Some (QueryFailedError PG_UNIQUE_VIOLATION "UQ_transactions_aggregator_reference")
      else None
  end.

Definition raise_if (o : option GatewayError) : App unit :=
  match o with Some e => throw e | None => mret tt end.

(** [repository.save] of an entity: [UPDATE] of its row, or [INSERT]. *)
Definition save_transaction (t : Transaction) : App Transaction :=
  d ← get_db;
  raise_if (transaction_error (List.filter (λ u, negb (same_id t u)) (db_transactions d)) t) ;;
  put_db (d <| db_transactions := upsert same_id t (db_transactions d) |>) ;;
  mret t.

(** [repository.save] of an entity that has no identifier yet. *)
Definition insert_transaction `{Entropy} (t : Transaction) : App Transaction :=
  id ← draw_uuid;
  date ← now;
  d ← get_db;
  let t := t <| tx_id := id |> <| tx_createdAt := date |> in
  raise_if (if existsb (same_id t) (db_transactions d)
            then Some (QueryFailedError PG_UNIQUE_VIOLATION "PK_transactions") else None) ;;
  raise_if (transaction_error (db_transactions d) t) ;;
  put_db (d <| db_transactions := db_transactions d ++ [t] |>) ;;
  mret t.

(** The first error of an [UPDATE ... SET f WHERE p]. *)
Definition update_error (p : Transaction → bool) (f : Transaction → Transaction)
    (rows : list Transaction) : option GatewayError :=
  let rows' := update_where p f rows in
  head (omap (λ t, transaction_error (List.filter (λ u, negb (same_id t u)) rows') t)
          (f <$> List.filter p rows)).

(** [UPDATE transactions SET f WHERE p]; answers [outcome.affected]. *)
Definition update_transactions (p : Transaction → bool) (f : Transaction → Transaction) :
    App nat :=
  d ← get_db;
  raise_if (update_error p f (db_transactions d)) ;;
  put_db (d <| db_transactions := update_where p f (db_transactions d) |>) ;;
  mret (affected p (db_transactions d)).

Definition find_transaction (p : Transaction → bool) : App (option Transaction) :=
  d ← get_db; mret (List.find p (db_transactions d)).

Definition find_transaction_or_fail (p : Transaction → bool) : App Transaction :=
  o ← find_transaction p; ret_option o (EntityNotFoundError "Transaction").

Definition by_reference (reference : string) (t : Transaction) : bool :=
  str_eqb (tx_reference t) reference.
Definition by_id (id : string) (t : Transaction) : bool := str_eqb (tx_id t) id.

(** * [transaction_events] *)

Definition OPENING_EVENTS : list TransactionEventType :=
  [TransactionEventType.TRANSFER_INITIATED; TransactionEventType.PAYMENT_INITIATED].

Definition CHK_transaction_events_closure (d : SerializableEvent) : option bool :=
  let type := Some (se_eventType d) in
  sql_or
    (sql_and (sql_and (sql_eq type TransactionEventType.CASE_CLOSED)
                ((λ n, 1 <? n) <$> se_closureEventCount d))
       (is_bytes32 <$> se_closureChainHead d))
    (sql_and (sql_and (sql_ne type TransactionEventType.CASE_CLOSED)
                (sql_is_null (se_closureEventCount d)))
       (sql_is_null (se_closureChainHead d))).

Definition no_parties (d : SerializableEvent) : option bool :=
  sql_and (sql_and (sql_and (sql_and
    (sql_is_null (se_debtorIban d)) (sql_is_null (se_debtorName d)))
    (sql_is_null (se_creditorIban d))) (sql_is_null (se_creditorName d)))
    (sql_is_null (se_endToEndLabel d)).

Definition CHK_transaction_events_parties (d : SerializableEvent) : option bool :=
  let opening := sql_in (Some (se_eventType d)) OPENING_EVENTS in
  let set {A} (column : option A) := negb <$> sql_is_null column in
  sql_or
    (sql_and opening
       (sql_or (sql_and (sql_eq (se_recordFormatVersion d) "1.0") (no_parties d))
          (sql_and (sql_and (set (se_debtorIban d)) (set (se_creditorIban d)))
             (set (se_creditorName d)))))
    (sql_and (negb <$> opening) (no_parties d)).

Definition CHK_transaction_events_actor_context (d : SerializableEvent) : option bool :=
  let set {A} (column : option A) := negb <$> sql_is_null column in
  sql_or
    (sql_and (sql_and (sql_is_null (se_actorId d)) (sql_is_null (se_actorRole d)))
       (sql_is_null (se_actionOrigin d)))
    (sql_and (sql_and (set (se_actorId d)) (set (se_actorRole d))) (set (se_actionOrigin d))).

Definition event_reference (e : TransactionEvent) : string :=
  se_transactionReference (ev_data e).
Definition event_type (e : TransactionEvent) : TransactionEventType := se_eventType (ev_data e).
Definition event_sequence (e : TransactionEvent) : Z := se_sequence (ev_data e).
Definition of_reference (reference : string) (e : TransactionEvent) : bool :=
  str_eqb (event_reference e) reference.

Definition is_closing (e : TransactionEvent) : bool :=
  bool_decide (event_type e = TransactionEventType.CASE_CLOSED).

(** The error PostgreSQL raises on inserting a fact.  An identifier already taken
    would make [save] an [UPDATE], which the append-only trigger rejects. *)
Definition event_error (d : Db) (e : TransactionEvent) : option GatewayError :=
  let chain := List.filter (of_reference (event_reference e)) (db_events d) in
  if existsb (λ f, str_eqb (se_id (ev_data f)) (se_id (ev_data e))) (db_events d) then
    Some (QueryFailedError PG_RESTRICT_VIOLATION "trg_transaction_events_append_only")
  else if negb (event_fits e) then Some (QueryFailedError PG_STRING_TRUNCATION "")
  else if negb (check_passes (CHK_transaction_events_closure (ev_data e))) then
    Some (QueryFailedError PG_CHECK_VIOLATION "CHK_transaction_events_closure")
  else if negb (check_passes (CHK_transaction_events_parties (ev_data e))) then
    Some (QueryFailedError PG_CHECK_VIOLATION "CHK_transaction_events_parties")
  else if negb (check_passes (CHK_transaction_events_actor_context (ev_data e))) then
    Some (QueryFailedError PG_CHECK_VIOLATION "CHK_transaction_events_actor_context")
  else if existsb (λ f, event_sequence f =? event_sequence e) chain then
    Some (QueryFailedError PG_UNIQUE_VIOLATION "uq_transaction_events_sequence")
  else if is_closing e && existsb is_closing chain then
    Some (QueryFailedError PG_UNIQUE_VIOLATION "uq_transaction_events_case_closed")
  else if negb (existsb (by_reference (event_reference e)) (db_transactions d)) then
    Some (QueryFailedError PG_FOREIGN_KEY_VIOLATION "FK_transaction_events_transaction")
  else None.

Definition insert_event (e : TransactionEvent) : App TransactionEvent :=
  d ← get_db;
  raise_if (event_error d e) ;;
  put_db (d <| db_events := db_events d ++ [e] |>) ;;
  mret e.

(** What [transaction_events_append_only] compares: all but the anchoring columns. *)
Definition facts_of (e : TransactionEvent) : SerializableEvent * string * string * Z :=
  (ev_data e, ev_fingerprint e, ev_fingerprintSalt e, ev_createdAt e).

#[export] Instance SerializableEvent_eq_dec : EqDecision SerializableEvent.
Proof. solve_decision. Defined.

Definition update_events (p : TransactionEvent → bool)
    (f : TransactionEvent → TransactionEvent) : App nat :=
  d ← get_db;
  throw_unless (forallb (λ e, negb (p e) || bool_decide (facts_of (f e) = facts_of e)) (db_events d))
    (QueryFailedError PG_RESTRICT_VIOLATION "trg_transaction_events_append_only") ;;
  put_db (d <| db_events := update_where p f (db_events d) |>) ;;
  mret (affected p (db_events d)).

(** * [journal_entries] *)

Definition total (direction : EntryDirection) (lines : list PostingLine) : Z :=
  foldr (λ l acc, (if bool_decide (pl_direction l = direction) then pl_amount l else 0) + acc)
    0 lines.

(** [journal_entries_balanced]: not empty, and as much debited as credited. *)
Definition entry_balanced (e : JournalEntry) : bool :=
  let debits := total EntryDirection.DEBIT (je_lines e) in
  let credits := total EntryDirection.CREDIT (je_lines e) in
  negb ((debits =? 0) && (credits =? 0)) && (debits =? credits).

Definition entry_error (d : Db) (e : JournalEntry) : option GatewayError :=
  if negb (fits 128 (je_correlationId e) && fits 3 (je_currency e) && fits 256 (je_narration e))
  then Some (QueryFailedError PG_STRING_TRUNCATION "")
  else if existsb (λ f, str_eqb (je_eventId f) (je_eventId e)) (db_entries d) then
    Some (QueryFailedError PG_UNIQUE_VIOLATION "uq_journal_entries_event")
  else if negb (existsb (λ f, str_eqb (se_id (ev_data f)) (je_eventId e)) (db_events d)) then
    Some (QueryFailedError PG_FOREIGN_KEY_VIOLATION "FK_journal_entries_event")
  else if existsb (λ l, pl_amount l <=? 0) (je_lines e) then
    Some (QueryFailedError PG_CHECK_VIOLATION "CHK_journal_lines_amount_positive")
  else None.

Definition insert_entry `{Entropy} (e : JournalEntry) : App JournalEntry :=
  id ← draw_uuid;
  d ← get_db;
  let e := e <| je_id := id |> in
  raise_if (entry_error d e) ;;
  put_db (d <| db_entries := db_entries d ++ [e] |>) ;;
  mret e.

(** * SQL transactions *)

(** [dataSource.transaction(m)]: all or nothing on the database, and the balance
    triggers, deferred to the commit, look at the entries the transaction added. *)
Definition transaction {A} (m : App A) : App A :=
  atomic w_db (λ d w, w <| w_db := d |>)
    (before ← gets (λ w, length (db_entries (w_db w)));
     a ← m;
     added ← gets (λ w, drop before (db_entries (w_db w)));
     throw_unless (forallb entry_balanced added)
       (QueryFailedError PG_RESTRICT_VIOLATION "trg_journal_entries_balanced") ;;
     mret a).

(** * [refunds] *)

Definition same_refund (r s : Refund) : bool :=
  str_eqb (rf_transactionReference r) (rf_transactionReference s).

Definition refund_fits (r : Refund) : bool :=
  fits_opt 512 (rf_reason r) && fits 64 (rf_providerIdempotencyKey r)
  && fits_opt 64 (rf_providerRefundReference r) && fits_opt 1024 (rf_lastError r)
  && fits 3 (rf_currency r) && fits_opt 128 (rf_createdBy r)
  && fits_opt 128 (rf_lastRequestedBy r) && fits_opt 128 (rf_lastApprovedBy r)
  && fits 128 (rf_correlationId r).

Definition insert_refund (r : Refund) : App Refund :=
  d ← get_db;
  date ← now;
  throw_unless (refund_fits r) (QueryFailedError PG_STRING_TRUNCATION "") ;;
  throw_unless (negb (existsb (same_refund r) (db_refunds d)))
    (QueryFailedError PG_UNIQUE_VIOLATION "idx_refunds_transaction_reference") ;;
  throw_unless (negb (existsb
      (λ s, str_eqb (rf_providerIdempotencyKey r) (rf_providerIdempotencyKey s)) (db_refunds d)))
    (QueryFailedError PG_UNIQUE_VIOLATION "UQ_refunds_provider_idempotency_key") ;;
  throw_unless (existsb (by_reference (rf_transactionReference r)) (db_transactions d))
    (QueryFailedError PG_FOREIGN_KEY_VIOLATION "FK_refunds_transaction") ;;
  let r := r <| rf_updatedAt := date |> in
  put_db (d <| db_refunds := db_refunds d ++ [r] |>) ;;
  mret r.

Definition save_refund (r : Refund) : App Refund :=
  d ← get_db;
  date ← now;
  throw_unless (refund_fits r) (QueryFailedError PG_STRING_TRUNCATION "") ;;
  let r := r <| rf_updatedAt := date |> in
  put_db (d <| db_refunds := upsert same_refund r (db_refunds d) |>) ;;
  mret r.

Definition find_refund (reference : string) : App (option Refund) :=
  d ← get_db;
  mret (List.find (λ r, str_eqb (rf_transactionReference r) reference) (db_refunds d)).

(** * [bank_instructions] *)

Definition same_instruction (i j : BankInstruction) : bool :=
  str_eqb (bi_transactionReference i) (bi_transactionReference j).

Definition instruction_fits (i : BankInstruction) : bool :=
  fits_opt 1024 (bi_lastError i) && fits 128 (bi_correlationId i).

Definition insert_instruction (i : BankInstruction) : App BankInstruction :=
  d ← get_db;
  date ← now;
  throw_unless (instruction_fits i) (QueryFailedError PG_STRING_TRUNCATION "") ;;
  throw_unless (negb (existsb (same_instruction i) (db_instructions d)))
    (QueryFailedError PG_UNIQUE_VIOLATION "UQ_bank_instructions_transaction") ;;
  throw_unless (existsb (by_reference (bi_transactionReference i)) (db_transactions d))
    (QueryFailedError PG_FOREIGN_KEY_VIOLATION "FK_bank_instructions_transaction") ;;
  let i := i <| bi_updatedAt := date |> in
  put_db (d <| db_instructions := db_instructions d ++ [i] |>) ;;
  mret i.

Definition save_instruction (i : BankInstruction) : App BankInstruction :=
  d ← get_db;
  date ← now;
  throw_unless (instruction_fits i) (QueryFailedError PG_STRING_TRUNCATION "") ;;
  let i := i <| bi_updatedAt := date |> in
  put_db (d <| db_instructions := upsert same_instruction i (db_instructions d) |>) ;;
  mret i.

(** * [mobile_money_webhook_events] *)

Definition same_webhook (e f : MobileMoneyWebhookEvent) : bool :=
  str_eqb (wh_eventId e) (wh_eventId f).

Definition insert_webhook (e : MobileMoneyWebhookEvent) : App MobileMoneyWebhookEvent :=
  d ← get_db;
  date ← now;
  throw_unless (fits 128 (wh_eventId e) && fits 64 (wh_aggregatorReference e))
    (QueryFailedError PG_STRING_TRUNCATION "") ;;
  throw_unless (negb (existsb (same_webhook e) (db_webhooks d)))
    (QueryFailedError PG_UNIQUE_VIOLATION "UQ_mm_webhook_event_id") ;;
  let e := e <| wh_updatedAt := date |> in
  put_db (d <| db_webhooks := db_webhooks d ++ [e] |>) ;;
  mret e.

Definition save_webhook (e : MobileMoneyWebhookEvent) : App MobileMoneyWebhookEvent :=
  d ← get_db;
  date ← now;
  throw_unless (fits_opt 1024 (wh_failureReason e)) (QueryFailedError PG_STRING_TRUNCATION "") ;;
  let e := e <| wh_updatedAt := date |> in
  put_db (d <| db_webhooks := upsert same_webhook e (db_webhooks d) |>) ;;
  mret e.

Definition find_webhook_or_fail (eventId : string) : App MobileMoneyWebhookEvent :=
  d ← get_db;
  ret_option (List.find (λ e, str_eqb (wh_eventId e) eventId) (db_webhooks d))
    (EntityNotFoundError "MobileMoneyWebhookEvent").

Definition update_webhooks (p : MobileMoneyWebhookEvent → bool)
    (f : MobileMoneyWebhookEvent → MobileMoneyWebhookEvent) : App nat :=
  d ← get_db;
  date ← now;
  put_db (d <| db_webhooks :=
    update_where p (λ e, (f e) <| wh_updatedAt := date |>) (db_webhooks d) |>) ;;
  mret (affected p (db_webhooks d)).

(** * [anchor_batches] *)

Definition same_batch (a b : AnchorBatch) : bool := str_eqb (ab_id a) (ab_id b).

Definition save_batch (b : AnchorBatch) : App AnchorBatch :=
  d ← get_db;
  throw_unless (fits_opt 1024 (ab_lastError b)) (QueryFailedError PG_STRING_TRUNCATION "") ;;
  put_db (d <| db_batches := upsert same_batch b (db_batches d) |>) ;;
  mret b.

Definition insert_batch `{Entropy} (b : AnchorBatch) : App AnchorBatch :=
  id ← draw_uuid;
  date ← now;
  d ← get_db;
  let b := b <| ab_id := id |> <| ab_createdAt := date |> in
  throw_unless (negb (existsb (same_batch b) (db_batches d)))
    (QueryFailedError PG_UNIQUE_VIOLATION "PK_anchor_batches") ;;
  throw_unless (fits_opt 1024 (ab_lastError b)) (QueryFailedError PG_STRING_TRUNCATION "") ;;
  put_db (d <| db_batches := db_batches d ++ [b] |>) ;;
  mret b.

Definition find_batch (id : string) : App (option AnchorBatch) :=
  d ← get_db; mret (List.find (λ b, str_eqb (ab_id b) id) (db_batches d)).

(** * What the operations change *)

(** Relations between the databases before and after a computation. *)
Definition on_db (R : Db → Db → Prop) (w w' : World) : Prop := R (w_db w) (w_db w').

#[export] Instance on_db_preorder R `{!PreOrder R} : PreOrder (on_db R).
Proof. split; unfold on_db; [intros w; reflexivity|intros w1 w2 w3 ??; by etrans]. Qed.

(** ** One computation from one state *)

Lemma at_bind {A B} R `{!PreOrder R} (m : App A) (k : A → App B) w :
  on_db R w (m w).2 →
  (∀ a w', m w = (Return a, w') → on_db R w' (k a w').2) →
  on_db R w ((m ≫= k) w).2.
Proof.
  intros Hm Hk. unfold mbind, Eff_bind. destruct (m w) as [[a|e] w'] eqn:E; simpl in *; [|done].
  etrans; [exact Hm|]. by apply Hk.
Qed.

Lemma at_transaction {A} R `{!PreOrder R} (m : App A) w :
  on_db R w (m w).2 → on_db R w (transaction m w).2.
Proof.
  intros Hm. unfold transaction, atomic, mbind, Eff_bind. cbn [gets].
  destruct (m w) as [[a|e] w']; unfold throw_unless; simpl in *; [|unfold on_db; simpl; reflexivity].
  destruct (forallb _ _); simpl; [exact Hm|unfold on_db; simpl; reflexivity].
Qed.

Lemma at_raise_if R `{!PreOrder R} o w : on_db R w (raise_if o w).2.
Proof. destruct o; unfold on_db; simpl; reflexivity. Qed.

Lemma raise_if_return o w w' : raise_if o w = (Return tt, w') → o = None ∧ w' = w.
Proof. destruct o; [done|]. by intros [= ->]. Qed.

(** ** Operations that read, and draws, leave the database alone *)

Section reading.
Context (R : Db → Db → Prop) `{!PreOrder R}.

Lemma now_respects : Respects (on_db R) now.
Proof. unfold now. respects. Qed.

Lemma getCorrelationId_respects : Respects (on_db R) getCorrelationId.
Proof. unfold getCorrelationId. respects. Qed.

Lemma get_db_respects : Respects (on_db R) get_db.
Proof. unfold get_db. respects. Qed.

Lemma next_draw_respects : Respects (on_db R) next_draw.
Proof. intros w. unfold on_db. simpl. reflexivity. Qed.

Lemma draw_uuid_respects `{Entropy} : Respects (on_db R) draw_uuid.
Proof. intros w. unfold on_db. simpl. reflexivity. Qed.

Lemma draw_bytes_respects `{Entropy} len : Respects (on_db R) (draw_bytes len).
Proof. intros w. unfold on_db. simpl. reflexivity. Qed.

Lemma call_respects c : Respects (on_db R) (call c).
Proof. intros w. unfold on_db. simpl. reflexivity. Qed.

Lemma raise_if_respects o : Respects (on_db R) (raise_if o).
Proof. intros w. by apply at_raise_if. Qed.

Lemma transaction_respects {A} (m : App A) :
  Respects (on_db R) m → Respects (on_db R) (transaction m).
Proof. intros Hm w. apply at_transaction; [done|apply Hm]. Qed.
End reading.

#[export] Hint Resolve now_respects getCorrelationId_respects get_db_respects next_draw_respects
  draw_uuid_respects draw_bytes_respects call_respects raise_if_respects : effects.
#[export] Hint Resolve transaction_respects : effects.

Ltac respects_more ::=
  lazymatch goal with
  | |- Respects _ (transaction _) => respects_apply @transaction_respects
  end.
