(* ===== verification/Ledger.v ===== *)
(** Double-entry accounting: [src/accounting/].

    [POSTING_RULES] is the accounting consequence of each fact, [post] the service
    that writes it, [trialBalance] the balance sheet.  Every rule is proved
    balanced, the paths of a payment are proved to extinguish what is owed, and a
    balance sheet over balanced entries is proved to close at zero. *)
From S2P Require Import Prelude Text Domain Money External Database.
Open Scope Z_scope.

(** * Accounts *)

Definition ACCOUNT_KINDS (account : LedgerAccount) : AccountKind :=
  match account with
  | LedgerAccount.PROVIDER_FLOAT | LedgerAccount.SETTLEMENT => AccountKind.ASSET
  | LedgerAccount.CREDITOR_PAYABLE | LedgerAccount.PAYER_PAYABLE => AccountKind.LIABILITY
  | LedgerAccount.FEE_REVENUE => AccountKind.REVENUE
  end.

Definition balanceOf (account : LedgerAccount) (debits credits : Z) : Z :=
  if bool_decide (ACCOUNT_KINDS account = AccountKind.ASSET)
  then debits - credits else credits - debits.

(** * Posting rules *)

Record PostingContext := mkPostingContext {
  pc_ordered : Z;
  pc_observed : option Z;
  pc_fee : Z
}.

Record PostingRule := mkPostingRule {
  pr_narration : string;
  pr_lines : PostingContext → list PostingLine
}.

Definition debit (account : LedgerAccount) (amount : Z) : PostingLine :=
  mkPostingLine account EntryDirection.DEBIT amount.

Definition credit (account : LedgerAccount) (amount : Z) : PostingLine :=
  mkPostingLine account EntryDirection.CREDIT amount.

Definition withoutZeros (lines : list PostingLine) : list PostingLine :=
  List.filter (λ line, 0 <? pl_amount line) lines.
Arguments withoutZeros : simpl never.

Definition POSTING_RULES (type : TransactionEventType) : option PostingRule :=
  match type with
  | TransactionEventType.PROVIDER_CONFIRMED =>
      Some (mkPostingRule "Encaissement fournisseur, commission retenue" (λ ctx,
        let collected := or_default (pc_observed ctx) (pc_ordered ctx) in
        withoutZeros [
          debit LedgerAccount.PROVIDER_FLOAT collected;
          credit LedgerAccount.CREDITOR_PAYABLE (collected - pc_fee ctx);
          credit LedgerAccount.FEE_REVENUE (pc_fee ctx) ]))
  | TransactionEventType.AMOUNT_MISMATCH_DETECTED =>
      Some (mkPostingRule "Encaissement non conforme : dette envers le payeur" (λ ctx,
        let collected := or_default (pc_observed ctx) (pc_ordered ctx) in
        withoutZeros [
          debit LedgerAccount.PROVIDER_FLOAT collected;
          credit LedgerAccount.PAYER_PAYABLE collected ]))
  | TransactionEventType.SETTLEMENT_SWEPT =>
      Some (mkPostingRule "Rapatriement agregateur vers compte de reglement" (λ ctx,
        let swept := or_default (pc_observed ctx) (pc_ordered ctx) in
        withoutZeros [
          debit LedgerAccount.SETTLEMENT swept;
          credit LedgerAccount.PROVIDER_FLOAT swept ]))
  | TransactionEventType.BANK_PROCESSING_COMPLETED =>
      Some (mkPostingRule "Reglement du beneficiaire" (λ ctx,
        withoutZeros [
          debit LedgerAccount.CREDITOR_PAYABLE (pc_ordered ctx - pc_fee ctx);
          credit LedgerAccount.SETTLEMENT (pc_ordered ctx - pc_fee ctx) ]))
  | TransactionEventType.BANK_PROCESSING_FAILED =>
      Some (mkPostingRule "Echec bancaire : la dette passe du beneficiaire au payeur" (λ ctx,
        withoutZeros [
          debit LedgerAccount.CREDITOR_PAYABLE (pc_ordered ctx - pc_fee ctx);
          debit LedgerAccount.FEE_REVENUE (pc_fee ctx);
          credit LedgerAccount.PAYER_PAYABLE (pc_ordered ctx) ]))
  | TransactionEventType.REFUND_COMPLETED =>
      Some (mkPostingRule "Remboursement du payeur" (λ ctx,
        let refunded := or_default (pc_observed ctx) (pc_ordered ctx) in
        withoutZeros [
          debit LedgerAccount.PAYER_PAYABLE refunded;
          credit LedgerAccount.PROVIDER_FLOAT refunded ]))
  | _ => None
  end.

(** * Posting *)

Definition posting_context (event : SerializableEvent) (transaction : Transaction) :
    PostingContext :=
  mkPostingContext (se_expectedAmount event) (se_observedAmount event) (tx_feeAmount transaction).

(** The entry [post] creates, before the database gives it an identifier. *)
Definition entry_for (event : SerializableEvent) (transaction : Transaction) :
    option JournalEntry :=
  if negb (bool_decide (tx_paymentChannel transaction = PaymentChannel.MOBILE_MONEY)) then None
  else match POSTING_RULES (se_eventType event) with
  | None => None
  | Some rule =>
      let lines := pr_lines rule (posting_context event transaction) in
      if Nat.eqb (length lines) 0 then None
      else Some {|
        je_id := "";
        je_transactionReference := se_transactionReference event;
        je_eventId := se_id event;
        je_eventType := se_eventType event;
        je_narration := pr_narration rule;
        je_currency := se_currency event;
        je_lines := lines;
        je_correlationId := se_correlationId event;
        je_occurredAt := se_occurredAt event
      |}
  end.

Definition post `{Entropy} (event : TransactionEvent) (transaction : Transaction) :
    App (option JournalEntry) :=
  match entry_for (ev_data event) transaction with
  | None => mret None
  | Some entry => saved ← insert_entry entry; mret (Some saved)
  end.

(** * Balance sheet *)

Record AccountBalance := mkAccountBalance {
  acc_account : LedgerAccount;
  acc_debits : Z;
  acc_credits : Z;
  acc_balance : Z
}.

Record TrialBalance := mkTrialBalance {
  tb_accounts : list AccountBalance;
  tb_totalDebits : Z;
  tb_totalCredits : Z;
  tb_difference : Z;
  tb_currency : option string;
  tb_entryCount : nat
}.

(** The accounts in the order of their names ([localeCompare]). *)
Definition sorted_accounts : list LedgerAccount :=
  [LedgerAccount.CREDITOR_PAYABLE; LedgerAccount.FEE_REVENUE; LedgerAccount.PAYER_PAYABLE;
   LedgerAccount.PROVIDER_FLOAT; LedgerAccount.SETTLEMENT].

Definition on_account (account : LedgerAccount) (lines : list PostingLine) : list PostingLine :=
  List.filter (λ l, bool_decide (pl_account l = account)) lines.

Definition account_balance (lines : list PostingLine) (account : LedgerAccount) :
    option AccountBalance :=
  match on_account account lines with
  | [] => None
  | lines =>
      let debits := total EntryDirection.DEBIT lines in
      let credits := total EntryDirection.CREDIT lines in
      Some (mkAccountBalance account (round debits) (round credits)
              (round (balanceOf account debits credits)))
  end.

(** [requestedCurrency?.trim().toUpperCase() || undefined] *)
Definition requested (requestedCurrency : option string) : option string :=
  match (λ c, toUpperCase (trim c)) <$> requestedCurrency with
  | None | Some EmptyString => None
  | Some c => Some c
  end.

(** An empty reference filters nothing, as an absent one. *)
Definition selected (transactionReference : option string) (currency : option string)
    (e : JournalEntry) : bool :=
  match transactionReference with
  | None | Some EmptyString => true
  | Some r => str_eqb (je_transactionReference e) r
  end
  && match currency with None => true | Some c => str_eqb (je_currency e) c end.

Definition has_reference (transactionReference : option string) : bool :=
  match transactionReference with None | Some EmptyString => false | _ => true end.

(** [SELECT DISTINCT entry.currency], in order of first appearance. *)
Definition distinct_currencies (entries : list JournalEntry) : list string :=
  foldl (λ acc e, if existsb (str_eqb (je_currency e)) acc then acc else acc ++ [je_currency e])
    [] entries.

Definition sum_by {A} (f : A → Z) (l : list A) : Z := foldr (λ a acc, f a + acc) 0 l.

(** The sheet of a selection of entries. *)
Definition balance_sheet (entries : list JournalEntry) (currency : option string) :
    TrialBalance :=
  let lines := mjoin (je_lines <$> entries) in
  let accounts := omap (account_balance lines) sorted_accounts in
  let totalDebits := round (sum_by acc_debits accounts) in
  let totalCredits := round (sum_by acc_credits accounts) in
  mkTrialBalance accounts totalDebits totalCredits (round (totalDebits - totalCredits))
    (match currency with Some c => Some c | None => head (distinct_currencies entries) end)
    (length entries).

Definition trialBalance (transactionReference requestedCurrency : option string) :
    App TrialBalance :=
  d ← get_db;
  let currency := requested requestedCurrency in
  let entries := List.filter (selected transactionReference currency) (db_entries d) in
  let currencies := distinct_currencies entries in
  if negb (bool_decide (is_Some currency)) && negb (has_reference transactionReference)
     && Nat.ltb 1 (length currencies)
  then throw (HttpException 400 "Bad Request")
  else mret (balance_sheet entries currency).

(** * The life of a payment, in entries *)

(** Balance of an account after the postings of a list of facts. *)
Definition balance_after (facts : list (TransactionEventType * PostingContext))
    (account : LedgerAccount) : Z :=
  let lines := mjoin ((λ '(type, ctx),
    match POSTING_RULES type with Some rule => pr_lines rule ctx | None => [] end) <$> facts) in
  balanceOf account (total EntryDirection.DEBIT (on_account account lines))
    (total EntryDirection.CREDIT (on_account account lines)).

(** Sums on which the accounts of a payment can disagree: what was ordered and
    collected, and the fee kept. *)
Definition fee_covered (ctx : PostingContext) : Prop :=
  0 <= pc_fee ctx <= pc_ordered ctx ∧ pc_fee ctx <= or_default (pc_observed ctx) (pc_ordered ctx).

Definition balanced_lines (lines : list PostingLine) : Prop :=
  total EntryDirection.DEBIT lines = total EntryDirection.CREDIT lines
  ∧ Forall (λ l, 0 < pl_amount l) lines.

(** A collection of 10.00, for the witnesses. *)
Definition sample_payment : Transaction :=
  mkTransaction "t1" "TRF-1" None TransactionStatus.PROCESSING PaymentChannel.MOBILE_MONEY
    "CD01" None "CD02" "Beneficiary" 1000 "USD" None None None None None None None None "c" None
    (Some MobileMoneyOperator.MPESA) (Some "243") (Some "AGG-1") (Some ProviderStatus.CONFIRMED)
    (Some BankProcessingStatus.PROCESSING) (Some ReconciliationStatus.PENDING) (Some 1000)
    (Some "USD") 15 (Some 0) None None RefundStatus.NOT_REQUIRED CaseStatus.NONE None 0
    AnchorStatus.NOT_SEALED.
Definition sample_confirmation : SerializableEvent :=
  mkSerializableEvent "f1" TransactionEventType.PROVIDER_CONFIRMED 2 "TRF-1" (Some "AGG-1") None
    (Some ProviderStatus.CONFIRMED) (Some BankProcessingStatus.PROCESSING)
    (Some ReconciliationStatus.PENDING) (Some RefundStatus.NOT_REQUIRED) (Some CaseStatus.NONE)
    1000 (Some 1000) "USD" (Some "USD") 0 "c" None None None None None None None
    None None None None None None.
Definition sample_entry : JournalEntry :=
  mkJournalEntry "e1" "TRF-1" "f1" TransactionEventType.PROVIDER_CONFIRMED
    "Encaissement fournisseur, commission retenue" "USD"
    [debit LedgerAccount.PROVIDER_FLOAT 1000; credit LedgerAccount.CREDITOR_PAYABLE 985;
     credit LedgerAccount.FEE_REVENUE 15] "c" 0.
Definition sample_journal : World :=
  mkWorld (empty_db <| db_entries := [sample_entry] |>) 0 0 "" [].

(** * Lemmas *)

Lemma withoutZeros_positive lines : Forall (λ l, 0 < pl_amount l) (withoutZeros lines).
Proof.
  unfold withoutZeros. induction lines as [|l lines IH]; simpl; [constructor|].
  destruct (0 <? pl_amount l) eqn:E; [|done]. constructor; [by apply Z.ltb_lt|done].
Qed.

Lemma total_withoutZeros direction lines :
  Forall (λ l, 0 <= pl_amount l) lines →
  total direction (withoutZeros lines) = total direction lines.
Proof.
  unfold withoutZeros. induction 1 as [|l lines Hl Hlines IH]; simpl; [done|].
  destruct (0 <? pl_amount l) eqn:E; simpl; rewrite IH; [done|].
  apply Z.ltb_ge in E. case_bool_decide; lia.
Qed.

Lemma total_app direction l1 l2 :
  total direction (l1 ++ l2) = total direction l1 + total direction l2.
Proof. induction l1 as [|l l1 IH]; simpl; [done|]. rewrite IH. lia. Qed.

Lemma total_positive direction lines :
  Forall (λ l, 0 < pl_amount l) lines → 0 <= total direction lines.
Proof. induction 1; simpl; [done|]. case_bool_decide; lia. Qed.

Lemma balanced_entry lines e :
  balanced_lines lines → lines ≠ [] → je_lines e = lines → entry_balanced e = true.
Proof.
  intros [Heq Hpos] Hne Hl. unfold entry_balanced. rewrite Hl, Heq, Z.eqb_refl, andb_true_r.
  apply negb_true_iff, andb_false_iff. right. apply Z.eqb_neq.
  destruct lines as [|l lines]; [done|]. inversion Hpos as [|?? Hamount Hrest]; subst.
  pose proof (total_positive EntryDirection.DEBIT lines Hrest).
  pose proof (total_positive EntryDirection.CREDIT lines Hrest).
  simpl in *. destruct (pl_direction l); simpl in *; lia.
Qed.

(** Two equal amounts cancel, whatever their sign. *)
Lemma pair_balanced a b n :
  total EntryDirection.DEBIT (withoutZeros [debit a n; credit b n])
  = total EntryDirection.CREDIT (withoutZeros [debit a n; credit b n]).
Proof. unfold withoutZeros; simpl. destruct (0 <? n); reflexivity || (simpl; lia). Qed.

Lemma rule_balanced type rule ctx :
  POSTING_RULES type = Some rule → fee_covered ctx → balanced_lines (pr_lines rule ctx).
Proof.
  intros Hrule [Hfee Hcol]. split.
  - destruct type; simplify_eq/=; try apply pair_balanced;
      rewrite !total_withoutZeros by (repeat constructor; simpl; lia); simpl; lia.
  - destruct type; simplify_eq/=; apply withoutZeros_positive.
Qed.

Lemma entry_for_inv event t entry :
  entry_for event t = Some entry →
  ∃ rule, POSTING_RULES (se_eventType event) = Some rule
    ∧ tx_paymentChannel t = PaymentChannel.MOBILE_MONEY
    ∧ je_lines entry = pr_lines rule (posting_context event t)
    ∧ je_lines entry ≠ [] ∧ je_eventId entry = se_id event
    ∧ je_transactionReference entry = se_transactionReference event
    ∧ je_eventType entry = se_eventType event ∧ je_currency entry = se_currency event.
Proof.
  unfold entry_for. case_bool_decide; [|done]. simpl.
  destruct (POSTING_RULES (se_eventType event)) as [rule|] eqn:Hr; [|done].
  destruct (Nat.eqb _ 0) eqn:Hn; [done|]. intros [= <-]. exists rule. simpl.
  split_and!; try done. intros Hnil. by rewrite Hnil in Hn.
Qed.

Lemma entry_for_balanced event t entry :
  fee_covered (posting_context event t) → entry_for event t = Some entry →
  entry_balanced entry = true.
Proof.
  intros Hfee (rule & Hrule & _ & Hlines & Hne & _)%entry_for_inv.
  eapply balanced_entry; [|exact Hne|done]. rewrite Hlines. by eapply rule_balanced.
Qed.

(** Every posting rule is double entry: when the fee is covered by what was
    ordered and collected, the lines a fact posts are strictly positive and debit
    as much as they credit, so the entry [post] writes passes the balance
    trigger and the positivity check of the journal. *)
Theorem postings_are_balanced event t entry :
  fee_covered (posting_context event t) → entry_for event t = Some entry →
  balanced_lines (je_lines entry) ∧ entry_balanced entry = true
  ∧ existsb (λ l, pl_amount l <=? 0) (je_lines entry) = false.
Proof.
  intros Hfee Hentry. split_and!.
  - apply entry_for_inv in Hentry as (rule & Hrule & _ & -> & _). by eapply rule_balanced.
  - by eapply entry_for_balanced.
  - apply entry_for_inv in Hentry as (rule & Hrule & _ & -> & _).
    destruct (rule_balanced _ _ _ Hrule Hfee) as [_ Hpos].
    induction Hpos as [|l lines Hl _ IH]; simpl; [done|]. rewrite IH.
    by replace (pl_amount l <=? 0) with false by (symmetry; apply Z.leb_gt; lia).
Qed.

(** One account of the postings of a path, with the zero lines put back. *)
Lemma total_on_account_positive account direction lines :
  Forall (λ l, 0 <= pl_amount l) lines →
  total direction (on_account account (withoutZeros lines))
  = total direction (on_account account lines).
Proof.
  unfold withoutZeros, on_account. induction 1 as [|l lines Hl Hlines IH]; simpl; [done|].
  destruct (0 <? pl_amount l) eqn:E; simpl; case_bool_decide; simpl; rewrite ?IH; try done.
  apply Z.ltb_ge in E. case_bool_decide; lia.
Qed.

Lemma on_account_app account l1 l2 :
  on_account account (l1 ++ l2) = on_account account l1 ++ on_account account l2.
Proof. apply List.filter_app. Qed.

(** The paths of a payment extinguish what they create.  After the conform
    path (collection, bank settlement, sweep) the gateway holds and has earned
    exactly its fee and owes nothing; after a bank failure it owes the payer the
    whole order and keeps no fee; after the refund, of a failed bank leg or of a
    collection that differs from the order, every account is back to zero. *)
Theorem payment_paths_settle ordered fee observed :
  0 <= fee <= ordered → 0 <= observed →
  let collected := mkPostingContext ordered (Some ordered) fee in
  let executed := mkPostingContext ordered None fee in
  let differing := mkPostingContext ordered (Some observed) 0 in
  (∀ account, balance_after
     [(TransactionEventType.PROVIDER_CONFIRMED, collected);
      (TransactionEventType.BANK_PROCESSING_COMPLETED, executed);
      (TransactionEventType.SETTLEMENT_SWEPT, collected)] account =
     match account with LedgerAccount.SETTLEMENT | LedgerAccount.FEE_REVENUE => fee | _ => 0 end)
  ∧ (∀ account, balance_after
       [(TransactionEventType.PROVIDER_CONFIRMED, collected);
        (TransactionEventType.BANK_PROCESSING_FAILED, executed)] account =
       match account with
       | LedgerAccount.PAYER_PAYABLE | LedgerAccount.PROVIDER_FLOAT => ordered | _ => 0
       end)
  ∧ (∀ account, balance_after
       [(TransactionEventType.PROVIDER_CONFIRMED, collected);
        (TransactionEventType.BANK_PROCESSING_FAILED, executed);
        (TransactionEventType.REFUND_COMPLETED, collected)] account = 0)
  ∧ (∀ account, balance_after
       [(TransactionEventType.AMOUNT_MISMATCH_DETECTED, differing);
        (TransactionEventType.REFUND_COMPLETED, differing)] account = 0).
Proof.
  intros Hfee Hobs collected executed differing.
  split_and!; intros account; unfold balance_after; simpl; rewrite ?app_nil_r;
    rewrite !on_account_app, !total_app;
    rewrite !total_on_account_positive by (repeat constructor; simpl; lia);
    destruct account; simpl; unfold balanceOf; simpl; lia.
Qed.

Lemma payment_paths_settle_witness :
  balance_after
    [(TransactionEventType.PROVIDER_CONFIRMED, mkPostingContext 100000 (Some 100000) 1500);
     (TransactionEventType.BANK_PROCESSING_FAILED, mkPostingContext 100000 None 1500)]
    LedgerAccount.PAYER_PAYABLE = 100000.
Proof.
  destruct (payment_paths_settle 100000 1500 7) as (_ & Hfailed & _); [lia..|].
  apply (Hfailed LedgerAccount.PAYER_PAYABLE).
Defined.

(** ** The balance sheet *)

Lemma account_balance_totals lines account :
  match account_balance lines account with
  | Some b => acc_debits b = total EntryDirection.DEBIT (on_account account lines)
              ∧ acc_credits b = total EntryDirection.CREDIT (on_account account lines)
  | None => total EntryDirection.DEBIT (on_account account lines) = 0
            ∧ total EntryDirection.CREDIT (on_account account lines) = 0
  end.
Proof.
  unfold account_balance. destruct (on_account account lines); [done|].
  cbn [acc_debits acc_credits]. by rewrite !round_id.
Qed.

Lemma sum_by_accounts lines accounts :
  sum_by acc_debits (omap (account_balance lines) accounts)
    = sum_by (λ a, total EntryDirection.DEBIT (on_account a lines)) accounts
  ∧ sum_by acc_credits (omap (account_balance lines) accounts)
    = sum_by (λ a, total EntryDirection.CREDIT (on_account a lines)) accounts.
Proof.
  induction accounts as [|a accounts [IHd IHc]]; [done|].
  pose proof (account_balance_totals lines a) as Ha. cbn [omap list_omap].
  destruct (account_balance lines a) as [b|]; cbn [sum_by foldr];
    destruct Ha as [Hd Hc]; unfold sum_by in *; lia.
Qed.

(** No line escapes the five accounts. *)
Lemma total_by_account direction lines :
  sum_by (λ a, total direction (on_account a lines)) sorted_accounts = total direction lines.
Proof.
  induction lines as [|l lines IH]; [done|]. unfold sum_by in *. cbn [foldr sorted_accounts] in *.
  unfold on_account in *. cbn [List.filter].
  destruct l as [[] d a]; cbn [pl_account]; repeat case_bool_decide; try done; simpl in *; lia.
Qed.

Lemma total_entries entries :
  Forall (λ e, entry_balanced e = true) entries →
  total EntryDirection.DEBIT (mjoin (je_lines <$> entries))
  = total EntryDirection.CREDIT (mjoin (je_lines <$> entries)).
Proof.
  induction 1 as [|e entries He _ IH]; [done|].
  change (mjoin (je_lines <$> e :: entries)) with (je_lines e ++ mjoin (je_lines <$> entries)).
  rewrite !total_app, IH. unfold entry_balanced in He.
  apply andb_true_iff in He as [_ He%Z.eqb_eq]. by rewrite He.
Qed.

Lemma Forall_list_filter {A} (P : A → Prop) (q : A → bool) l :
  Forall P l → Forall P (List.filter q l).
Proof. induction 1; simpl; [constructor|]. case_match; [by constructor|done]. Qed.

Lemma balance_sheet_totals entries currency :
  tb_totalDebits (balance_sheet entries currency)
    = total EntryDirection.DEBIT (mjoin (je_lines <$> entries))
  ∧ tb_totalCredits (balance_sheet entries currency)
    = total EntryDirection.CREDIT (mjoin (je_lines <$> entries)).
Proof.
  unfold balance_sheet. cbn [tb_totalDebits tb_totalCredits]. rewrite !round_id.
  destruct (sum_by_accounts (mjoin (je_lines <$> entries)) sorted_accounts) as [Hd Hc].
  by rewrite Hd, Hc, !total_by_account.
Qed.

(** The balance sheet closes: over a journal whose entries are balanced, every
    balance sheet, of a transaction, of a currency or of the whole journal, shows
    a difference of zero and totals that are those of the selected lines; the
    only refusal is the sheet of the whole journal over several currencies. *)
Theorem trial_balance_closes reference currency w :
  Forall (λ e, entry_balanced e = true) (db_entries (w_db w)) →
  let entries := List.filter (selected reference (requested currency)) (db_entries (w_db w)) in
  match trialBalance reference currency w with
  | (Return tb, w') =>
      w' = w ∧ tb_difference tb = 0 ∧ tb_entryCount tb = length entries
      ∧ tb_totalDebits tb = total EntryDirection.DEBIT (mjoin (je_lines <$> entries))
      ∧ tb_totalCredits tb = total EntryDirection.CREDIT (mjoin (je_lines <$> entries))
  | (Throw e, w') =>
      w' = w ∧ e = HttpException 400 "Bad Request" ∧ requested currency = None
      ∧ has_reference reference = false ∧ (1 < length (distinct_currencies entries))%nat
  end.
Proof.
  intros Hall entries. unfold trialBalance. erewrite bind_return by reflexivity.
  cbv zeta. fold entries.
  destruct (negb (bool_decide (is_Some (requested currency))) && negb (has_reference reference)
            && Nat.ltb 1 (length (distinct_currencies entries))) eqn:Hguard.
  - apply andb_true_iff in Hguard as [[Hc Hr]%andb_true_iff Hl%Nat.leb_le].
    apply negb_true_iff in Hc, Hr. apply bool_decide_eq_false in Hc.
    simpl. split_and!; try done. destruct (requested currency); [|done]. destruct Hc; by eexists.
  - destruct (balance_sheet_totals entries (requested currency)) as [Hd Hc].
    change ((mret (balance_sheet entries (requested currency)) : App TrialBalance) w)
      with (Return (E := GatewayError) (balance_sheet entries (requested currency)), w).
    cbv beta iota. split_and!; [done| |done|exact Hd|exact Hc].
    change (round (tb_totalDebits (balance_sheet entries (requested currency))
              - tb_totalCredits (balance_sheet entries (requested currency))) = 0).
    rewrite Hd, Hc, (total_entries entries), round_id; [lia|]. by apply Forall_list_filter.
Qed.

Lemma trial_balance_closes_witness :
  Forall (λ e, entry_balanced e = true) (db_entries (w_db sample_journal))
  ∧ ∃ tb, trialBalance None (Some " usd ") sample_journal = (Return tb, sample_journal)
          ∧ tb_difference tb = 0 ∧ tb_totalDebits tb = 1000.
Proof.
  assert (Hall : Forall (λ e, entry_balanced e = true) (db_entries (w_db sample_journal)))
    by (constructor; [reflexivity|constructor]).
  split; [exact Hall|].
  pose proof (trial_balance_closes None (Some " usd ") sample_journal Hall) as Hclose.
  destruct (trialBalance None (Some " usd ") sample_journal) as [[tb|e] w'] eqn:Hrun.
  - destruct Hclose as (-> & Hdiff & _ & Hdebits & _).
    exists tb. split; [reflexivity|]. split; [exact Hdiff|]. rewrite Hdebits. reflexivity.
  - vm_compute in Hrun. discriminate Hrun.
Defined.

Lemma postings_are_balanced_witness :
  ∃ event t entry,
    fee_covered (posting_context event t) ∧ entry_for event t = Some entry
    ∧ balanced_lines (je_lines entry).
Proof.
  exists sample_confirmation, sample_payment, (sample_entry <| je_id := "" |>).
  assert (Hfee : fee_covered (posting_context sample_confirmation sample_payment))
    by (vm_compute; intuition discriminate).
  assert (Hentry : entry_for sample_confirmation sample_payment = Some (sample_entry <| je_id := "" |>))
    by reflexivity.
  split; [exact Hfee|]. split; [exact Hentry|].
  apply (postings_are_balanced sample_confirmation sample_payment _ Hfee Hentry).
Defined.
