(* ===== verification/EventLedger.v ===== *)
(** The append-only register of facts: [src/events/transaction-events.service.ts].

    [record] seals a fact, chains it to the last one of its transaction and posts
    its accounting consequence; [closeCase] ends a chain by a fact that declares
    its length.  Other sessions may commit between the reading of the chain and
    the insertion: [record_under] takes what they do at each attempt as an
    argument, and [record] is the case where they do nothing.

    The specification is an abstract ledger: [ledger_step] appends one sealed fact
    that follows the last of its transaction, or one entry of a fact, or touches
    neither.  Every operation is proved to refine runs of it. *)
From S2P Require Import Prelude Domain StateMachine Money External Fingerprint EventXml.
From S2P Require Import Database Ledger.
Open Scope Z_scope.

(** * Validation: [src/xml/xsd-validator.service.ts] *)

Module SCHEMAS.
Definition transactionEvent : string := "transaction-event.xsd".
Definition transferRequest : string := "transfer-request.xsd".
End SCHEMAS.

Definition validate `{XsdEngine} (xml schemaName : string) : list string :=
  validateXML schemaName xml.

Definition assertValid `{XsdEngine} (xml schemaName : string) : App unit :=
  let violations := validate xml schemaName in
  if Nat.ltb 0 (length violations) then throw (XsdValidationException schemaName violations)
  else mret tt.

(** * Reading the register *)

Definition chain_of (reference : string) (d : Db) : list TransactionEvent :=
  sort_by event_sequence (List.filter (of_reference reference) (db_events d)).

Definition findChain (reference : string) : App (list TransactionEvent) :=
  d ← get_db; mret (chain_of reference d).

Definition findLatest (reference : string) : App (option TransactionEvent) :=
  d ← get_db; mret (list.last (chain_of reference d)).

Definition rebuildDocument (event : TransactionEvent) : string := build (ev_data event).

(** * Recording *)

Definition MAX_SEQUENCE_ATTEMPTS : nat := 5.

Record RecordEventInput := mkRecordEventInput {
  ri_type : TransactionEventType;
  ri_transaction : Transaction;
  ri_observedAmount : option Z;
  ri_observedCurrency : option string;
  ri_detail : option string;
  ri_occurredAt : option Z;
  ri_actorId : option string;
  ri_actorRole : option EventActorRole;
  ri_actionOrigin : option EventActionOrigin
}.
#[export] Instance eta_RecordEventInput : Eta RecordEventInput :=
  λ r, mkRecordEventInput (ri_type r) (ri_transaction r) (ri_observedAmount r)
    (ri_observedCurrency r) (ri_detail r) (ri_occurredAt r) (ri_actorId r) (ri_actorRole r)
    (ri_actionOrigin r).

(** The input of the callers that only give a type, a transaction and a detail. *)
Definition event_input (type : TransactionEventType) (transaction : Transaction)
    (detail : option string) : RecordEventInput :=
  mkRecordEventInput type transaction None None detail None None None None.

Definition next_sequence (previous : option TransactionEvent) : Z :=
  default 0 (event_sequence <$> previous) + 1.

Definition draft (input : RecordEventInput) (previous : option TransactionEvent)
    (id : string) (date : Z) (correlation : string) : SerializableEvent :=
  let t := ri_transaction input in
  let isClosing := bool_decide (ri_type input = TransactionEventType.CASE_CLOSED) in
  let isOpening := bool_decide (ri_type input ∈ OPENING_EVENTS) in
  {|
    se_id := id;
    se_eventType := ri_type input;
    se_sequence := next_sequence previous;
    se_transactionReference := tx_reference t;
    se_providerReference := tx_aggregatorReference t;
    se_bankReference := tx_soapOperation t;
    se_providerStatus := tx_providerStatus t;
    se_bankStatus := tx_bankStatus t;
    se_reconciliationStatus := tx_reconciliationStatus t;
    se_refundStatus := Some (tx_refundStatus t);
    se_caseStatus := Some (tx_caseStatus t);
    se_expectedAmount := tx_amount t;
    se_observedAmount := ri_observedAmount input;
    se_currency := tx_currency t;
    se_observedCurrency := ri_observedCurrency input;
    se_occurredAt := or_default (ri_occurredAt input) date;
    se_correlationId := if truthy (Some (tx_correlationId t)) then tx_correlationId t
                        else correlation;
    se_detail := ri_detail input;
    se_actorId := ri_actorId input;
    se_actorRole := ri_actorRole input;
    se_actionOrigin := ri_actionOrigin input;
    se_previousFingerprint := ev_fingerprint <$> previous;
    se_closureEventCount := if isClosing then Some (next_sequence previous) else None;
    se_closureChainHead := if isClosing then ev_fingerprint <$> previous else None;
    se_debtorIban := if isOpening then Some (tx_debtorIban t) else None;
    se_debtorName := if isOpening then tx_debtorName t else None;
    se_creditorIban := if isOpening then Some (tx_creditorIban t) else None;
    se_creditorName := if isOpening then Some (tx_creditorName t) else None;
    se_endToEndLabel := if isOpening then tx_endToEndLabel t else None;
    se_recordFormatVersion := None
  |}.

Definition isSequenceCollision (e : GatewayError) : bool :=
  match e with
  | QueryFailedError code constraint =>
      str_eqb code PG_UNIQUE_VIOLATION && includes "sequence" constraint
  | _ => false
  end.

Definition isUniqueViolation (e : GatewayError) : bool :=
  match e with QueryFailedError code _ => str_eqb code PG_UNIQUE_VIOLATION | _ => false end.

(** [SAVEPOINT] around the insertion when an SQL transaction is active. *)
Definition savepoint {A} (nested : bool) (m : App A) : App A :=
  if nested then atomic w_db (λ d w, w <| w_db := d |>) m else m.

Section EventLedger.
Context {HH : Hashing} {HX : XsdEngine} {HE : Entropy}.

(** The row built from a draft. *)
Definition sealed_row (d : SerializableEvent) (fingerprint salt : string) (date : Z) :
    TransactionEvent := {|
  ev_data := d <| se_recordFormatVersion := Some EVENT_RECORD_FORMAT_VERSION |>;
  ev_fingerprint := fingerprint;
  ev_fingerprintSalt := salt;
  ev_anchorStatus := AnchorStatus.PENDING;
  ev_batchId := None;
  ev_leafIndex := None;
  ev_merkleProof := None;
  ev_createdAt := date
|}.

(** The [try] block: the fact and its accounting entry.  Outside a transaction
    each [save] commits on its own, the entry with its deferred checks. *)
Definition insert_body (nested : bool) (event : TransactionEvent) (t : Transaction) :
    App TransactionEvent :=
  saved ← insert_event event;
  (if nested then post saved t else transaction (post saved t)) ;;
  mret saved.

Definition insert_fact (nested : bool) (event : TransactionEvent) (t : Transaction) :
    App TransactionEvent :=
  savepoint nested (insert_body nested event t).

(** What one turn of the loop prepares, from the chain as it reads it. *)
Definition prepare_fact (input : RecordEventInput) : App TransactionEvent :=
  previous ← findLatest (tx_reference (ri_transaction input));
  id ← draw_uuid;
  date ← now;
  correlation ← getCorrelationId;
  let d := draft input previous id date correlation in
  let xml := build d in
  assertValid xml SCHEMAS.transactionEvent ;;
  bytes ← draw_bytes SALT_BYTES;
  let salt := generateSalt bytes in
  fingerprint ← computeFingerprint salt xml;
  mret (sealed_row d fingerprint salt date).

(** The [for] loop, with [fuel] attempts left. *)
Fixpoint record_loop (nested : bool) (interfere : nat → Db → Db) (input : RecordEventInput)
    (fuel : nat) : App TransactionEvent :=
  match fuel with
  | O => throw (PlainError ("Impossible de consigner l'evenement "
           +:+ TransactionEventType.show (ri_type input) +:+ " pour "
           +:+ tx_reference (ri_transaction input) +:+ " apres 5 tentatives"))
  | S fuel =>
      event ← prepare_fact input;
      modify_db (interfere (MAX_SEQUENCE_ATTEMPTS - fuel)%nat) ;;
      try_catch (insert_fact nested event (ri_transaction input)) (λ error,
        if isSequenceCollision error && Nat.ltb 0 fuel
        then record_loop nested interfere input fuel
        else throw error)
  end.

Definition record_under (nested : bool) (interfere : nat → Db → Db)
    (input : RecordEventInput) : App TransactionEvent :=
  record_loop nested interfere input MAX_SEQUENCE_ATTEMPTS.

Definition record (nested : bool) (input : RecordEventInput) : App TransactionEvent :=
  record_under nested (λ _ d, d) input.

(** * Closing *)

Definition closeCase_under (nested : bool) (interfere : nat → Db → Db) (t : Transaction)
    (detail : option string) : App (option TransactionEvent) :=
  chain ← findChain (tx_reference t);
  if Nat.eqb (length chain) 0 then mret None
  else if existsb is_closing chain then mret None
  else
    try_catch
      (e ← record_under nested interfere
             (event_input TransactionEventType.CASE_CLOSED t
                (Some (or_default detail "Dossier clos")));
       mret (Some e))
      (λ error,
        if isUniqueViolation error then
          d ← get_db;
          match List.find (λ e, of_reference (tx_reference t) e && is_closing e) (db_events d) with
          | Some existing => mret (Some existing)
          | None => throw error
          end
        else throw error).

Definition closeCase (nested : bool) (t : Transaction) (detail : option string) :
    App (option TransactionEvent) :=
  closeCase_under nested (λ _ d, d) t detail.

(** * The abstract ledger *)

(** The fingerprint is that of the document under the salt. *)
Definition sealed (e : TransactionEvent) : Prop :=
  is_bytes32 (ev_fingerprintSalt e) = true
  ∧ ev_fingerprint e
    = keccak256 (External.concat [ev_fingerprintSalt e; toUtf8Bytes (rebuildDocument e)]).

(** The fact continues the chain that ends with [previous]. *)
Record follows (previous : option TransactionEvent) (e : TransactionEvent) : Prop := {
  follows_sequence : event_sequence e = next_sequence previous;
  follows_fingerprint : se_previousFingerprint (ev_data e) = ev_fingerprint <$> previous;
  follows_count : se_closureEventCount (ev_data e) =
    if is_closing e then Some (event_sequence e) else None;
  follows_head : se_closureChainHead (ev_data e) =
    if is_closing e then ev_fingerprint <$> previous else None
}.

Definition rows_of (reference : string) (d : Db) : list TransactionEvent :=
  List.filter (of_reference reference) (db_events d).

Inductive ledger_step (d d' : Db) : Prop :=
  | step_fact e :
      db_events d' = db_events d ++ [e] → db_entries d' = db_entries d →
      sealed e → follows (list.last (chain_of (event_reference e) d)) e →
      (is_closing e = true → existsb is_closing (rows_of (event_reference e) d) = false) →
      ledger_step d d'
  | step_entry entry :
      db_entries d' = db_entries d ++ [entry] → db_events d' = db_events d →
      (∃ e t entry', e ∈ db_events d ∧ entry_for (ev_data e) t = Some entry'
         ∧ je_lines entry = je_lines entry' ∧ je_eventId entry = se_id (ev_data e)
         ∧ je_transactionReference entry = event_reference e) →
      Forall (λ f, je_eventId f ≠ je_eventId entry) (db_entries d) →
      ledger_step d d'
  | step_frame :
      facts_of <$> db_events d' = facts_of <$> db_events d → db_entries d' = db_entries d →
      ledger_step d d'.

(** Runs of the ledger, and what they preserve. *)
Definition ledger_run : Db → Db → Prop := rtc ledger_step.

Fixpoint linked (previous : option TransactionEvent) (chain : list TransactionEvent) : Prop :=
  match chain with
  | [] => True
  | e :: chain => sealed e ∧ follows previous e ∧ linked (Some e) chain
  end.

(** Every chain is linked from its first fact, and closed at most once. *)
Definition ledger_ok (d : Db) : Prop :=
  ∀ reference, linked None (rows_of reference d)
    ∧ (length (List.filter is_closing (rows_of reference d)) <= 1)%nat.

(** What every operation of the gateway does to a well-formed ledger. *)
Definition ledger_refines (d d' : Db) : Prop := ledger_ok d → ledger_run d d'.

End EventLedger.

(** * Lemmas *)

(** ** Facts *)

Definition same_fact (e f : TransactionEvent) : Prop := facts_of e = facts_of f.
Definition same_facts : list TransactionEvent → list TransactionEvent → Prop :=
  Forall2 same_fact.

Section ledger_lemmas.
Context {HH : Hashing} {HX : XsdEngine} {HE : Entropy}.

#[export] Instance same_fact_equivalence : Equivalence same_fact.
Proof. unfold same_fact. split; red; congruence. Qed.

Lemma same_facts_fmap l l' : facts_of <$> l = facts_of <$> l' ↔ same_facts l l'.
Proof.
  revert l'. induction l as [|e l IH]; intros [|e' l']; split; try done; try by inversion 1.
  - intros [= Hd Hf Hs Hc Hl]. constructor; [|by apply IH].
    unfold same_fact, facts_of. by rewrite Hd, Hf, Hs, Hc.
  - inversion 1 as [|???? He Hl]; subst. simpl. f_equal; [exact He|by apply IH].
Qed.

Lemma same_facts_filter (p : TransactionEvent → bool) l l' :
  (∀ e f, same_fact e f → p e = p f) → same_facts l l' →
  same_facts (List.filter p l) (List.filter p l').
Proof.
  intros Hp. induction 1 as [|e f l l' Hef Hl IH]; simpl; [constructor|].
  rewrite (Hp _ _ Hef). destruct (p f); [by constructor|done].
Qed.

Lemma same_fact_data e f : same_fact e f → ev_data e = ev_data f.
Proof. by intros [= Hd _ _ _]. Qed.

Lemma same_fact_fingerprint e f : same_fact e f → ev_fingerprint e = ev_fingerprint f.
Proof. by intros [= _ Hf _ _]. Qed.

Lemma same_fact_sealed e f : same_fact e f → sealed e → sealed f.
Proof.
  intros [= Hd Hf Hs _]. unfold sealed, rebuildDocument. by rewrite Hd, Hf, Hs.
Qed.

Definition same_previous : option TransactionEvent → option TransactionEvent → Prop :=
  option_Forall2 same_fact.

Lemma same_previous_values p q :
  same_previous p q → next_sequence p = next_sequence q ∧ ev_fingerprint <$> p = ev_fingerprint <$> q.
Proof.
  destruct 1 as [e f [= Hd Hf _ _]|]; [|done].
  unfold next_sequence, event_sequence. simpl. by rewrite Hd, Hf.
Qed.

Lemma follows_same p q e f : same_previous p q → same_fact e f → follows p e → follows q f.
Proof.
  intros [Hn Hp]%same_previous_values Hd%same_fact_data [H1 H2 H3 H4].
  unfold event_sequence, is_closing, event_type in *.
  split; unfold event_sequence, is_closing, event_type;
    rewrite <- ?Hn, <- ?Hp, <- ?Hd; assumption.
Qed.

Lemma linked_same p q l l' :
  same_previous p q → same_facts l l' → linked p l → linked q l'.
Proof.
  intros Hpq Hl. revert p q Hpq.
  induction Hl as [|e f l l' Hef Hl IH]; intros p q Hpq; simpl; [done|].
  intros (Hs & Hf & Hlink). split_and!.
  - by eapply same_fact_sealed.
  - by eapply follows_same.
  - eapply IH; [|done]. by constructor.
Qed.

Lemma rows_of_same reference d d' :
  same_facts (db_events d) (db_events d') → same_facts (rows_of reference d) (rows_of reference d').
Proof.
  apply same_facts_filter. intros e f Hd%same_fact_data.
  unfold of_reference, event_reference. by rewrite Hd.
Qed.

Lemma is_closing_same e f : same_fact e f → is_closing e = is_closing f.
Proof. intros Hd%same_fact_data. unfold is_closing, event_type. by rewrite Hd. Qed.

(** ** Linked chains *)

Definition end_of (previous : option TransactionEvent) (chain : list TransactionEvent) :
    option TransactionEvent :=
  match list.last chain with Some e => Some e | None => previous end.

Lemma end_of_cons p e l : end_of p (e :: l) = end_of (Some e) l.
Proof. unfold end_of. rewrite last_cons. by destruct (list.last l). Qed.

Lemma linked_snoc p l e :
  linked p (l ++ [e]) ↔ linked p l ∧ sealed e ∧ follows (end_of p l) e.
Proof.
  revert p. induction l as [|f l IH]; intros p.
  - unfold end_of. simpl. naive_solver.
  - rewrite end_of_cons. simpl. rewrite IH. naive_solver.
Qed.

Lemma linked_lookup p l i e :
  linked p l → l !! i = Some e → event_sequence e = next_sequence p + Z.of_nat i.
Proof.
  revert p i. induction l as [|f l IH]; intros p i; [done|].
  intros (_ & [Hseq _ _ _] & Hl) Hi. destruct i as [|i]; simplify_eq/=; [lia|].
  rewrite (IH _ _ Hl Hi). unfold next_sequence at 1. simpl. lia.
Qed.

Lemma linked_sorted p l :
  linked p l → StronglySorted (λ x y, event_sequence x <= event_sequence y) l.
Proof.
  revert p. induction l as [|e l IH]; intros p; [constructor|].
  intros (_ & _ & Hl). constructor; [by eapply IH|].
  apply Forall_lookup_2. intros i f Hi. rewrite (linked_lookup _ _ _ _ Hl Hi).
  unfold next_sequence. simpl. lia.
Qed.

Lemma chain_of_ok reference d : ledger_ok d → chain_of reference d = rows_of reference d.
Proof. intros Hok. apply sort_by_sorted. eapply linked_sorted, Hok. Qed.

Lemma next_sequence_length l :
  linked None l → next_sequence (list.last l) = Z.of_nat (length l) + 1.
Proof.
  intros Hl. destruct (list.last l) as [e|] eqn:He.
  - rewrite last_lookup in He. unfold next_sequence at 1. simpl.
    rewrite (linked_lookup _ _ _ _ Hl He). apply lookup_lt_Some in He.
    unfold next_sequence. simpl. lia.
  - apply last_None in He as ->. done.
Qed.

(** ** Runs *)

#[export] Instance same_facts_equivalence : Equivalence same_facts.
Proof. apply _. Qed.

Lemma follows_last_chain d e :
  ledger_ok d → follows (list.last (chain_of (event_reference e) d)) e →
  follows (end_of None (rows_of (event_reference e) d)) e.
Proof.
  intros Hok. rewrite chain_of_ok by done. unfold end_of.
  by destruct (list.last (rows_of (event_reference e) d)).
Qed.

Lemma ledger_step_ok d d' : ledger_step d d' → ledger_ok d → ledger_ok d'.
Proof.
  intros [e Hev _ Hs Hf Hc|entry _ Hev _ _|Hfacts _] Hok reference;
    destruct (Hok reference) as [Hl Hn]; unfold rows_of in *.
  - rewrite Hev, filter_snoc. destruct (of_reference reference e) eqn:Hr.
    2: by rewrite app_nil_r.
    apply str_eqb_spec in Hr as <-. split.
    + apply linked_snoc. split_and!; [done..|]. by apply follows_last_chain.
    + rewrite filter_snoc, length_app. destruct (is_closing e); simpl; [|lia].
      specialize (Hc eq_refl). apply existsb_false in Hc.
      replace (List.filter is_closing (List.filter (of_reference (event_reference e)) (db_events d)))
        with (@nil TransactionEvent); [simpl; lia|].
      clear -Hc. unfold rows_of in Hc. induction Hc as [|f l Hf _ IH]; simpl; [done|].
      by rewrite Hf.
  - by rewrite Hev.
  - apply same_facts_fmap in Hfacts. symmetry in Hfacts.
    pose proof (rows_of_same reference _ _ Hfacts) as Hrows. unfold rows_of in Hrows. split.
    + eapply linked_same; [constructor|exact Hrows|exact Hl].
    + erewrite <- Forall2_length; [exact Hn|].
      apply same_facts_filter; [apply is_closing_same|exact Hrows].
Qed.

Lemma ledger_run_ok d d' : ledger_run d d' → ledger_ok d → ledger_ok d'.
Proof. induction 1; eauto using ledger_step_ok. Qed.

#[export] Instance ledger_refines_preorder : PreOrder ledger_refines.
Proof.
  split.
  - intros d _. apply rtc_refl.
  - intros d1 d2 d3 H12 H23 Hok. etrans; [by apply H12|]. apply H23.
    by eapply ledger_run_ok; [apply H12|].
Qed.

Lemma ledger_frame d d' :
  db_events d' = db_events d → db_entries d' = db_entries d → ledger_refines d d'.
Proof. intros He Hj _. apply rtc_once, step_frame; [by rewrite He|done]. Qed.

(** Rewriting the anchoring columns of facts leaves the ledger as it is. *)
Lemma ledger_relabel d d' (f : TransactionEvent → TransactionEvent) :
  (∀ e, facts_of (f e) = facts_of e) →
  db_events d' = f <$> db_events d → db_entries d' = db_entries d → ledger_refines d d'.
Proof.
  intros Hf He Hj _. apply rtc_once, step_frame; [|done].
  rewrite He, <- list_fmap_compose. apply list_fmap_ext. intros i e _. apply Hf.
Qed.

(** A run only ever adds facts after the facts it found. *)
Lemma ledger_run_extends d d' :
  ledger_run d d' →
  (∃ added, same_facts (db_events d') (db_events d ++ added))
  ∧ ∃ added, db_entries d' = db_entries d ++ added.
Proof.
  induction 1 as [d|d1 d2 d3 Hstep _ [[a Ha] [b Hb]]].
  - split; exists []; by rewrite app_nil_r.
  - rewrite Hb. destruct Hstep as [e Hev Hen _ _ _|entry Hen Hev _ _|Hfacts Hen].
    + split; [exists (e :: a)|exists b; by rewrite Hen].
      rewrite Ha, Hev, <- app_assoc. done.
    + split; [exists a; by rewrite Ha, Hev|]. exists (entry :: b). by rewrite Hen, <- app_assoc.
    + split; [|exists b; by rewrite Hen]. exists a. rewrite Ha.
      apply same_facts_fmap in Hfacts. by apply Forall2_app.
Qed.

Lemma rows_of_extends reference d d' :
  ledger_run d d' → ∃ added, same_facts (rows_of reference d') (rows_of reference d ++ added).
Proof.
  intros [[added Ha] _]%ledger_run_extends. exists (List.filter (of_reference reference) added).
  unfold rows_of. rewrite <- List.filter_app. apply same_facts_filter; [|exact Ha].
  intros e f Hd%same_fact_data. unfold of_reference, event_reference. by rewrite Hd.
Qed.

(** The heart of the refinement: a fact prepared on an earlier reading of its
    chain, and that the unique index on the rank accepts, follows the chain as it
    is when it is inserted. *)
Lemma follows_stable d d' e :
  ledger_ok d → ledger_run d d' →
  follows (list.last (chain_of (event_reference e) d)) e →
  existsb (λ f, event_sequence f =? event_sequence e) (rows_of (event_reference e) d') = false →
  follows (list.last (chain_of (event_reference e) d')) e.
Proof.
  intros Hok Hrun Hf Hfree. assert (Hok' := ledger_run_ok _ _ Hrun Hok).
  rewrite chain_of_ok in * by done. set (r := event_reference e) in *.
  destruct (rows_of_extends r d d' Hrun) as [added Hadd].
  destruct (Hok r) as [Hl _], (Hok' r) as [Hl' _].
  destruct added as [|f added].
  - rewrite app_nil_r in Hadd. eapply follows_same; [|reflexivity|exact Hf].
    symmetry. clear -Hadd. unfold same_previous. rewrite !last_lookup.
    assert (Hlen := Forall2_length _ _ _ Hadd). rewrite Hlen. by apply Forall2_lookup.
  - exfalso. assert (Hlen := Forall2_length _ _ _ Hadd). rewrite length_app in Hlen. simpl in Hlen.
    destruct (lookup_lt_is_Some_2 (rows_of r d') (length (rows_of r d))) as [g Hg]; [lia|].
    assert (Hseq := linked_lookup _ _ _ _ Hl' Hg).
    destruct Hf as [Hf _ _ _]. rewrite next_sequence_length in Hf by done.
    apply existsb_false in Hfree. eapply Forall_lookup_1 in Hfree; [|exact Hg].
    unfold next_sequence in Hseq. simpl in Hseq. rewrite Hf, Hseq in Hfree. simpl in Hfree.
    rewrite Z.eqb_neq in Hfree. lia.
Qed.

(** ** The operations of the register *)

Lemma at_savepoint {A} R `{!PreOrder R} nested (m : App A) w :
  on_db R w (m w).2 → on_db R w (savepoint nested m w).2.
Proof.
  destruct nested; [|done]. unfold savepoint, atomic.
  destruct (m w) as [[a|e] w']; unfold on_db; simpl; [done|reflexivity].
Qed.

Lemma insert_event_return e f w w' :
  insert_event e w = (Return f, w') →
  event_error (w_db w) e = None ∧ f = e
  ∧ w' = w <| w_db := (w_db w) <| db_events := db_events (w_db w) ++ [e] |> |>.
Proof.
  unfold insert_event. intros (d & w1 & [= <- <-] & Hr)%bind_inv.
  apply bind_inv in Hr as ([] & w2 & [Herr ->]%raise_if_return & Hr).
  apply bind_inv in Hr as ([] & w3 & [= <-] & [= <- <-]). done.
Qed.

Lemma event_error_None d e :
  event_error d e = None →
  existsb (λ f, event_sequence f =? event_sequence e) (rows_of (event_reference e) d) = false
  ∧ (is_closing e = true → existsb is_closing (rows_of (event_reference e) d) = false)
  ∧ existsb (by_reference (event_reference e)) (db_transactions d) = true
  ∧ event_fits e = true.
Proof.
  unfold event_error. fold (rows_of (event_reference e) d).
  destruct (existsb _ (db_events d)); [done|].
  destruct (event_fits e); [|done].
  destruct (check_passes (CHK_transaction_events_closure _)); [|done].
  destruct (check_passes (CHK_transaction_events_parties _)); [|done].
  destruct (check_passes (CHK_transaction_events_actor_context _)); [|done]. simpl.
  destruct (existsb _ (rows_of _ d)); [done|].
  destruct (is_closing e), (existsb is_closing _), (existsb (by_reference _) _); naive_solver.
Qed.

Lemma insert_event_refines e w :
  sealed e →
  (existsb (λ f, event_sequence f =? event_sequence e) (rows_of (event_reference e) (w_db w)) = false →
   follows (list.last (chain_of (event_reference e) (w_db w))) e) →
  on_db ledger_run w (insert_event e w).2.
Proof.
  intros Hs Hf. destruct (insert_event e w) as [[f|err] w'] eqn:Hrun; simpl.
  - apply insert_event_return in Hrun as (Herr & -> & ->).
    apply event_error_None in Herr as (Hfree & Hclose & _).
    apply rtc_once, (step_fact _ _ e); simpl; try done. by apply Hf.
  - revert Hrun. unfold insert_event, get_db, gets, mbind, Eff_bind, raise_if.
    destruct (event_error (w_db w) e); [|done]. intros [= _ <-]. apply rtc_refl.
Qed.

Lemma post_refines e t w :
  e ∈ db_events (w_db w) → on_db ledger_run w (post e t w).2.
Proof.
  intros He. unfold post. destruct (entry_for (ev_data e) t) as [entry|] eqn:Hentry; [|apply rtc_refl].
  unfold insert_entry, draw_uuid, next_draw. simpl.
  unfold mbind, Eff_bind, get_db. simpl.
  destruct (entry_error (w_db w) _) as [err|] eqn:Herr; simpl; [apply rtc_refl|].
  assert (Hfree : existsb (λ f, str_eqb (je_eventId f) (je_eventId entry)) (db_entries (w_db w)) = false).
  { unfold entry_error in Herr. simpl in Herr.
    destruct (negb _); [done|]. by destruct (existsb _ (db_entries (w_db w))). }
  apply rtc_once. eapply step_entry; simpl; [reflexivity|reflexivity| |].
  - destruct (entry_for_inv _ _ _ Hentry) as (rule & _ & _ & _ & _ & Hid & Href & _).
    exists e, t, entry. unfold event_reference. simpl. done.
  - apply existsb_false in Hfree. eapply Forall_impl; [exact Hfree|].
    intros f Hf Heq. cbv beta in Hf. change (je_eventId f = je_eventId entry) in Heq.
    by rewrite Heq, str_eqb_refl in Hf.
Qed.

Lemma build_version d :
  se_recordFormatVersion d = None →
  build (d <| se_recordFormatVersion := Some EVENT_RECORD_FORMAT_VERSION |>) = build d.
Proof. destruct d; simpl. by intros ->. Qed.

Lemma prepare_fact_return input w e w' :
  prepare_fact input w = (Return e, w') →
  w_db w' = w_db w ∧ sealed e
  ∧ event_reference e = tx_reference (ri_transaction input)
  ∧ event_type e = ri_type input
  ∧ follows (list.last (chain_of (event_reference e) (w_db w))) e
  ∧ ∃ previous id date correlation fingerprint salt,
      previous = list.last (chain_of (event_reference e) (w_db w))
      ∧ date = w_now w
      ∧ e = sealed_row (draft input previous id date correlation) fingerprint salt date.
Proof.
  unfold prepare_fact, findLatest.
  intros (previous & w1 & (d & w2 & [= <- <-] & [= <- <-])%bind_inv & Hr)%bind_inv.
  apply bind_inv in Hr as (id & w2 & (n & w3 & Hn & [= <- <-])%bind_inv & Hr).
  assert (Hw3 : w_db w3 = w_db w ∧ w_now w3 = w_now w) by (revert Hn; by intros [= _ <-]).
  destruct Hw3 as [Hw3 Hclock]. apply bind_inv in Hr as (date & w4 & [= <- <-] & Hr).
  apply bind_inv in Hr as (correlation & w5 & [= <- <-] & Hr).
  set (dr := draft _ _ _ _ _) in *.
  apply bind_inv in Hr as ([] & w6 & Hxsd & Hr).
  assert (Hw6 : w6 = w3).
  { revert Hxsd. unfold assertValid. destruct (Nat.ltb _ _); [done|]. by intros [= ->]. }
  apply bind_inv in Hr as (bytes & w7 & (m & w8 & Hm & [= <- <-])%bind_inv & Hr).
  assert (Hw8 : w_db w8 = w_db w6) by (revert Hm; by intros [= _ <-]).
  apply bind_inv in Hr as (fp & w9 & (Hsalt & -> & ->)%computeFingerprint_inv & [= <- <-]).
  split_and!.
  - by rewrite Hw8, Hw6, Hw3.
  - split; [exact Hsalt|]. unfold rebuildDocument.
    cbn [sealed_row ev_data ev_fingerprint ev_fingerprintSalt]. by rewrite build_version.
  - done.
  - done.
  - split; simpl; unfold is_closing, event_type, event_sequence; simpl; done.
  - by eexists _, _, _, _, _, _.
Qed.

(** The fact holds what the caller gave of the transaction: its legs, its amount,
    the amount the provider declared, the date of occurrence or, failing one, the
    current date. *)
Definition states_of (input : RecordEventInput) (date : Z) (e : TransactionEvent) : Prop :=
  let t := ri_transaction input in
  let d := ev_data e in
  (se_providerStatus d, se_bankStatus d, se_reconciliationStatus d)
    = (tx_providerStatus t, tx_bankStatus t, tx_reconciliationStatus t)
  ∧ (se_refundStatus d, se_caseStatus d) = (Some (tx_refundStatus t), Some (tx_caseStatus t))
  ∧ (se_expectedAmount d, se_currency d) = (tx_amount t, tx_currency t)
  ∧ (se_observedAmount d, se_observedCurrency d) = (ri_observedAmount input, ri_observedCurrency input)
  ∧ se_occurredAt d = or_default (ri_occurredAt input) date
  ∧ (se_detail d, se_actorId d) = (ri_detail input, ri_actorId input).

Lemma prepare_fact_states input w e w' :
  prepare_fact input w = (Return e, w') → states_of input (w_now w) e.
Proof.
  intros (_ & _ & _ & _ & _ & previous & id & date & correlation & fingerprint & salt & _ & -> & ->)
    %prepare_fact_return.
  unfold states_of. split_and!; reflexivity.
Qed.

Lemma prepare_fact_db input w : w_db (prepare_fact input w).2 = w_db w.
Proof.
  symmetry. change (on_db eq w (prepare_fact input w).2). revert w.
  change (Respects (on_db eq) (prepare_fact input)).
  unfold prepare_fact, findLatest, assertValid. respects.
Qed.

Lemma insert_fact_refines nested e t w :
  sealed e →
  (existsb (λ f, event_sequence f =? event_sequence e) (rows_of (event_reference e) (w_db w)) = false →
   follows (list.last (chain_of (event_reference e) (w_db w))) e) →
  on_db ledger_run w (insert_fact nested e t w).2.
Proof.
  intros Hs Hf. apply at_savepoint; [apply _|]. apply at_bind; [apply _|by apply insert_event_refines|].
  intros f w' (Herr & -> & ->)%insert_event_return.
  assert (Hin : e ∈ db_events (w_db (w <| w_db := (w_db w) <| db_events := db_events (w_db w) ++ [e] |> |>))).
  { simpl. apply elem_of_app. right. by apply list_elem_of_singleton. }
  apply at_bind; [apply _| |intros; apply rtc_refl].
  destruct nested; [by apply post_refines|]. apply at_transaction; [apply _|by apply post_refines].
Qed.

(** [record] refines the abstract ledger, whatever the other sessions do to it. *)
Lemma record_loop_refines nested interfere input fuel :
  (∀ k d, ledger_refines d (interfere k d)) →
  Respects (on_db ledger_refines) (record_loop nested interfere input fuel).
Proof.
  intros Hint. induction fuel as [|fuel IH]; intros w; [by intros ?; apply rtc_refl|].
  cbn [record_loop]. apply at_bind; [apply _| |].
  { unfold on_db. rewrite prepare_fact_db. reflexivity. }
  intros e w1 (Hdb & Hs & Href & _ & Hf & _)%prepare_fact_return.
  rewrite <- Hdb in Hf. intros Hok1.
  set (w2 := w1 <| w_db := interfere (MAX_SEQUENCE_ATTEMPTS - fuel)%nat (w_db w1) |>).
  assert (Hrun : ledger_run (w_db w1) (w_db w2)) by by apply Hint.
  assert (Hok2 := ledger_run_ok _ _ Hrun Hok1).
  etrans; [exact Hrun|]. erewrite bind_return by reflexivity. fold w2.
  assert (Hins : on_db ledger_run w2 (insert_fact nested e (ri_transaction input) w2).2).
  { apply insert_fact_refines; [done|]. by apply follows_stable with (w_db w1). }
  unfold try_catch. destruct (insert_fact nested e _ w2) as [[f|err] w3]; [exact Hins|].
  unfold on_db in Hins. simpl in Hins. etrans; [exact Hins|].
  assert (Hok3 := ledger_run_ok _ _ Hins Hok2).
  destruct (isSequenceCollision err && _); [by apply IH|apply rtc_refl].
Qed.

Lemma record_under_refines nested interfere input :
  (∀ k d, ledger_refines d (interfere k d)) →
  Respects (on_db ledger_refines) (record_under nested interfere input).
Proof. apply record_loop_refines. Qed.

Lemma record_refines nested input : Respects (on_db ledger_refines) (record nested input).
Proof. apply record_under_refines. intros k d _. apply rtc_refl. Qed.

Lemma findChain_refines reference : Respects (on_db ledger_refines) (findChain reference).
Proof. unfold findChain, get_db. respects. Qed.

Lemma closeCase_under_refines nested interfere t detail :
  (∀ k d, ledger_refines d (interfere k d)) →
  Respects (on_db ledger_refines) (closeCase_under nested interfere t detail).
Proof.
  intros Hint. pose proof (λ i, record_under_refines nested interfere i Hint).
  unfold closeCase_under, findChain, get_db. respects.
Qed.

Lemma closeCase_refines nested t detail :
  Respects (on_db ledger_refines) (closeCase nested t detail).
Proof. apply closeCase_under_refines. intros k d _. apply rtc_refl. Qed.
End ledger_lemmas.

#[export] Hint Resolve record_refines findChain_refines closeCase_refines : effects.

(** ** Recording without interference *)

Section recording.
Context {HH : Hashing} {HX : XsdEngine} {HE : Entropy}.

Lemma rank_free d e :
  ledger_ok d → follows (list.last (chain_of (event_reference e) d)) e →
  existsb (λ f, event_sequence f =? event_sequence e) (rows_of (event_reference e) d) = false.
Proof.
  intros Hok [Hseq _ _ _]. rewrite chain_of_ok in Hseq by done.
  destruct (Hok (event_reference e)) as [Hl _]. rewrite next_sequence_length in Hseq by done.
  apply existsb_false, Forall_lookup_2. intros i f Hi. apply Z.eqb_neq.
  rewrite Hseq, (linked_lookup _ _ _ _ Hl Hi). apply lookup_lt_Some in Hi.
  unfold next_sequence. simpl. lia.
Qed.

(** Only the rank index makes an insertion worth another attempt. *)
Lemma insert_event_collision e w err w' :
  insert_event e w = (Throw err, w') → isSequenceCollision err = true →
  existsb (λ f, event_sequence f =? event_sequence e) (rows_of (event_reference e) (w_db w)) = true.
Proof.
  unfold insert_event, get_db, gets, mbind, Eff_bind, raise_if.
  destruct (event_error (w_db w) e) as [err'|] eqn:Herr; [|done]. intros [= -> <-] Hc.
  revert Herr. unfold event_error. fold (rows_of (event_reference e) (w_db w)).
  repeat (case_match; [intros [= <-]; first [done|discriminate Hc]|]). done.
Qed.

Lemma post_collision e t w err w' :
  post e t w = (Throw err, w') → isSequenceCollision err = false.
Proof.
  unfold post, insert_entry, draw_uuid, next_draw, get_db, mbind, Eff_bind.
  destruct (entry_for (ev_data e) t) as [entry|]; [|done]. simpl.
  destruct (entry_error (w_db w) _) as [err'|] eqn:Herr; [|done]. simpl. intros [= <- <-].
  revert Herr. unfold entry_error. repeat (case_match; [by intros [= <-]|]). done.
Qed.

Lemma transaction_throw {A} (m : App A) w err w' :
  transaction m w = (Throw err, w') →
  (∃ w1, m w = (Throw err, w1)) ∨ err = QueryFailedError PG_RESTRICT_VIOLATION "trg_journal_entries_balanced".
Proof.
  unfold transaction, atomic, mbind, Eff_bind. cbn [gets].
  destruct (m w) as [[a|e] w1] eqn:Hm; simpl; [|intros [= <- _]; eauto].
  destruct (forallb _ _); simpl; [done|]. intros [= <- _]. by right.
Qed.

Lemma insert_fact_collision nested e t w err w' :
  insert_fact nested e t w = (Throw err, w') → isSequenceCollision err = true →
  existsb (λ f, event_sequence f =? event_sequence e) (rows_of (event_reference e) (w_db w)) = true.
Proof.
  intros Hrun Hc.
  assert (Hinner : ∃ w1, insert_body nested e t w = (Throw err, w1)).
  { revert Hrun. unfold insert_fact, savepoint, atomic. destruct nested; [|eauto].
    destruct (insert_body true e t w) as [[?|?] ?]; [done|]. intros [= <- _]. eauto. }
  destruct Hinner as [w1 Hinner]. revert Hinner. unfold insert_body, mbind at 1, Eff_bind at 1.
  destruct (insert_event e w) as [[f|err'] w2] eqn:Hins.
  - intros Hpost. exfalso. revert Hpost. unfold mbind, Eff_bind.
    destruct nested.
    + destruct (post f t w2) as [[?|err'] w3] eqn:Hp; [done|]. intros [= -> _].
      by apply post_collision in Hp; congruence.
    + destruct (transaction (post f t) w2) as [[?|err'] w3] eqn:Hp; [done|]. intros [= -> _].
      apply transaction_throw in Hp as [[w4 Hp%post_collision]| ->]; [congruence|done].
  - intros [= -> _]. by eapply insert_event_collision.
Qed.

Lemma transaction_return {A} (m : App A) w a w' :
  transaction m w = (Return a, w') → m w = (Return a, w').
Proof.
  unfold transaction, atomic, mbind, Eff_bind. cbn [gets].
  destruct (m w) as [[b|e] w1]; simpl; [|done]. by destruct (forallb _ _).
Qed.

Lemma post_return e t w r w' :
  post e t w = (Return r, w') →
  match entry_for (ev_data e) t with
  | Some entry =>
      w' = w <| w_draws := S (w_draws w) |>
             <| w_db := (w_db w) <| db_entries :=
                  db_entries (w_db w) ++ [entry <| je_id := randomUUID (w_draws w) |>] |> |>
  | None => w' = w
  end.
Proof.
  unfold post. destruct (entry_for (ev_data e) t) as [entry|]; [|by intros [= _ <-]].
  unfold insert_entry, draw_uuid, next_draw, get_db, mbind, Eff_bind. simpl.
  destruct (entry_error (w_db w) _) as [err'|]; simpl; [done|]. by intros [= _ <-].
Qed.

(** The world after the insertion of a fact and of its entry. *)
Definition world_after (e : TransactionEvent) (t : Transaction) (w : World) : World :=
  let w1 := w <| w_db := (w_db w) <| db_events := db_events (w_db w) ++ [e] |> |> in
  match entry_for (ev_data e) t with
  | Some entry =>
      w1 <| w_draws := S (w_draws w) |>
         <| w_db := (w_db w1) <| db_entries :=
              db_entries (w_db w) ++ [entry <| je_id := randomUUID (w_draws w) |>] |> |>
  | None => w1
  end.

Lemma insert_fact_return nested e t w f w' :
  insert_fact nested e t w = (Return f, w') →
  f = e ∧ event_error (w_db w) e = None ∧ w' = world_after e t w.
Proof.
  intros Hrun. assert (Hbody : insert_body nested e t w = (Return f, w')).
  { revert Hrun. unfold insert_fact, savepoint, atomic. destruct nested; [|done].
    by destruct (insert_body true e t w) as [[?|?] ?]. }
  apply bind_inv in Hbody as (f' & w1 & (Herr & -> & ->)%insert_event_return & Hr).
  apply bind_inv in Hr as (r & w2 & Hpost & [= <- <-]).
  assert (Hp : post e t (w <| w_db := (w_db w) <| db_events := db_events (w_db w) ++ [e] |> |>)
               = (Return r, w2)) by (destruct nested; [done|by apply transaction_return]).
  apply post_return in Hp. split_and!; [done..|]. unfold world_after.
  by destruct (entry_for (ev_data e) t).
Qed.

(** Undisturbed, [record] is its first attempt. *)
Lemma record_eq nested input w :
  ledger_ok (w_db w) →
  record nested input w =
  (e ← prepare_fact input; insert_fact nested e (ri_transaction input)) w.
Proof.
  intros Hok. unfold record, record_under, MAX_SEQUENCE_ATTEMPTS. cbn [record_loop].
  unfold mbind, Eff_bind. destruct (prepare_fact input w) as [[e|err] w1] eqn:Hprep; [|done].
  apply prepare_fact_return in Hprep as (Hdb & _ & _ & _ & Hf & _). rewrite <- Hdb in *.
  unfold modify_db, modify. replace (w1 <| w_db := w_db w1 |>) with w1 by by destruct w1.
  unfold try_catch. destruct (insert_fact nested e _ w1) as [[f|err] w2] eqn:Hins; [done|].
  destruct (isSequenceCollision err) eqn:Hc; [|done].
  apply insert_fact_collision in Hins; [|done]. by rewrite rank_free in Hins.
Qed.

Lemma record_return nested input w e w' :
  ledger_ok (w_db w) → record nested input w = (Return e, w') →
  ∃ w1, prepare_fact input w = (Return e, w1) ∧ w_db w1 = w_db w
    ∧ event_error (w_db w) e = None ∧ w' = world_after e (ri_transaction input) w1.
Proof.
  intros Hok. rewrite record_eq by done.
  intros (f & w1 & Hprep & (-> & Herr & ->)%insert_fact_return)%bind_inv.
  exists w1. assert (Hdb := Hprep). apply prepare_fact_return in Hdb as [Hdb _].
  rewrite Hdb in Herr. done.
Qed.
End recording.

Section theorems.
Context {HH : Hashing} {HX : XsdEngine} {HE : Entropy}.

Lemma ledger_run_world_after e t w :
  event_error (w_db w) e = None → sealed e →
  follows (list.last (chain_of (event_reference e) (w_db w))) e →
  db_events (w_db (world_after e t w)) = db_events (w_db w) ++ [e].
Proof. intros _ _ _. unfold world_after. by destruct (entry_for _ _). Qed.

Lemma rows_of_snoc reference d d' e :
  db_events d' = db_events d ++ [e] →
  rows_of reference d' = rows_of reference d ++ (if of_reference reference e then [e] else []).
Proof. intros Hev. unfold rows_of. by rewrite Hev, filter_snoc. Qed.

(** The world [record] leaves refines the ledger. *)
Lemma record_ok nested input w :
  ledger_ok (w_db w) → ledger_ok (w_db (record nested input w).2).
Proof. intros Hok. eapply ledger_run_ok; [|exact Hok]. by apply record_refines. Qed.

(** C8. What [record] does, undisturbed: the fact it returns is sealed, holds the legs
    and amounts of the transaction it was given, carries the next rank and the fingerprint of the last fact of its transaction; it is
    appended to that transaction's chain and to no other; the journal receives
    exactly the entry the posting rules give for it, or none; the ledger stays
    well formed. *)
Theorem record_appends nested input w e w' :
  ledger_ok (w_db w) → record nested input w = (Return e, w') →
  let reference := tx_reference (ri_transaction input) in
  sealed e ∧ event_type e = ri_type input ∧ states_of input (w_now w) e
  ∧ follows (list.last (chain_of reference (w_db w))) e
  ∧ chain_of reference (w_db w') = chain_of reference (w_db w) ++ [e]
  ∧ (∀ other, other ≠ reference → chain_of other (w_db w') = chain_of other (w_db w))
  ∧ (∃ id, db_entries (w_db w') = db_entries (w_db w)
      ++ match entry_for (ev_data e) (ri_transaction input) with
         | Some entry => [entry <| je_id := id |>]
         | None => []
         end)
  ∧ ledger_ok (w_db w').
Proof.
  intros Hok Hrec reference. assert (Hok' := record_ok nested input w Hok). rewrite Hrec in Hok'.
  apply record_return in Hrec as (w1 & Hprep & Hdb & Herr & ->); [|done].
  assert (Hstates := Hprep). apply prepare_fact_states in Hstates.
  apply prepare_fact_return in Hprep as (_ & Hs & Href & Htype & Hf & _).
  assert (Hev : db_events (w_db (world_after e (ri_transaction input) w1)) = db_events (w_db w) ++ [e]).
  { rewrite ledger_run_world_after; rewrite ?Hdb; done. }
  simpl in Hok'. unfold reference. rewrite Href in Hf. split_and!; try done.
  - rewrite !chain_of_ok, (rows_of_snoc _ _ _ _ Hev) by done. unfold of_reference.
    by rewrite Href, str_eqb_refl.
  - intros other Hne. rewrite !chain_of_ok, (rows_of_snoc _ _ _ _ Hev) by done.
    destruct (of_reference other e) eqn:Ho; [|by rewrite app_nil_r].
    apply str_eqb_spec in Ho. congruence.
  - exists (randomUUID (w_draws w1)). unfold world_after.
    destruct (entry_for (ev_data e) _); simpl; rewrite Hdb, ?app_nil_r; done.
Qed.

(** C2. Refinement under concurrency: whatever other sessions commit at each
    attempt, as long as they too only run the ledger, [record] takes a well-formed
    ledger to a well-formed one, whether it returns or throws; facts and entries
    already there are untouched and keep their place. *)
Theorem record_refines_ledger nested interfere input w :
  (∀ k d, ledger_refines d (interfere k d)) → ledger_ok (w_db w) →
  let d' := w_db (record_under nested interfere input w).2 in
  ledger_ok d'
  ∧ (∃ added, same_facts (db_events d') (db_events (w_db w) ++ added))
  ∧ (∃ added, db_entries d' = db_entries (w_db w) ++ added).
Proof.
  intros Hint Hok d'. assert (Hrun : ledger_run (w_db w) d').
  { by apply (record_under_refines nested interfere input Hint w). }
  split; [by eapply ledger_run_ok|by apply ledger_run_extends].
Qed.

Lemma prepare_fact_throw input w err w' :
  prepare_fact input w = (Throw err, w') → isSequenceCollision err = false.
Proof.
  unfold prepare_fact. intros [H|(prev & w1 & _ & H)]%bind_throw_inv; [done|].
  apply bind_throw_inv in H as [H|(id & w2 & _ & H)]; [done|].
  apply bind_throw_inv in H as [H|(date & w3 & _ & H)]; [done|].
  apply bind_throw_inv in H as [H|(corr & w4 & _ & H)]; [done|]. cbv zeta in H.
  apply bind_throw_inv in H as [H|([] & w5 & _ & H)].
  { revert H. unfold assertValid. destruct (Nat.ltb _ _); [by intros [= <- _]|done]. }
  apply bind_throw_inv in H as [H|(bytes & w6 & _ & H)]; [done|].
  apply bind_throw_inv in H as [H|(fp & w7 & _ & H)]; [|done].
  revert H. unfold computeFingerprint. destruct (is_bytes32 _); [done|by intros [= <- _]].
Qed.

(** One undisturbed attempt is enough. *)
Lemma record_loop_resolves nested interfere input fuel k w :
  (∀ k d, ledger_refines d (interfere k d)) → ledger_ok (w_db w) →
  (0 < fuel <= MAX_SEQUENCE_ATTEMPTS)%nat →
  (MAX_SEQUENCE_ATTEMPTS - fuel < k <= MAX_SEQUENCE_ATTEMPTS)%nat →
  (∀ d, interfere k d = d) →
  match record_loop nested interfere input fuel w with
  | (Throw err, _) => isSequenceCollision err = false
  | (Return _, _) => True
  end.
Proof.
  intros Hint. revert w. induction fuel as [|fuel IH]; intros w Hok Hfuel Hk Hfree; [lia|].
  cbn [record_loop]. unfold mbind, Eff_bind.
  destruct (prepare_fact input w) as [[e|err] w1] eqn:Hprep.
  2: by eapply prepare_fact_throw.
  apply prepare_fact_return in Hprep as (Hdb & Hs & _ & _ & Hf & _). rewrite <- Hdb in *.
  unfold modify_db, modify.
  set (w2 := w1 <| w_db := interfere (MAX_SEQUENCE_ATTEMPTS - fuel)%nat (w_db w1) |>).
  assert (Hrun : ledger_run (w_db w1) (w_db w2)) by by apply Hint.
  assert (Hok2 := ledger_run_ok _ _ Hrun Hok).
  unfold try_catch. destruct (insert_fact nested e _ w2) as [[f|err] w3] eqn:Hins; [done|].
  destruct (isSequenceCollision err) eqn:Hc; [|done].
  destruct (Nat.ltb 0 fuel) eqn:Hlt; simpl.
  - apply Nat.ltb_lt in Hlt. destruct (decide (k = MAX_SEQUENCE_ATTEMPTS - fuel)%nat) as [->|Hne].
    + exfalso. apply insert_fact_collision in Hins; [|done]. revert Hins. simpl. rewrite Hfree.
      by rewrite rank_free.
    + apply IH; [|lia|lia|done].
      eapply ledger_run_ok; [|exact Hok2]. change w3 with (Throw (A := TransactionEvent) err, w3).2.
      rewrite <- Hins. apply insert_fact_refines; [done|]. by apply follows_stable with (w_db w1).
  - apply Nat.ltb_ge in Hlt. exfalso. apply insert_fact_collision in Hins; [|done].
    revert Hins. simpl. assert (k = MAX_SEQUENCE_ATTEMPTS - fuel)%nat as <- by lia.
    rewrite Hfree. by rewrite rank_free.
Qed.

(** C17. Collisions are absorbed: if at least one of the five attempts is
    undisturbed, [record] never fails on a collision of ranks, however the other
    sessions extend the ledger during the others. *)
Theorem collisions_resolve nested interfere input k w :
  (∀ k d, ledger_refines d (interfere k d)) → ledger_ok (w_db w) →
  (1 <= k <= MAX_SEQUENCE_ATTEMPTS)%nat → (∀ d, interfere k d = d) →
  match record_under nested interfere input w with
  | (Throw err, _) => isSequenceCollision err = false
  | (Return _, _) => True
  end.
Proof. intros Hint Hok Hk Hfree. eapply record_loop_resolves; eauto; unfold MAX_SEQUENCE_ATTEMPTS in *; lia. Qed.

Lemma record_closing nested interfere t detail w e w' :
  (∀ k d, ledger_refines d (interfere k d)) → ledger_ok (w_db w) →
  record_under nested interfere (event_input TransactionEventType.CASE_CLOSED t detail) w
    = (Return e, w') →
  is_closing e = true ∧ e ∈ rows_of (tx_reference t) (w_db w').
Proof.
  intros Hint. unfold record_under. generalize MAX_SEQUENCE_ATTEMPTS as fuel. intros fuel.
  revert w. induction fuel as [|fuel IH]; intros w Hok; [done|]. cbn [record_loop].
  intros (e1 & w1 & Hprep & Hr)%bind_inv. assert (Hp := Hprep).
  apply prepare_fact_return in Hp as (Hdb & Hs & Href & Htype & Hf & _). rewrite <- Hdb in *.
  apply bind_inv in Hr as ([] & w2 & [= Hw2] & Hr).
  assert (Hrun : ledger_run (w_db w1) (w_db w2)) by (rewrite <- Hw2; by apply Hint).
  revert Hr. unfold try_catch. destruct (insert_fact nested e1 _ w2) as [[f|err] w3] eqn:Hins.
  - intros [= -> ->]. apply insert_fact_return in Hins as (-> & Herr & ->). split.
    + unfold is_closing. rewrite Htype. by apply bool_decide_eq_true.
    + rewrite list_elem_of_In. apply filter_In. rewrite <- list_elem_of_In. split.
      * unfold world_after. destruct (entry_for _ _); simpl; apply elem_of_app; right; left.
      * apply str_eqb_spec. exact Href.
  - destruct (isSequenceCollision err && _); [|done]. apply IH.
    eapply ledger_run_ok; [|by eapply ledger_run_ok].
    change w3 with (Throw (A := TransactionEvent) err, w3).2.
    rewrite <- Hins. apply insert_fact_refines; [done|]. by apply follows_stable with (w_db w1).
Qed.

Lemma closeCase_done nested t detail w :
  ledger_ok (w_db w) →
  rows_of (tx_reference t) (w_db w) = [] ∨ existsb is_closing (rows_of (tx_reference t) (w_db w)) = true →
  closeCase nested t detail w = (Return None, w).
Proof.
  intros Hok Hc. unfold closeCase, closeCase_under, findChain, get_db, mbind, Eff_bind. simpl.
  rewrite chain_of_ok by done. destruct Hc as [-> | ->]; [done|].
  by destruct (Nat.eqb _ _).
Qed.

(** C10. A case is closed once.  Whatever other sessions do to the ledger meanwhile,
    [closeCase] answers either the closing fact of the chain, its own or the one
    that won the race, or nothing when there was nothing to close or it was
    closed; the chain then holds at most one closing fact, and closing it again
    changes nothing. *)
Theorem closeCase_closes_once nested interfere t detail w r w' :
  (∀ k d, ledger_refines d (interfere k d)) → ledger_ok (w_db w) →
  closeCase_under nested interfere t detail w = (Return r, w') →
  let rows := rows_of (tx_reference t) in
  match r with
  | Some e => is_closing e = true ∧ e ∈ rows (w_db w')
  | None => w' = w ∧ (rows (w_db w) = [] ∨ existsb is_closing (rows (w_db w)) = true)
  end
  ∧ (length (List.filter is_closing (rows (w_db w'))) <= 1)%nat
  ∧ ∀ nested' detail', closeCase nested' t detail' w' = (Return None, w').
Proof.
  intros Hint Hok Hrun rows.
  assert (Hok' : ledger_ok (w_db w')).
  { eapply ledger_run_ok; [|exact Hok]. change w' with (Return (E := GatewayError) r, w').2.
    rewrite <- Hrun. by apply (closeCase_under_refines nested interfere t detail Hint w). }
  assert (Hmain : match r with
    | Some e => is_closing e = true ∧ e ∈ rows (w_db w')
    | None => w' = w ∧ (rows (w_db w) = [] ∨ existsb is_closing (rows (w_db w)) = true)
    end).
  { revert Hrun. unfold closeCase_under. intros (chain & w1 & Hc & Hr)%bind_inv.
    apply bind_inv in Hc as (d & w2 & [= <- <-] & [= <- <-]).
    rewrite chain_of_ok in Hr by done. fold (rows (w_db w)) in Hr.
    destruct (Nat.eqb (length (rows (w_db w))) 0) eqn:Hlen.
    { revert Hr. intros [= <- <-]. apply Nat.eqb_eq, length_zero_iff_nil in Hlen. auto. }
    destruct (existsb is_closing (rows (w_db w))) eqn:Hcl.
    { revert Hr. intros [= <- <-]. auto. }
    revert Hr. unfold try_catch.
    set (input := event_input _ _ _).
    destruct (record_under nested interfere input w) as [[e|err] w3] eqn:Hrec.
    - erewrite bind_return by exact Hrec. intros [= <- <-]. exact (record_closing _ _ _ _ _ _ _ Hint Hok Hrec).
    - erewrite bind_throw by exact Hrec. destruct (isUniqueViolation err); [|done].
      erewrite bind_return by reflexivity.
      destruct (List.find _ (db_events (w_db w3))) as [e|] eqn:Hfind; [|done].
      intros [= <- <-]. apply find_some in Hfind as [Hin [Href Hclosing]%andb_true_iff].
      split; [done|]. rewrite list_elem_of_In. by apply filter_In. }
  split; [exact Hmain|]. split; [apply Hok'|]. intros nested' detail'.
  apply closeCase_done; [exact Hok'|]. destruct r as [e|].
  - right. destruct Hmain as [Hc He]. apply existsb_exists. exists e.
    by rewrite <- list_elem_of_In.
  - by destruct Hmain as [-> Hmain].
Qed.

Lemma insert_event_unique e w err w' :
  insert_event e w = (Throw err, w') → isUniqueViolation err = true →
  existsb (λ f, event_sequence f =? event_sequence e) (rows_of (event_reference e) (w_db w)) = true
  ∨ existsb is_closing (rows_of (event_reference e) (w_db w)) = true.
Proof.
  unfold insert_event, get_db, gets, mbind, Eff_bind, raise_if.
  destruct (event_error (w_db w) e) as [err'|] eqn:Herr; [|done]. intros [= -> <-] Hc.
  revert Herr. unfold event_error. fold (rows_of (event_reference e) (w_db w)).
  do 5 (case_match; [intros [= <-]; discriminate Hc|]).
  destruct (existsb (λ f, event_sequence f =? event_sequence e) _); [by left|].
  destruct (is_closing e && existsb is_closing _) eqn:Hcl.
  { apply andb_true_iff in Hcl as [_ Hcl]. by right. }
  match goal with |- (if ?b then _ else _) = _ → _ => destruct b end; [|done].
  intros [= <-]. discriminate Hc.
Qed.

Lemma closing_posts_nothing e t :
  event_type e = TransactionEventType.CASE_CLOSED → entry_for (ev_data e) t = None.
Proof. unfold event_type, entry_for. intros ->. by destruct (negb _). Qed.

(** An undisturbed closure cannot meet a unique index. *)
Lemma record_closing_unique nested t detail w err w' :
  ledger_ok (w_db w) → existsb is_closing (rows_of (tx_reference t) (w_db w)) = false →
  record nested (event_input TransactionEventType.CASE_CLOSED t detail) w = (Throw err, w') →
  isUniqueViolation err = false.
Proof.
  intros Hok Hopen. rewrite record_eq by done.
  intros [H|(e & w1 & Hprep & H)]%bind_throw_inv.
  { apply not_true_iff_false. intros Hu. revert H. unfold prepare_fact.
    intros [H|(prev & w1 & _ & H)]%bind_throw_inv; [done|].
    apply bind_throw_inv in H as [H|(id & w2 & _ & H)]; [done|].
    apply bind_throw_inv in H as [H|(date & w3 & _ & H)]; [done|].
    apply bind_throw_inv in H as [H|(corr & w4 & _ & H)]; [done|]. cbv zeta in H.
    apply bind_throw_inv in H as [H|([] & w5 & _ & H)].
    { revert H. unfold assertValid. destruct (Nat.ltb _ _); [|done]. by intros [= <- _]. }
    apply bind_throw_inv in H as [H|(bytes & w6 & _ & H)]; [done|].
    apply bind_throw_inv in H as [H|(fp & w7 & _ & H)]; [|done].
    revert H. unfold computeFingerprint. destruct (is_bytes32 _); [done|]. by intros [= <- _]. }
  apply prepare_fact_return in Hprep as (Hdb & _ & Href & Htype & Hf & _).
  change (tx_reference (ri_transaction _)) with (tx_reference t) in Href.
  rewrite <- Href, <- Hdb in Hopen. rewrite <- Hdb in Hf. rewrite <- Hdb in Hok.
  apply not_true_iff_false. intros Hu.
  assert (Hbody : ∃ w2, insert_body nested e t w1 = (Throw err, w2)).
  { revert H. unfold insert_fact, savepoint, atomic. destruct nested; [|eauto].
    simpl. destruct (insert_body true e t w1) as [[?|?] ?]; [done|]. intros [= <- _]. eauto. }
  destruct Hbody as [w2 [Hins|(f & w3 & (_ & -> & _)%insert_event_return & Hpost)]%bind_throw_inv].
  - destruct (insert_event_unique _ _ _ _ Hins Hu); [|congruence].
    pose proof (rank_free _ _ Hok Hf). congruence.
  - revert Hpost. unfold post. rewrite closing_posts_nothing by done.
    destruct nested; [done|]. unfold transaction, atomic, mbind, Eff_bind. simpl.
    by rewrite drop_all.
Qed.

(** An undisturbed closure declares the whole case: the closing fact is the
    last of the chain, its declared count is the length of the chain it ends and
    its declared head the fingerprint of the fact before it. *)
Theorem closeCase_declares nested t detail w e w' :
  ledger_ok (w_db w) → closeCase nested t detail w = (Return (Some e), w') →
  chain_of (tx_reference t) (w_db w') = chain_of (tx_reference t) (w_db w) ++ [e]
  ∧ se_closureEventCount (ev_data e) = Some (Z.of_nat (length (chain_of (tx_reference t) (w_db w'))))
  ∧ ∃ previous, list.last (chain_of (tx_reference t) (w_db w)) = Some previous
      ∧ se_closureChainHead (ev_data e) = Some (ev_fingerprint previous).
Proof.
  intros Hok. unfold closeCase, closeCase_under. intros (chain & w1 & Hc & Hr)%bind_inv.
  apply bind_inv in Hc as (d & w2 & [= <- <-] & [= <- <-]). set (r := tx_reference t) in *.
  rewrite chain_of_ok in * by done.
  destruct (Nat.eqb (length (rows_of r (w_db w))) 0) eqn:Hlen; [done|].
  destruct (existsb is_closing (rows_of r (w_db w))) eqn:Hcl; [done|].
  revert Hr. unfold try_catch.
  change (record_under nested (λ (_ : nat) (d : Db), d)) with (record nested).
  set (input := event_input _ _ _).
  destruct (record nested input w) as [[f|err] w3] eqn:Hrec.
  2: { erewrite bind_throw by exact Hrec.
       by rewrite (record_closing_unique _ _ _ _ _ _ Hok Hcl Hrec). }
  erewrite bind_return by exact Hrec. intros [= -> ->].
  assert (Hok' := record_ok nested input w Hok). rewrite Hrec in Hok'. simpl in Hok'.
  apply record_return in Hrec as (w1 & Hprep & Hdb & Herr & ->); [|done].
  apply prepare_fact_return in Hprep as (_ & Hs & Href & Htype & Hf & _).
  change (tx_reference (ri_transaction input)) with r in Href. rewrite Href in Hf.
  assert (Hev : db_events (w_db (world_after e (ri_transaction input) w1)) = db_events (w_db w) ++ [e]).
  { unfold world_after. destruct (entry_for _ _); simpl; by rewrite Hdb. }
  rewrite (chain_of_ok _ (w_db (world_after _ _ _))) by done.
  rewrite (rows_of_snoc r _ _ _ Hev). unfold of_reference. rewrite Href, str_eqb_refl.
  rewrite (chain_of_ok r (w_db w)) in * by done.
  split; [done|]. destruct Hf as [Hseq _ Hcount Hhead].
  assert (Hclosing : is_closing e = true) by (unfold is_closing; by rewrite Htype).
  rewrite Hclosing in Hcount, Hhead.
  destruct (Hok r) as [Hl _]. rewrite next_sequence_length in Hseq by done. split.
  - rewrite Hcount, Hseq, length_app. simpl. f_equal. lia.
  - rewrite Hhead. destruct (list.last (rows_of r (w_db w))) as [previous|] eqn:Hlast; [by eexists|].
    apply last_None in Hlast. by rewrite Hlast in Hlen.
Qed.

(** The last turn of the loop rethrows: with fuel left, the loop never reaches its
    final [throw]. *)
Lemma record_loop_rethrows nested interfere input fuel w err w' :
  (0 < fuel)%nat → record_loop nested interfere input fuel w = (Throw err, w') →
  (∃ w1 w2, prepare_fact input w1 = (Throw err, w2))
  ∨ (∃ e w1 w2, insert_fact nested e (ri_transaction input) w1 = (Throw err, w2)).
Proof.
  revert w. induction fuel as [|fuel IH]; intros w Hfuel; [lia|]. cbn [record_loop].
  intros [H|(e & w1 & _ & H)]%bind_throw_inv; [by left; eauto|].
  apply bind_throw_inv in H as [H|([] & w2 & _ & H)]; [done|]. revert H.
  unfold try_catch. destruct (insert_fact nested e _ w2) as [[f|err'] w3] eqn:Hins; [done|].
  destruct (isSequenceCollision err'); simpl; [|intros [= -> ->]; right; eauto].
  destruct fuel as [|fuel]; simpl; [intros [= -> ->]; right; eauto|].
  apply IH. lia.
Qed.

Lemma event_error_query d e err :
  event_error d e = Some err → ∃ code constraint, err = QueryFailedError code constraint.
Proof.
  unfold event_error.
  repeat match goal with
    |- (if ?b then _ else _) = _ → _ => destruct b; [intros [= <-]; by eexists _, _|] end.
  done.
Qed.

Lemma entry_error_query d e err :
  entry_error d e = Some err → ∃ code constraint, err = QueryFailedError code constraint.
Proof.
  unfold entry_error.
  repeat match goal with
    |- (if ?b then _ else _) = _ → _ => destruct b; [intros [= <-]; by eexists _, _|] end.
  done.
Qed.

Lemma insert_fact_throw nested e t w err w' :
  insert_fact nested e t w = (Throw err, w') → ∃ code constraint, err = QueryFailedError code constraint.
Proof.
  intros H.
  assert (Hbody : ∃ w1, insert_body nested e t w = (Throw err, w1)).
  { revert H. unfold insert_fact, savepoint, atomic. destruct nested; [|eauto].
    destruct (insert_body true e t w) as [[?|?] ?]; [done|]. intros [= <- _]. eauto. }
  destruct Hbody as [w1 [Hins|(f & w2 & _ & Hpost)]%bind_throw_inv].
  - revert Hins. unfold insert_event, get_db, gets, mbind, Eff_bind, raise_if.
    destruct (event_error (w_db w) e) as [err'|] eqn:Herr; [|done]. intros [= -> _].
    by eapply event_error_query.
  - assert (Hp : ∀ w3 w4, post f t w3 = (Throw err, w4) →
               ∃ code constraint, err = QueryFailedError code constraint).
    { intros w3 w4. unfold post, insert_entry, draw_uuid, next_draw, get_db, mbind, Eff_bind.
      destruct (entry_for (ev_data f) t) as [entry|]; [|done]. simpl.
      destruct (entry_error (w_db w3) _) as [err'|] eqn:Herr; [|done]. simpl. intros [= -> _].
      by eapply entry_error_query. }
    apply bind_throw_inv in Hpost as [Hpost|(r & w3 & _ & [=])].
    destruct nested; [by eapply Hp|]. apply transaction_throw in Hpost as [[w3 Hpost]| ->]; eauto.
Qed.

Lemma prepare_fact_errors input w err w' :
  prepare_fact input w = (Throw err, w') →
  (∃ violations, err = XsdValidationException SCHEMAS.transactionEvent violations)
  ∨ err = PlainError "Le sel doit etre un hexadecimal de 32 octets".
Proof.
  unfold prepare_fact. intros [H|(prev & w1 & _ & H)]%bind_throw_inv; [done|].
  apply bind_throw_inv in H as [H|(id & w2 & _ & H)]; [done|].
  apply bind_throw_inv in H as [H|(date & w3 & _ & H)]; [done|].
  apply bind_throw_inv in H as [H|(corr & w4 & _ & H)]; [done|]. cbv zeta in H.
  apply bind_throw_inv in H as [H|([] & w5 & _ & H)].
  { revert H. unfold assertValid. destruct (Nat.ltb _ _); [intros [= <- _]; eauto|done]. }
  apply bind_throw_inv in H as [H|(bytes & w6 & _ & H)]; [done|].
  apply bind_throw_inv in H as [H|(fp & w7 & _ & H)]; [|done].
  revert H. unfold computeFingerprint. destruct (is_bytes32 _); [done|]. intros [= <- _]. by right.
Qed.

(** How [record] fails: on a document its schema refuses, on an ill-formed salt,
    or on an error of the database, the fifth collision included.  The message
    that announces the exhaustion of the attempts is never thrown. *)
Theorem record_errors nested interfere input w :
  match record_under nested interfere input w with
  | (Return _, _) => True
  | (Throw err, _) =>
      (∃ violations, err = XsdValidationException SCHEMAS.transactionEvent violations)
      ∨ err = PlainError "Le sel doit etre un hexadecimal de 32 octets"
      ∨ ∃ code constraint, err = QueryFailedError code constraint
  end.
Proof.
  destruct (record_under nested interfere input w) as [[e|err] w'] eqn:Hrec; [done|].
  apply record_loop_rethrows in Hrec as [(w1 & w2 & H)|(e & w1 & w2 & H)].
  - apply prepare_fact_errors in H. tauto.
  - right; right. by eapply insert_fact_throw.
  - unfold MAX_SEQUENCE_ATTEMPTS. lia.
Qed.
End theorems.

(** * Witnesses *)

#[local] Existing Instances Toy.hashing Toy.entropy Toy.xsd.

(** A database that holds one payment and no fact yet. *)
Definition sample_world : World :=
  mkWorld (empty_db <| db_transactions := [sample_payment] |>) 0 1769212800000 "corr" [].

Definition sample_input : RecordEventInput :=
  event_input TransactionEventType.PROVIDER_CONFIRMED sample_payment (Some "ok").

(** Another session that records a fact of the same payment at the first attempt. *)
Definition sample_rival (k : nat) (d : Db) : Db :=
  if Nat.eqb k 1
  then w_db (record true (event_input TransactionEventType.CASE_OPENED sample_payment None)
               (mkWorld d 50 0 "rival" [])).2
  else d.

Lemma sample_ledger_ok : ledger_ok (w_db sample_world).
Proof. intros reference. split; [exact I|]. simpl. lia. Qed.

Lemma sample_rival_refines k d : ledger_refines d (sample_rival k d).
Proof.
  unfold sample_rival. destruct (Nat.eqb k 1); [|intros _; apply rtc_refl].
  apply (record_refines true _ (mkWorld d 50 0 "rival" [])).
Qed.

Lemma record_appends_witness :
  ∃ e w', record true sample_input sample_world = (Return e, w')
    ∧ chain_of "TRF-1" (w_db w') = [e] ∧ sealed e.
Proof.
  assert (Hrun : ∃ e w', record true sample_input sample_world = (Return e, w')).
  { eexists _, _. vm_compute. reflexivity. }
  destruct Hrun as (e & w' & Hrun). exists e, w'. split; [exact Hrun|].
  destruct (record_appends true sample_input sample_world e w' sample_ledger_ok Hrun)
    as (Hs & _ & _ & _ & Hchain & _).
  split; [exact Hchain|exact Hs].
Defined.

Lemma record_refines_ledger_witness :
  ledger_ok (w_db (record_under true sample_rival sample_input sample_world).2).
Proof.
  apply (record_refines_ledger true sample_rival sample_input sample_world
           sample_rival_refines sample_ledger_ok).
Defined.

(** The rival wins the first rank; the second attempt takes the next one. *)
Lemma collisions_resolve_witness :
  ∃ e w', record_under true sample_rival sample_input sample_world = (Return e, w')
    ∧ event_sequence e = 2
    ∧ match record_under true sample_rival sample_input sample_world with
      | (Throw err, _) => isSequenceCollision err = false
      | (Return _, _) => True
      end.
Proof.
  assert (Hrun : ∃ e w', record_under true sample_rival sample_input sample_world = (Return e, w')
                         ∧ event_sequence e = 2).
  { eexists _, _. split; vm_compute; reflexivity. }
  destruct Hrun as (e & w' & Hrun & Hseq). exists e, w'. split; [exact Hrun|]. split; [exact Hseq|].
  apply (collisions_resolve true sample_rival sample_input 2 sample_world);
    [exact sample_rival_refines|exact sample_ledger_ok|unfold MAX_SEQUENCE_ATTEMPTS; lia|reflexivity].
Defined.

Lemma closeCase_closes_once_witness :
  ∃ e w', closeCase_under true sample_rival sample_payment None
            (record true sample_input sample_world).2 = (Return (Some e), w')
    ∧ is_closing e = true ∧ closeCase false sample_payment None w' = (Return None, w').
Proof.
  assert (Hok : ledger_ok (w_db (record true sample_input sample_world).2))
    by (apply record_ok, sample_ledger_ok).
  assert (Hrun : ∃ e w', closeCase_under true sample_rival sample_payment None
            (record true sample_input sample_world).2 = (Return (Some e), w')).
  { eexists _, _. vm_compute. reflexivity. }
  destruct Hrun as (e & w' & Hrun). exists e, w'. split; [exact Hrun|].
  destruct (closeCase_closes_once _ _ _ _ _ _ _ sample_rival_refines Hok Hrun)
    as ([Hc _] & _ & Hagain).
  split; [exact Hc|apply Hagain].
Defined.

Lemma closeCase_declares_witness :
  ∃ e w', closeCase true sample_payment None (record true sample_input sample_world).2
            = (Return (Some e), w')
    ∧ se_closureEventCount (ev_data e) = Some 2.
Proof.
  assert (Hok : ledger_ok (w_db (record true sample_input sample_world).2))
    by (apply record_ok, sample_ledger_ok).
  assert (Hrun : ∃ e w', closeCase true sample_payment None (record true sample_input sample_world).2
                         = (Return (Some e), w')
                         ∧ length (chain_of "TRF-1" (w_db w')) = 2%nat).
  { eexists _, _. split; vm_compute; reflexivity. }
  destruct Hrun as (e & w' & Hrun & Hlen). exists e, w'. split; [exact Hrun|].
  destruct (closeCase_declares true sample_payment None _ e w' Hok Hrun) as (_ & Hcount & _).
  rewrite Hcount. change (tx_reference sample_payment) with "TRF-1". rewrite Hlen. reflexivity.
Defined.
