(* ===== verification/Ports.v ===== *)
(** The systems the gateway calls: the chain ([EvmAnchorClient]), the bank's SOAP
    back office and the aggregator's refund service.

    Each port is a class whose methods give the answer to a call, which may depend
    on every call made before it: an answer is a value or a thrown error.  The
    laws a theorem relies on are separate classes. *)
From S2P Require Import Prelude Domain External Database.
Open Scope Z_scope.

(** Makes a call and takes the answer of the port. *)
Definition ask {A} (c : ExternalCall) (reply : list ExternalCall → Outcome GatewayError A) : App A :=
  history ← call c;
  match reply history with
  | Return a => mret a
  | Throw e => throw e
  end.

(** * The chain *)

Record OnChainBatch := mkOnChainBatch {
  oc_merkleRoot : string;
  oc_leafCount : Z;
  oc_anchoredAt : Z;
  oc_submitter : string
}.

Record AnchorReceipt := mkAnchorReceipt {
  ar_txHash : string;
  ar_blockNumber : string;
  ar_gasUsed : string;
  ar_chainId : string;
  ar_contractAddress : string
}.

(** [EvmAnchorClient]. *)
Class ChainClient := {
  chain_getBatch : list ExternalCall → string → Outcome GatewayError (option OnChainBatch);
  chain_verifyInclusion : list ExternalCall → string → string → list string →
    Outcome GatewayError bool;
  chain_anchorBatch : list ExternalCall → string → string → Z → Outcome GatewayError AnchorReceipt
}.

Definition getBatch `{ChainClient} (batchId : string) : App (option OnChainBatch) :=
  ask (CallGetBatch batchId) (λ h, chain_getBatch h batchId).

Definition verifyInclusion `{ChainClient} (batchId leaf : string) (proof : list string) :
    App bool :=
  ask (CallVerifyInclusion batchId leaf) (λ h, chain_verifyInclusion h batchId leaf proof).

Definition anchorBatch `{ChainClient} (batchId merkleRoot : string) (leafCount : Z) :
    App AnchorReceipt :=
  ask (CallAnchorBatch batchId merkleRoot leafCount)
    (λ h, chain_anchorBatch h batchId merkleRoot leafCount).

(** * The bank *)

Record SoapExchange := mkSoapExchange {
  sx_operation : string;
  sx_attempts : Z;
  sx_durationMs : Z
}.

(** [SoapClientService.convertAmountToWords]. *)
Class SoapClient := {
  soap_convert : list ExternalCall → Z → Outcome GatewayError (string * SoapExchange)
}.

Definition convertAmountToWords `{SoapClient} (amount : Z) : App (string * SoapExchange) :=
  ask (CallConvertAmountToWords amount) (λ h, soap_convert h amount).

(** * The aggregator's refunds *)

Record ProviderRefund := mkProviderRefund {
  pf_providerRefundReference : string;
  pf_deduplicated : bool
}.

(** [ProviderRefundPort.refund]. *)
Class RefundProvider := {
  provider_refund : list ExternalCall → string → option string → Z → string →
    Outcome GatewayError ProviderRefund
}.

Definition refund_call `{RefundProvider} (idempotencyKey : string)
    (providerReference : option string) (amount : Z) (currency : string) : App ProviderRefund :=
  ask (CallRefund idempotencyKey providerReference amount currency)
    (λ h, provider_refund h idempotencyKey providerReference amount currency).

(** * Lemmas *)

Lemma ask_eq {A} c (reply : list ExternalCall → Outcome GatewayError A) w :
  ask c reply w = (reply (w_calls w ++ [c]), w <| w_calls := w_calls w ++ [c] |>).
Proof. unfold ask, call, mbind, Eff_bind. simpl. by destruct (reply _). Qed.

Lemma ask_respects {A} (R : Db → Db → Prop) `{!PreOrder R} c
    (reply : list ExternalCall → Outcome GatewayError A) :
  Respects (on_db R) (ask c reply).
Proof. unfold ask. respects. Qed.

#[export] Hint Resolve ask_respects : effects.

Section ports_respect.
Context (R : Db → Db → Prop) `{!PreOrder R}.

Lemma getBatch_respects `{ChainClient} id : Respects (on_db R) (getBatch id).
Proof. unfold getBatch. respects. Qed.

Lemma verifyInclusion_respects `{ChainClient} id leaf proof :
  Respects (on_db R) (verifyInclusion id leaf proof).
Proof. unfold verifyInclusion. respects. Qed.

Lemma anchorBatch_respects `{ChainClient} id r n : Respects (on_db R) (anchorBatch id r n).
Proof. unfold anchorBatch. respects. Qed.

Lemma convertAmountToWords_respects `{SoapClient} a : Respects (on_db R) (convertAmountToWords a).
Proof. unfold convertAmountToWords. respects. Qed.

Lemma refund_call_respects `{RefundProvider} k p a c : Respects (on_db R) (refund_call k p a c).
Proof. unfold refund_call. respects. Qed.
End ports_respect.

#[export] Hint Resolve getBatch_respects verifyInclusion_respects anchorBatch_respects
  convertAmountToWords_respects refund_call_respects : effects.

(** A bank that executes everything, and one that refuses, for the witnesses. *)
Definition sample_bank : SoapClient :=
  {| soap_convert _ _ := Return ("ten dollars", mkSoapExchange "NumberToDollars" 1 12) |}.
Definition refusing_bank : SoapClient :=
  {| soap_convert _ _ := Throw (SoapFaultException "NumberToDollars" "Client" "compte clos") |}.
