(* ===== verification/ChainVerification.v ===== *)
(** The integrity check of the register: [src/events/event-chain-verification.service.ts].

    [verify] rebuilds every document of a chain, recomputes its seal, follows the
    links, checks the ranks, the closure, the publication on the chain and the
    current row.  It is proved not to accuse a well-formed case, and to accept only
    chains whose content, order and length are those that were sealed. *)
From S2P Require Import Prelude Domain StateMachine Money External Fingerprint Merkle EventXml.
From S2P Require Import Database Ledger EventLedger Ports.
Open Scope Z_scope.

(** * Reports *)

Inductive Verdict := VERIFIED | TAMPERED | PARTIALLY_ANCHORED | EMPTY | CHAIN_UNAVAILABLE.

#[export] Instance Verdict_eq_dec : EqDecision Verdict.
Proof. solve_decision. Defined.

Record OnChainProof := mkOnChainProof {
  op_chainId : option string;
  op_contractAddress : option string;
  op_txHash : option string;
  op_blockNumber : option string;
  op_batchId : string;
  op_merkleRoot : string;
  op_leaf : string;
  op_proof : list string;
  op_explorerUrl : option string
}.

Record EventVerification := mkEventVerification {
  vf_sequence : Z;
  vf_eventType : TransactionEventType;
  vf_occurredAt : Z;
  vf_xsdValid : bool;
  vf_fingerprintMatches : bool;
  vf_chainIntact : bool;
  vf_anchorVerified : option bool;
  vf_onChainProof : option OnChainProof;
  vf_findings : list string
}.

Record EventChainReport := mkEventChainReport {
  rp_transactionReference : string;
  rp_verdict : Verdict;
  rp_closed : bool;
  rp_finalProofAnchored : bool;
  rp_transactionMatchesLedger : option bool;
  rp_declaredEventCount : option Z;
  rp_eventCount : Z;
  rp_anchoredCount : Z;
  rp_head : option string;
  rp_events : list EventVerification;
  rp_findings : list string;
  rp_verifiedAt : Z
}.

(** * Expected closure *)

Definition FINAL_EVENTS : list TransactionEventType :=
  [TransactionEventType.TRANSFER_COMPLETED; TransactionEventType.TRANSFER_FAILED;
   TransactionEventType.PROVIDER_FAILED; TransactionEventType.RECONCILIATION_MATCHED;
   TransactionEventType.REFUND_COMPLETED].

(** The part of [isClosureExpected] that looks at the row. *)
Definition final_row (t : Transaction) : bool :=
  (is_eq (tx_paymentChannel t) PaymentChannel.LEGACY_TRANSFER
   && (is_eq (tx_status t) TransactionStatus.COMPLETED || is_eq (tx_status t) TransactionStatus.FAILED))
  || (is_eq (tx_providerStatus t) (Some ProviderStatus.FAILED)
      && is_eq (tx_reconciliationStatus t) (Some ReconciliationStatus.NOT_APPLICABLE))
  || is_eq (tx_reconciliationStatus t) (Some ReconciliationStatus.MATCHED)
  || is_eq (tx_refundStatus t) RefundStatus.COMPLETED.

Definition isClosureExpected (t : option Transaction) (chain : list TransactionEvent) : bool :=
  match t with Some t => final_row t | None => false end
  || existsb (λ e, bool_decide (event_type e ∈ FINAL_EVENTS)) chain.

Section ChainVerification.
Context {HH : Hashing} {HX : XsdEngine} {HC : ChainClient}.
Context (explorerTxUrl : option string).

(** * One fact *)

(** [!event.batchId || !event.merkleProof] and the status. *)
Definition anchored_with (event : TransactionEvent) : option (string * list string) :=
  if negb (is_eq (ev_anchorStatus event) AnchorStatus.ANCHORED) then None
  else match ev_batchId event, ev_merkleProof event with
       | Some batchId, Some proof => if truthy (Some batchId) then Some (batchId, proof) else None
       | _, _ => None
       end.

Definition verifyAnchor (event : TransactionEvent) : App (option bool * list string) :=
  match anchored_with event with
  | None => mret (None, [])
  | Some (batchId, proof) =>
      batch ← find_batch batchId;
      match batch with
      | None =>
          mret (Some false, ["Lot " +:+ batchId +:+ " introuvable : preuve inexploitable."])
      | Some batch =>
          leaf ← toLeaf (ev_fingerprint event);
          if negb (verifyProof leaf proof (ab_merkleRoot batch)) then
            mret (Some false, ["La preuve d inclusion ne mene pas a la racine du lot."])
          else
            try_catch
              (onChain ← getBatch (ab_id batch);
               match onChain with
               | None =>
                   mret (Some false, ["Lot marque ancre en base mais absent de la chaine."])
               | Some onChain =>
                   if negb (str_eqb (toLowerCase (oc_merkleRoot onChain))
                              (toLowerCase (ab_merkleRoot batch)))
                   then mret (Some false,
                          ["Racine en base (" +:+ ab_merkleRoot batch
                             +:+ ") differente de celle publiee (" +:+ oc_merkleRoot onChain
                             +:+ ")."])
                   else
                     included ← verifyInclusion (ab_id batch) leaf proof;
                     mret (Some included, [])
               end)
              (λ _, mret (None, []))
      end
  end.

Definition buildProof (event : TransactionEvent) : App (option OnChainProof) :=
  match anchored_with event with
  | None => mret None
  | Some (batchId, proof) =>
      batch ← find_batch batchId;
      match batch with
      | None => mret None
      | Some batch =>
          leaf ← toLeaf (ev_fingerprint event);
          mret (Some {|
            op_chainId := ab_chainId batch;
            op_contractAddress := ab_contractAddress batch;
            op_txHash := ab_txHash batch;
            op_blockNumber := ab_blockNumber batch;
            op_batchId := ab_id batch;
            op_merkleRoot := ab_merkleRoot batch;
            op_leaf := leaf;
            op_proof := proof;
            op_explorerUrl :=
              match explorerTxUrl, ab_txHash batch with
              | Some url, Some txHash =>
                  if truthy (Some url) && truthy (Some txHash) then Some (url +:+ txHash) else None
              | _, _ => None
              end
          |})
      end
  end.

(** [a?.toLowerCase() === b?.toLowerCase()] *)
Definition same_digits (a b : option string) : bool :=
  bool_decide (toLowerCase <$> a = toLowerCase <$> b).

Definition verifyEvent (event : TransactionEvent) (previous : option TransactionEvent) :
    App EventVerification :=
  let xml := rebuildDocument event in
  let violations := validate xml SCHEMAS.transactionEvent in
  let xsdValid := Nat.eqb (length violations) 0 in
  recomputed ← computeFingerprint (ev_fingerprintSalt event) xml;
  let fingerprintMatches :=
    str_eqb (toLowerCase recomputed) (toLowerCase (ev_fingerprint event)) in
  let chainIntact :=
    same_digits (se_previousFingerprint (ev_data event)) (ev_fingerprint <$> previous) in
  anchor ← verifyAnchor event;
  onChainProof ← buildProof event;
  mret {|
    vf_sequence := event_sequence event;
    vf_eventType := event_type event;
    vf_occurredAt := se_occurredAt (ev_data event);
    vf_xsdValid := xsdValid;
    vf_fingerprintMatches := fingerprintMatches;
    vf_chainIntact := chainIntact;
    vf_anchorVerified := anchor.1;
    vf_onChainProof := onChainProof;
    vf_findings :=
      (if xsdValid then []
       else ["Document non conforme : " +:+ String.concat " | " violations])
      ++ (if fingerprintMatches then []
          else ["Le fait consigne ne produit plus son empreinte scellee."])
      ++ (if chainIntact then []
          else match previous with
               | None => ["Le premier maillon reference un predecesseur : la tete de chaine a ete retiree."]
               | Some _ => ["Le maillon ne pointe pas vers l empreinte du fait precedent."]
               end)
      ++ anchor.2
  |}.

(** * The chain *)

(** The [for] loop: each fact against the one before it. *)
Fixpoint verify_events (previous : option TransactionEvent) (chain : list TransactionEvent) :
    App (list EventVerification) :=
  match chain with
  | [] => mret []
  | event :: chain =>
      result ← verifyEvent event previous;
      results ← verify_events (Some event) chain;
      mret (result :: results)
  end.

Definition event_tampered (r : EventVerification) : bool :=
  negb (vf_xsdValid r) || negb (vf_fingerprintMatches r) || negb (vf_chainIntact r)
  || is_eq (vf_anchorVerified r) (Some false).

Definition event_unavailable (r : EventVerification) (event : TransactionEvent) : bool :=
  is_eq (vf_anchorVerified r) None && is_eq (ev_anchorStatus event) AnchorStatus.ANCHORED.

(** Ranks 1 to [n]. *)
Definition ranks_continuous (chain : list TransactionEvent) : bool :=
  bool_decide ((λ i, Z.of_nat i) <$> seq 1 (length chain) = event_sequence <$> chain).

(** The position of the first closing fact. *)
Fixpoint closing_index (chain : list TransactionEvent) (i : nat) : option (nat * TransactionEvent) :=
  match chain with
  | [] => None
  | e :: chain => if is_closing e then Some (i, e) else closing_index chain (S i)
  end.

(** The three controls of the closing fact, with their findings. *)
Definition closing_findings (chain : list TransactionEvent) (i : nat) (closing : TransactionEvent) :
    list string :=
  let declared := se_closureEventCount (ev_data closing) in
  let n := Z.of_nat (length chain) in
  (if bool_decide (declared = Some n) then []
   else ["La cloture declare " +:+ match declared with Some c => pretty c | None => "null" end
           +:+ " faits, la chaine en compte " +:+ pretty n
           +:+ " : des evenements ont ete retires."])
  ++ match i with
     | O => []
     | S j =>
         match chain !! j with
         | None => []
         | Some previous =>
             if same_digits (se_closureChainHead (ev_data closing)) (Some (ev_fingerprint previous))
             then [] else ["Le sommet de chaine declare par la cloture ne correspond pas."]
         end
     end
  ++ (if event_sequence closing =? n then []
      else ["La cloture n est pas le dernier fait : des evenements ont ete ajoutes apres elle."]).

Definition closure_findings (t : option Transaction) (chain : list TransactionEvent) : list string :=
  match closing_index chain 0 with
  | Some (i, closing) => closing_findings chain i closing
  | None =>
      if isClosureExpected t chain then
        ["Le dossier est dans un etat final mais son evenement de cloture est absent : "
           +:+ "la queue du registre a ete tronquee ou la cloture n a pas ete consignee."]
      else []
  end.

(** The fields of the row that no longer say what the opening recorded. *)
Definition divergences (opening : SerializableEvent) (t : Transaction) : list string :=
  omap (λ '(name, consigned, current), if bool_decide (consigned = current) then None else Some name)
    [("IBAN du donneur d ordre", se_debtorIban opening, Some (tx_debtorIban t));
     ("nom du donneur d ordre", se_debtorName opening, tx_debtorName t);
     ("IBAN du beneficiaire", se_creditorIban opening, Some (tx_creditorIban t));
     ("nom du beneficiaire", se_creditorName opening, Some (tx_creditorName t));
     ("libelle", se_endToEndLabel opening, tx_endToEndLabel t);
     ("montant", Some (toFixed2 (se_expectedAmount opening)), Some (toFixed2 (tx_amount t)));
     ("devise", Some (se_currency opening), Some (tx_currency t))].

Definition opening_of (chain : list TransactionEvent) : option TransactionEvent :=
  List.find (λ e, negb (is_eq (se_creditorIban (ev_data e)) None)) chain.

Definition row_divergences (t : option Transaction) (chain : list TransactionEvent) :
    option (list string) :=
  match opening_of chain, t with
  | Some opening, Some t => Some (divergences (ev_data opening) t)
  | _, _ => None
  end.

Definition join_numbers (l : list Z) : string := String.concat ", " (pretty <$> l).

Definition empty_report (reference : string) (t : option Transaction) (date : Z) :
    EventChainReport :=
  let closureExpected := isClosureExpected t [] in
  {|
    rp_transactionReference := reference;
    rp_verdict := if closureExpected then TAMPERED else EMPTY;
    rp_closed := false;
    rp_finalProofAnchored := false;
    rp_transactionMatchesLedger := None;
    rp_declaredEventCount := None;
    rp_eventCount := 0;
    rp_anchoredCount := 0;
    rp_head := None;
    rp_events := [];
    rp_findings :=
      [if closureExpected
       then "Le dossier est dans un etat final mais toute sa chaine d evenements a disparu."
       else "Aucun evenement consigne pour cette transaction : rien a verifier."];
    rp_verifiedAt := date
  |}.

(** The report on a non-empty chain, from the results on its facts. *)
Definition chain_report (reference : string) (t : option Transaction)
    (chain : list TransactionEvent) (results : list EventVerification) (date : Z) :
    EventChainReport :=
  let ranks_findings :=
    if ranks_continuous chain then []
    else ["Les rangs ne forment pas une suite continue : attendu "
            +:+ join_numbers ((λ i, Z.of_nat i) <$> seq 1 (length chain)) +:+ ", constate "
            +:+ join_numbers (event_sequence <$> chain)
            +:+ ". Au moins un evenement a ete retire."] in
  let missing_findings :=
    match t with
    | None => ["La transaction referencee par le registre est introuvable."]
    | Some _ => []
    end in
  let closing := closing_index chain 0 in
  let finalProofAnchored :=
    match closing with
    | Some (i, _) =>
        match results !! i with
        | Some r => is_eq (vf_anchorVerified r) (Some true)
        | None => false
        end
    | None => false
    end in
  let row_findings :=
    match row_divergences t chain with
    | Some ((_ :: _) as fields) =>
        ["ALTERATION DETECTEE : la ligne ne correspond plus a ce que l ouverture a consigne ("
           +:+ String.concat ", " fields +:+ ")."]
    | _ => []
    end in
  let raised := missing_findings ++ ranks_findings ++ closure_findings t chain ++ row_findings in
  let tampered := existsb event_tampered results || negb (Nat.eqb (length raised) 0) in
  let chainUnavailable :=
    existsb (λ '(r, e), event_unavailable r e) (zip results chain) in
  let head := ev_fingerprint <$> list.last chain in
  {|
    rp_transactionReference := reference;
    rp_verdict :=
      if tampered then TAMPERED
      else if chainUnavailable then CHAIN_UNAVAILABLE
      else if negb finalProofAnchored then PARTIALLY_ANCHORED
      else VERIFIED;
    rp_closed := match closing with Some _ => true | None => false end;
    rp_finalProofAnchored := finalProofAnchored;
    rp_transactionMatchesLedger := (λ fields, Nat.eqb (length fields) 0) <$> row_divergences t chain;
    rp_declaredEventCount := match closing with
                             | Some (_, c) => se_closureEventCount (ev_data c)
                             | None => None
                             end;
    rp_eventCount := Z.of_nat (length chain);
    rp_anchoredCount :=
      Z.of_nat (length (List.filter (λ r, is_eq (vf_anchorVerified r) (Some true)) results));
    rp_head := head;
    rp_events := results;
    rp_findings := raised ++
      (if tampered then ["ALTERATION DETECTEE dans le registre d evenements."]
       else if chainUnavailable then
         ["Chaine injoignable : contenu et ordre sont confirmes, la publication n a pas pu etre verifiee."]
       else if negb finalProofAnchored then
         [match closing with
          | Some _ => "La preuve finale attend le prochain lot d ancrage."
          | None => "Dossier encore ouvert : aucun etat intermediaire n est ancre."
          end]
       else
         ["Les " +:+ pretty (Z.of_nat (length chain)) +:+ " evenements sont intacts et ordonnes. "
            +:+ "La cloture ancree engage tout l historique ; sommet de chaine : "
            +:+ default "" head +:+ ".";
          "Dossier clos : le total declare fait foi, aucune troncature possible."]);
    rp_verifiedAt := date
  |}.

Definition verify (reference : string) : App EventChainReport :=
  chain ← findChain reference;
  t ← find_transaction (by_reference reference);
  date ← now;
  if Nat.eqb (length chain) 0 then mret (empty_report reference t date)
  else
    results ← verify_events None chain;
    mret (chain_report reference t chain results date).
End ChainVerification.

(** * What a clean verdict promises *)

(** The fact that precedes position [i]. *)
Definition previous_at (p : option TransactionEvent) (chain : list TransactionEvent) (i : nat) :
    option TransactionEvent :=
  match i with O => p | S j => chain !! j end.

Section specification.
Context {HH : Hashing} {HX : XsdEngine} {HC : ChainClient}.

(** The stored document is valid and hashes to the stored seal. *)
Definition authentic_fact (e : TransactionEvent) : Prop :=
  is_bytes32 (ev_fingerprintSalt e) = true
  ∧ toLowerCase (keccak256 (External.concat [ev_fingerprintSalt e; toUtf8Bytes (rebuildDocument e)]))
    = toLowerCase (ev_fingerprint e)
  ∧ validate (rebuildDocument e) SCHEMAS.transactionEvent = [].

(** The chain and the row say what was sealed, in the order and to the length it
    was sealed, and a finished case is closed. *)
Record authentic (reference : string) (d : Db) (t : Transaction) : Prop := {
  authentic_row : List.find (by_reference reference) (db_transactions d) = Some t;
  authentic_facts : Forall authentic_fact (chain_of reference d);
  authentic_links : ∀ i e, chain_of reference d !! i = Some e →
    toLowerCase <$> se_previousFingerprint (ev_data e)
    = toLowerCase <$> (ev_fingerprint <$> previous_at None (chain_of reference d) i);
  authentic_ranks : ∀ i e, chain_of reference d !! i = Some e → event_sequence e = Z.of_nat i + 1;
  authentic_closing : ∀ i e, chain_of reference d !! i = Some e → is_closing e = true →
    S i = length (chain_of reference d)
    ∧ se_closureEventCount (ev_data e) = Some (Z.of_nat (length (chain_of reference d)))
    ∧ (i ≠ 0%nat → toLowerCase <$> se_closureChainHead (ev_data e)
                  = toLowerCase <$> (ev_fingerprint <$> previous_at None (chain_of reference d) i));
  authentic_closed : isClosureExpected (Some t) (chain_of reference d) = true →
    existsb is_closing (chain_of reference d) = true;
  authentic_opening : ∀ fields, row_divergences (Some t) (chain_of reference d) = Some fields →
    fields = []
}.

(** What the database says of the publication of a fact is what the chain answers from
    now on, when it answers: [calls] are those made so far. *)
Definition published (calls : list ExternalCall) (d : Db) (e : TransactionEvent) : Prop :=
  match anchored_with e with
  | None => True
  | Some (batchId, proof) =>
      ∃ b, List.find (λ b, str_eqb (ab_id b) batchId) (db_batches d) = Some b
      ∧ verifyProof (keccak256 (ev_fingerprint e)) proof (ab_merkleRoot b) = true
      ∧ (∀ call later, match chain_getBatch (calls ++ call :: later) (ab_id b) with
              | Return (Some oc) => toLowerCase (oc_merkleRoot oc) = toLowerCase (ab_merkleRoot b)
              | Return None => False
              | Throw _ => True
              end)
      ∧ ∀ call later,
          chain_verifyInclusion (calls ++ call :: later) (ab_id b) (keccak256 (ev_fingerprint e)) proof
          ≠ Return false
  end.

(** The chain confirmed the inclusion of the fact under the root of its batch. *)
Definition confirmed_on_chain (d : Db) (e : TransactionEvent) : Prop :=
  ∃ batchId proof b oc h h',
    anchored_with e = Some (batchId, proof)
    ∧ List.find (λ b, str_eqb (ab_id b) batchId) (db_batches d) = Some b
    ∧ verifyProof (keccak256 (ev_fingerprint e)) proof (ab_merkleRoot b) = true
    ∧ chain_getBatch h (ab_id b) = Return (Some oc)
    ∧ toLowerCase (oc_merkleRoot oc) = toLowerCase (ab_merkleRoot b)
    ∧ chain_verifyInclusion h' (ab_id b) (keccak256 (ev_fingerprint e)) proof = Return true.
End specification.

(** * Lemmas *)

#[export] Instance eq_preorder {A} : PreOrder (@eq A).
Proof. split; [by intros ?|by intros ??? -> ->]. Qed.

Section verification_lemmas.
Context {HH : Hashing} {HX : XsdEngine} {HC : ChainClient}.
Context (explorerTxUrl : option string).
Implicit Types (e : TransactionEvent) (w : World).

Abbreviation reads := (Respects (on_db eq)).

(** ** Nothing is written *)

Lemma find_batch_reads id : reads (find_batch id).
Proof. unfold find_batch. respects. Qed.
#[local] Hint Resolve find_batch_reads : effects.

Lemma verifyAnchor_reads e : reads (verifyAnchor e).
Proof. unfold verifyAnchor. respects. Qed.

Lemma buildProof_reads e : reads (buildProof explorerTxUrl e).
Proof. unfold buildProof. respects. Qed.
#[local] Hint Resolve verifyAnchor_reads buildProof_reads : effects.

Lemma verifyEvent_reads e p : reads (verifyEvent explorerTxUrl e p).
Proof. unfold verifyEvent. respects. Qed.
#[local] Hint Resolve verifyEvent_reads : effects.

Lemma verify_events_reads chain p : reads (verify_events explorerTxUrl p chain).
Proof. revert p. induction chain as [|e chain IH]; intros p; simpl; respects. Qed.

(** ** Calls are only added *)

Definition calls_grow (w w' : World) : Prop := ∃ later, w_calls w' = w_calls w ++ later.

#[export] Instance calls_grow_preorder : PreOrder calls_grow.
Proof.
  split; [intros w; exists []; by rewrite app_nil_r|].
  intros w1 w2 w3 [a Ha] [b Hb]. exists (a ++ b). by rewrite Hb, Ha, app_assoc.
Qed.

Lemma ask_grows {A} c (reply : list ExternalCall → Outcome GatewayError A) :
  Respects calls_grow (ask c reply).
Proof. intros w. rewrite ask_eq. by eexists. Qed.
#[local] Hint Resolve ask_grows : effects.

Lemma verifyEvent_grows e p : Respects calls_grow (verifyEvent explorerTxUrl e p).
Proof.
  unfold verifyEvent, verifyAnchor, buildProof, find_batch, get_db, getBatch, verifyInclusion,
    computeFingerprint, toLeaf. respects.
Qed.

Lemma published_later calls later d e : published calls d e → published (calls ++ later) d e.
Proof.
  unfold published. destruct (anchored_with e) as [[id proof]|]; [|done].
  intros (b & Hb & Hproof & Hroot & Hincl). exists b.
  split_and!; [done|done| |]; intros call more; rewrite <- app_assoc; destruct later as [|first later];
    [apply Hroot|apply (Hroot first (later ++ call :: more))
    |apply Hincl|apply (Hincl first (later ++ call :: more))].
Qed.

Lemma published_grows w w' e :
  calls_grow w w' → published (w_calls w) (w_db w) e → published (w_calls w') (w_db w) e.
Proof. intros [later ->]. apply published_later. Qed.

Lemma reads_db {A} (m : App A) w o w' : reads m → m w = (o, w') → w_db w' = w_db w.
Proof. intros Hm Hw. specialize (Hm w). rewrite Hw in Hm. by symmetry. Qed.

(** ** One fact *)

Lemma find_batch_eq id w :
  find_batch id w = (Return (List.find (λ b, str_eqb (ab_id b) id) (db_batches (w_db w))), w).
Proof. done. Qed.

Lemma verifyAnchor_published e w :
  published (w_calls w) (w_db w) e → is_bytes32 (ev_fingerprint e) = true →
  ∃ a findings w', verifyAnchor e w = (Return (a, findings), w') ∧ a ≠ Some false.
Proof.
  unfold published, verifyAnchor. destruct (anchored_with e) as [[id proof]|].
  2: by intros _ _; eexists _, _, _.
  intros (b & Hb & Hproof & Hroot & Hincl) Hfp.
  erewrite bind_return by apply find_batch_eq. rewrite Hb.
  erewrite bind_return by by apply toLeaf_return. rewrite Hproof. cbn [negb].
  unfold try_catch, getBatch, verifyInclusion, mbind, Eff_bind.
  rewrite ask_eq. specialize (Hroot (CallGetBatch (ab_id b)) []).
  destruct (chain_getBatch _ _) as [[oc|]|err]; [|done|by eexists _, _, _].
  unfold str_eqb. rewrite Hroot, String.eqb_refl. cbn [negb]. rewrite ask_eq.
  destruct (chain_verifyInclusion _ _ _ _) as [[]|err] eqn:Hi; [by eexists _, _, _| |by eexists _, _, _].
  exfalso. apply (Hincl (CallGetBatch (ab_id b)) [CallVerifyInclusion (ab_id b) (keccak256 (ev_fingerprint e))]).
  rewrite <- Hi. simpl. by rewrite <- app_assoc.
Qed.

Lemma buildProof_published e w :
  is_bytes32 (ev_fingerprint e) = true →
  ∃ proof, buildProof explorerTxUrl e w = (Return proof, w).
Proof.
  intros Hfp. unfold buildProof. destruct (anchored_with e) as [[id proof]|]; [|by eexists].
  erewrite bind_return by apply find_batch_eq.
  destruct (List.find _ _) as [b|]; [|by eexists].
  erewrite bind_return by by apply toLeaf_return. by eexists.
Qed.

(** What the result on a fact says. *)
Lemma verifyEvent_inv e p w r w' :
  verifyEvent explorerTxUrl e p w = (Return r, w') →
  is_bytes32 (ev_fingerprintSalt e) = true
  ∧ vf_xsdValid r = Nat.eqb (length (validate (rebuildDocument e) SCHEMAS.transactionEvent)) 0
  ∧ vf_fingerprintMatches r =
      str_eqb (toLowerCase (keccak256
        (External.concat [ev_fingerprintSalt e; toUtf8Bytes (rebuildDocument e)])))
        (toLowerCase (ev_fingerprint e))
  ∧ vf_chainIntact r = same_digits (se_previousFingerprint (ev_data e)) (ev_fingerprint <$> p)
  ∧ ∃ findings w1, verifyAnchor e w = (Return (vf_anchorVerified r, findings), w1).
Proof.
  unfold verifyEvent. cbv zeta.
  intros (fp & w1 & (Hsalt & -> & ->)%computeFingerprint_inv & H)%bind_inv.
  apply bind_inv in H as ([a f] & w1 & Ha & H). apply bind_inv in H as (o & w2 & _ & [= <- <-]).
  split_and!; try done. by exists f, w1.
Qed.

Lemma verifyEvent_return e p w :
  is_bytes32 (ev_fingerprintSalt e) = true → is_bytes32 (ev_fingerprint e) = true →
  published (w_calls w) (w_db w) e → ∃ r w', verifyEvent explorerTxUrl e p w = (Return r, w').
Proof.
  intros Hsalt Hfp Hpub. unfold verifyEvent. cbv zeta.
  erewrite bind_return by by apply computeFingerprint_return.
  destruct (verifyAnchor_published e w Hpub Hfp) as (a & f & w1 & Ha & _).
  erewrite bind_return by exact Ha.
  destruct (buildProof_published e w1 Hfp) as [o Ho].
  erewrite bind_return by exact Ho. by eexists _, _.
Qed.

Lemma event_tampered_false r :
  event_tampered r = false ↔
  vf_xsdValid r = true ∧ vf_fingerprintMatches r = true ∧ vf_chainIntact r = true
  ∧ vf_anchorVerified r ≠ Some false.
Proof.
  unfold event_tampered. rewrite !orb_false_iff, !negb_false_iff, bool_decide_eq_false. tauto.
Qed.

Lemma verifyEvent_clean e p w r w' :
  verifyEvent explorerTxUrl e p w = (Return r, w') →
  (event_tampered r = false ↔
   authentic_fact e
   ∧ toLowerCase <$> se_previousFingerprint (ev_data e) = toLowerCase <$> (ev_fingerprint <$> p)
   ∧ vf_anchorVerified r ≠ Some false).
Proof.
  intros (Hsalt & Hx & Hf & Hc & _)%verifyEvent_inv.
  rewrite event_tampered_false, Hx, Hf, Hc, Nat.eqb_eq, length_zero_iff_nil, str_eqb_spec.
  unfold same_digits, authentic_fact. rewrite bool_decide_eq_true. tauto.
Qed.

(** ** The facts of a chain *)

Lemma verify_events_inv p chain w rs w' :
  verify_events explorerTxUrl p chain w = (Return rs, w') →
  length rs = length chain
  ∧ ∀ i e, chain !! i = Some e → ∃ r w1 w2, rs !! i = Some r
      ∧ (w_db w1 = w_db w ∧ calls_grow w w1)
      ∧ verifyEvent explorerTxUrl e (previous_at p chain i) w1 = (Return r, w2).
Proof.
  revert p w rs. induction chain as [|e chain IH]; intros p w rs; simpl.
  { intros [= <- <-]. by split. }
  intros (r & w1 & Hr & (rs' & w2 & Hrs & [= <- <-])%bind_inv)%bind_inv.
  destruct (IH _ _ _ Hrs) as [Hlen Hall]. split; [by simpl; rewrite Hlen|].
  intros [|i] f Hi; simplify_eq/=; [by exists r, w, w1; split_and!; [done|done|exists []; by rewrite app_nil_r|]|].
  destruct (Hall i f Hi) as (r' & w3 & w4 & ? & [Hdb Hcalls] & Hv). exists r', w3, w4. split_and!; [done| | |].
  - rewrite Hdb. eapply reads_db; [apply verifyEvent_reads|exact Hr].
  - etrans; [|exact Hcalls]. exact (respects_run _ _ _ _ _ (verifyEvent_grows _ _) Hr).
  - by destruct i.
Qed.

Lemma verify_events_return p chain w :
  Forall (λ e, is_bytes32 (ev_fingerprintSalt e) = true ∧ is_bytes32 (ev_fingerprint e) = true
               ∧ published (w_calls w) (w_db w) e) chain →
  ∃ rs w', verify_events explorerTxUrl p chain w = (Return rs, w').
Proof.
  intros Hall. revert p w Hall. induction chain as [|e chain IH]; intros p w Hall; [by eexists _, _|].
  apply Forall_cons in Hall as [(Hs & Hf & Hp) Hall]. simpl.
  destruct (verifyEvent_return e p w Hs Hf Hp) as (r & w1 & Hr).
  erewrite bind_return by exact Hr.
  assert (Hdb : w_db w1 = w_db w) by (eapply reads_db; [apply verifyEvent_reads|exact Hr]).
  destruct (IH (Some e) w1) as (rs & w2 & Hrs).
  { rewrite Hdb. eapply Forall_impl; [exact Hall|]. intros f (? & ? & Hpub). split_and!; [done|done|].
    eapply published_grows; [|exact Hpub]. exact (respects_run _ _ _ _ _ (verifyEvent_grows _ _) Hr). }
  erewrite bind_return by exact Hrs. by eexists _, _.
Qed.

(** ** The chain *)

Lemma ranks_continuous_spec chain :
  ranks_continuous chain = true ↔
  ∀ i e, chain !! i = Some e → event_sequence e = Z.of_nat i + 1.
Proof.
  unfold ranks_continuous. rewrite bool_decide_eq_true. split.
  - intros Heq i e Hi. assert (Hl := f_equal (λ l : list Z, l !! i) Heq). simpl in Hl.
    rewrite !list_lookup_fmap, Hi, lookup_seq_lt in Hl by by eapply lookup_lt_Some.
    simpl in Hl. injection Hl. lia.
  - intros Hall. apply list_eq. intros i. rewrite !list_lookup_fmap.
    destruct (chain !! i) as [e|] eqn:Hi.
    + rewrite lookup_seq_lt by by eapply lookup_lt_Some. simpl. rewrite (Hall i e Hi). f_equal. lia.
    + by rewrite lookup_seq_ge by by apply lookup_ge_None.
Qed.

Lemma closing_index_spec chain k :
  match closing_index chain k with
  | Some (i, e) => (k <= i)%nat ∧ chain !! (i - k)%nat = Some e ∧ is_closing e = true
                   ∧ ∀ j f, (j < i - k)%nat → chain !! j = Some f → is_closing f = false
  | None => existsb is_closing chain = false
  end.
Proof.
  revert k. induction chain as [|e chain IH]; intros k; simpl; [done|].
  destruct (is_closing e) eqn:Hc; simpl.
  { rewrite Nat.sub_diag. split_and!; [lia|done|done|]. intros j f Hj. lia. }
  specialize (IH (S k)). destruct (closing_index chain (S k)) as [[i f]|]; [|done].
  destruct IH as (Hk & Hf & Hcl & Hmin). replace (i - k)%nat with (S (i - S k)) by lia.
  split_and!; [lia|done|done|]. intros [|j] g Hj Hg; simplify_eq/=; [done|].
  apply (Hmin j); [lia|done].
Qed.

Lemma closing_findings_nil chain i closing :
  (i < length chain)%nat →
  closing_findings chain i closing = [] ↔
  se_closureEventCount (ev_data closing) = Some (Z.of_nat (length chain))
  ∧ (i ≠ 0%nat → toLowerCase <$> se_closureChainHead (ev_data closing)
                 = toLowerCase <$> (ev_fingerprint <$> previous_at None chain i))
  ∧ event_sequence closing = Z.of_nat (length chain).
Proof.
  intros Hi. unfold closing_findings.
  assert (Hhead : ∀ (P : Prop) (b : bool) (m : string), (b = true ↔ P) →
    (if b then [] else [m]) = [] ↔ P) by (intros P [] m H; split; [tauto|done|done|naive_solver]).
  rewrite !app_nil. rewrite (Hhead _ _ _ (bool_decide_eq_true _)), (Hhead _ _ _ (Z.eqb_eq _ _)).
  destruct i as [|j]; simpl; [tauto|].
  destruct (lookup_lt_is_Some_2 chain j) as [f Hf]; [lia|]. rewrite Hf. simpl.
  unfold same_digits. rewrite (Hhead _ _ _ (bool_decide_eq_true _)). naive_solver.
Qed.

Lemma closure_findings_spec t chain :
  (∀ i e, chain !! i = Some e → event_sequence e = Z.of_nat i + 1) →
  closure_findings t chain = [] ↔
  (∀ i e, chain !! i = Some e → is_closing e = true →
     S i = length chain ∧ se_closureEventCount (ev_data e) = Some (Z.of_nat (length chain))
     ∧ (i ≠ 0%nat → toLowerCase <$> se_closureChainHead (ev_data e)
                    = toLowerCase <$> (ev_fingerprint <$> previous_at None chain i)))
  ∧ (isClosureExpected t chain = true → existsb is_closing chain = true).
Proof.
  intros Hranks. unfold closure_findings. assert (Hspec := closing_index_spec chain 0).
  destruct (closing_index chain 0) as [[i c]|].
  - destruct Hspec as (_ & Hi & Hc & Hmin). rewrite Nat.sub_0_r in *.
    rewrite closing_findings_nil by by eapply lookup_lt_Some. rewrite (Hranks i c Hi). split.
    + intros (Hn & Hh & Hs). split.
      2: { intros _. apply existsb_exists. exists c. split; [|done].
           apply list_elem_of_In. by eapply list_elem_of_lookup_2. }
      intros j f Hj Hf. assert (j = i) as ->.
      { pose proof (lookup_lt_Some _ _ _ Hj). destruct (decide (j < i)%nat) as [Hlt|]; [|lia].
        by rewrite (Hmin j f Hlt Hj) in Hf. }
      simplify_eq. split_and!; [lia|done|done].
    + intros [Hall _]. destruct (Hall i c Hi Hc) as (Hl & Hn & Hh). split_and!; [done..|lia].
  - destruct (isClosureExpected t chain); rewrite Hspec; split; try done; try naive_solver.
    intros _. split; [|done]. intros i e Hi Hc. apply existsb_false in Hspec.
    apply Forall_lookup with (i := i) (x := e) in Hspec; [|done]. congruence.
Qed.

Lemma chain_report_clean reference t chain rs date :
  rp_verdict (chain_report reference t chain rs date) ≠ TAMPERED ↔
  existsb event_tampered rs = false ∧ is_Some t ∧ ranks_continuous chain = true
  ∧ closure_findings t chain = []
  ∧ ∀ fields, row_divergences t chain = Some fields → fields = [].
Proof.
  unfold chain_report. cbn [rp_verdict].
  destruct (existsb event_tampered rs); simpl; [naive_solver|].
  destruct t as [t|]; simpl; [|split; [done|by intros (_ & [? [=]] & _)]].
  destruct (ranks_continuous chain); simpl; [|naive_solver].
  destruct (closure_findings (Some t) chain); simpl; [|naive_solver].
  destruct (row_divergences (Some t) chain) as [[|f l]|]; simpl.
  - split; [|repeat case_match; done]. intros _. split_and!; [done|by eexists|done..|congruence].
  - split; [done|]. intros (_ & _ & _ & _ & H). by specialize (H _ eq_refl).
  - split; [|repeat case_match; done]. intros _. split_and!; [done|by eexists|done..].
Qed.

(** [verify] on a chain that is not empty. *)
Lemma verify_eq reference w :
  chain_of reference (w_db w) ≠ [] →
  verify explorerTxUrl reference w =
    match verify_events explorerTxUrl None (chain_of reference (w_db w)) w with
    | (Return rs, w') =>
        (Return (chain_report reference
                   (List.find (by_reference reference) (db_transactions (w_db w)))
                   (chain_of reference (w_db w)) rs (w_now w)), w')
    | (Throw err, w') => (Throw err, w')
    end.
Proof.
  intros Hne. unfold verify. do 3 (erewrite bind_return by reflexivity).
  rewrite (proj2 (Nat.eqb_neq _ _)) by by rewrite length_zero_iff_nil.
  unfold mbind, Eff_bind. by destruct (verify_events _ _ _ w) as [[rs|err] w'].
Qed.

Lemma verify_reads reference : reads (verify explorerTxUrl reference).
Proof.
  unfold verify, findChain, find_transaction.
  respects. apply verify_events_reads.
Qed.

(** The verdict in terms of the specification. *)
Lemma verify_clean reference w rs w' :
  verify_events explorerTxUrl None (chain_of reference (w_db w)) w = (Return rs, w') →
  let t := List.find (by_reference reference) (db_transactions (w_db w)) in
  rp_verdict (chain_report reference t (chain_of reference (w_db w)) rs (w_now w)) ≠ TAMPERED ↔
  (∃ t, authentic reference (w_db w) t)
  ∧ ∀ i r, rs !! i = Some r → vf_anchorVerified r ≠ Some false.
Proof.
  intros Hrs t. rewrite chain_report_clean.
  destruct (verify_events_inv _ _ _ _ _ Hrs) as [Hlen Hall].
  assert (Hev : existsb event_tampered rs = false ↔
    ∀ i r, rs !! i = Some r → event_tampered r = false).
  { rewrite existsb_false, Forall_lookup. done. }
  split.
  - intros (Ht & [u Hu] & Hr & Hc & Hrow). rewrite Hev in Ht.
    rewrite ranks_continuous_spec in Hr. unfold t in *. rewrite Hu in *.
    apply closure_findings_spec in Hc as [Hc1 Hc2]; [|done].
    assert (Hfact : ∀ i e, chain_of reference (w_db w) !! i = Some e → authentic_fact e
      ∧ toLowerCase <$> se_previousFingerprint (ev_data e)
        = toLowerCase <$> (ev_fingerprint <$> previous_at None (chain_of reference (w_db w)) i)).
    { intros i e Hi. destruct (Hall i e Hi) as (r & w1 & w2 & Hri & _ & Hv).
      specialize (Ht _ _ Hri). apply (verifyEvent_clean _ _ _ _ _ Hv) in Ht as (? & ? & _). done. }
    split.
    + exists u. split; [done|apply Forall_lookup; intros i e Hi; by eapply Hfact| |done..].
      intros i e Hi. by apply Hfact.
    + intros i r Hri. by apply event_tampered_false, Ht with i.
  - intros [[u [Hu Hf Hl Hr Hc Hcl Ho]] Hanchor]. unfold t. rewrite Hu. split_and!.
    + apply Hev. intros i r Hri.
      destruct (lookup_lt_is_Some_2 (chain_of reference (w_db w)) i) as [e Hi].
      { rewrite <- Hlen. by eapply lookup_lt_Some. }
      destruct (Hall i e Hi) as (r' & w1 & w2 & Hri' & _ & Hv). simplify_eq.
      apply (verifyEvent_clean _ _ _ _ _ Hv). split_and!; [|by apply Hl|by eapply Hanchor].
      by eapply Forall_lookup in Hf.
    + by eexists.
    + by apply ranks_continuous_spec.
    + by apply closure_findings_spec.
    + done.
Qed.

(** ** Publication *)

Lemma verifyAnchor_confirmed e w findings w' :
  verifyAnchor e w = (Return (Some true, findings), w') → confirmed_on_chain (w_db w) e.
Proof.
  unfold verifyAnchor, confirmed_on_chain.
  destruct (anchored_with e) as [[id proof]|] eqn:Ha; [|done].
  erewrite bind_return by apply find_batch_eq.
  destruct (List.find _ _) as [b|] eqn:Hb; [|done].
  intros (leaf & w1 & (_ & -> & ->)%toLeaf_inv & H)%bind_inv.
  destruct (verifyProof _ _ _) eqn:Hp; [|done]. cbn [negb] in H. revert H.
  unfold try_catch, getBatch, verifyInclusion, mbind, Eff_bind. rewrite ask_eq.
  destruct (chain_getBatch _ _) as [[oc|]|err] eqn:Ho; [|done..].
  destruct (str_eqb _ _) eqn:Hroot; [|done]. cbn [negb]. rewrite ask_eq.
  destruct (chain_verifyInclusion _ _ _ _) as [[]|err] eqn:Hi; [|done..]. intros _.
  apply str_eqb_spec in Hroot. by eexists id, proof, b, oc, _, _.
Qed.

Lemma published_not_refuted p chain w rs w' :
  verify_events explorerTxUrl p chain w = (Return rs, w') →
  Forall (λ e, is_bytes32 (ev_fingerprint e) = true ∧ published (w_calls w) (w_db w) e) chain →
  ∀ i r, rs !! i = Some r → vf_anchorVerified r ≠ Some false.
Proof.
  intros Hrs Hpub i r Hi. destruct (verify_events_inv _ _ _ _ _ Hrs) as [Hlen Hall].
  destruct (lookup_lt_is_Some_2 chain i) as [e He].
  { rewrite <- Hlen. by eapply lookup_lt_Some. }
  destruct (Hall i e He) as (r' & w1 & w2 & Hi' & [Hdb Hcalls] & Hv). simplify_eq.
  apply verifyEvent_inv in Hv as (_ & _ & _ & _ & f & w3 & Ha).
  eapply Forall_lookup in Hpub as [Hfp Hp]; [|exact He].
  eapply published_grows in Hp; [|exact Hcalls]. rewrite <- Hdb in Hp.
  destruct (verifyAnchor_published e w1 Hp Hfp) as (a & f' & w4 & Ha' & Hne). congruence.
Qed.

(** ** A register that was only appended to *)

Lemma follows_link d e p :
  follows p e → se_previousFingerprint d = se_previousFingerprint (ev_data e) →
  toLowerCase <$> se_previousFingerprint d = toLowerCase <$> (ev_fingerprint <$> p).
Proof. intros [_ Hp _ _] ->. by rewrite Hp. Qed.

Lemma linked_at p l i e : linked p l → l !! i = Some e → sealed e ∧ follows (previous_at p l i) e.
Proof.
  revert p i. induction l as [|f l IH]; intros p i; [done|].
  intros (Hs & Hf & Hl) Hi. destruct i as [|i]; simplify_eq/=; [done|].
  destruct (IH _ _ Hl Hi) as [? Hf']. split; [done|]. by destruct i.
Qed.

Lemma ledger_authentic `{!HashingLaws} reference d t :
  ledger_ok d →
  List.find (by_reference reference) (db_transactions d) = Some t →
  Forall (λ e, validate (rebuildDocument e) SCHEMAS.transactionEvent = []) (chain_of reference d) →
  (∀ i e, chain_of reference d !! i = Some e → is_closing e = true → S i = length (chain_of reference d)) →
  (isClosureExpected (Some t) (chain_of reference d) = true →
   existsb is_closing (chain_of reference d) = true) →
  (∀ fields, row_divergences (Some t) (chain_of reference d) = Some fields → fields = []) →
  authentic reference d t
  ∧ Forall (λ e, is_bytes32 (ev_fingerprintSalt e) = true ∧ is_bytes32 (ev_fingerprint e) = true)
      (chain_of reference d).
Proof.
  intros Hok Ht Hvalid Hlast Hclosed Hopen.
  assert (Hlink := proj1 (Hok reference)). rewrite <- chain_of_ok in Hlink by done.
  assert (Hat := λ i e, linked_at _ _ i e Hlink).
  assert (Hrank : ∀ i e, chain_of reference d !! i = Some e → event_sequence e = Z.of_nat i + 1).
  { intros i e Hi. rewrite (linked_lookup _ _ _ _ Hlink Hi). unfold next_sequence. simpl. lia. }
  split; [split|]; [done| | |done| |done..|].
  - apply Forall_lookup. intros i e Hi. destruct (Hat i e Hi) as [[Hs Hfp] _].
    split_and!; [done|by rewrite Hfp|]. by eapply Forall_lookup in Hvalid.
  - intros i e Hi. destruct (Hat i e Hi) as [_ Hf]. by eapply follows_link.
  - intros i e Hi Hc. destruct (Hat i e Hi) as [_ [_ _ Hn Hh]]. rewrite Hc in *.
    specialize (Hlast i e Hi Hc). split_and!; [done| |by intros _; rewrite Hh].
    rewrite Hn, (Hrank i e Hi). f_equal. lia.
  - apply Forall_lookup. intros i e Hi. destruct (Hat i e Hi) as [[Hs Hfp] _].
    split; [done|]. rewrite Hfp. apply keccak256_bytes32.
Qed.

Lemma verify_ill_formed_salt reference w report w' e :
  verify explorerTxUrl reference w = (Return report, w') →
  e ∈ chain_of reference (w_db w) → is_bytes32 (ev_fingerprintSalt e) = true.
Proof.
  intros Hv He. rewrite verify_eq in Hv by (intros Hn; by rewrite Hn, elem_of_nil in He).
  destruct (verify_events _ _ _ w) as [[rs|err] w1] eqn:Hrs; [|done].
  apply list_elem_of_lookup_1 in He as [i Hi].
  destruct (verify_events_inv _ _ _ _ _ Hrs) as [_ Hall].
  destruct (Hall i e Hi) as (r & w2 & w3 & _ & _ & Hr). by apply verifyEvent_inv in Hr as [? _].
Qed.
End verification_lemmas.

(** * Theorems *)

Section theorems.
Context {HH : Hashing} {HX : XsdEngine} {HC : ChainClient}.
Context (explorerTxUrl : option string).

(** C4. Soundness of the audit: a verdict other than TAMPERED means either that the
    case has no fact and its row is not final, or that every stored document is
    valid and hashes to its seal, the links, ranks and declared length hold, a
    finished case is closed by its last fact, and the row still says what the
    opening recorded; VERIFIED moreover means that the chain confirmed the
    inclusion of a closing fact under the stored root.  The audit writes nothing. *)
Theorem verify_sound reference w report w' :
  verify explorerTxUrl reference w = (Return report, w') → rp_verdict report ≠ TAMPERED →
  (chain_of reference (w_db w) = [] ∧ rp_verdict report = EMPTY
     ∧ (∀ t, List.find (by_reference reference) (db_transactions (w_db w)) = Some t →
             final_row t = false)
   ∨ (∃ t, authentic reference (w_db w) t)
     ∧ (rp_verdict report = VERIFIED →
        ∃ i e, chain_of reference (w_db w) !! i = Some e ∧ S i = length (chain_of reference (w_db w))
               ∧ is_closing e = true ∧ confirmed_on_chain (w_db w) e))
  ∧ w_db w' = w_db w.
Proof.
  intros Hv Hclean. split; [|by eapply reads_db; [apply verify_reads|exact Hv]].
  destruct (chain_of reference (w_db w)) as [|e0 l] eqn:Hchain.
  - left. unfold verify in Hv. do 3 (erewrite bind_return in Hv by reflexivity).
    rewrite Hchain in Hv. injection Hv as <- _. unfold empty_report in *. cbn [rp_verdict] in *.
    unfold isClosureExpected in *. rewrite orb_false_r in *.
    destruct (List.find _ _) as [t|]; [|by split_and!].
    destruct (final_row t) eqn:Hf; [done|]. split_and!; [done..|congruence].
  - right. rewrite <- Hchain. assert (Hne : chain_of reference (w_db w) ≠ []) by by rewrite Hchain.
    rewrite verify_eq in Hv by done. clear Hchain e0 l.
    destruct (verify_events _ _ _ w) as [[rs|err] w1] eqn:Hrs; [|done]. injection Hv as <- ->.
    destruct (verify_events_inv explorerTxUrl _ _ _ _ _ Hrs) as [Hlen Hall].
    destruct (proj1 (verify_clean explorerTxUrl _ _ _ _ Hrs) Hclean) as [[t Hauth] _].
    split; [by exists t|]. intros Hver. destruct Hauth as [_ _ _ _ Hcl _ _].
    revert Hver. unfold chain_report. cbn [rp_verdict].
    assert (Hidx := closing_index_spec (chain_of reference (w_db w)) 0).
    destruct (closing_index _ 0) as [[i c]|]; [|by repeat case_match].
    destruct Hidx as (_ & Hi & Hc & _). rewrite Nat.sub_0_r in Hi.
    destruct (Hall i c Hi) as (r & w2 & w3 & Hri & [Hdb _] & Hr). rewrite Hri.
    destruct (bool_decide (vf_anchorVerified r = Some true)) eqn:Ha; [|by repeat case_match].
    intros _. exists i, c. apply bool_decide_eq_true in Ha.
    split_and!; [done|by apply (Hcl i c Hi Hc)|done|].
    apply verifyEvent_inv in Hr as (_ & _ & _ & _ & f & w4 & Hva).
    rewrite Ha in Hva. apply verifyAnchor_confirmed in Hva. by rewrite <- Hdb.
Qed.

(** C12. The audit does not accuse an honest case: on a register only the ledger's
    operations wrote, when the documents pass the schema, the row still says what
    the opening recorded, the closing fact is the last one and is there if the case
    is finished, and the chain, if it answers, confirms from now on what was published, [verify]
    returns a report and its verdict is not TAMPERED. *)
Theorem verify_clears_honest `{!HashingLaws} reference w t :
  let chain := chain_of reference (w_db w) in
  ledger_ok (w_db w) →
  List.find (by_reference reference) (db_transactions (w_db w)) = Some t →
  chain ≠ [] →
  Forall (λ e, validate (rebuildDocument e) SCHEMAS.transactionEvent = []) chain →
  Forall (published (w_calls w) (w_db w)) chain →
  (∀ i e, chain !! i = Some e → is_closing e = true → S i = length chain) →
  (isClosureExpected (Some t) chain = true → existsb is_closing chain = true) →
  (∀ fields, row_divergences (Some t) chain = Some fields → fields = []) →
  ∃ report w', verify explorerTxUrl reference w = (Return report, w')
    ∧ rp_verdict report ≠ TAMPERED ∧ rp_eventCount report = Z.of_nat (length chain).
Proof.
  intros chain Hok Ht Hne Hvalid Hpub Hlast Hclosed Hopen.
  destruct (ledger_authentic reference (w_db w) t) as [Hauth Hwords]; [done..|].
  destruct (verify_events_return explorerTxUrl None chain w) as (rs & w' & Hrs).
  { rewrite Forall_forall in Hwords, Hpub |- *. intros e He. split_and!; [| |by apply Hpub];
      by apply Hwords. }
  eexists _, w'. rewrite verify_eq by done. fold chain. rewrite Hrs. split; [done|]. split; [|done].
  apply (verify_clean explorerTxUrl _ _ _ _ Hrs). split; [by exists t|].
  eapply published_not_refuted; [exact Hrs|].
  rewrite Forall_forall in Hwords, Hpub |- *. intros e He. split; [by apply Hwords|by apply Hpub].
Qed.

Lemma closing_is_last reference w i e report w' :
  chain_of reference (w_db w) !! i = Some e → is_closing e = true →
  verify explorerTxUrl reference w = (Return report, w') → rp_verdict report ≠ TAMPERED →
  S i = length (chain_of reference (w_db w)).
Proof.
  intros Hi Hc Hv Hne.
  rewrite verify_eq in Hv by (intros Hn; by rewrite Hn in Hi).
  destruct (verify_events _ _ _ w) as [[rs|err] w1] eqn:Hrs; [|done]. injection Hv as <- ->.
  destruct (proj1 (verify_clean explorerTxUrl _ _ _ _ Hrs) Hne) as [[t [_ _ _ _ Hcl _ _]] _].
  by destruct (Hcl i e Hi Hc) as [Hl _].
Qed.

(** A fact added after the closing one is always reported: whatever its content,
    and however well it is sealed and linked, no verdict but TAMPERED is returned. *)
Theorem late_fact_is_tampering reference w i e :
  chain_of reference (w_db w) !! i = Some e → is_closing e = true →
  (S i < length (chain_of reference (w_db w)))%nat →
  ∀ report w', verify explorerTxUrl reference w = (Return report, w') →
  rp_verdict report = TAMPERED.
Proof.
  intros Hi Hc Hlt report w' Hv. destruct (decide (rp_verdict report = TAMPERED)) as [|Hne]; [done|].
  pose proof (closing_is_last _ _ _ _ _ _ Hi Hc Hv Hne). lia.
Qed.

(** An ill-formed salt in the register makes the audit throw: no verdict at all
    is returned, where an altered salt is what the audit is there to report. *)
Theorem ill_formed_salt_has_no_verdict reference w e :
  e ∈ chain_of reference (w_db w) → is_bytes32 (ev_fingerprintSalt e) = false →
  ∃ err, (verify explorerTxUrl reference w).1 = Throw err.
Proof.
  intros He Hs. destruct (verify explorerTxUrl reference w) as [[report|err] w'] eqn:Hv; [|by exists err].
  eapply verify_ill_formed_salt in Hv; [|exact He]. congruence.
Qed.
End theorems.

(** * Witnesses *)

#[local] Existing Instances Toy.hashing Toy.entropy Toy.xsd.

(** A payment opened, then closed, whose closing fact is alone in an anchored batch. *)
Definition sample_case : World :=
  (closeCase true sample_payment None
     (record true (event_input TransactionEventType.PAYMENT_INITIATED sample_payment None)
        sample_world).2).2.

Definition sample_root : string :=
  default "" ((λ e, keccak256 (ev_fingerprint e)) <$> list.last (db_events (w_db sample_case))).

Definition sample_batch : AnchorBatch :=
  mkAnchorBatch "batch-1" BatchStatus.ANCHORED sample_root 1 (Some "31337") (Some "0xc0ffee")
    (Some "0xabc") (Some "7") (Some "21000") (Some 0) 1 None 0.

Definition sample_anchored (salt : string → string) : World :=
  sample_case <| w_db := (w_db sample_case)
    <| db_events := (λ e, if is_closing e
         then e <| ev_anchorStatus := AnchorStatus.ANCHORED |> <| ev_batchId := Some "batch-1" |>
                <| ev_leafIndex := Some 0 |> <| ev_merkleProof := Some [] |>
                <| ev_fingerprintSalt := salt (ev_fingerprintSalt e) |>
         else e) <$> db_events (w_db sample_case) |>
    <| db_batches := [sample_batch] |> |>.

#[local] Instance sample_chain : ChainClient := {|
  chain_getBatch _ _ := Return (Some (mkOnChainBatch sample_root 1 0 "0xfeed"));
  chain_verifyInclusion _ _ _ _ := Return true;
  chain_anchorBatch _ _ _ _ := Throw (PlainError "unused")
|}.

Lemma sample_case_ok : ledger_ok (w_db sample_case).
Proof.
  unfold sample_case. eapply ledger_run_ok; [apply closeCase_refines, record_ok|apply record_ok];
    apply sample_ledger_ok.
Qed.

Lemma sample_anchored_ok : ledger_ok (w_db (sample_anchored id)).
Proof.
  assert (Href : ledger_refines (w_db sample_case) (w_db (sample_anchored id))).
  { unfold sample_anchored. generalize (w_db sample_case). intros d.
    eapply ledger_relabel; [|reflexivity..]. intros e. cbv beta. by destruct (is_closing e). }
  exact (ledger_run_ok _ _ (Href sample_case_ok) sample_case_ok).
Qed.

Lemma verify_sound_witness :
  ∃ report w', verify None "TRF-1" (sample_anchored id) = (Return report, w')
    ∧ rp_verdict report = VERIFIED ∧ w_db w' = w_db (sample_anchored id).
Proof.
  assert (Hrun : ∃ report w', verify None "TRF-1" (sample_anchored id) = (Return report, w')
                              ∧ rp_verdict report = VERIFIED).
  { eexists _, _. split; vm_compute; reflexivity. }
  destruct Hrun as (report & w' & Hrun & Hver). exists report, w'. split; [exact Hrun|].
  split; [exact Hver|]. apply (verify_sound None "TRF-1" _ report w' Hrun). by rewrite Hver.
Defined.

Lemma verify_clears_honest_witness :
  ∃ report w', verify None "TRF-1" (sample_anchored id) = (Return report, w')
    ∧ rp_verdict report ≠ TAMPERED.
Proof.
  destruct (verify_clears_honest None "TRF-1" (sample_anchored id) sample_payment)
    as (report & w' & Hrun & Hver & _).
  - exact sample_anchored_ok.
  - vm_compute. reflexivity.
  - vm_compute. discriminate.
  - vm_compute. repeat constructor.
  - assert (Hb : forallb (λ e, is_eq (anchored_with e) None
        || is_eq (anchored_with e) (Some ("batch-1", []))
           && str_eqb (keccak256 (ev_fingerprint e)) sample_root)
      (chain_of "TRF-1" (w_db (sample_anchored id))) = true) by (vm_compute; reflexivity).
    apply Forall_forall. intros e He%list_elem_of_In. rewrite forallb_forall in Hb.
    specialize (Hb e He). unfold published.
    apply orb_true_iff in Hb as [->%bool_decide_eq_true|[->%bool_decide_eq_true Hr]%andb_true_iff];
      [exact I|]. apply str_eqb_spec in Hr as ->.
    exists sample_batch. split_and!; [vm_compute; reflexivity..|intros c h; vm_compute; reflexivity|intros c h; vm_compute; discriminate].
  - intros i e Hi Hc. assert (Hlen : length (chain_of "TRF-1" (w_db (sample_anchored id))) = 2%nat)
      by (vm_compute; reflexivity).
    rewrite Hlen. destruct i as [|[|i]]; [exfalso|reflexivity|exfalso].
    + revert Hi Hc. vm_compute. intros [= <-]. discriminate.
    + apply lookup_lt_Some in Hi. rewrite Hlen in Hi. lia.
  - vm_compute. reflexivity.
  - vm_compute. intros fields [= <-]. reflexivity.
  - exists report, w'. split; [exact Hrun|exact Hver].
Defined.

(** The case of [sample_case], with a fact recorded after its closing one. *)
Lemma late_fact_is_tampering_witness :
  ∃ report w', verify None "TRF-1" (record true sample_input sample_case).2 = (Return report, w')
    ∧ rp_verdict report = TAMPERED.
Proof.
  assert (Hrun : ∃ report w',
    verify None "TRF-1" (record true sample_input sample_case).2 = (Return report, w')).
  { eexists _, _. vm_compute. reflexivity. }
  assert (Hchain : ∃ e, chain_of "TRF-1" (w_db (record true sample_input sample_case).2) !! 1%nat = Some e
    ∧ is_closing e = true).
  { eexists. split; vm_compute; reflexivity. }
  destruct Hrun as (report & w' & Hrun), Hchain as (e & He & Hc).
  exists report, w'. split; [exact Hrun|].
  apply (late_fact_is_tampering None "TRF-1" _ 1 e He Hc) with (w' := w'); [|exact Hrun].
  vm_compute. reflexivity.
Defined.

Lemma ill_formed_salt_has_no_verdict_witness :
  ∃ err, (verify None "TRF-1" (sample_anchored (λ _, "0xdead"))).1 = Throw err.
Proof.
  assert (Hchain : ∃ e, chain_of "TRF-1" (w_db (sample_anchored (λ _, "0xdead"))) !! 1%nat = Some e
    ∧ is_bytes32 (ev_fingerprintSalt e) = false).
  { eexists. split; vm_compute; reflexivity. }
  destruct Hchain as (e & He & Hs).
  apply (ill_formed_salt_has_no_verdict None "TRF-1" _ e); [|exact Hs].
  by eapply list_elem_of_lookup_2.
Defined.
