(* ===== verification/AuditAnchor.v ===== *)
(** The anchoring contract, [contracts/AuditAnchor.sol], and the client that reaches it,
    [src/blockchain/evm-anchor.client.ts]: an implementation of the [ChainClient] port.

    A word of 32 bytes is its lower-case hexadecimal text, as [ethers] decodes it; the
    contract orders words as the numbers they write.  A call of the contract either changes
    its state or reverts.  What the node does, and what other accounts had executed
    before each call of the gateway, is a parameter; the state of the contract is then a
    function of the calls the gateway made, which is what the port asks of a chain. *)
From stdpp Require Import gmap.
From S2P Require Import Prelude Domain External Fingerprint Merkle Database Ports ChainVerification.
Open Scope Z_scope.

(** * Words *)

Definition hex_digit_value (c : Ascii.ascii) : Z :=
  let n := Z.of_N (Ascii.N_of_ascii c) in if n <? 58 then n - 48 else n - 87.

Fixpoint hex_value (acc : Z) (digits : string) : Z :=
  match digits with
  | EmptyString => acc
  | String c digits => hex_value (16 * acc + hex_digit_value c) digits
  end.

(** The number a word writes, [0x] aside. *)
Definition word_value (word : string) : Z := hex_value 0 (Toy.strip word).

(** The encoding of an argument by [ethers]: a [bytes32], and a [uint64] given as a
    JavaScript number, which must be a safe integer. *)
Definition encode_word (s : string) : option string :=
  if is_bytes32 s then Some (toLowerCase s) else None.
Definition encode_uint64 (n : Z) : option Z :=
  if (0 <=? n) && (n <? 2 ^ 53) then Some n else None.

(** * The contract *)

Module Contract.
Inductive Error :=
  | NotAuthorized (caller : string)
  | BatchAlreadyAnchored (batchId : string)
  | UnknownBatch (batchId : string)
  | EmptyBatch
  | ZeroRoot
  | ZeroAddress.

Record Batch := mkBatch {
  merkleRoot : string;
  leafCount : Z;
  anchoredAt : Z;
  submitter : string
}.

Record State := mkState {
  owner : string;
  submitters : list string;
  batches : gmap string Batch;
  batchIds : list string
}.

Definition zero_address : string := "0x" +:+ String.concat "" (replicate 40 "0").

Definition deploy (sender : string) : State := mkState sender [sender] ∅ [].

(** The functions; a revert leaves the state as it was. *)
Definition Call := Outcome Error State.

Definition onlyOwner (sender : string) (c : State) (k : Call) : Call :=
  if str_eqb sender (owner c) then k else Throw (NotAuthorized sender).
Definition onlySubmitter (sender : string) (c : State) (k : Call) : Call :=
  if bool_decide (sender ∈ submitters c) then k else Throw (NotAuthorized sender).

Definition setSubmitter (sender account : string) (allowed : bool) (c : State) : Call :=
  onlyOwner sender c
    (if str_eqb account zero_address then Throw ZeroAddress
     else Return (mkState (owner c)
       (if allowed then account :: submitters c
        else List.filter (λ a, negb (str_eqb a account)) (submitters c))
       (batches c) (batchIds c))).

Definition transferOwnership (sender newOwner : string) (c : State) : Call :=
  onlyOwner sender c
    (if str_eqb newOwner zero_address then Throw ZeroAddress
     else Return (mkState newOwner (submitters c) (batches c) (batchIds c))).

(** [_batches[batchId].anchoredAt], zero where nothing was written. *)
Definition anchored_at (c : State) (batchId : string) : Z :=
  match batches c !! batchId with Some batch => anchoredAt batch | None => 0 end.

(** [timestamp] is [block.timestamp], kept on 64 bits. *)
Definition anchorBatch (sender : string) (timestamp : Z) (batchId root : string) (count : Z)
    (c : State) : Call :=
  onlySubmitter sender c
    (if count =? 0 then Throw EmptyBatch
     else if word_value root =? 0 then Throw ZeroRoot
     else if negb (anchored_at c batchId =? 0) then Throw (BatchAlreadyAnchored batchId)
     else Return (mkState (owner c) (submitters c)
       (<[batchId := mkBatch root count (timestamp mod 2 ^ 64) sender]> (batches c))
       (batchIds c ++ [batchId]))).

Definition isAnchored (c : State) (batchId : string) : bool := negb (anchored_at c batchId =? 0).

Definition getBatch (c : State) (batchId : string) : Outcome Error Batch :=
  match batches c !! batchId with
  | Some batch => if anchoredAt batch =? 0 then Throw (UnknownBatch batchId) else Return batch
  | None => Throw (UnknownBatch batchId)
  end.

Definition batchCount (c : State) : Z := Z.of_nat (length (batchIds c)).

Section Proofs.
Context {HH : Hashing}.

(** [keccak256] of the 64 bytes of two words. *)
Definition _efficientHash (a b : string) : string := keccak256 (External.concat [a; b]).
Definition _hashPair (a b : string) : string :=
  if word_value a <? word_value b then _efficientHash a b else _efficientHash b a.

Fixpoint _processProof (proof : list string) (computed : string) : string :=
  match proof with
  | [] => computed
  | sibling :: proof => _processProof proof (_hashPair computed sibling)
  end.

Definition verifyInclusion (c : State) (batchId leaf : string) (proof : list string) :
    Outcome Error bool :=
  match getBatch c batchId with
  | Return batch => Return (str_eqb (_processProof proof leaf) (merkleRoot batch))
  | Throw e => Throw e
  end.
End Proofs.

(** ** Transactions of any account *)

Inductive Action :=
  | SetSubmitter (sender account : string) (allowed : bool)
  | TransferOwnership (sender newOwner : string)
  | AnchorBatch (sender : string) (timestamp : Z) (batchId root : string) (count : Z).

Definition execute (tx : Action) (c : State) : Call :=
  match tx with
  | SetSubmitter sender account allowed => setSubmitter sender account allowed c
  | TransferOwnership sender newOwner => transferOwnership sender newOwner c
  | AnchorBatch sender timestamp batchId root count => anchorBatch sender timestamp batchId root count c
  end.

(** A reverted transaction changes nothing. *)
Definition apply (c : State) (tx : Action) : State :=
  match execute tx c with Return c' => c' | Throw _ => c end.
End Contract.

(** * The client *)

(** The node: whether it answers the last call of a history, what other accounts had
    executed since the call before, and between the simulation of a transaction and its
    inclusion, the clock of the block, whether a submitted transaction is included, and what
    waiting for its receipt gives. *)
Class EvmNode := {
  node_answers : list ExternalCall → bool;
  node_others : list ExternalCall → list Contract.Action;
  node_between : list ExternalCall → list Contract.Action;
  node_timestamp : list ExternalCall → Z;
  node_includes : list ExternalCall → bool;
  node_receipt : list ExternalCall → Outcome string (option (string * Z * Z));
  node_code : list ExternalCall → Outcome string string
}.

(** The clock of a block is a positive number of seconds that 64 bits hold. *)
Class EvmLaws `{EvmNode} := {
  node_timestamp_range h : 0 < node_timestamp h < 2 ^ 64
}.

(** [blockchainConfig] and the account the custody signs for; [isAddress] is that of
    [ethers]. *)
Record EvmConfig := mkEvmConfig {
  em_contractAddress : string;
  em_isAddress : bool;
  em_chainId : Z;
  em_signer : Outcome GatewayError string
}.

Section Client.
Context {HH : Hashing} {HN : EvmNode} (config : EvmConfig).

(** [toDomainError] *)
Definition toDomainError (context reason : string) : GatewayError :=
  PlainError (context +:+ " : " +:+ reason).

Definition show_error (e : Contract.Error) : string :=
  match e with
  | Contract.NotAuthorized _ => "NotAuthorized"
  | Contract.BatchAlreadyAnchored _ => "BatchAlreadyAnchored"
  | Contract.UnknownBatch _ => "UnknownBatch"
  | Contract.EmptyBatch => "EmptyBatch"
  | Contract.ZeroRoot => "ZeroRoot"
  | Contract.ZeroAddress => "ZeroAddress"
  end.

(** [getContract]: the account that signs for the contract. *)
Definition getContract : Outcome GatewayError string :=
  if negb (em_isAddress config) then
    Throw (PlainError "BLOCKCHAIN_CONTRACT_ADDRESS est invalide")
  else em_signer config.

(** [uuidToBytes32(batchId)]: the key of the batch on the chain. *)
Definition on_chain_id (batchId : string) : Outcome GatewayError string :=
  match uuidToBytes32 batchId tt with
  | (Return id, _) => Return (toLowerCase id)
  | (Throw e, _) => Throw e
  end.

(** The transaction of [anchorBatch], simulated, submitted and waited for: the simulation
    rejects what would revert; a transaction may be submitted and never included, revert
    because of another, or be included without its receipt being obtained. *)
Definition submit (history : list ExternalCall) (context sender id root : string) (count : Z)
    (c : Contract.State) : Outcome GatewayError AnchorReceipt * Contract.State :=
  let transaction := Contract.anchorBatch sender (node_timestamp history) id root count in
  if negb (node_answers history) then (Throw (toDomainError context "network"), c)
  else match transaction c with
       | Throw e => (Throw (toDomainError context (show_error e)), c)
       | Return _ =>
           let c := fold_left Contract.apply (node_between history) c in
           if negb (node_includes history) then (Throw (toDomainError context "replaced"), c)
           else match transaction c with
                | Throw _ => (Throw (toDomainError context "transaction execution reverted"), c)
                | Return c' =>
                    (match node_receipt history with
                     | Throw reason => Throw (toDomainError context reason)
                     | Return None => Throw (PlainError "Aucun recu obtenu pour la transaction")
                     | Return (Some (hash, block, gas)) =>
                         Return (mkAnchorReceipt hash (pretty block) (pretty gas)
                                   (pretty (em_chainId config)) (em_contractAddress config))
                     end, c')
                end
       end.

(** [EvmAnchorClient.anchorBatch], and the contract after it. *)
Definition client_anchorBatch (history : list ExternalCall) (batchId merkleRoot : string)
    (leafCount : Z) (c : Contract.State) : Outcome GatewayError AnchorReceipt * Contract.State :=
  let context := "Ancrage du lot " +:+ batchId +:+ " en echec" in
  match getContract, on_chain_id batchId with
  | Throw e, _ => (Throw e, c)
  | _, Throw e => (Throw e, c)
  | Return sender, Return id =>
      match encode_word merkleRoot, encode_uint64 leafCount with
      | Some root, Some count => submit history context sender id root count c
      | _, _ => (Throw (toDomainError context "invalid argument"), c)
      end
  end.

(** [EvmAnchorClient.getBatch] *)
Definition client_getBatch (history : list ExternalCall) (batchId : string) (c : Contract.State) :
    Outcome GatewayError (option OnChainBatch) :=
  let context := "Lecture du lot " +:+ batchId +:+ " en echec" in
  match getContract, on_chain_id batchId with
  | Throw e, _ => Throw e
  | _, Throw e => Throw e
  | Return _, Return id =>
      if negb (node_answers history) then Throw (toDomainError context "network")
      else if negb (Contract.isAnchored c id) then Return None
      else match Contract.getBatch c id with
           | Throw e => Throw (toDomainError context (show_error e))
           | Return batch =>
               Return (Some (mkOnChainBatch (Contract.merkleRoot batch) (Contract.leafCount batch)
                 (Contract.anchoredAt batch * 1000) (Contract.submitter batch)))
           end
  end.

(** [EvmAnchorClient.verifyInclusion]; the identifier is converted inside the [try]. *)
Definition client_verifyInclusion (history : list ExternalCall) (batchId leaf : string)
    (proof : list string) (c : Contract.State) : Outcome GatewayError bool :=
  let context := "Verification d inclusion en echec pour le lot " +:+ batchId in
  match getContract with
  | Throw e => Throw e
  | Return _ =>
      match on_chain_id batchId, encode_word leaf, mapM encode_word proof with
      | Return id, Some leaf, Some proof =>
          if negb (node_answers history) then Throw (toDomainError context "network")
          else match Contract.verifyInclusion c id leaf proof with
               | Throw e => Throw (toDomainError context (show_error e))
               | Return included => Return included
               end
      | Throw _, _, _ => Throw (toDomainError context "Identifiant de lot invalide")
      | _, _, _ => Throw (toDomainError context "invalid argument")
      end
  end.

(** [EvmAnchorClient.isReady] *)
Definition client_isReady (history : list ExternalCall) : bool :=
  match node_code history with Return code => negb (str_eqb code "0x") | Throw _ => false end.

(** ** The contract after the calls of the gateway *)

Context (deployed : Contract.State).

Definition after_anchor_call (history : list ExternalCall) (call : ExternalCall) (c : Contract.State) :
    Contract.State :=
  match call with
  | CallAnchorBatch batchId root count => (client_anchorBatch history batchId root count c).2
  | _ => c
  end.

Fixpoint run_calls (done todo : list ExternalCall) (c : Contract.State) : Contract.State :=
  match todo with
  | [] => c
  | call :: todo =>
      let history := done ++ [call] in
      run_calls history todo
        (after_anchor_call history call (fold_left Contract.apply (node_others history) c))
  end.

(** What the last call of [history] finds: the calls before it, then the others. *)
Definition found_by (history : list ExternalCall) : Contract.State :=
  fold_left Contract.apply (node_others history) (run_calls [] (removelast history) deployed).

Definition evm_chain : ChainClient := {|
  chain_getBatch history batchId := client_getBatch history batchId (found_by history);
  chain_verifyInclusion history batchId leaf proof :=
    client_verifyInclusion history batchId leaf proof (found_by history);
  chain_anchorBatch history batchId root count :=
    (client_anchorBatch history batchId root count (found_by history)).1
|}.
End Client.

(** * Lemmas *)

(** ** The order of words *)

Definition is_lower_hex (c : Ascii.ascii) : bool := is_hex_char c && Ascii.eqb (to_lower c) c.

Lemma hex_digit_range c : is_lower_hex c = true → 0 <= hex_digit_value c < 16.
Proof.
  assert (H : ∀ c, implb (is_lower_hex c) ((0 <=? hex_digit_value c) && (hex_digit_value c <? 16)) = true)
    by (intros [[] [] [] [] [] [] [] []]; reflexivity).
  intros Hc. specialize (H c). rewrite Hc in H. cbn [implb] in H.
  apply andb_true_iff in H as [?%Z.leb_le ?%Z.ltb_lt]. done.
Qed.

Lemma hex_digit_order c d :
  is_lower_hex c = true → is_lower_hex d = true →
  Ascii.compare c d = (hex_digit_value c ?= hex_digit_value d).
Proof.
  intros Hc Hd. unfold Ascii.compare, hex_digit_value.
  assert (Hrange : ∀ c, is_lower_hex c = true →
    (48 <= Ascii.N_of_ascii c <= 57)%N ∨ (97 <= Ascii.N_of_ascii c <= 102)%N).
  { assert (H : ∀ c, implb (is_lower_hex c) ((N.leb 48 (Ascii.N_of_ascii c) && N.leb (Ascii.N_of_ascii c) 57)
        || (N.leb 97 (Ascii.N_of_ascii c) && N.leb (Ascii.N_of_ascii c) 102)) = true)
      by (intros [[] [] [] [] [] [] [] []]; reflexivity).
    intros e He. specialize (H e). rewrite He in H. cbn [implb] in H.
    rewrite orb_true_iff, !andb_true_iff, !N.leb_le in H. exact H. }
  specialize (Hrange c Hc) as Hc'. specialize (Hrange d Hd) as Hd'. clear Hrange Hc Hd.
  revert Hc' Hd'. generalize (Ascii.N_of_ascii c), (Ascii.N_of_ascii d). intros m n Hm Hn.
  destruct (Z.ltb_spec (Z.of_N m) 58), (Z.ltb_spec (Z.of_N n) 58);
    destruct (N.compare_spec m n); symmetry;
    rewrite ?Z.compare_eq_iff, ?Z.compare_lt_iff, ?Z.compare_gt_iff; lia.
Qed.

Lemma hex_value_shift acc s :
  hex_value acc s = acc * 16 ^ Z.of_nat (String.length s) + hex_value 0 s.
Proof.
  revert acc. induction s as [|c s IH]; intros acc; [simpl; lia|].
  cbn [hex_value String.length]. rewrite IH, (IH (16 * 0 + _)).
  replace (Z.of_nat (S (String.length s))) with (Z.of_nat (String.length s) + 1) by lia.
  rewrite Z.pow_add_r by lia. lia.
Qed.

Lemma hex_value_range s :
  all_chars is_lower_hex s = true → 0 <= hex_value 0 s < 16 ^ Z.of_nat (String.length s).
Proof.
  induction s as [|c s IH]; [simpl; lia|]. intros [Hc Hs]%andb_true_iff. specialize (IH Hs).
  apply hex_digit_range in Hc. cbn [hex_value String.length]. rewrite hex_value_shift.
  replace (Z.of_nat (S (String.length s))) with (Z.of_nat (String.length s) + 1) by lia.
  rewrite Z.pow_add_r by lia. nia.
Qed.

(** Texts of one length are ordered as the numbers they write. *)
Lemma hex_order s t :
  String.length s = String.length t → all_chars is_lower_hex s = true → all_chars is_lower_hex t = true →
  String.compare s t = (hex_value 0 s ?= hex_value 0 t).
Proof.
  revert t. induction s as [|c s IH]; intros [|d t] Hlen; try done.
  intros [Hc Hs]%andb_true_iff [Hd Ht]%andb_true_iff. injection Hlen as Hlen.
  cbn [String.compare hex_value]. rewrite hex_digit_order, IH by done.
  rewrite (hex_value_shift (16 * 0 + hex_digit_value c)), (hex_value_shift (16 * 0 + hex_digit_value d)).
  apply hex_value_range in Hs, Ht. apply hex_digit_range in Hc, Hd. rewrite Hlen in *.
  set (p := 16 ^ Z.of_nat (String.length t)) in *. assert (0 < p) by (apply Z.pow_pos_nonneg; lia).
  destruct (Z.compare_spec (hex_digit_value c) (hex_digit_value d)) as [He|He|He].
  - rewrite He. destruct (Z.compare_spec (hex_value 0 s) (hex_value 0 t)); symmetry;
      rewrite ?Z.compare_eq_iff, ?Z.compare_lt_iff, ?Z.compare_gt_iff; lia.
  - symmetry. apply Z.compare_lt_iff. nia.
  - symmetry. apply Z.compare_gt_iff. nia.
Qed.

(** The text of a word in lower case writes its number on 64 digits. *)
Lemma lower_word_digits s :
  is_bytes32 s = true →
  ∃ digits, toLowerCase s = "0x" +:+ digits ∧ String.length digits = 64%nat
    ∧ all_chars is_lower_hex digits = true.
Proof.
  intros (digits & -> & Hlen & Hall)%is_bytes32_shape. exists (toLowerCase digits).
  rewrite toLowerCase_app, toLowerCase_length. split; [done|]. split; [done|].
  clear Hlen. induction digits as [|c digits IH]; [done|].
  simpl in Hall |- *. apply andb_true_iff in Hall as [Hc Hall]. rewrite IH, andb_true_r by done.
  revert Hc. clear. destruct c as [[] [] [] [] [] [] [] []]; vm_compute; congruence.
Qed.

Lemma word_order a b :
  is_bytes32 a = true → is_bytes32 b = true →
  String.compare (toLowerCase a) (toLowerCase b)
  = (word_value (toLowerCase a) ?= word_value (toLowerCase b)).
Proof.
  intros (da & -> & Hla & Ha)%lower_word_digits (db & -> & Hlb & Hb)%lower_word_digits.
  unfold word_value. change (Toy.strip ("0x" +:+ da)) with da. change (Toy.strip ("0x" +:+ db)) with db.
  change (String.compare ("0x" +:+ da) ("0x" +:+ db)) with (String.compare da db).
  apply hex_order; [by rewrite Hla|done..].
Qed.

(** ** The proofs of the contract are those of the gateway *)

Section equivalence.
Context {HH : Hashing} {HL : HashingLaws}.

Lemma contract_hashPair a b :
  is_bytes32 a = true → is_bytes32 b = true →
  Contract._hashPair (toLowerCase a) (toLowerCase b) = hashPair a b.
Proof.
  intros Ha Hb. unfold Contract._hashPair, Contract._efficientHash, hashPair, String.leb.
  pose proof (concat_lower [a; b]) as Hab. pose proof (concat_lower [b; a]) as Hba.
  cbn [fmap list_fmap] in Hab, Hba. rewrite Hab, Hba, word_order by done.
  destruct (Z.compare_spec (word_value (toLowerCase a)) (word_value (toLowerCase b))) as [He|He|He].
  - rewrite He, Z.ltb_irrefl. assert (Heq : toLowerCase a = toLowerCase b).
    { apply String.compare_eq_iff. rewrite word_order by done. by apply Z.compare_eq_iff. }
    by rewrite <- Hab, <- Hba, Heq.
  - by rewrite (proj2 (Z.ltb_lt _ _) He).
  - by rewrite (proj2 (Z.ltb_ge _ _)) by lia.
Qed.

Lemma contract_processProof {St} computed proof j (w : St) :
  is_bytes32 computed = true → words proof →
  ∃ r, process_siblings computed proof j w = (Return r, w)
    ∧ is_bytes32 r = true
    ∧ Contract._processProof (toLowerCase <$> proof) (toLowerCase computed) = toLowerCase r.
Proof.
  intros Hc Hp. revert computed j Hc. induction Hp as [|s proof Hs Hp IH]; intros computed j Hc.
  - by exists computed.
  - destruct (IH (hashPair computed s) (j + 1) (hashPair_word _ _)) as (r & Hr & Hw & Hk).
    exists r. cbn [process_siblings fmap list_fmap Contract._processProof].
    erewrite bind_return by by apply assertBytes32_return. split; [exact Hr|]. split; [done|].
    rewrite contract_hashPair by done. by rewrite <- Hk, hashPair_lower.
Qed.

(** What the contract answers for a batch it has is what the gateway computes. *)
Lemma contract_inclusion c id batch root leaf proof :
  Contract.getBatch c id = Return batch →
  toLowerCase root = Contract.merkleRoot batch →
  is_bytes32 leaf = true → words proof →
  Contract.verifyInclusion c id (toLowerCase leaf) (toLowerCase <$> proof)
  = Return (verifyProof leaf proof root).
Proof.
  intros Hb Hroot Hleaf Hp. unfold Contract.verifyInclusion. rewrite Hb, <- Hroot.
  destruct (contract_processProof leaf proof 0 tt Hleaf Hp) as (r & Hr & _ & ->).
  unfold verifyProof, processProof. erewrite bind_return by by apply assertBytes32_return.
  by rewrite Hr.
Qed.

Lemma encode_words proof : words proof → mapM encode_word proof = Some (toLowerCase <$> proof).
Proof.
  induction 1 as [|s proof Hs Hp IH]; [done|].
  assert (He : encode_word s = Some (toLowerCase s)) by (unfold encode_word; by rewrite Hs).
  simpl. rewrite He, IH. done.
Qed.

Lemma encode_words_inv proof p : mapM encode_word proof = Some p → words proof.
Proof.
  intros Hp%mapM_Some. induction Hp as [|s w proof p Hs _ IH]; constructor; [|done].
  unfold encode_word in Hs. by destruct (is_bytes32 s).
Qed.
End equivalence.

(** ** What the contract has anchored stays *)

Module Registry.
Import Contract.

(** The batches anchored in a state are in the other, the same. *)
Definition extends (c c' : State) : Prop :=
  ∀ id batch, getBatch c id = Return batch → getBatch c' id = Return batch.

#[export] Instance extends_preorder : PreOrder extends.
Proof.
  split; [intros c id batch Hb; exact Hb|].
  intros c1 c2 c3 H12 H23 id batch Hb. by apply H23, H12.
Qed.

(** Only the table of the batches counts. *)
Lemma extends_batches c c' : batches c' = batches c → extends c c'.
Proof. intros Heq id batch. unfold getBatch. by rewrite Heq. Qed.

Lemma getBatch_anchored c id batch :
  getBatch c id = Return batch → anchored_at c id = anchoredAt batch ∧ anchoredAt batch ≠ 0.
Proof.
  unfold getBatch, anchored_at. destruct (batches c !! id) as [b|]; [|done].
  destruct (Z.eqb_spec (anchoredAt b) 0); [done|]. by intros [= ->].
Qed.

Lemma getBatch_isAnchored c id batch : getBatch c id = Return batch → isAnchored c id = true.
Proof.
  intros [Ha Hn]%getBatch_anchored. unfold isAnchored. rewrite Ha. by destruct (Z.eqb_spec (anchoredAt batch) 0).
Qed.

Lemma anchorBatch_inv sender ts id root count c c' :
  anchorBatch sender ts id root count c = Return c' →
  anchored_at c id = 0 ∧ count ≠ 0 ∧ word_value root ≠ 0 ∧ sender ∈ submitters c
  ∧ c' = mkState (owner c) (submitters c) (<[id := mkBatch root count (ts mod 2 ^ 64) sender]> (batches c))
           (batchIds c ++ [id]).
Proof.
  unfold anchorBatch, onlySubmitter. destruct (bool_decide _) eqn:Hs; [|done].
  apply bool_decide_eq_true in Hs.
  destruct (Z.eqb_spec count 0); [done|]. destruct (Z.eqb_spec (word_value root) 0); [done|].
  destruct (Z.eqb_spec (anchored_at c id) 0); [|done]. by intros [= <-].
Qed.

(** Anchoring an anchored batch reverts, whoever asks and whatever the root. *)
Lemma anchorBatch_again sender ts id root count c batch c' :
  getBatch c id = Return batch → anchorBatch sender ts id root count c ≠ Return c'.
Proof. intros [Ha Hn]%getBatch_anchored (H0 & _)%anchorBatch_inv. congruence. Qed.

Lemma anchorBatch_extends sender ts id root count c c' :
  anchorBatch sender ts id root count c = Return c' → extends c c'.
Proof.
  intros Hrun id' batch Hb. destruct (decide (id' = id)) as [->|Hne].
  - by eapply anchorBatch_again in Hrun.
  - apply anchorBatch_inv in Hrun as (_ & _ & _ & _ & ->). unfold getBatch in *. cbn.
    by rewrite lookup_insert_ne.
Qed.

Lemma apply_extends c tx : extends c (apply c tx).
Proof.
  unfold apply. destruct (execute tx c) as [c'|] eqn:Hrun; [|done].
  destruct tx; cbn [execute] in Hrun.
  - unfold setSubmitter, onlyOwner in Hrun. apply extends_batches. repeat case_match; by simplify_eq.
  - unfold transferOwnership, onlyOwner in Hrun. apply extends_batches. repeat case_match; by simplify_eq.
  - by eapply anchorBatch_extends.
Qed.

Lemma applied_extends txs c : extends c (fold_left apply txs c).
Proof.
  revert c. induction txs as [|tx txs IH]; intros c; [done|]. simpl.
  etrans; [apply apply_extends|apply IH].
Qed.

(** The batch a transaction of the gateway leaves. *)
Lemma anchored_batch sender ts id root count c c' :
  0 < ts < 2 ^ 64 → anchorBatch sender ts id root count c = Return c' →
  getBatch c' id = Return (mkBatch root count ts sender).
Proof.
  intros Hts (_ & _ & _ & _ & ->)%anchorBatch_inv. unfold getBatch. cbn.
  rewrite lookup_insert_eq. cbn. rewrite Z.mod_small by lia.
  by destruct (Z.eqb_spec ts 0); [lia|].
Qed.

(** The list of the contract has each anchored batch once. *)
Record listed (c : State) : Prop := {
  listed_once : NoDup (batchIds c);
  listed_anchored id : id ∈ batchIds c ↔ isAnchored c id = true
}.

(** A transaction mined at a clock that 64 bits hold. *)
Definition mined (tx : Action) : Prop :=
  match tx with AnchorBatch _ ts _ _ _ => 0 < ts < 2 ^ 64 | _ => True end.

Lemma deploy_listed sender : listed (deploy sender).
Proof. split; [constructor|]. intros id. cbn. split; [by intros ?%not_elem_of_nil|done]. Qed.

Lemma apply_listed tx c : mined tx → listed c → listed (apply c tx).
Proof.
  intros Hm Hc. unfold apply. destruct (execute tx c) as [c'|] eqn:Hrun; [|done].
  destruct Hc as [Hnd Hin]. destruct tx as [| |sender ts id root count]; cbn [execute] in Hrun.
  1: unfold setSubmitter, onlyOwner in Hrun; repeat case_match; by simplify_eq.
  1: unfold transferOwnership, onlyOwner in Hrun; repeat case_match; by simplify_eq.
  pose proof (anchored_batch _ _ _ _ _ _ _ Hm Hrun) as Hnew%getBatch_isAnchored.
  apply anchorBatch_inv in Hrun as (H0 & _ & _ & _ & ->). cbn [batchIds]. split; cbn [batchIds].
  - apply NoDup_app. split; [done|]. split; [|apply NoDup_singleton].
    intros id' Ha%Hin ->%list_elem_of_singleton. unfold isAnchored in Ha. by rewrite H0 in Ha.
  - intros id'. destruct (decide (id' = id)) as [->|Hne].
    + split; [done|]. intros _. apply elem_of_app. right. by apply list_elem_of_singleton.
    + rewrite elem_of_app, list_elem_of_singleton, Hin. unfold isAnchored, anchored_at. cbn.
      rewrite lookup_insert_ne by done. split; [by intros [?|?]|by left].
Qed.

Lemma applied_listed txs c : Forall mined txs → listed c → listed (fold_left apply txs c).
Proof.
  intros Htx. revert c. induction Htx as [|tx txs Hm _ IH]; intros c Hc; [done|].
  by apply IH, apply_listed.
Qed.
End Registry.

#[export] Existing Instance Registry.extends_preorder.

(** ** The calls of the gateway *)

Section client_lemmas.
Context {HH : Hashing} {HL : HashingLaws} {HN : EvmNode} {HE : EvmLaws} (config : EvmConfig).
Context (deployed : Contract.State).

#[local] Instance chain_of_contract : ChainClient := evm_chain config deployed.

(** Submitting a transaction leaves every anchored batch. *)
Lemma submit_extends h context sender id root count c :
  Registry.extends c (submit config h context sender id root count c).2.
Proof.
  unfold submit. destruct (node_answers h); [|reflexivity]. cbn [negb].
  destruct (Contract.anchorBatch _ _ _ _ _ c) as [c1|]; [|reflexivity].
  destruct (node_includes h); cbn [negb snd]; [|apply Registry.applied_extends].
  destruct (Contract.anchorBatch _ _ _ _ _ _) as [c2|] eqn:Hrun; cbn [snd];
    [|apply Registry.applied_extends].
  etrans; [apply Registry.applied_extends|by eapply Registry.anchorBatch_extends].
Qed.

Lemma after_anchor_call_extends h call c : Registry.extends c (after_anchor_call config h call c).
Proof.
  destruct call; try reflexivity. cbn [after_anchor_call]. unfold client_anchorBatch.
  repeat case_match; try reflexivity. apply submit_extends.
Qed.

Lemma run_calls_app before todo todo' c :
  run_calls config before (todo ++ todo') c
  = run_calls config (before ++ todo) todo' (run_calls config before todo c).
Proof.
  revert before c. induction todo as [|call todo IH]; intros before c; [by rewrite app_nil_r|].
  simpl. by rewrite IH, <- app_assoc.
Qed.

Lemma run_calls_extends before todo c : Registry.extends c (run_calls config before todo c).
Proof.
  revert before c. induction todo as [|call todo IH]; intros before c; [reflexivity|]. simpl.
  etrans; [apply Registry.applied_extends|]. etrans; [apply after_anchor_call_extends|apply IH].
Qed.

(** A later call finds what an earlier one left. *)
Lemma found_later calls call call' later :
  let h := calls ++ [call] in
  Registry.extends (after_anchor_call config h call (found_by config deployed h)) (found_by config deployed (h ++ call' :: later)).
Proof.
  intros h. unfold found_by at 2. rewrite removelast_app by done.
  etrans; [|apply Registry.applied_extends]. rewrite run_calls_app.
  etrans; [|apply run_calls_extends]. unfold h at 3. rewrite run_calls_app. simpl.
  unfold found_by, h. by rewrite removelast_last.
Qed.

(** A receipt says that the batch is anchored, with its root and its count. *)
Lemma receipt_anchors h batchId root count c r :
  (client_anchorBatch config h batchId root count c).1 = Return r →
  ∃ sender id, getContract config = Return sender ∧ on_chain_id batchId = Return id
    ∧ is_bytes32 root = true
    ∧ Contract.getBatch (client_anchorBatch config h batchId root count c).2 id
      = Return (Contract.mkBatch (toLowerCase root) count (node_timestamp h) sender).
Proof.
  unfold client_anchorBatch.
  destruct (getContract config) as [sender|]; [|done].
  destruct (on_chain_id batchId) as [id|] eqn:Hid; [|done].
  unfold encode_word, encode_uint64. destruct (is_bytes32 root) eqn:Hroot; [|done].
  destruct (_ && _); [|done]. unfold submit. destruct (node_answers h); [|done]. cbn [negb].
  destruct (Contract.anchorBatch _ _ _ _ _ c) as [c1|]; [|done].
  destruct (node_includes h); [|done]. cbn [negb].
  destruct (Contract.anchorBatch _ _ _ _ _ (fold_left _ _ _)) as [c2|] eqn:Hrun; [|done].
  intros _. exists sender, id. repeat split; [done..|]. cbn [snd].
  eapply Registry.anchored_batch; [apply node_timestamp_range|exact Hrun].
Qed.

(** What the client answers for an anchored batch. *)
Lemma getBatch_of_anchored h batchId sender id batch c :
  getContract config = Return sender → on_chain_id batchId = Return id →
  Contract.getBatch c id = Return batch →
  client_getBatch config h batchId c =
    if node_answers h then
      Return (Some (mkOnChainBatch (Contract.merkleRoot batch) (Contract.leafCount batch)
                (Contract.anchoredAt batch * 1000) (Contract.submitter batch)))
    else Throw (toDomainError ("Lecture du lot " +:+ batchId +:+ " en echec") "network").
Proof.
  intros Hc Hid Hb. unfold client_getBatch. rewrite Hc, Hid, Hb, (Registry.getBatch_isAnchored _ _ _ Hb).
  by destruct (node_answers h).
Qed.

Lemma inclusion_of_anchored h batchId sender id batch root leaf proof c :
  getContract config = Return sender → on_chain_id batchId = Return id →
  Contract.getBatch c id = Return batch → toLowerCase root = Contract.merkleRoot batch →
  is_bytes32 leaf = true → words proof →
  client_verifyInclusion config h batchId leaf proof c =
    if node_answers h then Return (verifyProof leaf proof root)
    else Throw (toDomainError ("Verification d inclusion en echec pour le lot " +:+ batchId) "network").
Proof.
  intros Hc Hid Hb Hroot Hleaf Hp. unfold client_verifyInclusion.
  rewrite Hc, Hid, (encode_words _ Hp). unfold encode_word. rewrite Hleaf.
  erewrite contract_inclusion by done. by destruct (node_answers h).
Qed.

Lemma no_second_receipt h batchId id batch root count c r :
  on_chain_id batchId = Return id → Contract.getBatch c id = Return batch →
  (client_anchorBatch config h batchId root count c).1 ≠ Return r.
Proof.
  intros Hid Hb. unfold client_anchorBatch. rewrite Hid. destruct (getContract config); [|done].
  destruct (encode_word root); [|done]. destruct (encode_uint64 count); [|done].
  unfold submit. destruct (node_answers h); [|done]. cbn [negb].
  destruct (Contract.anchorBatch _ _ _ _ _ c) eqn:Hrun; [|done].
  by eapply Registry.anchorBatch_again in Hrun.
Qed.
End client_lemmas.

Lemma verifyProof_words {HH : Hashing} leaf proof root :
  verifyProof leaf proof root = true → words proof.
Proof.
  intros (_ & r & Hrun & _)%verifyProof_inv. revert Hrun. generalize leaf 0. clear leaf.
  induction proof as [|s proof IH]; intros computed j; [constructor|]. cbn [process_siblings].
  intros ([] & [] & [Hs _]%assertBytes32_inv & Hrun)%bind_inv. constructor; [done|by eapply IH].
Qed.

(** * Properties *)

(** C21. The contract verifies what the gateway verifies.  For a batch the contract has, its
    answer to an inclusion proof, words compared as numbers and hashed in that order, is
    what [verifyProof] computes with the text of the words in lower case, whatever the case
    of the digits; and the client never sends the contract a proof the gateway would refuse
    for its form. *)
Theorem contract_verifies_as_gateway {HH : Hashing} {HL : HashingLaws} {HN : EvmNode} config c
    batchId sender id batch root leaf proof h :
  getContract config = Return sender → on_chain_id batchId = Return id →
  Contract.getBatch c id = Return batch → toLowerCase root = Contract.merkleRoot batch →
  node_answers h = true → is_bytes32 leaf = true →
  match client_verifyInclusion config h batchId leaf proof c with
  | Return included => included = verifyProof leaf proof root ∧ words proof
  | Throw _ => verifyProof leaf proof root = false ∧ ¬ words proof
  end.
Proof.
  intros Hc Hid Hb Hroot Hans Hleaf. destruct (mapM encode_word proof) as [p|] eqn:Hp.
  - assert (Hw : words proof) by by eapply encode_words_inv.
    by erewrite inclusion_of_anchored, Hans by done.
  - assert (Hw : ¬ words proof) by (intros Hw; by rewrite encode_words in Hp).
    unfold client_verifyInclusion. rewrite Hc, Hid, Hp. unfold encode_word at 1. rewrite Hleaf.
    split; [|done]. destruct (verifyProof leaf proof root) eqn:Hv; [|done].
    by apply verifyProof_words in Hv.
Qed.

(** C29. A receipt is permanent.  Once the client obtained a receipt for a batch, whatever
    the gateway calls afterwards and whatever other accounts execute, the owner of the
    contract included: the chain never says that the batch is absent; when the node answers
    it gives the root and the count of the receipt, and verifies a proof as the gateway does;
    no second receipt is ever obtained for the batch.  The facts whose proofs lead to that
    root are then published in the sense that the audit of a case relies on. *)
Theorem receipt_is_permanent {HH : Hashing} {HL : HashingLaws} {HN : EvmNode} {HE : EvmLaws}
    config deployed calls batchId root count r :
  let HC := evm_chain config deployed in
  let h := calls ++ [CallAnchorBatch batchId root count] in
  chain_anchorBatch h batchId root count = Return r →
  (∀ call later, let h' := h ++ call :: later in
     chain_getBatch h' batchId ≠ Return None
     ∧ (node_answers h' = true →
          (∃ oc, chain_getBatch h' batchId = Return (Some oc)
             ∧ oc_merkleRoot oc = toLowerCase root ∧ oc_leafCount oc = count)
          ∧ ∀ leaf proof, is_bytes32 leaf = true → words proof →
              chain_verifyInclusion h' batchId leaf proof = Return (verifyProof leaf proof root))
     ∧ ∀ root' count' r', chain_anchorBatch h' batchId root' count' ≠ Return r')
  ∧ ∀ d e b proof,
      anchored_with e = Some (batchId, proof) →
      List.find (λ b, str_eqb (ab_id b) batchId) (db_batches d) = Some b →
      ab_merkleRoot b = root → verifyProof (keccak256 (ev_fingerprint e)) proof root = true →
      published h d e.
Proof.
  intros HC h Hr. apply receipt_anchors in Hr as (sender & id & Hc & Hid & _ & Hb).
  assert (Hlater : ∀ call later, Contract.getBatch (found_by config deployed (h ++ call :: later)) id
    = Return (Contract.mkBatch (toLowerCase root) count (node_timestamp h) sender)).
  { intros call later. by apply found_later. }
  split.
  - intros call later h'. specialize (Hlater call later). fold h' in Hlater.
    cbn [chain_getBatch chain_verifyInclusion chain_anchorBatch HC evm_chain].
    erewrite getBatch_of_anchored by done. split; [by destruct (node_answers h')|]. split.
    + intros Hans. rewrite Hans. split; [by eexists|]. intros leaf proof Hleaf Hp.
      by erewrite inclusion_of_anchored, Hans by done.
    + intros root' count' r'. by eapply no_second_receipt.
  - intros d e b proof He Hfind <- Hv. unfold published. rewrite He. exists b.
    assert (ab_id b = batchId) as -> by by apply List.find_some in Hfind as [_ ?%str_eqb_spec].
    split; [done|]. split; [done|].
    split; intros call later; cbn [chain_getBatch chain_verifyInclusion HC evm_chain].
    + erewrite getBatch_of_anchored by done. destruct (node_answers _); [|done].
      apply toLowerCase_idem.
    + erewrite inclusion_of_anchored by eauto using keccak256_bytes32, verifyProof_words.
      rewrite Hv. by destruct (node_answers _).
Qed.

(** A chain of two accounts: before each call of the gateway, the owner of the contract
    tries to write the batch of the gateway with another root, and to revoke it. *)
#[local] Existing Instances Toy.hashing Toy_hashing_laws.

Definition sample_id : string := "550e8400-e29b-41d4-a716-446655440000".
Definition sample_key : string := toLowerCase (zeroPadValue "0x550e8400e29b41d4a716446655440000" 32).
Definition sample_leaf : string := keccak256 (keccak256 (pretty 1)).
Definition sample_sibling : string := keccak256 (keccak256 (pretty 2)).
Definition sample_root : string := hashPair sample_leaf sample_sibling.

#[local] Instance sample_node : EvmNode := {|
  node_answers _ := true;
  node_others history :=
    if Nat.leb (length history) 1 then []
    else [Contract.AnchorBatch "0xowner" 1800000000 sample_key sample_leaf 1;
          Contract.SetSubmitter "0xowner" "0xgateway" false];
  node_between _ := [];
  node_timestamp history := 1700000000 + Z.of_nat (Nat.min (length history) 1000);
  node_includes _ := true;
  node_receipt _ := Return (Some ("0xfeed", 12, 91000));
  node_code _ := Return "0x60"
|}.

#[local] Instance sample_node_laws : EvmLaws.
Proof. split. intros h. unfold node_timestamp, sample_node. lia. Qed.

Definition sample_config : EvmConfig :=
  mkEvmConfig "0xcontract" true 31337 (Return "0xgateway").
Definition sample_deployed : Contract.State :=
  Contract.mkState "0xowner" ["0xgateway"; "0xowner"] ∅ [].
Definition sample_batch : Contract.Batch :=
  Contract.mkBatch (toLowerCase sample_root) 2 1700000001 "0xgateway".

Lemma contract_verifies_as_gateway_witness :
  client_verifyInclusion sample_config [] sample_id sample_leaf [sample_sibling]
    (Contract.mkState "0xowner" [] {[ sample_key := sample_batch ]} [sample_key]) = Return true
  ∧ true = verifyProof sample_leaf [sample_sibling] sample_root.
Proof.
  set (c := Contract.mkState _ _ _ _).
  assert (Hrun : client_verifyInclusion sample_config [] sample_id sample_leaf [sample_sibling] c
    = Return true) by (vm_compute; reflexivity).
  split; [exact Hrun|].
  pose proof (@contract_verifies_as_gateway Toy.hashing Toy_hashing_laws sample_node sample_config c
    sample_id "0xgateway" sample_key sample_batch
    sample_root sample_leaf [sample_sibling] [] eq_refl
    ltac:(vm_compute; reflexivity) ltac:(vm_compute; reflexivity) eq_refl eq_refl
    ltac:(vm_compute; reflexivity)) as H.
  rewrite Hrun in H. by destruct H.
Defined.

Lemma receipt_is_permanent_witness :
  @chain_getBatch (evm_chain sample_config sample_deployed)
    [CallAnchorBatch sample_id sample_root 2; CallGetBatch sample_id] sample_id
  = Return (Some (mkOnChainBatch (toLowerCase sample_root) 2 1700000001000 "0xgateway"))
  ∧ @chain_getBatch (evm_chain sample_config sample_deployed)
      [CallAnchorBatch sample_id sample_root 2; CallGetBatch sample_id] sample_id ≠ Return None.
Proof.
  split; [vm_compute; reflexivity|].
  destruct (receipt_is_permanent sample_config sample_deployed [] sample_id sample_root 2
    (mkAnchorReceipt "0xfeed" "12" "91000" "31337" "0xcontract")) as [H _];
    [vm_compute; reflexivity|].
  destruct (H (CallGetBatch sample_id) []) as [Hn _]. exact Hn.
Defined.
