(* ===== verification/Services.v ===== *)
(** What the services share.

    Several services receive an entity and assign its fields before they save it:
    the caller still holds that object, so what was assigned survives a rolled-back
    transaction.  [Obj O] is the monad of such methods, whose state is the objects
    they hold together with the [World]; [Ent] is the case of one transaction.  The rest of the file says which operations of
    [Database] leave the ledger alone, for every service's refinement proof. *)
From S2P Require Import Prelude Domain StateMachine Money External Fingerprint EventXml.
From S2P Require Import Database Ledger EventLedger Ports.
Open Scope Z_scope.

(** * Methods that assign the fields of an entity *)

(** Methods that hold an object of type [O]; those that hold a transaction. *)
Abbreviation Obj O := (Eff (O * World) GatewayError).
Abbreviation Ent := (Obj Transaction).

Definition lift {O A} (m : App A) : Obj O A :=
  λ s, let '(o, w) := m s.2 in (o, (s.1, w)).

(** The entity as it stands. *)
Definition entity {O} : Obj O O := gets fst.

(** [transaction.field = value], or several of them. *)
Definition assigns {O} (f : O → O) : Obj O unit :=
  modify (λ s, (f s.1, s.2)).

(** Runs a method on an object; what it assigned is visible to the caller, who
    does not look at it here. *)
Definition with_entity {O A} (t : O) (m : Obj O A) : App A :=
  λ w, let '(o, s) := m (t, w) in (o, s.2).

(** The object the caller is left with. *)
Definition entity_after {O A} (t : O) (m : Obj O A) (w : World) : O :=
  (m (t, w)).2.1.

(** [error.message]: the texts of the exceptions, most of which libraries write. *)
Class ErrorText := { error_message : GatewayError → string }.

(** Texts for the witnesses. *)
Definition sample_texts : ErrorText :=
  {| error_message e := match e with PlainError m => m | _ => "erreur" end |}.

Lemma lift_inv {O A} (m : App A) (t : O) w a t' w' :
  lift m (t, w) = (Return a, (t', w')) → t' = t ∧ m w = (Return a, w').
Proof. unfold lift. simpl. destruct (m w) as [o w1]. by intros [= -> <- <-]. Qed.

Lemma lift_throw_inv {O A} (m : App A) (t : O) w err t' w' :
  lift m (t, w) = (Throw err, (t', w')) → t' = t ∧ m w = (Throw err, w').
Proof. unfold lift. simpl. destruct (m w) as [o w1]. by intros [= -> <- <-]. Qed.

(** [dataSource.transaction(m)] around a method that assigns the objects it holds:
    the database is rolled back, the objects are not. *)
Definition transaction_on {O A} (m : Obj O A) : Obj O A :=
  λ s, let '(r, w) := transaction (with_entity s.1 m) s.2 in (r, (entity_after s.1 m s.2, w)).

(** * Relations on the database seen from an [Ent] *)

Definition on_ent {O} (R : Db → Db → Prop) (s s' : O * World) : Prop := on_db R s.2 s'.2.

#[export] Instance on_ent_preorder {O} R `{!PreOrder R} : PreOrder (@on_ent O R).
Proof. split; unfold on_ent; [intros s; reflexivity|intros s1 s2 s3 ??; by etrans]. Qed.

Section ent_respects.
Context {O : Type} (R : Db → Db → Prop) `{!PreOrder R}.

Lemma lift_respects {A} (m : App A) : Respects (on_db R) m → Respects (@on_ent O R) (lift m).
Proof.
  intros Hm [t w]. specialize (Hm w). unfold on_ent, lift. simpl. by destruct (m w) as [o w'].
Qed.

Lemma entity_respects : Respects (@on_ent O R) entity.
Proof. unfold entity. respects. Qed.

Lemma assigns_respects f : Respects (@on_ent O R) (assigns f).
Proof. intros [t w]. unfold on_ent, on_db. simpl. reflexivity. Qed.

Lemma with_entity_respects {A} t (m : Obj O A) :
  Respects (on_ent R) m → Respects (on_db R) (with_entity t m).
Proof.
  intros Hm w. specialize (Hm (t, w)). unfold with_entity. by destruct (m (t, w)) as [o [t' w']].
Qed.

Lemma transaction_on_respects {A} (m : Obj O A) :
  Respects (on_ent R) m → Respects (on_ent R) (transaction_on m).
Proof.
  intros Hm [o w]. unfold on_ent, transaction_on. cbn [fst snd].
  assert (H := transaction_respects R (with_entity o m) (with_entity_respects o m Hm) w).
  by destruct (transaction _ w).
Qed.
End ent_respects.

#[export] Hint Resolve lift_respects entity_respects assigns_respects with_entity_respects
  transaction_on_respects : effects.

Ltac respects_more ::=
  lazymatch goal with
  | |- Respects _ (transaction _) => respects_apply @transaction_respects
  | |- Respects _ (transaction_on _) => respects_apply @transaction_on_respects
  | |- Respects _ (lift _) => respects_apply @lift_respects
  | |- Respects _ (with_entity _ _) => respects_apply @with_entity_respects
  end.

(** * Operations that leave the register and the journal alone *)

Section frames.
Context {HH : Hashing} {HX : XsdEngine} {HE : Entropy}.
Abbreviation frames := (Respects (on_db ledger_refines)).

Lemma put_db_frames (d d' : Db) w :
  w_db w = d → db_events d' = db_events d → db_entries d' = db_entries d →
  on_db ledger_refines w (put_db d' w).2.
Proof. intros <- He Hj. by apply ledger_frame. Qed.

(** A computation that reads the database, may refuse, and rewrites other tables. *)
Ltac frame_table :=
  intros w; unfold get_db, now, gets, throw_unless, raise_if, mbind, Eff_bind; simpl;
  repeat match goal with
  | |- context [if ?b then _ else _] => destruct b; simpl
  | |- context [match ?o with Some _ => _ | None => _ end] => destruct o; simpl
  end;
  try (intros ?; apply rtc_refl); by apply ledger_frame.

Lemma modify_db_refines f : (∀ d, ledger_refines d (f d)) → Respects (on_db ledger_refines) (modify_db f).
Proof. intros Hf w. apply Hf. Qed.

Lemma save_transaction_frames t : frames (save_transaction t).
Proof. unfold save_transaction. frame_table. Qed.
#[local] Hint Resolve save_transaction_frames : effects.

Lemma insert_transaction_frames t : frames (insert_transaction t).
Proof. unfold insert_transaction, draw_uuid, next_draw. frame_table. Qed.

Lemma update_transactions_frames p f : frames (update_transactions p f).
Proof. unfold update_transactions. frame_table. Qed.

Lemma find_transaction_frames p : frames (find_transaction p).
Proof. unfold find_transaction. respects. Qed.
#[local] Hint Resolve find_transaction_frames : effects.

Lemma find_transaction_or_fail_frames p : frames (find_transaction_or_fail p).
Proof. unfold find_transaction_or_fail. respects. Qed.

Lemma insert_refund_frames r : frames (insert_refund r).
Proof. unfold insert_refund. frame_table. Qed.

Lemma save_refund_frames r : frames (save_refund r).
Proof. unfold save_refund. frame_table. Qed.

Lemma find_refund_frames r : frames (find_refund r).
Proof. unfold find_refund. respects. Qed.

Lemma insert_instruction_frames i : frames (insert_instruction i).
Proof. unfold insert_instruction. frame_table. Qed.

Lemma save_instruction_frames i : frames (save_instruction i).
Proof. unfold save_instruction. frame_table. Qed.

Lemma insert_webhook_frames e : frames (insert_webhook e).
Proof. unfold insert_webhook. frame_table. Qed.

Lemma save_webhook_frames e : frames (save_webhook e).
Proof. unfold save_webhook. frame_table. Qed.

Lemma find_webhook_or_fail_frames id : frames (find_webhook_or_fail id).
Proof. unfold find_webhook_or_fail. respects. Qed.

Lemma update_webhooks_frames p f : frames (update_webhooks p f).
Proof. unfold update_webhooks. frame_table. Qed.

Lemma save_batch_frames b : frames (save_batch b).
Proof. unfold save_batch. frame_table. Qed.
#[local] Hint Resolve save_batch_frames : effects.

Lemma insert_batch_frames b : frames (insert_batch b).
Proof. unfold insert_batch, draw_uuid, next_draw. frame_table. Qed.

Lemma find_batch_frames id : frames (find_batch id).
Proof. unfold find_batch. respects. Qed.

(** The append-only trigger: an accepted [UPDATE] keeps every fact. *)
Lemma update_events_frames p f : frames (update_events p f).
Proof.
  intros w. unfold update_events, get_db, gets, mbind, Eff_bind. simpl. unfold throw_unless.
  destruct (forallb _ _) eqn:Hall; simpl; [|intros ?; apply rtc_refl].
  intros _. apply rtc_once, step_frame; [|done]. simpl. unfold update_where.
  rewrite <- list_fmap_compose. apply Forall_fmap_ext_1, Forall_forall. intros e He. simpl.
  rewrite forallb_forall in Hall. apply list_elem_of_In, Hall in He.
  destruct (p e); [|done]. by apply bool_decide_eq_true in He.
Qed.
End frames.

#[export] Hint Resolve save_transaction_frames insert_transaction_frames
  update_transactions_frames find_transaction_frames find_transaction_or_fail_frames
  insert_refund_frames save_refund_frames find_refund_frames insert_instruction_frames
  save_instruction_frames insert_webhook_frames save_webhook_frames find_webhook_or_fail_frames
  update_webhooks_frames save_batch_frames insert_batch_frames find_batch_frames
  update_events_frames : effects.

(** * Recording touches no other table, even when it fails *)

Definition only_ledger (d d' : Db) : Prop :=
  db_transactions d' = db_transactions d ∧ db_refunds d' = db_refunds d
  ∧ db_instructions d' = db_instructions d ∧ db_webhooks d' = db_webhooks d
  ∧ db_batches d' = db_batches d.

#[export] Instance only_ledger_preorder : PreOrder only_ledger.
Proof.
  split; [done|]. intros d1 d2 d3 (?&?&?&?&?) (?&?&?&?&?). unfold only_ledger. split_and!; congruence.
Qed.

Section only_ledger.
Context {HH : Hashing} {HX : XsdEngine} {HE : Entropy}.
Abbreviation ledger_only := (Respects (on_db only_ledger)).

Lemma insert_event_only e : ledger_only (insert_event e).
Proof. intros w. unfold insert_event. unfold mbind, Eff_bind. simpl. by destruct (event_error _ _). Qed.

Lemma insert_entry_only e : ledger_only (insert_entry e).
Proof.
  intros w. unfold insert_entry, draw_uuid, next_draw, mbind, Eff_bind. simpl.
  by destruct (entry_error _ _).
Qed.
#[local] Hint Resolve insert_event_only insert_entry_only : effects.

Lemma insert_fact_only nested e t : ledger_only (insert_fact nested e t).
Proof.
  assert (Hpost : ∀ f, ledger_only (post f t)) by (intros f; unfold post; respects).
  assert (Hbody : ledger_only (insert_body nested e t)) by (unfold insert_body; respects).
  unfold insert_fact, savepoint. destruct nested; [|done]. unfold on_db in *.
  by apply (respects_atomic w_db _ only_ledger).
Qed.

Lemma prepare_fact_only input : ledger_only (prepare_fact input).
Proof. intros w. unfold on_db. by rewrite prepare_fact_db. Qed.
#[local] Hint Resolve insert_fact_only prepare_fact_only : effects.

Lemma record_only nested input : ledger_only (record nested input).
Proof.
  unfold record, record_under. induction MAX_SEQUENCE_ATTEMPTS as [|n IH]; cbn [record_loop]; [done|].
  apply respects_bind; [apply _|respects|intros e]. apply respects_bind; [apply _|done|intros []].
  respects.
Qed.
#[local] Hint Resolve record_only : effects.

Lemma closeCase_only nested t detail : ledger_only (closeCase nested t detail).
Proof.
  unfold closeCase, closeCase_under, findChain.
  change (record_under nested (λ (_ : nat) (d : Db), d)) with (record nested). respects.
Qed.
End only_ledger.

(** * Operations that call no other system

    The answers of the ports depend on the calls made before; most operations make
    none, and none moves the clock. *)

Definition ambient (w w' : World) : Prop := w_calls w' = w_calls w ∧ w_now w' = w_now w.

#[export] Instance ambient_preorder : PreOrder ambient.
Proof. split; [done|]. intros w1 w2 w3 [??] [??]. split; congruence. Qed.

Section silent.
Context {HH : Hashing} {HX : XsdEngine} {HE : Entropy}.
Abbreviation silent := (Respects ambient).

Lemma now_silent : silent now.
Proof. by unfold now; respects. Qed.

Lemma getCorrelationId_silent : silent getCorrelationId.
Proof. by unfold getCorrelationId; respects. Qed.

Lemma get_db_silent : silent get_db.
Proof. by unfold get_db; respects. Qed.

Lemma put_db_silent d : silent (put_db d).
Proof. by apply respects_modify. Qed.

Lemma modify_db_silent f : silent (modify_db f).
Proof. by apply respects_modify. Qed.

Lemma next_draw_silent : silent next_draw.
Proof. done. Qed.

Lemma raise_if_silent o : silent (raise_if o).
Proof. by destruct o. Qed.

Lemma transaction_silent {A} (m : App A) : silent m → silent (transaction m).
Proof.
  intros Hm. unfold transaction. apply respects_rollback; [done|]. respects.
Qed.

Lemma assertTransition_silent before after reference :
  silent (assertTransition before after reference).
Proof. unfold assertTransition. respects. Qed.
#[local] Hint Resolve now_silent getCorrelationId_silent get_db_silent put_db_silent
  modify_db_silent next_draw_silent raise_if_silent transaction_silent : effects.

Lemma draw_uuid_silent : silent draw_uuid.
Proof. unfold draw_uuid. respects. Qed.

Lemma draw_bytes_silent n : silent (draw_bytes n).
Proof. unfold draw_bytes. respects. Qed.
#[local] Hint Resolve draw_uuid_silent draw_bytes_silent : effects.

Lemma insert_fact_silent nested e t : silent (insert_fact nested e t).
Proof.
  assert (Hpost : ∀ f, silent (post f t)).
  { intros f. unfold post, insert_entry. respects. }
  assert (Hbody : silent (insert_body nested e t)).
  { unfold insert_body, insert_event. respects. }
  unfold insert_fact, savepoint. destruct nested; [|done]. by apply respects_rollback.
Qed.

Lemma prepare_fact_silent input : silent (prepare_fact input).
Proof. unfold prepare_fact, findLatest, assertValid, computeFingerprint. respects. Qed.
#[local] Hint Resolve insert_fact_silent prepare_fact_silent : effects.

Lemma record_silent nested input : silent (record nested input).
Proof.
  unfold record, record_under. induction MAX_SEQUENCE_ATTEMPTS; simpl; respects.
Qed.
#[local] Hint Resolve record_silent : effects.

Lemma closeCase_silent nested t detail : silent (closeCase nested t detail).
Proof.
  unfold closeCase, closeCase_under, findChain.
  change (record_under nested (λ (_ : nat) (d : Db), d)) with (record nested). respects.
Qed.

Lemma save_refund_silent r : silent (save_refund r).
Proof. unfold save_refund. respects. Qed.

Lemma insert_refund_silent r : silent (insert_refund r).
Proof. unfold insert_refund. respects. Qed.

Lemma find_refund_silent r : silent (find_refund r).
Proof. unfold find_refund. respects. Qed.

Lemma update_transactions_silent p f : silent (update_transactions p f).
Proof. unfold update_transactions. respects. Qed.

Lemma save_transaction_silent t : silent (save_transaction t).
Proof. unfold save_transaction. respects. Qed.

Lemma find_transaction_silent p : silent (find_transaction p).
Proof. unfold find_transaction. respects. Qed.
#[local] Hint Resolve find_transaction_silent : effects.

Lemma find_transaction_or_fail_silent p : silent (find_transaction_or_fail p).
Proof. unfold find_transaction_or_fail. respects. Qed.

(** The same, of methods that hold objects. *)
Definition ambient_on {O} (s s' : O * World) : Prop := ambient s.2 s'.2.

#[export] Instance ambient_on_preorder {O} : PreOrder (@ambient_on O).
Proof. split; unfold ambient_on; [done|]. intros s1 s2 s3 ??. by etrans. Qed.

Lemma lift_silent {O A} (m : App A) : silent m → Respects (@ambient_on O) (lift m).
Proof.
  intros Hm [o w]. specialize (Hm w). unfold ambient_on, lift. simpl. by destruct (m w) as [r w'].
Qed.

Lemma entity_silent {O} : Respects (@ambient_on O) entity.
Proof. done. Qed.

Lemma assigns_silent {O} f : Respects (@ambient_on O) (assigns f).
Proof. done. Qed.

Lemma with_entity_silent {O A} o (m : Obj O A) :
  Respects ambient_on m → silent (with_entity o m).
Proof.
  intros Hm w. specialize (Hm (o, w)). unfold with_entity. by destruct (m (o, w)) as [r [o' w']].
Qed.

Lemma transaction_on_silent {O A} (m : Obj O A) :
  Respects ambient_on m → Respects ambient_on (transaction_on m).
Proof.
  intros Hm [o w]. unfold ambient_on, transaction_on. cbn [fst snd].
  assert (H := transaction_silent _ (with_entity_silent o m Hm) w). by destruct (transaction _ w).
Qed.
End silent.

#[export] Hint Resolve lift_silent entity_silent assigns_silent transaction_on_silent : effects.
#[export] Hint Resolve now_silent getCorrelationId_silent get_db_silent put_db_silent
  modify_db_silent next_draw_silent raise_if_silent transaction_silent draw_uuid_silent
  draw_bytes_silent assertTransition_silent record_silent closeCase_silent save_refund_silent
  insert_refund_silent find_refund_silent update_transactions_silent save_transaction_silent find_transaction_silent
  find_transaction_or_fail_silent : effects.

Ltac respects_more ::=
  lazymatch goal with
  | |- Respects ambient (transaction _) => apply transaction_silent
  | |- Respects ambient (with_entity _ _) => apply with_entity_silent
  | |- Respects ambient_on (lift _) => apply lift_silent
  | |- Respects ambient_on (transaction_on _) => apply transaction_on_silent
  | |- Respects _ (transaction _) => respects_apply @transaction_respects
  | |- Respects _ (transaction_on _) => respects_apply @transaction_on_respects
  | |- Respects _ (lift _) => respects_apply @lift_respects
  | |- Respects _ (with_entity _ _) => respects_apply @with_entity_respects
  end.

(** * What the operations do when they return *)

Section outcomes.
Context {HH : Hashing} {HX : XsdEngine} {HE : Entropy}.

(** Facts, and the entries some of them cause, were added; nothing else changed. *)
Record recorded (d : Db) (facts : list TransactionEvent) (d' : Db) : Prop := {
  recorded_events : db_events d' = db_events d ++ facts;
  recorded_entries : ∃ entries, db_entries d' = db_entries d ++ entries;
  recorded_transactions : db_transactions d' = db_transactions d;
  recorded_refunds : db_refunds d' = db_refunds d;
  recorded_instructions : db_instructions d' = db_instructions d;
  recorded_webhooks : db_webhooks d' = db_webhooks d;
  recorded_batches : db_batches d' = db_batches d;
  recorded_ok : ledger_ok d'
}.

Lemma recorded_nil d : ledger_ok d → recorded d [] d.
Proof. intros Hok. split; try done; [|exists []]; by rewrite app_nil_r. Qed.

Lemma recorded_trans d1 d2 d3 facts facts' :
  recorded d1 facts d2 → recorded d2 facts' d3 → recorded d1 (facts ++ facts') d3.
Proof.
  intros [He [n Hn] Ht Hr Hi Hw Hb _] [He' [n' Hn'] Ht' Hr' Hi' Hw' Hb' Hok].
  split; try congruence; [by rewrite He', He, app_assoc| |done].
  exists (n ++ n'). by rewrite Hn', Hn, app_assoc.
Qed.

Lemma recorded_rows reference d facts d' :
  recorded d facts d' → Forall (λ e, event_reference e = reference) facts →
  rows_of reference d' = rows_of reference d ++ facts.
Proof.
  intros [He _ _ _ _ _ _ _] Hf. unfold rows_of. rewrite He, List.filter_app. f_equal.
  clear He. induction Hf as [|e facts Href _ IH]; simpl; [done|].
  unfold of_reference at 1. by rewrite Href, str_eqb_refl, IH.
Qed.

Lemma recorded_chain reference d facts d' :
  ledger_ok d → recorded d facts d' → Forall (λ e, event_reference e = reference) facts →
  chain_of reference d' = chain_of reference d ++ facts.
Proof. intros Hok Hr Hf. rewrite !chain_of_ok; [by apply recorded_rows|done|apply Hr]. Qed.

(** [record], as an equation on the database. *)
Lemma record_recorded nested input w e w' :
  ledger_ok (w_db w) → record nested input w = (Return e, w') →
  recorded (w_db w) [e] (w_db w') ∧ sealed e ∧ event_type e = ri_type input
  ∧ event_reference e = tx_reference (ri_transaction input)
  ∧ ∃ previous id date correlation fingerprint salt,
      e = sealed_row (draft input previous id date correlation) fingerprint salt date.
Proof.
  intros Hok Hrec. assert (Hok' := record_ok nested input w Hok). rewrite Hrec in Hok'.
  apply record_return in Hrec as (w1 & Hprep & Hdb & Herr & ->); [|done].
  apply prepare_fact_return in Hprep as (_ & Hs & Href & Htype & _ & H). simpl in Hok'.
  destruct H as (p & id & date & corr & fp & salt & _ & _ & Heq).
  split_and!; [|done..|by eexists _, _, _, _, _, _]. unfold world_after in *.
  destruct (entry_for (ev_data e) _) as [entry|]; simpl in *; rewrite Hdb in *;
    split; simpl; try done; [by eexists|exists []; by rewrite app_nil_r].
Qed.

Definition option_facts (o : option TransactionEvent) : list TransactionEvent :=
  match o with Some e => [e] | None => [] end.

(** [closeCase]: at most one closing fact is added, and the case ends up closed. *)
Lemma closeCase_recorded nested t detail w r w' :
  ledger_ok (w_db w) → closeCase nested t detail w = (Return r, w') →
  recorded (w_db w) (option_facts r) (w_db w')
  ∧ Forall (λ e, event_reference e = tx_reference t ∧ is_closing e = true) (option_facts r)
  ∧ (rows_of (tx_reference t) (w_db w) ≠ [] →
     existsb is_closing (rows_of (tx_reference t) (w_db w')) = true).
Proof.
  intros Hok. destruct (decide (rows_of (tx_reference t) (w_db w) = [])) as [Hnil|Hne].
  { rewrite closeCase_done by auto. intros [= <- <-]. split_and!; [by apply recorded_nil|done|done]. }
  destruct (existsb is_closing (rows_of (tx_reference t) (w_db w))) eqn:Hcl.
  { rewrite closeCase_done by auto. intros [= <- <-]. split_and!; [by apply recorded_nil|done|done]. }
  unfold closeCase, closeCase_under. erewrite bind_return by reflexivity.
  rewrite chain_of_ok, Hcl by done. rewrite (proj2 (Nat.eqb_neq _ _)) by by rewrite length_zero_iff_nil.
  change (record_under nested (λ (_ : nat) (d : Db), d)) with (record nested).
  set (input := event_input _ _ _). unfold try_catch.
  destruct (record nested input w) as [[e|err] w1] eqn:Hrec.
  - erewrite bind_return by exact Hrec. intros [= <- <-].
    apply record_recorded in Hrec as (Hr & _ & Htype & Href & _); [|done].
    assert (Hclosing : is_closing e = true) by (unfold is_closing; by rewrite Htype).
    split_and!; [done|by constructor|]. intros _.
    rewrite (recorded_rows (tx_reference t) _ _ _ Hr), existsb_app by by constructor.
    simpl. by rewrite Hclosing, orb_true_r.
  - erewrite bind_throw by exact Hrec. by rewrite (record_closing_unique _ _ _ _ _ _ Hok Hcl Hrec).
Qed.

(** ** Writing a row *)

Lemma long_reason_unfit t reason :
  tx_failureReason t = Some reason → (512 < char_length reason)%nat → transaction_fits t = false.
Proof.
  intros Hr Hlong. unfold transaction_fits. rewrite !andb_false_iff. do 6 left. right.
  rewrite Hr. by apply Nat.leb_gt.
Qed.

Definition saved (t : Transaction) (d : Db) : Db :=
  d <| db_transactions := upsert same_id t (db_transactions d) |>.

Lemma save_transaction_return t w u w' :
  save_transaction t w = (Return u, w') →
  u = t ∧ w' = w <| w_db := saved t (w_db w) |>
  ∧ transaction_error (List.filter (λ u, negb (same_id t u)) (db_transactions (w_db w))) t = None.
Proof.
  unfold save_transaction. intros (d & w1 & [= <- <-] & H)%bind_inv.
  apply bind_inv in H as ([] & w1 & [Herr ->]%raise_if_return & H).
  by apply bind_inv in H as ([] & w2 & [= <-] & [= <- <-]).
Qed.

Lemma insert_transaction_return t w u w' :
  insert_transaction t w = (Return u, w') →
  u = t <| tx_id := randomUUID (w_draws w) |> <| tx_createdAt := w_now w |>
  ∧ w_db w' = (w_db w) <| db_transactions := db_transactions (w_db w) ++ [u] |>
  ∧ existsb (same_id u) (db_transactions (w_db w)) = false
  ∧ transaction_error (db_transactions (w_db w)) u = None.
Proof.
  unfold insert_transaction, draw_uuid, next_draw, now, get_db, raise_if, mbind, Eff_bind. simpl.
  destruct (existsb _ _) eqn:He; [done|].
  destruct (transaction_error _ _) eqn:Herr; [done|]. intros [= <- <-]. done.
Qed.

Lemma saved_ok t d : ledger_ok d → ledger_ok (saved t d).
Proof. intros Hok. by eapply ledger_run_ok; [apply (ledger_frame d)|]. Qed.

Lemma assertTransition_return {St} before after reference (s : St) u s' :
  assertTransition before after reference s = (Return u, s') → accepts before after = true ∧ s' = s.
Proof. destruct u. apply assertTransition_inv. Qed.

(** A transaction that throws leaves the database as it was. *)
Lemma transaction_rolls_back {A} (m : App A) w err w' :
  transaction m w = (Throw err, w') → w_db w' = w_db w.
Proof.
  unfold transaction, atomic. generalize (gets (λ w, length (db_entries (w_db w))) ≫= λ before,
    m ≫= λ a, gets (λ w, drop before (db_entries (w_db w))) ≫= λ added,
      throw_unless (forallb entry_balanced added)
        (QueryFailedError PG_RESTRICT_VIOLATION "trg_journal_entries_balanced") ≫= λ _ : unit, mret a).
  intros body. destruct (body w) as [[a|e] w1]; [done|]. by intros [= _ <-].
Qed.

Lemma transaction_inv {A} (m : App A) w a w' :
  transaction m w = (Return a, w') → m w = (Return a, w').
Proof. apply transaction_return. Qed.

Lemma transaction_on_inv {O A} (m : Obj O A) s a s' :
  transaction_on m s = (Return a, s') → m s = (Return a, s').
Proof.
  destruct s as [o w], s' as [o' w']. unfold transaction_on. cbn [fst snd].
  destruct (transaction (with_entity o m) w) as [r w1] eqn:Ht. intros [= -> <- <-].
  apply transaction_inv in Ht. unfold with_entity, entity_after in *.
  destruct (m (o, w)) as [r [o1 w2]]. by injection Ht as -> ->.
Qed.

Lemma transaction_on_rolls_back {O A} (m : Obj O A) o w err o' w' :
  transaction_on m (o, w) = (Throw err, (o', w')) → w_db w' = w_db w.
Proof.
  unfold transaction_on. cbn [fst snd].
  destruct (transaction (with_entity o m) w) as [r w1] eqn:Ht. intros [= -> _ <-].
  by eapply transaction_rolls_back.
Qed.

(** A row inserted with its opening fact, in one SQL transaction. *)
Lemma opening_return type (detail : Transaction → option string) t w u w' :
  ledger_ok (w_db w) →
  transaction
    (persisted ← insert_transaction t;
     assertInitialState (stateOf persisted) (tx_reference persisted) ;;
     record true (event_input type persisted (detail persisted)) ;;
     mret persisted) w = (Return u, w') →
  u = t <| tx_id := tx_id u |> <| tx_createdAt := tx_createdAt u |>
  ∧ existsb (same_id u) (db_transactions (w_db w)) = false
  ∧ transaction_error (db_transactions (w_db w)) u = None
  ∧ ∃ fact, recorded ((w_db w) <| db_transactions := db_transactions (w_db w) ++ [u] |>) [fact] (w_db w')
      ∧ event_type fact = type ∧ event_reference fact = tx_reference u
      ∧ ∃ previous id date correlation fingerprint salt,
          fact = sealed_row (draft (event_input type u (detail u)) previous id date correlation)
                   fingerprint salt date.
Proof.
  intros Hok. intros (v & w1 & (Hv & Hdb & Hid & Herr)%insert_transaction_return & H)%transaction_inv%bind_inv.
  apply bind_inv in H as (b & w2 & Hinit & H).
  assert (w2 = w1) as ->.
  { revert Hinit. unfold assertInitialState. destruct (Nat.eqb _ 0); [|done]. by intros [= _ ->]. }
  apply bind_inv in H as (fact & w2 & Hrec & [= <- <-]).
  apply record_recorded in Hrec as (Hr & _ & Htype & Href & Hform).
  2: { rewrite Hdb. by eapply ledger_run_ok; [apply (ledger_frame (w_db w))|]. }
  rewrite Hdb in Hr. split_and!; [by rewrite Hv|done..|]. by exists fact.
Qed.

(** The rows after a [save]: the saved entity, and those with another identity. *)
Lemma elem_of_saved t u d :
  u ∈ db_transactions (saved t d) ↔
  u = t ∨ u ∈ db_transactions d ∧ same_id t u = false.
Proof.
  unfold saved, upsert. simpl. destruct (existsb (same_id t) (db_transactions d)) eqn:He.
  - rewrite elem_of_update_where. split.
    + intros (r & Hr & ->). destruct (same_id t r) eqn:Hs; auto.
    + intros [-> | [Hu Hs]]; [|exists u; by rewrite Hs].
      apply existsb_exists in He as (r & Hr & Hs). exists r. by rewrite list_elem_of_In, Hs.
  - rewrite elem_of_app, list_elem_of_singleton. apply existsb_false in He.
    rewrite Forall_forall in He. naive_solver.
Qed.
End outcomes.

(** * Updating the row of one identity *)

Section one_row.
Implicit Types (rows : list Transaction) (t r : Transaction) (id : string) (d : Db).

(** [id] is the primary key. *)
Definition ids_unique (d : Db) : Prop := NoDup (tx_id <$> db_transactions d).

Lemma by_id_true id t : by_id id t = true ↔ tx_id t = id.
Proof. apply str_eqb_spec. Qed.

Lemma by_id_true_refl t : by_id (tx_id t) t = true.
Proof. by apply by_id_true. Qed.

Lemma find_by_id_in id rows r :
  List.find (by_id id) rows = Some r → r ∈ rows ∧ tx_id r = id.
Proof. intros [Hin Hid]%find_some. by rewrite list_elem_of_In, <- by_id_true. Qed.

Lemma find_by_id rows r :
  NoDup (tx_id <$> rows) → r ∈ rows → List.find (by_id (tx_id r)) rows = Some r.
Proof.
  induction rows as [|u rows IH]; [by intros _ ?%not_elem_of_nil|].
  rewrite fmap_cons, NoDup_cons. intros [Hnew Hdup] Hr. simpl. destruct (by_id (tx_id r) u) eqn:Hu.
  - apply by_id_true in Hu. apply elem_of_cons in Hr as [->|Hr]; [done|].
    exfalso. apply Hnew. rewrite Hu. by apply list_elem_of_fmap_2.
  - apply elem_of_cons in Hr as [->|Hr]; [|by apply IH].
    unfold by_id in Hu. by rewrite str_eqb_refl in Hu.
Qed.

Section keyed.
Context (p : Transaction → bool) (f : Transaction → Transaction) (id : string).
Hypothesis Hp : ∀ t, p t = true → tx_id t = id.
Hypothesis Hf : ∀ t, tx_id (f t) = tx_id t.

Lemma affected_other rows : Forall (λ t, tx_id t ≠ id) rows → affected p rows = 0%nat.
Proof.
  unfold affected. induction 1 as [|t rows Ht _ IH]; simpl; [done|].
  destruct (p t) eqn:E; [by apply Hp in E|done].
Qed.

Lemma update_row_absent rows :
  List.find (by_id id) rows = None → affected p rows = 0%nat ∧ update_where p f rows = rows.
Proof.
  intros Hnone. assert (Ha : affected p rows = 0%nat).
  { apply affected_other, Forall_forall. intros t Ht Hid. rewrite list_elem_of_In in Ht.
    apply find_none with (x := t) in Hnone; [|done]. by rewrite <- Hid, by_id_true_refl in Hnone. }
  split; [done|]. by apply update_where_none.
Qed.

Lemma update_row rows r :
  NoDup (tx_id <$> rows) → List.find (by_id id) rows = Some r →
  affected p rows = (if p r then 1 else 0)%nat
  ∧ List.find (by_id id) (update_where p f rows) = Some (if p r then f r else r).
Proof.
  intros Hdup Hfind. split.
  - revert Hdup Hfind. induction rows as [|u rows IH]; [done|].
    rewrite fmap_cons, NoDup_cons. intros [Hnew Hdup]. simpl. unfold affected. simpl.
    destruct (by_id id u) eqn:Hu.
    + intros [= ->]. apply by_id_true in Hu. assert (Hrest : affected p rows = 0%nat).
      { apply affected_other, Forall_forall. intros t Ht Hid. apply Hnew. rewrite Hu, <- Hid.
        by apply list_elem_of_fmap_2. }
      unfold affected in Hrest. destruct (p r); simpl; by rewrite Hrest.
    + intros Hfind. rewrite <- IH by done. unfold affected.
      destruct (p u) eqn:E; [|done]. apply Hp, by_id_true in E. congruence.
  - rewrite find_update_where.
    + rewrite Hfind. simpl. by destruct (p r).
    + intros t _. unfold by_id. destruct (p t); [by rewrite Hf|done].
Qed.
End keyed.

Lemma ids_unique_update p (f : Transaction → Transaction) rows :
  (∀ t, tx_id (f t) = tx_id t) → tx_id <$> update_where p f rows = tx_id <$> rows.
Proof.
  intros Hf. unfold update_where. rewrite <- list_fmap_compose. apply list_fmap_ext.
  intros _ t _. simpl. by destruct (p t).
Qed.

Definition updated_where (p : Transaction → bool) (f : Transaction → Transaction) (d : Db) : Db :=
  d <| db_transactions := update_where p f (db_transactions d) |>.

Lemma update_transactions_return p f w n w' :
  update_transactions p f w = (Return n, w') →
  n = affected p (db_transactions (w_db w)) ∧ w' = w <| w_db := updated_where p f (w_db w) |>
  ∧ update_error p f (db_transactions (w_db w)) = None.
Proof.
  unfold update_transactions. intros (d & w1 & [= <- <-] & H)%bind_inv.
  apply bind_inv in H as ([] & w1 & [Herr ->]%raise_if_return & H).
  by apply bind_inv in H as ([] & w2 & [= <-] & [= <- <-]).
Qed.

Lemma update_transactions_none p f w :
  affected p (db_transactions (w_db w)) = 0%nat →
  update_transactions p f w = (Return 0%nat, w).
Proof.
  intros Hn. unfold update_transactions, update_error. erewrite bind_return by reflexivity.
  rewrite (proj1 (length_zero_iff_nil (List.filter p (db_transactions (w_db w))))) by done.
  unfold mbind, Eff_bind. simpl. rewrite Hn, update_where_none by done. by destruct w as [[]].
Qed.

Lemma updated_ok {HH : Hashing} p f d : ledger_ok d → ledger_ok (updated_where p f d).
Proof. done. Qed.

Lemma find_transaction_or_fail_return p w t w' :
  find_transaction_or_fail p w = (Return t, w') →
  List.find p (db_transactions (w_db w)) = Some t ∧ w' = w.
Proof.
  unfold find_transaction_or_fail, find_transaction.
  intros (o & w1 & (d & w2 & [= <- <-] & [= <- <-])%bind_inv & H)%bind_inv.
  destruct (List.find _ _); [|done]. by injection H as <- <-.
Qed.
(** An [UPDATE] of one row by its identity, then the row read back. *)
Lemma update_and_read {A} p f id (body : nat → Transaction → App A) w a w' :
  (∀ t, p t = true → tx_id t = id) → (∀ t, tx_id (f t) = tx_id t) → ids_unique (w_db w) →
  (affected ← update_transactions p f;
   updated ← find_transaction_or_fail (by_id id);
   body affected updated) w = (Return a, w') →
  ∃ r, List.find (by_id id) (db_transactions (w_db w)) = Some r
  ∧ body (if p r then 1 else 0)%nat (if p r then f r else r)
      (w <| w_db := updated_where p f (w_db w) |>) = (Return a, w').
Proof.
  intros Hp Hf Hdup (n & w1 & (-> & -> & _)%update_transactions_return & H)%bind_inv.
  apply bind_inv in H as (u & w1 & [Hfind ->]%find_transaction_or_fail_return & H).
  simpl in Hfind. destruct (List.find (by_id id) (db_transactions (w_db w))) as [r|] eqn:Hr.
  - destruct (update_row p f id Hp Hf _ r Hdup Hr) as [Ha Hu]. rewrite Hu in Hfind.
    injection Hfind as <-. rewrite Ha in H. by exists r.
  - destruct (update_row_absent p f id Hp _ Hr) as [_ Hu]. rewrite Hu in Hfind. congruence.
Qed.

(** ... when the predicate does not hold of that row: nothing is written. *)
Lemma update_and_read_none {A} p f id r (body : nat → Transaction → App A) w :
  (∀ t, p t = true → tx_id t = id) → (∀ t, tx_id (f t) = tx_id t) → ids_unique (w_db w) →
  List.find (by_id id) (db_transactions (w_db w)) = Some r → p r = false →
  (affected ← update_transactions p f;
   updated ← find_transaction_or_fail (by_id id);
   body affected updated) w = body 0%nat r w.
Proof.
  intros Hp Hf Hdup Hr Hno. destruct (update_row p f id Hp Hf _ r Hdup Hr) as [Ha _].
  rewrite Hno in Ha. erewrite bind_return by by apply update_transactions_none.
  erewrite bind_return; [done|]. unfold find_transaction_or_fail, find_transaction.
  unfold mbind, Eff_bind. simpl. by rewrite Hr.
Qed.

(** A transaction that adds no entry commits as it is. *)
Lemma transaction_commits {A} (m : App A) w a w' :
  m w = (Return a, w') → db_entries (w_db w') = db_entries (w_db w) →
  transaction m w = (Return a, w').
Proof.
  intros Hm He. unfold transaction, atomic, mbind, Eff_bind. cbn [gets]. rewrite Hm. simpl.
  rewrite He. by rewrite drop_all.
Qed.
End one_row.
