(* ===== verification/Reconciliation.v ===== *)
(** The comparison of the two legs: [src/mobile-money/reconciliation.service.ts].

    [reconcile] assigns the verdict to the entity it is given, then persists it with
    the fact that justifies it and, when the legs agree, closes the case, all in one
    SQL transaction.  [runPending] replays it on the rows left to reconcile. *)
From S2P Require Import Prelude Domain StateMachine Money External Fingerprint EventXml.
From S2P Require Import Database Ledger EventLedger Ports Services.
Open Scope Z_scope.

Section Reconciliation.
Context {HH : Hashing} {HX : XsdEngine} {HE : Entropy}.

Definition CLOSED_MATCHED : option string := Some "Dossier clos apres rapprochement conforme".

(** Both legs done. *)
Definition both_legs_done (t : Transaction) : bool :=
  is_eq (tx_providerStatus t) (Some ProviderStatus.CONFIRMED)
  && is_eq (tx_bankStatus t) (Some BankProcessingStatus.COMPLETED).

(** The fields assigned when a leg is missing. *)
Definition assign_unfinished (t : Transaction) : Transaction :=
  let failed := is_eq (tx_bankStatus t) (Some BankProcessingStatus.FAILED) in
  t <| tx_reconciliationStatus :=
         Some (if failed then ReconciliationStatus.MANUAL_REVIEW else ReconciliationStatus.PENDING) |>
    <| tx_reconciliationReason :=
         Some (if failed
               then "La confirmation Mobile Money existe mais le traitement bancaire a echoue"
               else "Les deux jambes du paiement ne sont pas encore terminees") |>.

Definition amount_matches (t : Transaction) : bool :=
  amountsMatch (cents <$> tx_aggregatorAmount t) (Some (cents (tx_amount t))).
Definition currency_matches (t : Transaction) : bool :=
  currenciesMatch (tx_aggregatorCurrency t) (Some (tx_currency t)).

(** The fields assigned when both legs are done. *)
Definition assign_verdict (date : Z) (t : Transaction) : Transaction :=
  let amountMatches := amount_matches t in
  let currencyMatches := currency_matches t in
  t <| tx_reconciledAt := Some date |>
    <| tx_reconciliationStatus :=
         Some (if amountMatches && currencyMatches then ReconciliationStatus.MATCHED
               else ReconciliationStatus.MISMATCH) |>
    <| tx_reconciliationReason :=
         if amountMatches && currencyMatches then None
         else Some (String.concat "; "
           ((if amountMatches then [] else ["montant agregateur different du montant bancaire"])
            ++ (if currencyMatches then []
                else ["devise agregateur differente de la devise bancaire"]))) |>.

Definition is_matched (t : Transaction) : bool :=
  is_eq (tx_reconciliationStatus t) (Some ReconciliationStatus.MATCHED).

(** The SQL transaction: the verdict, its fact, and the closing of a matched case. *)
Definition persist_verdict (before : TransactionState) (t : Transaction) : App Transaction :=
  transaction
    (persisted ← save_transaction t;
     assertTransition before (stateOf persisted) (tx_reference persisted) ;;
     record true (mkRecordEventInput
       (if is_matched persisted then TransactionEventType.RECONCILIATION_MATCHED
        else TransactionEventType.RECONCILIATION_MISMATCH)
       persisted (tx_aggregatorAmount persisted) (tx_aggregatorCurrency persisted)
       (tx_reconciliationReason persisted) None None None None) ;;
     (if is_matched persisted then closeCase true persisted CLOSED_MATCHED ;; mret tt else mret tt) ;;
     mret persisted).

Definition reconcile : Ent Transaction :=
  t ← entity;
  if negb (is_eq (tx_paymentChannel t) PaymentChannel.MOBILE_MONEY) then mret t
  else
    let before := stateOf t in
    if is_matched t then lift (closeCase false t CLOSED_MATCHED) ;; mret t
    else if negb (both_legs_done t) then
      assigns assign_unfinished ;;
      t ← entity;
      lift (save_transaction t)
    else
      date ← lift now;
      assigns (assign_verdict date) ;;
      t ← entity;
      lift (persist_verdict before t).

(** The rows [runPending] examines, oldest first. *)
Definition to_reconcile (t : Transaction) : bool :=
  is_eq (tx_paymentChannel t) PaymentChannel.MOBILE_MONEY
  && is_eq (tx_reconciliationStatus t) (Some ReconciliationStatus.PENDING)
  && both_legs_done t.

Record PendingOutcome := mkPendingOutcome {
  po_examined : nat;
  po_matched : nat;
  po_mismatched : nat
}.

(** The [for] loop, with the counts so far. *)
Fixpoint reconcile_all (pending : list Transaction) (matched mismatched : nat) : App (nat * nat) :=
  match pending with
  | [] => mret (matched, mismatched)
  | t :: pending =>
      result ← with_entity t reconcile;
      reconcile_all pending
        (if is_matched result then S matched else matched)
        (if is_eq (tx_reconciliationStatus result) (Some ReconciliationStatus.MISMATCH)
         then S mismatched else mismatched)
  end.

Definition runPending : App PendingOutcome :=
  d ← get_db;
  let pending := sort_by tx_createdAt (List.filter to_reconcile (db_transactions d)) in
  counts ← reconcile_all pending 0 0;
  mret (mkPendingOutcome (length pending) counts.1 counts.2).

(** * Lemmas *)

Lemma persist_verdict_refines before t :
  Respects (on_db ledger_refines) (persist_verdict before t).
Proof. unfold persist_verdict. respects. Qed.
#[local] Hint Resolve persist_verdict_refines : effects.

Lemma reconcile_refines : Respects (on_ent ledger_refines) reconcile.
Proof. unfold reconcile. respects. Qed.
#[local] Hint Resolve reconcile_refines : effects.

Lemma reconcile_all_refines pending m n : Respects (on_db ledger_refines) (reconcile_all pending m n).
Proof. revert m n. induction pending as [|t pending IH]; intros m n; simpl; respects. Qed.
#[local] Hint Resolve reconcile_all_refines : effects.

Lemma runPending_refines : Respects (on_db ledger_refines) runPending.
Proof. unfold runPending. respects. Qed.

Lemma amount_matches_spec t :
  amount_matches t = true ↔ tx_aggregatorAmount t = Some (tx_amount t).
Proof.
  unfold amount_matches. destruct (tx_aggregatorAmount t) as [a|]; [|done]. simpl.
  rewrite amountsMatch_cents, Z.eqb_eq. naive_solver.
Qed.

Lemma is_matched_verdict date t :
  is_matched (assign_verdict date t) = amount_matches t && currency_matches t.
Proof.
  unfold is_matched, assign_verdict. simpl. by destruct (amount_matches t && currency_matches t).
Qed.

(** The SQL transaction, when it commits. *)
Lemma persist_verdict_return before t w r w' :
  ledger_ok (w_db w) → persist_verdict before t w = (Return r, w') →
  r = t ∧ accepts before (stateOf t) = true
  ∧ ∃ fact rest, recorded (saved t (w_db w)) (fact :: rest) (w_db w')
      ∧ event_reference fact = tx_reference t
      ∧ event_type fact = (if is_matched t then TransactionEventType.RECONCILIATION_MATCHED
                           else TransactionEventType.RECONCILIATION_MISMATCH)
      ∧ (is_matched t = false → rest = [])
      ∧ (is_matched t = true → Forall (λ e, event_reference e = tx_reference t ∧ is_closing e = true) rest
         ∧ existsb is_closing (rows_of (tx_reference t) (w_db w')) = true).
Proof.
  intros Hok. unfold persist_verdict.
  intros (u & w1 & (-> & -> & _)%save_transaction_return & H)%transaction_inv%bind_inv.
  apply bind_inv in H as (b & w1 & [Ha ->]%assertTransition_return & H).
  apply bind_inv in H as (fact & w1 & Hrec & H).
  apply record_recorded in Hrec as (Hr & _ & Htype & Href & _); [|by apply saved_ok].
  simpl in Hr, Htype, Href. destruct (is_matched t) eqn:Hm.
  - apply bind_inv in H as (c & w2 & (o & w3 & Hc & [= <- <-])%bind_inv & [= <- <-]).
    apply closeCase_recorded in Hc as (Hr' & Hall & Hclosed); [|apply Hr].
    split_and!; [done..|]. exists fact, (option_facts o).
    split_and!; [by apply (recorded_trans _ _ _ [fact] _ Hr Hr')|done..|].
    intros _. split; [done|]. apply Hclosed. rewrite (recorded_rows _ _ _ _ Hr) by by constructor.
    intros [_ Hnil]%app_nil. discriminate Hnil.
  - apply bind_inv in H as (c & w2 & [= <- <-] & [= <- <-]).
    split_and!; [done..|]. exists fact, []. by split_and!.
Qed.

(** [reconcile] where there is a verdict to give. *)
Lemma reconcile_decides t w :
  tx_paymentChannel t = PaymentChannel.MOBILE_MONEY → is_matched t = false →
  both_legs_done t = true →
  let r := assign_verdict (w_now w) t in
  reconcile (t, w) = let '(o, w') := persist_verdict (stateOf t) r w in (o, (r, w')).
Proof.
  intros Hch Hm Hb r. unfold reconcile. erewrite bind_return by reflexivity. cbn [fst].
  rewrite Hch, bool_decide_true by done. cbn [negb]. cbv zeta. rewrite Hm, Hb. cbn [negb].
  done.
Qed.
End Reconciliation.

#[export] Hint Resolve persist_verdict_refines reconcile_refines reconcile_all_refines
  runPending_refines : effects.

(** * Theorems *)

Section theorems.
Context {HH : Hashing} {HX : XsdEngine} {HE : Entropy}.

(** C9. The verdict and its proof cannot diverge.  On a payment whose two legs are
    done, [reconcile] either throws and leaves the database as it was, or saves the
    row with the verdict, MATCHED exactly when the aggregator's amount is the
    ordered one to the cent and the currencies agree, and records the fact of that
    verdict; a mismatch records nothing else, a match also leaves the case closed. *)
Theorem reconcile_is_atomic t w :
  ledger_ok (w_db w) →
  tx_paymentChannel t = PaymentChannel.MOBILE_MONEY → is_matched t = false →
  both_legs_done t = true →
  let '(o, (t', w')) := reconcile (t, w) in
  match o with
  | Return r =>
      r = assign_verdict (w_now w) t ∧ t' = r ∧ accepts (stateOf t) (stateOf r) = true
      ∧ (is_matched r = true ↔
         tx_aggregatorAmount t = Some (tx_amount t) ∧ currency_matches t = true)
      ∧ ∃ fact rest, recorded (saved r (w_db w)) (fact :: rest) (w_db w')
          ∧ event_reference fact = tx_reference t
          ∧ event_type fact = (if is_matched r then TransactionEventType.RECONCILIATION_MATCHED
                               else TransactionEventType.RECONCILIATION_MISMATCH)
          ∧ (is_matched r = false → rest = [])
          ∧ (is_matched r = true → existsb is_closing (rows_of (tx_reference t) (w_db w')) = true)
  | Throw _ => w_db w' = w_db w
  end.
Proof.
  intros Hok Hch Hm Hb. rewrite reconcile_decides by done.
  destruct (persist_verdict _ _ w) as [[r|err] w'] eqn:Hp.
  2: by eapply transaction_rolls_back.
  apply persist_verdict_return in Hp as (-> & Ha & fact & rest & Hr & Href & Htype & Hn & Hc); [|done].
  split_and!; [done..| |].
  - rewrite is_matched_verdict, andb_true_iff, amount_matches_spec. done.
  - exists fact, rest. split_and!; [done..|]. intros Hmatch. by apply Hc.
Qed.

(** The loop leaves no eligible row behind and counts each verdict once. *)
Lemma reconcile_all_drains pending m n w counts w' :
  ledger_ok (w_db w) → Forall (λ t, to_reconcile t = true) pending →
  Forall (λ u, to_reconcile u = true → u ∈ pending) (db_transactions (w_db w)) →
  reconcile_all pending m n w = (Return counts, w') →
  (counts.1 + counts.2 = m + n + length pending)%nat
  ∧ Forall (λ u, to_reconcile u = false) (db_transactions (w_db w')).
Proof.
  revert m n w. induction pending as [|t pending IH]; intros m n w Hok Hel Hrows; simpl.
  { intros [= <- <-]. simpl. split; [lia|]. eapply Forall_impl; [exact Hrows|]. intros u Hu.
    apply not_true_iff_false. intros Ht%Hu. by apply not_elem_of_nil in Ht. }
  apply Forall_cons in Hel as [Ht Hel]. intros (r & w1 & Hr & H)%bind_inv.
  assert (Ht' := Ht). unfold to_reconcile in Ht'. rewrite !andb_true_iff in Ht'.
  destruct Ht' as [[Hch%bool_decide_eq_true Hpend%bool_decide_eq_true] Hboth].
  revert Hr. unfold with_entity. rewrite reconcile_decides;
    [|done|unfold is_matched; by rewrite Hpend|done].
  destruct (persist_verdict _ _ w) as [[u|err] w2] eqn:Hp; [|done]. intros [= -> <-].
  simpl in H. apply persist_verdict_return in Hp as (-> & _ & fact & rest & Hrec & _); [|done].
  assert (Hbad : to_reconcile (assign_verdict (w_now w) t) = false).
  { unfold to_reconcile, assign_verdict. simpl. rewrite !andb_false_iff.
    left. right. by destruct (_ && _). }
  apply IH in H as [Hcount Hdone]; [|apply Hrec|done|].
  2: { apply Forall_forall. intros u. rewrite (recorded_transactions _ _ _ Hrec), elem_of_saved.
    intros [-> | [Hu Hs]] Helig; [congruence|]. rewrite Forall_forall in Hrows.
    specialize (Hrows u Hu Helig). apply elem_of_cons in Hrows as [-> |]; [|done].
    unfold same_id in Hs. simpl in Hs. by rewrite str_eqb_refl in Hs. }
  split; [|done]. rewrite Hcount. unfold is_matched, assign_verdict. simpl.
  destruct (_ && _); simpl; lia.
Qed.

(** [runPending] drains: when it returns, every row it examined has been given
    one verdict, matched or mismatched, and no row is left to reconcile. *)
Theorem runPending_drains w outcome w' :
  ledger_ok (w_db w) → runPending w = (Return outcome, w') →
  po_examined outcome = length (List.filter to_reconcile (db_transactions (w_db w)))
  ∧ (po_matched outcome + po_mismatched outcome = po_examined outcome)%nat
  ∧ Forall (λ u, to_reconcile u = false) (db_transactions (w_db w')).
Proof.
  intros Hok. unfold runPending. erewrite bind_return by reflexivity. cbv zeta.
  intros (counts & w1 & Hall & [= <- <-])%bind_inv. simpl.
  rewrite sort_by_length. apply reconcile_all_drains in Hall as [Hn Hdone]; [|done| |].
  - by rewrite sort_by_length in Hn.
  - apply Forall_forall. intros u. rewrite elem_of_sort_by, list_elem_of_In, filter_In. tauto.
  - apply Forall_forall. intros u Hu Hel.
    rewrite elem_of_sort_by, list_elem_of_In, filter_In, <- list_elem_of_In. done.
Qed.
End theorems.

(** * Witnesses *)

#[local] Existing Instances Toy.hashing Toy.entropy Toy.xsd.

(** A payment both legs of which are done, observed at [amount]. *)
Definition sample_done (amount : Z) : Transaction :=
  sample_payment <| tx_status := TransactionStatus.COMPLETED |>
    <| tx_providerStatus := Some ProviderStatus.CONFIRMED |>
    <| tx_bankStatus := Some BankProcessingStatus.COMPLETED |>
    <| tx_reconciliationStatus := Some ReconciliationStatus.PENDING |>
    <| tx_aggregatorAmount := Some amount |>
    <| tx_aggregatorCurrency := Some "usd" |>.

Definition sample_done_world (amount : Z) : World :=
  mkWorld (empty_db <| db_transactions := [sample_done amount] |>) 0 1769212800000 "corr" [].

Lemma sample_done_ok amount : ledger_ok (w_db (sample_done_world amount)).
Proof. intros reference. split; [exact I|]. simpl. lia. Qed.

Lemma reconcile_is_atomic_witness :
  ∃ r w', reconcile (sample_done (tx_amount sample_payment),
                     sample_done_world (tx_amount sample_payment)) = (Return r, (r, w'))
    ∧ is_matched r = true ∧ existsb is_closing (rows_of "TRF-1" (w_db w')) = true.
Proof.
  assert (Hrun : ∃ r w', reconcile (sample_done (tx_amount sample_payment),
      sample_done_world (tx_amount sample_payment)) = (Return r, (r, w')) ∧ is_matched r = true).
  { eexists _, _. split; vm_compute; reflexivity. }
  destruct Hrun as (r & w' & Hrun & Hm). exists r, w'. split; [exact Hrun|]. split; [exact Hm|].
  assert (H := reconcile_is_atomic (sample_done (tx_amount sample_payment)) _
                 (sample_done_ok (tx_amount sample_payment)) eq_refl eq_refl eq_refl).
  rewrite Hrun in H. destruct H as (_ & _ & _ & _ & fact & rest & _ & _ & _ & _ & Hc).
  exact (Hc Hm).
Defined.

Lemma runPending_drains_witness :
  ∃ outcome w', runPending (sample_done_world 1) = (Return outcome, w')
    ∧ po_mismatched outcome = 1%nat
    ∧ Forall (λ u, to_reconcile u = false) (db_transactions (w_db w')).
Proof.
  assert (Hrun : ∃ outcome w', runPending (sample_done_world 1) = (Return outcome, w')
                               ∧ po_mismatched outcome = 1%nat).
  { eexists _, _. split; vm_compute; reflexivity. }
  destruct Hrun as (outcome & w' & Hrun & Hm). exists outcome, w'. split; [exact Hrun|].
  split; [exact Hm|]. apply (runPending_drains _ _ _ (sample_done_ok 1) Hrun).
Defined.
