(* ===== verification/References.v ===== *)
(** The references the gateway gives out: [src/transactions/reference.generator.ts]
    and [AggregatorSimulatorService.generateReference].

    A reference is a prefix, the day in UTC and characters drawn from the system's
    generator; every reference drawn matches [REFERENCE_PATTERN]. *)
From S2P Require Import Prelude Text Domain Money External EventXml Database.
Open Scope Z_scope.

(** * Generation *)

Definition ALPHABET : string := "0123456789ABCDEFGHJKMNPQRSTVWXYZ".

(** [YYYYMMDD], in UTC. *)
Definition formatDate (date : Z) : string :=
  let '(y, m, d) := civil (date / 86400000) in pad 4 y +:+ pad 2 m +:+ pad 2 d.

(** [ALPHABET[byte & 0x1f]] *)
Definition letter (byte : Z) : string :=
  match String.get (Z.to_nat (Z.land byte 31)) ALPHABET with
  | Some c => String c EmptyString
  | None => "undefined"
  end.

Fixpoint suffix_of (bytes : list Z) : string :=
  match bytes with
  | [] => EmptyString
  | byte :: bytes => letter byte +:+ suffix_of bytes
  end.

Definition SUFFIX_LENGTH : nat := 8.

Section References.
Context {HE : Entropy}.

Definition randomSuffix (length : nat) : App string :=
  bytes ← draw_bytes length; mret (suffix_of bytes).

Definition generate : App string :=
  date ← now;
  suffix ← randomSuffix SUFFIX_LENGTH;
  mret ("TRF-" +:+ formatDate date +:+ "-" +:+ suffix).

(** [AggregatorSimulatorService.generateReference] *)
Definition generateReference : App string :=
  date ← now;
  bytes ← draw_bytes 6;
  mret ("AGG-" +:+ formatDate date +:+ "-" +:+ toUpperCase (toHex bytes)).
End References.

(** * The pattern *)

(** [[0-9A-HJ-NP-Z]] *)
Definition is_letter (c : Ascii.ascii) : bool :=
  is_digit c || in_range "A" "H" c || in_range "J" "N" c || in_range "P" "Z" c.

(** A sequence of classes, one character each, and nothing after. *)
Fixpoint matches (classes : list (Ascii.ascii → bool)) (s : string) : bool :=
  match classes, s with
  | [], EmptyString => true
  | p :: classes, String c s => p c && matches classes s
  | _, _ => false
  end.

(** [/^TRF-\d{8}-[0-9A-HJ-NP-Z]{8}$/] *)
Definition REFERENCE_PATTERN : string → bool :=
  matches ([Ascii.eqb "T"; Ascii.eqb "R"; Ascii.eqb "F"; Ascii.eqb "-"]
           ++ replicate 8 is_digit ++ [Ascii.eqb "-"] ++ replicate 8 is_letter).

(** * Lemmas *)

Lemma pad_digits width n :
  (width = 2%nat ∧ 0 <= n < 100) ∨ (width = 4%nat ∧ 0 <= n < 10000) →
  matches (replicate width is_digit) (pad width n) = true.
Proof.
  intros [[-> Hn]|[-> Hn]]; revert Hn.
  - apply (all_below_spec 100 (λ n, matches (replicate 2 is_digit) (pad 2 n))). by vm_compute.
  - apply (all_below_spec 10000 (λ n, matches (replicate 4 is_digit) (pad 4 n))). by vm_compute.
Qed.

(** ** Calendar *)

(** The year of an era and the day of that year. *)
Lemma year_of_era_bounds doe yoe :
  0 <= doe < 146097 → yoe = (doe - doe / 1460 + doe / 36524 - doe / 146096) / 365 →
  0 <= yoe <= 399 ∧ 0 <= doe - (365 * yoe + yoe / 4 - yoe / 100) <= 365.
Proof. intros Hdoe ->. Z.to_euclidean_division_equations. lia. Qed.

(** The month and the day of the month, for a year that starts in March. *)
Definition month_of (doy : Z) : Z :=
  let mp := (5 * doy + 2) / 153 in if mp <? 10 then mp + 3 else mp - 9.
Definition day_of (doy : Z) : Z := doy - (153 * ((5 * doy + 2) / 153) + 2) / 5 + 1.

Lemma day_of_year_bounds doy :
  0 <= doy <= 365 →
  1 <= month_of doy <= 12 ∧ 1 <= day_of doy <= 31 ∧ (doy < 306 → 3 <= month_of doy).
Proof.
  intros Hdoy. assert (H := all_below_spec 366 (λ doy,
    (1 <=? month_of doy) && (month_of doy <=? 12) && (1 <=? day_of doy) && (day_of doy <=? 31)
    && ((306 <=? doy) || (3 <=? month_of doy))) doy ltac:(by vm_compute) ltac:(lia)).
  cbv beta in H. rewrite !andb_true_iff, orb_true_iff, !Z.leb_le in H. lia.
Qed.

(** Dates of the years 1970 to 9999. *)
Definition in_calendar (date : Z) : Prop := 0 <= date < 253402300800000.

Lemma civil_bounds date :
  in_calendar date →
  let '(y, m, d) := civil (date / 86400000) in
  0 <= y <= 9999 ∧ 1 <= m <= 12 ∧ 1 <= d <= 31.
Proof.
  unfold in_calendar, civil. intros Hdate. set (z := date / 86400000 + 719468).
  assert (Hz : 719468 <= z < 3652365) by (subst z; Z.to_euclidean_division_equations; lia).
  set (era := z / 146097). assert (Hera : 4 <= era <= 24) by
    (subst era; Z.to_euclidean_division_equations; lia).
  assert (Hdoe : 0 <= z - era * 146097 < 146097) by
    (subst era; Z.to_euclidean_division_equations; lia).
  set (doe := z - era * 146097) in *.
  destruct (year_of_era_bounds doe _ Hdoe eq_refl) as [Hyoe Hdoy].
  set (yoe := (doe - doe / 1460 + doe / 36524 - doe / 146096) / 365) in *.
  set (doy := doe - (365 * yoe + yoe / 4 - yoe / 100)) in *.
  destruct (day_of_year_bounds doy Hdoy) as (Hm & Hd & Hmarch).
  fold (month_of doy) (day_of doy). split_and!; [| |lia..].
  - destruct (month_of doy <=? 2); lia.
  - destruct (decide (yoe = 399)) as [Hlast|]; [|destruct (month_of doy <=? 2); lia].
    destruct (decide (era = 24)) as [Hend|]; [|destruct (month_of doy <=? 2); lia].
    assert (doy < 306) by (subst doy; rewrite Hlast; change (399 / 4) with 99;
      change (399 / 100) with 3; lia).
    rewrite (proj2 (Z.leb_gt _ _)); lia.
Qed.

(** ** Sequences of classes *)

Lemma matches_app l1 l2 a b :
  matches l1 a = true → matches l2 b = true → matches (l1 ++ l2) (a +:+ b) = true.
Proof.
  revert a. induction l1 as [|p l1 IH]; intros [|c a]; simpl; try done.
  intros [Hp Ha]%andb_true_iff Hb. rewrite Hp. simpl. by apply IH.
Qed.

Lemma matches_length l s : matches l s = true → String.length s = length l.
Proof.
  revert s. induction l as [|p l IH]; intros [|c s]; simpl; try done.
  intros [_ Hs]%andb_true_iff. by rewrite (IH s Hs).
Qed.

Lemma formatDate_digits date :
  in_calendar date → matches (replicate 8 is_digit) (formatDate date) = true.
Proof.
  intros Hb%civil_bounds. unfold formatDate. destruct (civil _) as [[y m] d].
  change (replicate 8 is_digit) with
    (replicate 4 is_digit ++ replicate 2 is_digit ++ replicate 2 is_digit).
  repeat apply matches_app; apply pad_digits; [right|left..]; lia.
Qed.

Lemma letter_char byte : ∃ c, letter byte = String c EmptyString ∧ is_letter c = true.
Proof.
  unfold letter. assert (Hr : 0 <= Z.land byte 31 < 32).
  { change 31 with (Z.ones 5). rewrite Z.land_ones by lia. by apply Z.mod_pos_bound. }
  revert Hr. generalize (Z.land byte 31). intros i Hi.
  assert (H := all_below_spec 32 (λ i, match String.get (Z.to_nat i) ALPHABET with
    | Some c => is_letter c | None => false end) i eq_refl Hi). cbv beta in H.
  destruct (String.get _ _) as [c|]; [by exists c|done].
Qed.

Lemma suffix_letters bytes : matches (replicate (length bytes) is_letter) (suffix_of bytes) = true.
Proof.
  induction bytes as [|b bytes IH]; simpl; [done|].
  destruct (letter_char b) as (c & -> & Hc).
  change (is_letter c && matches (replicate (length bytes) is_letter) (suffix_of bytes) = true).
  by rewrite Hc, IH.
Qed.

(** Every character of a suffix is one of [ALPHABET]. *)
Lemma suffix_in_alphabet bytes :
  String.length (suffix_of bytes) = length bytes
  ∧ Forall (λ c, c ∈ String.list_ascii_of_string ALPHABET) (String.list_ascii_of_string (suffix_of bytes)).
Proof.
  induction bytes as [|b bytes [IHl IH]]; simpl; [by split; [|constructor]|].
  assert (Hr : 0 <= Z.land b 31 < 32).
  { change 31 with (Z.ones 5). rewrite Z.land_ones by lia. by apply Z.mod_pos_bound. }
  assert (H := all_below_spec 32 (λ i, match String.get (Z.to_nat i) ALPHABET with
    | Some c => bool_decide (c ∈ String.list_ascii_of_string ALPHABET) | None => false end)
    _ ltac:(by vm_compute) Hr). cbv beta in H.
  unfold letter. destruct (String.get _ _) as [c|]; [|discriminate H]. apply bool_decide_eq_true in H.
  split; [simpl; by rewrite <- IHl|by constructor].
Qed.

(** The day of the clock, as [toISOString] writes it and as a reference carries it. *)
Lemma formatDate_day date :
  in_calendar date →
  ∃ yyyy mm dd time, toISOString date = yyyy +:+ "-" +:+ mm +:+ "-" +:+ dd +:+ "T" +:+ time
    ∧ formatDate date = yyyy +:+ mm +:+ dd
    ∧ String.length yyyy = 4%nat ∧ String.length mm = 2%nat ∧ String.length dd = 2%nat.
Proof.
  intros Hb%civil_bounds. unfold formatDate, toISOString. destruct (civil _) as [[y m] d].
  eexists _, _, _, _. split; [reflexivity|]. split; [reflexivity|].
  split_and!; (erewrite matches_length; [|apply pad_digits; first [left; lia|right; lia]]); done.
Qed.

(** Two draws that differ on five bits of some byte spell different suffixes. *)
Lemma letter_inj a b : letter a = letter b → Z.land a 31 = Z.land b 31.
Proof.
  unfold letter.
  assert (Hr : ∀ x, 0 <= Z.land x 31 < 32).
  { intros x. change 31 with (Z.ones 5). rewrite Z.land_ones by lia. by apply Z.mod_pos_bound. }
  generalize (Hr a) (Hr b). generalize (Z.land a 31) (Z.land b 31). intros i j Hi Hj Heq.
  assert (H := all_below_spec 32 (λ i, all_below 32 (λ j,
    negb (bool_decide (String.get (Z.to_nat i) ALPHABET = String.get (Z.to_nat j) ALPHABET)) || (i =? j)))
    i ltac:(by vm_compute) Hi).
  apply (all_below_spec 32) with (2 := Hj) in H. cbv beta in H.
  apply orb_true_iff in H as [H|H]; [|by apply Z.eqb_eq].
  apply negb_true_iff, bool_decide_eq_false in H. exfalso. apply H.
  destruct (letter_char i) as (c & Hc & _), (letter_char j) as (c' & Hc' & _).
  unfold letter in Hc, Hc'. 
  assert (Hget : ∀ k, 0 <= k < 32 → is_Some (String.get (Z.to_nat k) ALPHABET)).
  { intros k Hk. assert (Hs := all_below_spec 32 (λ i, bool_decide (is_Some (String.get (Z.to_nat i) ALPHABET)))
      k ltac:(by vm_compute) Hk). by apply bool_decide_eq_true in Hs. }
  destruct (Hget i Hi) as [x Hx], (Hget j Hj) as [y Hy]. rewrite Hx, Hy in *. congruence.
Qed.

Lemma suffix_inj l1 l2 :
  suffix_of l1 = suffix_of l2 → (λ b, Z.land b 31) <$> l1 = (λ b, Z.land b 31) <$> l2.
Proof.
  revert l2. induction l1 as [|a l1 IH]; intros [|b l2]; simpl; try done.
  - destruct (letter_char b) as (c & -> & _). done.
  - destruct (letter_char a) as (c & -> & _). done.
  - intros Heq. destruct (letter_char a) as (c & Hc & _), (letter_char b) as (c' & Hc' & _).
    rewrite Hc, Hc' in Heq. simpl in Heq. injection Heq as -> Heq.
    rewrite (letter_inj a b) by congruence. f_equal. by apply IH.
Qed.

(** * Theorems *)

Section theorems.
Context {HE : Entropy} {HL : EntropyLaws}.

(** C40. Every reference drawn is well formed: in the years 1970 to 9999 it is [TRF-], the
    year, the month and the day of the clock in UTC, those of [toISOString], a dash and
    eight characters of [ALPHABET]; it matches [REFERENCE_PATTERN]; the database is left
    alone; and two references are equal only if they were drawn on one day with the same
    forty random bits. *)
Theorem generate_well_formed w :
  in_calendar (w_now w) →
  ∃ r w', generate w = (Return r, w') ∧ REFERENCE_PATTERN r = true ∧ w_db w' = w_db w
    ∧ (∃ yyyy mm dd time suffix, r = "TRF-" +:+ (yyyy +:+ mm +:+ dd) +:+ "-" +:+ suffix
         ∧ toISOString (w_now w) = yyyy +:+ "-" +:+ mm +:+ "-" +:+ dd +:+ "T" +:+ time
         ∧ String.length yyyy = 4%nat ∧ String.length mm = 2%nat ∧ String.length dd = 2%nat
         ∧ String.length suffix = 8%nat
         ∧ Forall (λ c, c ∈ String.list_ascii_of_string ALPHABET) (String.list_ascii_of_string suffix))
    ∧ ∀ v r' v', in_calendar (w_now v) → generate v = (Return r', v') → r' = r →
        formatDate (w_now v) = formatDate (w_now w)
        ∧ (λ b, Z.land b 31) <$> randomBytes (w_draws v) SUFFIX_LENGTH
          = (λ b, Z.land b 31) <$> randomBytes (w_draws w) SUFFIX_LENGTH.
Proof.
  intros Hcal. eexists _, _. split; [reflexivity|]. split_and!.
  - unfold REFERENCE_PATTERN. apply (matches_app [_; _; _; _] _ "TRF-"); [done|].
    apply matches_app; [by apply formatDate_digits|]. apply (matches_app [_] _ "-"); [done|].
    replace (replicate 8 is_letter) with
      (replicate (length (randomBytes (w_draws w) SUFFIX_LENGTH)) is_letter)
      by by rewrite randomBytes_length.
    apply suffix_letters.
  - done.
  - destruct (formatDate_day _ Hcal) as (yyyy & mm & dd & time & Hiso & -> & Hy & Hm & Hd).
    exists yyyy, mm, dd, time. eexists. split_and!; [reflexivity|done..| |].
    all: destruct (suffix_in_alphabet (randomBytes (w_draws w) SUFFIX_LENGTH)) as [Hlen Hin];
      rewrite ?Hlen, ?randomBytes_length; done.
  - intros v r' v' Hcal' [= <- _] Heq.
    apply (append_inj "TRF-" _ "TRF-") in Heq as [_ Heq]; [|done].
    apply append_inj in Heq as [Hdate Heq].
    2: { rewrite (matches_length _ _ (formatDate_digits _ Hcal)),
           (matches_length _ _ (formatDate_digits _ Hcal')). done. }
    apply (append_inj "-" _ "-") in Heq as [_ Heq]; [|done].
    split; [done|]. by apply suffix_inj.
Qed.
End theorems.

#[local] Existing Instances Toy.entropy.

Lemma generate_well_formed_witness :
  ∃ r w', generate (mkWorld empty_db 3 1769212800000 "c" []) = (Return r, w')
    ∧ REFERENCE_PATTERN r = true.
Proof.
  destruct (generate_well_formed (mkWorld empty_db 3 1769212800000 "c" []))
    as (r & w' & Hrun & Hp & _); [unfold in_calendar; simpl; lia|].
  exists r, w'. split; [exact Hrun|exact Hp].
Defined.
