(* ===== verification/Numbers.v ===== *)
(** Numbers read from texts: [Number.parseInt(s, 10)], [Number.parseFloat(s)] and the
    conversions of [src/config/configuration.ts] that use them.  A JavaScript number is
    a double: the value of a literal is rounded to the nearest one, ties to even. *)
From S2P Require Import Prelude External EventXml Money Text.
Open Scope Z_scope.

(** * Doubles *)

Inductive Number :=
  | NaN
  | Infinite (negative : bool)
  | Num (q : Q).

Definition pow2 (p : Z) : Q := if 0 <=? p then inject_Z (2 ^ p) else 1 # Z.to_pos (2 ^ (- p)).

(** The nearest integer, ties to even. *)
Definition round_even (q : Q) : Z :=
  let low := Qfloor q in
  match Qcompare (q - inject_Z low) (1 # 2) with
  | Lt => low
  | Gt => low + 1
  | Eq => if Z.even low then low else low + 1
  end.

(** The largest [e] with [2^e <= q], of a positive [q]. *)
Definition exponent (q : Q) : Z :=
  let e := Z.log2 (Qnum q) - Z.log2 (Zpos (Qden q)) in
  if Qle_bool (pow2 e) q then e else e - 1.

(** 53 bits of significand, and the subnormals below [2^-1022]. *)
Definition double_of (q : Q) : Number :=
  if Qnum q =? 0 then Num 0
  else
    let negative := Qnum q <? 0 in
    let a := (Z.abs (Qnum q) # Qden q)%Q in
    let ulp := Z.max (exponent a - 52) (-1074) in
    let rounded := (inject_Z (round_even (a * pow2 (- ulp))) * pow2 ulp)%Q in
    if Qle_bool (pow2 1024) rounded then Infinite negative
    else Num (Qred (if negative then (- rounded)%Q else rounded)).

(** A literal of the source. *)
Definition double (q : Q) : Q := match double_of q with Num d => d | _ => q end.

(** [roundToCent(amount * rate)], in cents: [Math.round(value * 100) / 100].  The amount is
    the double of the request, and each product is rounded to a double. *)
Definition roundToCent (amount : Z) (rate : Q) : Z :=
  let value := double (double (amount # 100) * rate) in
  math_round (double (value * 100)).

(** Ties are decided by the doubles: 1.5 percent of 7.00 is rounded up to eleven cents, of
    11.00, which is 0.165 on paper, down to sixteen. *)
Example fee_at_a_tie :
  roundToCent 700 (double (15 # 1000)) = 11 ∧ roundToCent 1100 (double (15 # 1000)) = 16
  ∧ math_round ((1100 # 1) * (15 # 1000)) = 17.
Proof. by vm_compute. Qed.

(** The most cents whose amount, as a double, does not exceed [q]. *)
Definition cents_up_to (q : Q) : Z :=
  let low := Qfloor (q * 100) in
  if Qle_bool (double (low + 1 # 100)) q then low + 1 else low.

(** [a < b] and [a >= b], with a constant: every comparison with [NaN] is false. *)
Definition number_lt (a : Number) (b : Z) : bool :=
  match a with
  | NaN => false
  | Infinite negative => negative
  | Num q => negb (Qle_bool (inject_Z b) q)
  end.
Definition number_gt (a : Number) (b : Z) : bool :=
  match a with
  | NaN => false
  | Infinite negative => negb negative
  | Num q => negb (Qle_bool q (inject_Z b))
  end.
Definition number_eq (a : Number) (b : Z) : bool :=
  match a with Num q => Qeq_bool q (inject_Z b) | _ => false end.
Definition number_ge (a : Number) (b : Z) : bool := number_gt a b || number_eq a b.

(** [Number.isFinite(a)] *)
Definition is_finite (a : Number) : bool := match a with Num _ => true | _ => false end.

(** * Reading *)

(** The longest prefix of the class, and what follows it. *)
Fixpoint span (p : Ascii.ascii → bool) (s : string) : string * string :=
  match s with
  | String c s' => if p c then let '(a, b) := span p s' in (String c a, b) else (EmptyString, s)
  | EmptyString => (EmptyString, EmptyString)
  end.

Fixpoint digits_from (acc : Z) (s : string) : Z :=
  match s with
  | EmptyString => acc
  | String c s => digits_from (10 * acc + (code_of c - 48)) s
  end.
Definition digits_value (s : string) : Z := digits_from 0 s.

(** An optional sign: whether it is [-], and the rest. *)
Definition read_sign (s : string) : bool * string :=
  match s with
  | String c s' => if Ascii.eqb c "-" then (true, s') else if Ascii.eqb c "+" then (false, s') else (false, s)
  | EmptyString => (false, s)
  end.

Definition signed (negative : bool) (q : Q) : Q := if negative then (- q)%Q else q.

(** [Number.parseInt(s, 10)] *)
Definition parseInt (s : string) : Number :=
  let '(negative, s) := read_sign (trim_start s) in
  let '(digits, _) := span is_digit s in
  if non_empty digits then double_of (signed negative (inject_Z (digits_value digits))) else NaN.

(** The exponent part of a decimal literal, if it is complete. *)
Definition read_exponent (s : string) : Z :=
  match s with
  | String c s =>
      if Ascii.eqb c "e" || Ascii.eqb c "E" then
        let '(negative, s) := read_sign s in
        let '(digits, _) := span is_digit s in
        if negative then - digits_value digits else digits_value digits
      else 0
  | EmptyString => 0
  end.

Definition pow10 (p : Z) : Q := if 0 <=? p then inject_Z (10 ^ p) else 1 # Z.to_pos (10 ^ (- p)).

(** [Number.parseFloat(s)]: the longest prefix that is a decimal literal. *)
Definition parseFloat (s : string) : Number :=
  let '(negative, s) := read_sign (trim_start s) in
  if str_eqb (String.substring 0 8 s) "Infinity" then Infinite negative
  else
    let '(whole, s) := span is_digit s in
    let '(fraction, s) :=
      match s with
      | String c s' => if Ascii.eqb c "." then span is_digit s' else (EmptyString, s)
      | EmptyString => (EmptyString, s)
      end in
    if non_empty whole || non_empty fraction then
      double_of (signed negative
        (inject_Z (digits_value (whole +:+ fraction))
         * pow10 (read_exponent s - Z.of_nat (String.length fraction))))
    else NaN.

(** A complete decimal literal, with its sign and its exponent. *)
Definition decimal_literal (s : string) : bool :=
  let '(_, s) := read_sign s in
  if str_eqb s "Infinity" then true
  else
    let '(whole, s) := span is_digit s in
    let '(fraction, s) :=
      match s with
      | String c s' => if Ascii.eqb c "." then span is_digit s' else (EmptyString, s)
      | EmptyString => (EmptyString, s)
      end in
    (non_empty whole || non_empty fraction)
    && match s with
       | EmptyString => true
       | String c s =>
           (Ascii.eqb c "e" || Ascii.eqb c "E")
           && (let '(_, s) := read_sign s in non_empty s && all_chars is_digit s)
       end.

(** The value of digits in a base of 2, 8 or 16. *)
Definition radix_digit (c : Ascii.ascii) : Z :=
  if is_digit c then code_of c - 48
  else if in_range "a" "f" c then code_of c - 87
  else if in_range "A" "F" c then code_of c - 55
  else 16.
Fixpoint radix_from (base acc : Z) (s : string) : Z :=
  match s with EmptyString => acc | String c s => radix_from base (base * acc + radix_digit c) s end.
Definition radix_literal (base : Z) (s : string) : option Z :=
  if non_empty s && all_chars (λ c, radix_digit c <? base) s then Some (radix_from base 0 s) else None.
Definition radix_of (c : Ascii.ascii) : option Z :=
  if Ascii.eqb c "x" || Ascii.eqb c "X" then Some 16
  else if Ascii.eqb c "o" || Ascii.eqb c "O" then Some 8
  else if Ascii.eqb c "b" || Ascii.eqb c "B" then Some 2
  else None.

(** [Number(s)], as a text [parseFloat] reads: nothing is zero, and what is no literal is
    no number. *)
Definition number_text (s : string) : string :=
  let s := trim s in
  let decimal := if decimal_literal s then s else "NaN" in
  match s with
  | EmptyString => "0"
  | String z (String x rest) =>
      if Ascii.eqb z "0" then
        match radix_of x with
        | Some base => match radix_literal base rest with Some v => pretty v | None => "NaN" end
        | None => decimal
        end
      else decimal
  | _ => decimal
  end.

Example number_texts :
  (λ s, parseFloat (number_text s)) <$> [" 20 "; "0x1F"; ""; "2e1"; "1.5"; "12a"; "+7"; "."; "0b12"; "-Infinity"]
  = [Num 20; Num 31; Num 0; Num 20; Num (3 # 2); NaN; Num 7; NaN; NaN; Infinite true].
Proof. vm_compute. reflexivity. Qed.

(** * Conversions of the configuration *)

Definition toBool (value : option string) (fallback : bool) : bool :=
  match value with
  | None => fallback
  | Some value =>
      if str_eqb value "" then fallback
      else bool_decide (toLowerCase value ∈ ["1"; "true"; "yes"; "on"])
  end.

(** The integers of the configuration: [parseInt] only yields integers. *)
Definition toInt (value : option string) (fallback : Z) : Z :=
  match parseInt (default "" value) with
  | Num q => Qfloor q
  | _ => fallback
  end.

Definition toFloat (value : option string) (fallback : Q) : Q :=
  match parseFloat (default "" value) with
  | Num q => q
  | _ => fallback
  end.

Definition toList (value : option string) (fallback : list string) : list string :=
  if negb (truthy value) then fallback
  else
    let items := List.filter non_empty
      ((λ item, toUpperCase (trim item)) <$> split ","%char (default "" value)) in
    if Nat.ltb 0 (length items) then items else fallback.

Example read_numbers :
  (parseInt " 8000ms", parseInt "-7", parseInt "abc")
    = (Num (inject_Z 8000), Num (inject_Z (-7)), NaN)
  ∧ number_lt (parseFloat "0.015") 1 = true ∧ number_eq (parseFloat "1e3") 1000 = true
  ∧ number_eq (parseFloat "0.99999999999999999") 1 = true
  ∧ number_lt (parseFloat "0.9999999999999999") 1 = true
  ∧ cents_up_to (double (99999999999 # 100)) = 99999999999
  ∧ parseFloat "1e400" = Infinite false ∧ parseFloat ".e1" = NaN.
Proof. vm_compute. repeat split. Qed.

(** * Lemmas *)

Lemma cents_up_to_pos q : (0 <= q)%Q → 0 <= cents_up_to q.
Proof.
  intros Hq. unfold cents_up_to. assert (0 <= Qfloor (q * 100)); [|destruct (Qle_bool _ _); lia].
  change 0 with (Qfloor 0). apply Qfloor_resp_le, Qmult_le_0_compat; [done|by vm_compute].
Qed.

Lemma toInt_least value fallback (least : Z) :
  least <= fallback →
  number_lt (parseInt (default "" value)) least = false →
  least <= toInt value fallback.
Proof.
  intros Hf. unfold toInt. destruct (parseInt _) as [|neg|q]; [done..|]. simpl.
  intros Hq%negb_false_iff%Qle_bool_iff%Qfloor_resp_le. by rewrite Qfloor_Z in Hq.
Qed.

Lemma toFloat_between value fallback (least most : Z) :
  (inject_Z least <= fallback)%Q → (fallback < inject_Z most)%Q →
  number_lt (parseFloat (default "" value)) least = false →
  number_ge (parseFloat (default "" value)) most = false →
  (inject_Z least <= toFloat value fallback)%Q ∧ (toFloat value fallback < inject_Z most)%Q.
Proof.
  intros Hl Hm. unfold toFloat. destruct (parseFloat _) as [|neg|q]; [done..|].
  unfold number_lt, number_ge, number_gt. intros Hq%negb_false_iff%Qle_bool_iff.
  intros [Hgt%negb_false_iff%Qle_bool_iff Heq]%orb_false_iff. split; [done|].
  apply Qle_lteq in Hgt as [?|Heq']; [done|]. exfalso. revert Heq. simpl.
  apply not_false_iff_true, Qeq_bool_iff. done.
Qed.
