(* ===== verification/MobileMoney.v ===== *)
(** Mobile Money payments: [src/mobile-money/mobile-money.service.ts].

    [initiate] creates a payment with its opening fact; the webhooks then confirm it
    (and take the right to instruct the bank), refuse it for a gap between order and
    collection, or record the operator's refusal.  Each of the three moves the row
    with an [UPDATE] whose predicate is [bank_status = 'NOT_STARTED'], checks the
    move with the state machine and records its facts in one SQL transaction.  The
    entity passed to them was read before: the row may have changed since. *)
From S2P Require Import Prelude Domain StateMachine Money External Fingerprint EventXml.
From S2P Require Import Database Ledger EventLedger Ports Services References Numbers.
Open Scope Z_scope.

(** * Configuration and input *)

Record MobileMoneyConfig := mkMobileMoneyConfig {
  mm_settlementIban : string;
  mm_settlementName : string;
  mm_feeRate : Q;
  mm_bankWorkerMaxAttempts : Z;
  mm_webhookSecret : string
}.

Record BusinessConfig := mkBusinessConfig {
  bc_allowedCurrencies : list string;
  bc_maxAmount : Z
}.

Record CreateMobileMoneyTransactionDto := mkCreateMobileMoneyTransactionDto {
  cd_operator : MobileMoneyOperator;
  cd_payerMsisdn : string;
  cd_creditorIban : string;
  cd_creditorName : string;
  cd_amount : Z;
  cd_currency : string;
  cd_externalReference : option string
}.

(** [new Date(text)]: the formats [Date.parse] accepts depend on the engine. *)
Class DateParser := { parse_date : string → Z }.

Definition MAX_REFERENCE_ATTEMPTS : nat := 5.

(** [TransactionsRepository.isUniqueViolation(error, hint)]: PostgreSQL's message
    names the constraint. *)
Definition isUniqueViolationOf (hint : string) (error : GatewayError) : bool :=
  match error with
  | QueryFailedError code constraint =>
      str_eqb code PG_UNIQUE_VIOLATION && includes (toLowerCase hint) (toLowerCase constraint)
  | _ => false
  end.

Definition by_idempotency_key (key : string) (t : Transaction) : bool :=
  is_eq (tx_idempotencyKey t) (Some key).
Definition by_aggregator_reference (reference : string) (t : Transaction) : bool :=
  is_eq (tx_aggregatorReference t) (Some reference).

Definition is_mobile_money (t : Transaction) : bool :=
  is_eq (tx_paymentChannel t) PaymentChannel.MOBILE_MONEY.

Section MobileMoney.
Context {HH : Hashing} {HX : XsdEngine} {HE : Entropy} {HD : DateParser}.
Context (config : MobileMoneyConfig) (business : BusinessConfig).

(** * Initiation *)

Definition assertBusinessRules (dto : CreateMobileMoneyTransactionDto) : App unit :=
  throw_unless (bool_decide (cd_currency dto ∈ bc_allowedCurrencies business))
    (HttpException 400 "CURRENCY_NOT_ALLOWED") ;;
  throw_unless (negb (bc_maxAmount business <? cd_amount dto))
    (HttpException 422 "AMOUNT_LIMIT_EXCEEDED") ;;
  throw_unless (negb (str_eqb (cd_creditorIban dto) (mm_settlementIban config)))
    (HttpException 422 "SAME_ACCOUNT_TRANSFER").

(** [repository.create({...})], with the defaults of the columns it leaves out. *)
Definition new_payment (dto : CreateMobileMoneyTransactionDto) (idempotencyKey : option string)
    (reference correlationId aggregatorReference : string) : Transaction := {|
  tx_id := "";
  tx_reference := reference;
  tx_idempotencyKey := idempotencyKey;
  tx_status := TransactionStatus.PENDING;
  tx_paymentChannel := PaymentChannel.MOBILE_MONEY;
  tx_debtorIban := mm_settlementIban config;
  tx_debtorName := Some (mm_settlementName config);
  tx_creditorIban := cd_creditorIban dto;
  tx_creditorName := cd_creditorName dto;
  tx_amount := cd_amount dto;
  tx_currency := cd_currency dto;
  tx_endToEndLabel := cd_externalReference dto;
  tx_amountInWords := None;
  tx_soapOperation := None;
  tx_soapDurationMs := None;
  tx_soapAttempts := None;
  tx_faultCode := None;
  tx_faultString := None;
  tx_failureReason := None;
  tx_correlationId := correlationId;
  tx_processedAt := None;
  tx_mobileMoneyOperator := Some (cd_operator dto);
  tx_payerMsisdn := Some (cd_payerMsisdn dto);
  tx_aggregatorReference := Some aggregatorReference;
  tx_providerStatus := Some ProviderStatus.PENDING;
  tx_bankStatus := Some BankProcessingStatus.NOT_STARTED;
  tx_reconciliationStatus := Some ReconciliationStatus.PENDING;
  tx_aggregatorAmount := None;
  tx_aggregatorCurrency := None;
  tx_feeAmount := 0;
  tx_mobileMoneyConfirmedAt := None;
  tx_reconciledAt := None;
  tx_reconciliationReason := None;
  tx_refundStatus := RefundStatus.NOT_REQUIRED;
  tx_caseStatus := CaseStatus.NONE;
  tx_caseReason := None;
  tx_createdAt := 0;
  tx_anchorStatus := AnchorStatus.NOT_SEALED
|}.

(** [getCorrelationId() || randomUUID()] *)
Definition correlation_or_uuid : App string :=
  correlation ← getCorrelationId;
  if truthy (Some correlation) then mret correlation else draw_uuid.

(** The row and its opening fact, in one SQL transaction. *)
Definition open_payment (t : Transaction) : App Transaction :=
  transaction
    (persisted ← insert_transaction t;
     assertInitialState (stateOf persisted) (tx_reference persisted) ;;
     record true (event_input TransactionEventType.PAYMENT_INITIATED persisted
       (Some ("Paiement " +:+ match tx_mobileMoneyOperator persisted with
                             | Some o => MobileMoneyOperator.show o
                             | None => "null"
                             end +:+ " initie"))) ;;
     mret persisted).

Definition idempotency_key_reused {A} : App A := throw (HttpException 409 "IDEMPOTENCY_KEY_REUSED").

(** What the [catch] answers when the winner of a race on the key is found. *)
Definition idempotent_winner (winner : option Transaction) (otherwise : App Transaction) :
    App Transaction :=
  match winner with
  | Some winner => if is_mobile_money winner then mret winner else idempotency_key_reused
  | None => otherwise
  end.

(** The [for] loop; other sessions may commit before each attempt. *)
Fixpoint initiate_loop (interfere : nat → Db → Db) (dto : CreateMobileMoneyTransactionDto)
    (idempotencyKey : option string) (fuel : nat) : App Transaction :=
  match fuel with
  | O => throw (HttpException 500 "REFERENCE_GENERATION_FAILED")
  | S fuel =>
      reference ← generate;
      correlation ← correlation_or_uuid;
      aggregatorReference ← generateReference;
      let t := new_payment dto idempotencyKey reference correlation aggregatorReference in
      modify_db (interfere (MAX_REFERENCE_ATTEMPTS - fuel)%nat) ;;
      try_catch (open_payment t) (λ error,
        let otherwise :=
          if isUniqueViolation error && Nat.ltb 0 fuel
          then initiate_loop interfere dto idempotencyKey fuel
          else throw error in
        match idempotencyKey with
        | Some key =>
            if truthy idempotencyKey && isUniqueViolationOf "idempotency" error then
              winner ← find_transaction (by_idempotency_key key);
              idempotent_winner winner otherwise
            else otherwise
        | None => otherwise
        end)
  end.

Definition initiate_under (interfere : nat → Db → Db) (dto : CreateMobileMoneyTransactionDto)
    (idempotencyKey : option string) : App Transaction :=
  assertBusinessRules dto ;;
  existing ← (match idempotencyKey with
              | Some key => if truthy idempotencyKey then find_transaction (by_idempotency_key key)
                            else mret None
              | None => mret None
              end);
  match existing with
  | Some existing => if is_mobile_money existing then mret existing else idempotency_key_reused
  | None => initiate_loop interfere dto idempotencyKey MAX_REFERENCE_ATTEMPTS
  end.

Definition initiate := initiate_under (λ _ d, d).

(** * Lookups *)

Definition or_not_found (error : string) (t : option Transaction) : App Transaction :=
  match t with
  | Some t => if is_mobile_money t then mret t else throw (HttpException 404 error)
  | None => throw (HttpException 404 error)
  end.

Definition findByReference (reference : string) : App Transaction :=
  t ← find_transaction (by_reference reference);
  or_not_found "MOBILE_MONEY_TRANSACTION_NOT_FOUND" t.

Definition findByAggregatorReference (aggregatorReference : string) : App Transaction :=
  t ← find_transaction (by_aggregator_reference aggregatorReference);
  or_not_found "AGGREGATOR_TRANSACTION_NOT_FOUND" t.

(** * Notifications *)

(** [where('id = :id').andWhere('bank_status = NOT_STARTED')] *)
Definition not_started (id : string) (t : Transaction) : bool :=
  str_eqb (tx_id t) id && is_eq (tx_bankStatus t) (Some BankProcessingStatus.NOT_STARTED).

(** ... [.andWhere('provider_status IN (INITIATED, PENDING)')] *)
Definition claimable (id : string) (t : Transaction) : bool :=
  not_started id t
  && bool_decide (tx_providerStatus t ∈ [Some ProviderStatus.INITIATED; Some ProviderStatus.PENDING]).

Definition set_confirmed (webhook : MobileMoneyWebhookDto) (t : Transaction) : Transaction :=
  t <| tx_providerStatus := Some ProviderStatus.CONFIRMED |>
    <| tx_aggregatorAmount := Some (dto_amount webhook) |>
    <| tx_aggregatorCurrency := Some (dto_currency webhook) |>
    <| tx_mobileMoneyConfirmedAt := Some (parse_date (dto_occurredAt webhook)) |>
    <| tx_feeAmount := roundToCent (dto_amount webhook) (mm_feeRate config) |>
    <| tx_bankStatus := Some BankProcessingStatus.PROCESSING |>
    <| tx_status := TransactionStatus.PROCESSING |>.

Definition observed_input (type : TransactionEventType) (t : Transaction)
    (webhook : MobileMoneyWebhookDto) (detail : string) : RecordEventInput :=
  mkRecordEventInput type t (Some (dto_amount webhook)) (Some (dto_currency webhook))
    (Some detail) None None None None.

Definition mismatch_reason (t : Transaction) (webhook : MobileMoneyWebhookDto) : string :=
  "Commande " +:+ toFixed2 (tx_amount t) +:+ " " +:+ tx_currency t
  +:+ ", confirmation " +:+ toFixed2 (dto_amount webhook) +:+ " " +:+ dto_currency webhook.

Definition set_mismatch (webhook : MobileMoneyWebhookDto) (currencyDiverges : bool)
    (reason : string) (date : Z) (t : Transaction) : Transaction :=
  t <| tx_providerStatus := Some ProviderStatus.CONFIRMED |>
    <| tx_aggregatorAmount := Some (dto_amount webhook) |>
    <| tx_aggregatorCurrency := Some (dto_currency webhook) |>
    <| tx_mobileMoneyConfirmedAt := Some (parse_date (dto_occurredAt webhook)) |>
    <| tx_bankStatus := Some BankProcessingStatus.BLOCKED |>
    <| tx_status := TransactionStatus.FAILED |>
    <| tx_processedAt := Some date |>
    <| tx_failureReason := Some "Confirmation Mobile Money incoherente avec la commande" |>
    <| tx_reconciliationStatus :=
         Some (if currencyDiverges then ReconciliationStatus.CURRENCY_MISMATCH
               else ReconciliationStatus.AMOUNT_MISMATCH) |>
    <| tx_reconciliationReason := Some reason |>
    <| tx_refundStatus := RefundStatus.REQUIRED |>
    <| tx_caseStatus := CaseStatus.MANUAL_REVIEW |>
    <| tx_caseReason := Some ("Ecart entre commande et confirmation fournisseur. " +:+ reason) |>.

Definition markAmountMismatch (t : Transaction) (webhook : MobileMoneyWebhookDto) :
    App Transaction :=
  let currencyDiverges := negb (currenciesMatch (Some (dto_currency webhook)) (Some (tx_currency t))) in
  let reason := mismatch_reason t webhook in
  let before := stateOf t in
  transaction
    (date ← now;
     affected ← update_transactions (not_started (tx_id t))
                  (set_mismatch webhook currencyDiverges reason date);
     updated ← find_transaction_or_fail (by_id (tx_id t));
     if negb (Nat.eqb affected 1) then mret updated
     else
       assertTransition before (stateOf updated) (tx_reference updated) ;;
       record true (observed_input TransactionEventType.AMOUNT_MISMATCH_DETECTED updated webhook reason) ;;
       record true (observed_input TransactionEventType.BANK_PROCESSING_BLOCKED updated webhook
                      "Instruction bancaire non emise") ;;
       record true (observed_input TransactionEventType.CASE_OPENED updated webhook
                      "Remboursement du payeur a instruire") ;;
       mret updated).

(** The guard: what the aggregator collected is what was ordered. *)
Definition conforms (t : Transaction) (webhook : MobileMoneyWebhookDto) : bool :=
  amountsMatch (Some (cents (dto_amount webhook))) (Some (cents (tx_amount t)))
  && currenciesMatch (Some (dto_currency webhook)) (Some (tx_currency t)).

(** [onClaimed] is called in the transaction of the claim. *)
Definition confirmAndClaimBankProcessing (t : Transaction) (webhook : MobileMoneyWebhookDto)
    (onClaimed : Transaction → App unit) : App (Transaction * bool) :=
  if negb (conforms t webhook) then
    updated ← markAmountMismatch t webhook; mret (updated, false)
  else
    let before := stateOf t in
    transaction
      (affected ← update_transactions (claimable (tx_id t)) (set_confirmed webhook);
       updated ← find_transaction_or_fail (by_id (tx_id t));
       (if Nat.eqb affected 1 then
          assertTransition before (stateOf updated) (tx_reference updated) ;;
          record true (observed_input TransactionEventType.PROVIDER_CONFIRMED updated webhook
                         "Encaissement fournisseur conforme a la commande") ;;
          onClaimed updated
        else mret tt) ;;
       mret (updated, Nat.eqb affected 1)).

Definition set_provider_failed (webhook : MobileMoneyWebhookDto) (date : Z) (t : Transaction) :
    Transaction :=
  t <| tx_providerStatus := Some ProviderStatus.FAILED |>
    <| tx_aggregatorAmount := Some (dto_amount webhook) |>
    <| tx_aggregatorCurrency := Some (dto_currency webhook) |>
    <| tx_status := TransactionStatus.FAILED |>
    <| tx_processedAt := Some date |>
    <| tx_failureReason := Some (or_default (dto_failureReason webhook)
                                   "Paiement refuse par l operateur Mobile Money") |>
    <| tx_reconciliationStatus := Some ReconciliationStatus.NOT_APPLICABLE |>
    <| tx_reconciliationReason := Some "Aucun encaissement fournisseur : rien a rapprocher" |>
    <| tx_refundStatus := RefundStatus.NOT_REQUIRED |>
    <| tx_caseStatus := CaseStatus.NONE |>.

Definition markProviderFailed (t : Transaction) (webhook : MobileMoneyWebhookDto) :
    App Transaction :=
  let before := stateOf t in
  transaction
    (date ← now;
     affected ← update_transactions (not_started (tx_id t)) (set_provider_failed webhook date);
     updated ← find_transaction_or_fail (by_id (tx_id t));
     if negb (Nat.eqb affected 1) then mret updated
     else
       assertTransition before (stateOf updated) (tx_reference updated) ;;
       record true (observed_input TransactionEventType.PROVIDER_FAILED updated webhook
         (or_default (dto_failureReason webhook) "Paiement refuse par l operateur")) ;;
       closeCase true updated (Some "Dossier clos apres refus de l operateur") ;;
       mret updated).

(** * Lemmas *)

Lemma open_payment_refines t : Respects (on_db ledger_refines) (open_payment t).
Proof. unfold open_payment. respects. Qed.

Lemma generate_reads : Respects (on_db ledger_refines) generate.
Proof. unfold generate, randomSuffix. respects. Qed.

Lemma generateReference_reads : Respects (on_db ledger_refines) generateReference.
Proof. unfold generateReference. respects. Qed.
#[local] Hint Resolve open_payment_refines generate_reads generateReference_reads : effects.

Lemma initiate_loop_refines interfere dto key fuel :
  (∀ k d, ledger_refines d (interfere k d)) →
  Respects (on_db ledger_refines) (initiate_loop interfere dto key fuel).
Proof.
  intros Hint. pose proof (λ k, modify_db_refines (interfere k) (Hint k)).
  induction fuel as [|fuel IH]; simpl; [respects|].
  unfold correlation_or_uuid, idempotent_winner, idempotency_key_reused. respects.
Qed.

Lemma initiate_under_refines interfere dto key :
  (∀ k d, ledger_refines d (interfere k d)) →
  Respects (on_db ledger_refines) (initiate_under interfere dto key).
Proof.
  intros Hint. pose proof (λ fuel, initiate_loop_refines interfere dto key fuel Hint).
  unfold initiate_under, assertBusinessRules, idempotency_key_reused. respects.
Qed.

Lemma initiate_refines dto key : Respects (on_db ledger_refines) (initiate dto key).
Proof. apply initiate_under_refines. by intros k d ?; apply rtc_refl. Qed.

Lemma findByAggregatorReference_refines r :
  Respects (on_db ledger_refines) (findByAggregatorReference r).
Proof. unfold findByAggregatorReference, or_not_found. respects. Qed.

Lemma markAmountMismatch_refines t webhook :
  Respects (on_db ledger_refines) (markAmountMismatch t webhook).
Proof. unfold markAmountMismatch. respects. Qed.
#[local] Hint Resolve markAmountMismatch_refines : effects.

Lemma confirm_refines t webhook onClaimed :
  (∀ u, Respects (on_db ledger_refines) (onClaimed u)) →
  Respects (on_db ledger_refines) (confirmAndClaimBankProcessing t webhook onClaimed).
Proof. intros H. unfold confirmAndClaimBankProcessing. respects. Qed.

Lemma markProviderFailed_refines t webhook :
  Respects (on_db ledger_refines) (markProviderFailed t webhook).
Proof. unfold markProviderFailed. respects. Qed.
End MobileMoney.

#[export] Hint Resolve initiate_refines findByAggregatorReference_refines
  markAmountMismatch_refines confirm_refines markProviderFailed_refines : effects.

(** * What the notifications do *)

Section notifications.
Context {HH : Hashing} {HX : XsdEngine} {HE : Entropy} {HD : DateParser}.
Context (config : MobileMoneyConfig).

Lemma not_started_id id t : not_started id t = true → tx_id t = id.
Proof. unfold not_started. by intros [Hid%str_eqb_spec _]%andb_true_iff. Qed.

Lemma claimable_id id t : claimable id t = true → tx_id t = id.
Proof. unfold claimable. by intros [H%not_started_id _]%andb_true_iff. Qed.

Lemma started_not_claimable id r :
  tx_bankStatus r ≠ Some BankProcessingStatus.NOT_STARTED →
  not_started id r = false ∧ claimable id r = false.
Proof.
  intros Hb. unfold claimable, not_started. by rewrite bool_decide_false, andb_false_r by done.
Qed.

(** The facts [record] adds one after the other. *)
Definition types_of (facts : list TransactionEvent) : list TransactionEventType :=
  event_type <$> facts.
Definition all_of (reference : string) (facts : list TransactionEvent) : Prop :=
  Forall (λ e, event_reference e = reference) facts.

Lemma record_step nested input w e w1 d facts :
  recorded d facts (w_db w) → record nested input w = (Return e, w1) →
  recorded d (facts ++ [e]) (w_db w1) ∧ event_type e = ri_type input
  ∧ event_reference e = tx_reference (ri_transaction input).
Proof.
  intros Hr Hrec. apply record_recorded in Hrec as (Hr' & _ & Htype & Href & _); [|apply Hr].
  split_and!; [by eapply recorded_trans|done..].
Qed.

Lemma recorded_updated p f w :
  ledger_ok (w_db w) →
  recorded (updated_where p f (w_db w)) [] (w_db (w <| w_db := updated_where p f (w_db w) |>)).
Proof. intros Hok. apply recorded_nil. by eapply ledger_run_ok; [apply (ledger_frame (w_db w))|]. Qed.

Lemma markAmountMismatch_return t webhook w u w' :
  ledger_ok (w_db w) → ids_unique (w_db w) →
  markAmountMismatch t webhook w = (Return u, w') →
  let diverges := negb (currenciesMatch (Some (dto_currency webhook)) (Some (tx_currency t))) in
  let f := set_mismatch webhook diverges (mismatch_reason t webhook) (w_now w) in
  ∃ r, List.find (by_id (tx_id t)) (db_transactions (w_db w)) = Some r
  ∧ if not_started (tx_id t) r then
      u = f r ∧ accepts (stateOf t) (stateOf u) = true
      ∧ ∃ facts, recorded (updated_where (not_started (tx_id t)) f (w_db w)) facts (w_db w')
          ∧ all_of (tx_reference u) facts
          ∧ types_of facts = [TransactionEventType.AMOUNT_MISMATCH_DETECTED;
                              TransactionEventType.BANK_PROCESSING_BLOCKED;
                              TransactionEventType.CASE_OPENED]
    else u = r ∧ w' = w.
Proof.
  intros Hok Hdup. unfold markAmountMismatch. cbv zeta.
  intros (date & w0 & [= <- <-] & H)%transaction_inv%bind_inv.
  set (f := set_mismatch _ _ _ _) in *. assert (H' := H).
  apply update_and_read in H as (r & Hr & H); [|apply not_started_id|done|done].
  exists r. split; [done|]. destruct (not_started (tx_id t) r) eqn:Hns.
  - cbn [Nat.eqb negb] in H.
    apply bind_inv in H as (b & w1 & [Ha ->]%assertTransition_return & H).
    assert (H0 := recorded_updated (not_started (tx_id t)) f w Hok).
    apply bind_inv in H as (e1 & w1 & (H1 & T1 & R1)%(record_step _ _ _ _ _ _ _ H0) & H).
    apply bind_inv in H as (e2 & w2 & (H2 & T2 & R2)%(record_step _ _ _ _ _ _ _ H1) & H).
    apply bind_inv in H as (e3 & w3 & (H3 & T3 & R3)%(record_step _ _ _ _ _ _ _ H2) & [= <- <-]).
    split_and!; [done..|]. eexists. split_and!; [exact H3| |].
    + unfold all_of. simpl. by repeat constructor.
    + unfold types_of. simpl. by rewrite T1, T2, T3.
  - rewrite (update_and_read_none _ _ _ r) in H'; [|apply not_started_id|done..].
    by injection H' as <- <-.
Qed.

Lemma confirm_return t webhook onClaimed w u claimed w' :
  ledger_ok (w_db w) → ids_unique (w_db w) → conforms t webhook = true →
  confirmAndClaimBankProcessing config t webhook onClaimed w = (Return (u, claimed), w') →
  ∃ r, List.find (by_id (tx_id t)) (db_transactions (w_db w)) = Some r
  ∧ claimed = claimable (tx_id t) r
  ∧ if claimable (tx_id t) r then
      u = set_confirmed config webhook r ∧ accepts (stateOf t) (stateOf u) = true
      ∧ ∃ fact w1,
          recorded (updated_where (claimable (tx_id t)) (set_confirmed config webhook) (w_db w))
            [fact] (w_db w1)
          ∧ event_type fact = TransactionEventType.PROVIDER_CONFIRMED
          ∧ event_reference fact = tx_reference u
          ∧ onClaimed u w1 = (Return tt, w')
    else u = r ∧ w' = w.
Proof.
  intros Hok Hdup Hc. unfold confirmAndClaimBankProcessing. rewrite Hc. cbn [negb]. cbv zeta.
  intros H%transaction_inv. assert (H' := H).
  apply update_and_read in H as (r & Hr & H); [|apply claimable_id|done|done].
  exists r. split; [done|]. destruct (claimable (tx_id t) r) eqn:Hcl.
  - cbn [Nat.eqb] in H. apply bind_inv in H as ([] & w1 & H & [= <- <- <-]).
    apply bind_inv in H as (b & w2 & [Ha ->]%assertTransition_return & H).
    assert (H0 := recorded_updated (claimable (tx_id t)) (set_confirmed config webhook) w Hok).
    apply bind_inv in H as (e & w2 & (H1 & T1 & R1)%(record_step _ _ _ _ _ _ _ H0) & H).
    split_and!; [done..|]. by exists e, w2.
  - rewrite (update_and_read_none _ _ _ r) in H'; [|apply claimable_id|done..].
    cbn [Nat.eqb] in H'. injection H' as <- <- <-. done.
Qed.
Lemma markProviderFailed_return t webhook w u w' :
  ledger_ok (w_db w) → ids_unique (w_db w) →
  markProviderFailed t webhook w = (Return u, w') →
  let f := set_provider_failed webhook (w_now w) in
  ∃ r, List.find (by_id (tx_id t)) (db_transactions (w_db w)) = Some r
  ∧ if not_started (tx_id t) r then
      u = f r ∧ accepts (stateOf t) (stateOf u) = true
      ∧ ∃ fact closing, recorded (updated_where (not_started (tx_id t)) f (w_db w))
            (fact :: closing) (w_db w')
          ∧ all_of (tx_reference u) (fact :: closing)
          ∧ event_type fact = TransactionEventType.PROVIDER_FAILED
          ∧ Forall (λ e, is_closing e = true) closing
          ∧ existsb is_closing (rows_of (tx_reference u) (w_db w')) = true
    else u = r ∧ w' = w.
Proof.
  intros Hok Hdup. unfold markProviderFailed. cbv zeta.
  intros (date & w0 & [= <- <-] & H)%transaction_inv%bind_inv.
  set (f := set_provider_failed _ _) in *. assert (H' := H).
  apply update_and_read in H as (r & Hr & H); [|apply not_started_id|done|done].
  exists r. split; [done|]. destruct (not_started (tx_id t) r) eqn:Hns.
  - cbn [Nat.eqb negb] in H.
    apply bind_inv in H as (b & w1 & [Ha ->]%assertTransition_return & H).
    assert (H0 := recorded_updated (not_started (tx_id t)) f w Hok).
    apply bind_inv in H as (e & w1 & (H1 & T1 & R1)%(record_step _ _ _ _ _ _ _ H0) & H).
    apply bind_inv in H as (o & w2 & Hc & [= <- <-]).
    apply closeCase_recorded in Hc as (H2 & Hall & Hclosed); [|apply H1].
    simpl in H1, R1. split_and!; [done..|]. exists e, (option_facts o). split_and!; [| |done| |].
    + by apply (recorded_trans _ _ _ [e] _ H1 H2).
    + constructor; [done|]. eapply Forall_impl; [exact Hall|]. by intros c [? _].
    + eapply Forall_impl; [exact Hall|]. by intros c [_ ?].
    + apply Hclosed. rewrite (recorded_rows _ _ _ _ H1) by by constructor.
      intros [_ Hnil]%app_nil. discriminate Hnil.
  - rewrite (update_and_read_none _ _ _ r) in H'; [|apply not_started_id|done..].
    by injection H' as <- <-.
Qed.

(** C5. The bank may be instructed only of what the aggregator collected.  When
    [confirmAndClaimBankProcessing] claims a payment, the notified amount is the
    ordered one to the cent in the same currency, the row was still waiting on both
    legs and becomes the confirmed one, [PROVIDER_CONFIRMED] is the only fact added
    before [onClaimed] runs on that row in the same SQL transaction; when it does
    not claim, the callback has not run: the outcome is the same for any other. *)
Theorem claim_requires_conforming_collection t webhook onClaimed w u claimed w' :
  ledger_ok (w_db w) → ids_unique (w_db w) →
  confirmAndClaimBankProcessing config t webhook onClaimed w = (Return (u, claimed), w') →
  if claimed then
    dto_amount webhook = tx_amount t
    ∧ currenciesMatch (Some (dto_currency webhook)) (Some (tx_currency t)) = true
    ∧ ∃ r fact w1, List.find (by_id (tx_id t)) (db_transactions (w_db w)) = Some r
        ∧ tx_bankStatus r = Some BankProcessingStatus.NOT_STARTED
        ∧ tx_providerStatus r ∈ [Some ProviderStatus.INITIATED; Some ProviderStatus.PENDING]
        ∧ u = set_confirmed config webhook r ∧ accepts (stateOf t) (stateOf u) = true
        ∧ recorded (updated_where (claimable (tx_id t)) (set_confirmed config webhook) (w_db w))
            [fact] (w_db w1)
        ∧ event_type fact = TransactionEventType.PROVIDER_CONFIRMED
        ∧ onClaimed u w1 = (Return tt, w')
  else ∀ onClaimed',
    confirmAndClaimBankProcessing config t webhook onClaimed' w = (Return (u, false), w').
Proof.
  intros Hok Hdup Hrun. destruct (conforms t webhook) eqn:Hc.
  - apply confirm_return in Hrun as Hret; [|done..]. destruct Hret as (r & Hr & -> & Hret).
    destruct (claimable (tx_id t) r) eqn:Hcl.
    + destruct Hret as (Hu & Ha & fact & w1 & Hrec & Htype & _ & Hk).
      unfold conforms in Hc. apply andb_true_iff in Hc as [Hamount Hcur].
      rewrite amountsMatch_cents, Z.eqb_eq in Hamount. split_and!; [done..|].
      unfold claimable, not_started in Hcl. rewrite !andb_true_iff, !bool_decide_eq_true in Hcl.
      destruct Hcl as [[_ Hb] Hp]. by exists r, fact, w1.
    + destruct Hret as [-> ->]. intros onClaimed'. unfold confirmAndClaimBankProcessing.
      rewrite Hc. cbn [negb]. cbv zeta. apply transaction_commits; [|done].
      rewrite (update_and_read_none _ _ _ r); [done|apply claimable_id|done..].
  - revert Hrun. unfold confirmAndClaimBankProcessing. rewrite Hc. cbn [negb].
    intros (v & w1 & Hm & [= <- <- <-])%bind_inv. intros _.
    by erewrite bind_return by exact Hm.
Qed.

(** A notification that comes after the bank leg has started changes nothing,
    whatever it says: neither a second confirmation, nor a gap, nor a refusal
    touches the row, the register, the journal or the queue. *)
Theorem late_notification_is_inert t webhook onClaimed w r :
  ids_unique (w_db w) →
  List.find (by_id (tx_id t)) (db_transactions (w_db w)) = Some r →
  tx_bankStatus r ≠ Some BankProcessingStatus.NOT_STARTED →
  confirmAndClaimBankProcessing config t webhook onClaimed w = (Return (r, false), w)
  ∧ markProviderFailed t webhook w = (Return r, w).
Proof.
  intros Hdup Hr Hb. destruct (started_not_claimable (tx_id t) r Hb) as [Hns Hcl].
  assert (Hnone : ∀ f (body : nat → Transaction → App Transaction),
    (∀ u, tx_id (f u) = tx_id u) → body 0%nat r w = (Return r, w) →
    transaction (date ← now; affected ← update_transactions (not_started (tx_id t)) f;
      updated ← find_transaction_or_fail (by_id (tx_id t)); body affected updated) w = (Return r, w)).
  { intros f body Hf Hbody. apply transaction_commits; [|done]. erewrite bind_return by reflexivity.
    rewrite (update_and_read_none _ _ _ r); [done|apply not_started_id|done..]. }
  split.
  - unfold confirmAndClaimBankProcessing. destruct (conforms t webhook); cbn [negb].
    + apply transaction_commits; [|done].
      rewrite (update_and_read_none _ _ _ r); [done|apply claimable_id|done..].
    + erewrite bind_return; [reflexivity|]. unfold markAmountMismatch. cbv zeta.
      apply transaction_commits; [|done]. erewrite bind_return by reflexivity.
      rewrite (update_and_read_none _ _ _ r); [done|apply not_started_id|done..].
  - unfold markProviderFailed. cbv zeta. apply transaction_commits; [|done].
    erewrite bind_return by reflexivity.
    rewrite (update_and_read_none _ _ _ r); [done|apply not_started_id|done..].
Qed.

(** A gap opens a debt and instructs no one.  When the notified amount or
    currency is not the ordered one and the bank leg had not started, the
    notification that is accepted leaves the row collected, blocked and failed, with
    a named gap, a refund required and a case under review, records exactly the
    three facts that say so, and claims nothing. *)
Theorem mismatch_opens_debt t webhook onClaimed w u claimed w' r :
  ledger_ok (w_db w) → ids_unique (w_db w) → conforms t webhook = false →
  List.find (by_id (tx_id t)) (db_transactions (w_db w)) = Some r →
  tx_bankStatus r = Some BankProcessingStatus.NOT_STARTED →
  confirmAndClaimBankProcessing config t webhook onClaimed w = (Return (u, claimed), w') →
  claimed = false
  ∧ tx_providerStatus u = Some ProviderStatus.CONFIRMED
  ∧ tx_bankStatus u = Some BankProcessingStatus.BLOCKED
  ∧ tx_status u = TransactionStatus.FAILED
  ∧ (tx_reconciliationStatus u = Some ReconciliationStatus.AMOUNT_MISMATCH
     ∨ tx_reconciliationStatus u = Some ReconciliationStatus.CURRENCY_MISMATCH)
  ∧ tx_refundStatus u = RefundStatus.REQUIRED ∧ tx_caseStatus u = CaseStatus.MANUAL_REVIEW
  ∧ List.find (by_id (tx_id t)) (db_transactions (w_db w')) = Some u
  ∧ db_instructions (w_db w') = db_instructions (w_db w)
  ∧ ∃ facts, chain_of (tx_reference u) (w_db w') = chain_of (tx_reference u) (w_db w) ++ facts
      ∧ types_of facts = [TransactionEventType.AMOUNT_MISMATCH_DETECTED;
                          TransactionEventType.BANK_PROCESSING_BLOCKED;
                          TransactionEventType.CASE_OPENED].
Proof.
  intros Hok Hdup Hc Hr Hb. unfold confirmAndClaimBankProcessing. rewrite Hc. cbn [negb].
  intros (v & w1 & Hm & [= <- <- <-])%bind_inv.
  apply markAmountMismatch_return in Hm as (r' & Hr' & Hret); [|done..].
  rewrite Hr in Hr'. injection Hr' as <-.
  assert (Hns : not_started (tx_id t) r = true).
  { unfold not_started. apply find_by_id_in in Hr as [_ ->].
    by rewrite str_eqb_refl, bool_decide_true. }
  rewrite Hns in Hret. destruct Hret as (-> & _ & facts & Hrec & Hall & Htypes).
  set (f := set_mismatch _ _ _ _) in *.
  split_and!; try done.
  - simpl. destruct (negb _); auto.
  - rewrite (recorded_transactions _ _ _ Hrec). unfold updated_where. simpl.
    destruct (update_row (not_started (tx_id t)) f (tx_id t)) with (2 := λ u, eq_refl (tx_id u))
      (3 := Hdup) (4 := Hr) as [_ ->]; [apply not_started_id|]. by rewrite Hns.
  - by rewrite (recorded_instructions _ _ _ Hrec).
  - exists facts. split; [|done].
    exact (recorded_chain _ _ _ _ (updated_ok (not_started (tx_id t)) f _ Hok) Hrec Hall).
Qed.
End notifications.

(** * What an initiation does *)

Section initiation.
Context {HH : Hashing} {HX : XsdEngine} {HE : Entropy}.
Context (config : MobileMoneyConfig) (business : BusinessConfig).

Abbreviation quiet := (λ (_ : nat) (d : Db), d).

Lemma generate_db w : ∃ r n, generate w = (Return r, w <| w_draws := n |>).
Proof. eexists _, _. reflexivity. Qed.

Lemma generateReference_db w : ∃ r n, generateReference w = (Return r, w <| w_draws := n |>).
Proof. eexists _, _. reflexivity. Qed.

Lemma correlation_or_uuid_db w : ∃ c n, correlation_or_uuid w = (Return c, w <| w_draws := n |>).
Proof.
  unfold correlation_or_uuid. erewrite bind_return by reflexivity.
  destruct (truthy _); [exists (w_correlation w), (w_draws w)|eexists _, _; reflexivity].
  by destruct w.
Qed.

(** The row and its opening fact are written together. *)
Lemma open_payment_return t w u w' :
  ledger_ok (w_db w) → open_payment t w = (Return u, w') →
  u = t <| tx_id := tx_id u |> <| tx_createdAt := tx_createdAt u |>
  ∧ existsb (same_id u) (db_transactions (w_db w)) = false
  ∧ transaction_error (db_transactions (w_db w)) u = None
  ∧ ∃ fact, recorded ((w_db w) <| db_transactions := db_transactions (w_db w) ++ [u] |>) [fact] (w_db w')
      ∧ event_type fact = TransactionEventType.PAYMENT_INITIATED
      ∧ event_reference fact = tx_reference u
      ∧ se_creditorIban (ev_data fact) = Some (tx_creditorIban u)
      ∧ se_expectedAmount (ev_data fact) = tx_amount u.
Proof.
  intros Hok (Hu & Hid & Herr & fact & Hr & Ht & Href & p & id & date & corr & fp & salt & ->)%opening_return;
    [|done].
  split_and!; [done..|]. eexists. split_and!; [exact Hr|done..].
Qed.

(** One row more, with its opening fact, or the row that already had the key. *)
Definition initiated (dto : CreateMobileMoneyTransactionDto) (key : option string) (d : Db)
    (t : Transaction) (d' : Db) : Prop :=
  (truthy key = true ∧ d' = d ∧ List.find (λ u, is_eq (tx_idempotencyKey u) key) (db_transactions d) = Some t)
  ∨ ((t ∉ db_transactions d) ∧ transaction_error (db_transactions d) t = None
     ∧ ∃ fact, recorded (d <| db_transactions := db_transactions d ++ [t] |>) [fact] d'
         ∧ event_type fact = TransactionEventType.PAYMENT_INITIATED
         ∧ event_reference fact = tx_reference t
         ∧ se_creditorIban (ev_data fact) = Some (tx_creditorIban t)
         ∧ se_expectedAmount (ev_data fact) = tx_amount t)
    ∧ ∃ id date reference correlation aggregator,
        t = (new_payment config dto key reference correlation aggregator)
              <| tx_id := id |> <| tx_createdAt := date |>.

Lemma initiate_loop_return dto key fuel w t w' :
  ledger_ok (w_db w) →
  initiate_loop config quiet dto key fuel w = (Return t, w') →
  is_mobile_money t = true ∧ initiated dto key (w_db w) t (w_db w').
Proof.
  revert w. induction fuel as [|fuel IH]; intros w Hok; [done|]. cbn [initiate_loop].
  destruct (generate_db w) as (r & n1 & Hgen). erewrite bind_return by exact Hgen.
  destruct (correlation_or_uuid_db (w <| w_draws := n1 |>)) as (c & n2 & Hcor).
  erewrite bind_return by exact Hcor.
  destruct (generateReference_db (w <| w_draws := n1 |> <| w_draws := n2 |>)) as (g & n3 & Hg).
  erewrite bind_return by exact Hg. cbv zeta. erewrite bind_return by reflexivity.
  set (w0 := (w <| w_draws := n1 |> <| w_draws := n2 |> <| w_draws := n3 |>)
               <| w_db := quiet (MAX_REFERENCE_ATTEMPTS - fuel)%nat (w_db w) |>).
  assert (Hw0 : w_db w0 = w_db w) by done. unfold try_catch.
  set (p := new_payment config dto key r c g).
  match goal with |- context [open_payment p ?v] => change v with w0 end.
  destruct (open_payment p w0) as [[u|err] w1] eqn:Hopen.
  - intros [= <- <-]. apply open_payment_return in Hopen as (Hu & Hid & Herr & Hfact); [|done].
    rewrite Hw0 in *. split; [by rewrite Hu|]. right. split.
    + split_and!; [|done|done]. intros Hin. apply existsb_false in Hid.
      rewrite Forall_forall in Hid. specialize (Hid u Hin). cbv beta in Hid.
      unfold same_id in Hid. by rewrite str_eqb_refl in Hid.
    + by exists (tx_id u), (tx_createdAt u), r, c, g.
  - assert (Hdb : w_db w1 = w_db w) by (rewrite <- Hw0; by eapply transaction_rolls_back).
    assert (Hloop : initiate_loop config quiet dto key fuel w1 = (Return t, w') →
      is_mobile_money t = true ∧ initiated dto key (w_db w) t (w_db w')).
    { intros Hl. rewrite <- Hdb. apply IH; [by rewrite Hdb|done]. }
    assert (Hother : (if isUniqueViolation err && Nat.ltb 0 fuel
        then initiate_loop config quiet dto key fuel else throw err) w1 = (Return t, w') →
      is_mobile_money t = true ∧ initiated dto key (w_db w) t (w_db w')).
    { destruct (isUniqueViolation err && Nat.ltb 0 fuel); [done|discriminate]. }
    destruct key as [k|]; [|done]. destruct (truthy (Some k) && _) eqn:Hk; [|done].
    apply andb_true_iff in Hk as [Hk _].
    intros (o & w2 & (d & w3 & [= <- <-] & [= <- <-])%bind_inv & Hwin)%bind_inv.
    unfold idempotent_winner in Hwin.
    destruct (List.find _ _) as [v|] eqn:Hfind; [|by apply Hother].
    destruct (is_mobile_money v) eqn:Hmm; [|done]. injection Hwin as -> <-.
    split; [done|]. left. rewrite Hdb in *. done.
Qed.

(** C26. [initiate], undisturbed, is an idempotent creation.  When it returns a
    payment, the request respects the business rules and either the key had already
    been used for a Mobile Money payment, which is returned and nothing is written,
    or one row is added, built from the request, together with its opening fact,
    which names the same creditor and the same amount; with a key, the row returned
    is from then on the one the key finds, so that asking again returns it and
    writes nothing. *)
Theorem initiate_is_idempotent dto key w t w' :
  ledger_ok (w_db w) → initiate config business dto key w = (Return t, w') →
  cd_currency dto ∈ bc_allowedCurrencies business ∧ cd_amount dto <= bc_maxAmount business
  ∧ cd_creditorIban dto ≠ mm_settlementIban config
  ∧ is_mobile_money t = true ∧ initiated dto key (w_db w) t (w_db w')
  ∧ (truthy key = true → ∀ dto',
      assertBusinessRules config business dto' w' = (Return tt, w') →
      initiate config business dto' key w' = (Return t, w')).
Proof.
  intros Hok. unfold initiate, initiate_under.
  intros ([] & w1 & Hrules & H)%bind_inv.
  assert (Hr : w1 = w ∧ cd_currency dto ∈ bc_allowedCurrencies business
    ∧ cd_amount dto <= bc_maxAmount business ∧ cd_creditorIban dto ≠ mm_settlementIban config).
  { revert Hrules. unfold assertBusinessRules, throw_unless, mbind, Eff_bind.
    destruct (bool_decide (_ ∈ _)) eqn:Hcur; [|done]. apply bool_decide_eq_true in Hcur. simpl.
    destruct (bc_maxAmount business <? cd_amount dto) eqn:Hmax; [done|]. simpl.
    destruct (str_eqb _ _) eqn:Hiban; [done|]. intros [= ->]. apply Z.ltb_ge in Hmax.
    split_and!; [done..|]. intros Heq. by rewrite Heq, str_eqb_refl in Hiban. }
  destruct Hr as (-> & Hcur & Hmax & Hiban).
  assert (Hmain : is_mobile_money t = true ∧ initiated dto key (w_db w) t (w_db w')
    ∧ (truthy key = true →
       List.find (λ u, is_eq (tx_idempotencyKey u) key) (db_transactions (w_db w')) = Some t)).
  { apply bind_inv in H as (existing & w1 & Hex & H).
    assert (Hlookup : w1 = w ∧ existing = if truthy key
      then List.find (λ u, is_eq (tx_idempotencyKey u) key) (db_transactions (w_db w)) else None).
    { revert Hex. destruct key as [k|]; [destruct (truthy (Some k))|]; by intros [= <- <-]. }
    destruct Hlookup as [-> ->]. destruct (truthy key) eqn:Hkey.
    - destruct (List.find _ (db_transactions (w_db w))) as [v|] eqn:Hfind.
      + destruct (is_mobile_money v) eqn:Hmm; [|done]. injection H as <- <-.
        split_and!; [done| |done]. by left.
      + apply initiate_loop_return in H as [Hmm Hin]; [|done]. split_and!; [done..|]. intros _.
        destruct Hin as [(_ & _ & Hf)|[(_ & _ & fact & Hrec & _) Hform]]; [congruence|].
        rewrite (recorded_transactions _ _ _ Hrec). simpl. rewrite find_app_r by done. simpl.
        destruct Hform as (id & date & r & c & g & ->). simpl.
        by rewrite bool_decide_true.
    - apply initiate_loop_return in H as [Hmm Hin]; [|done]. by split_and!. }
  destruct Hmain as (Hmm & Hin & Hfind). split_and!; try done.
  intros Hkey dto' Hrules'. erewrite bind_return by exact Hrules'.
  specialize (Hfind Hkey). destruct key as [k|]; [|done]. rewrite Hkey.
  erewrite bind_return by reflexivity.
  change (by_idempotency_key k) with (λ u, is_eq (tx_idempotencyKey u) (Some k)).
  by rewrite Hfind, Hmm.
Qed.
End initiation.

(** * Witnesses *)

Definition sample_config : MobileMoneyConfig :=
  mkMobileMoneyConfig "FR7630006000011234567890189" "Mobile Money Settlement" (15 # 1000) 4
    "local-demo-webhook-secret".
Definition sample_business : BusinessConfig := mkBusinessConfig ["USD"; "CDF"] 100000000.
Definition sample_order : CreateMobileMoneyTransactionDto :=
  mkCreateMobileMoneyTransactionDto MobileMoneyOperator.MPESA "+243812345678"
    "DE89370400440532013000" "ACME GmbH" 125075 "USD" (Some "COMMANDE-2026-0042").
Definition sample_dates : DateParser := {| parse_date _ := 1769212800000 |}.

(** The notification of a collection of [amount] on the payment of [reference]. *)
Definition sample_notification (eventId reference : string) (status : MobileMoneyWebhookStatus)
    (amount : Z) : MobileMoneyWebhookDto :=
  mkMobileMoneyWebhookDto eventId reference status amount "USD" "2026-01-24T00:00:00.000Z" None.

#[local] Existing Instances Toy.hashing Toy.entropy Toy.xsd sample_dates.

Definition empty_world : World := mkWorld empty_db 0 1769212800000 "corr" [].

Lemma empty_ok : ledger_ok (w_db empty_world).
Proof. intros reference. split; [exact I|]. simpl. lia. Qed.

(** The world in which [sample_order] was taken. *)
Definition sample_opened : World :=
  (initiate sample_config sample_business sample_order (Some "key-1") empty_world).2.
Definition sample_row : Transaction :=
  default sample_payment (head (db_transactions (w_db sample_opened))).

Lemma sample_opened_ok : ledger_ok (w_db sample_opened).
Proof.
  assert (H := initiate_refines sample_config sample_business sample_order (Some "key-1") empty_world).
  exact (ledger_run_ok _ _ (H empty_ok) empty_ok).
Qed.

Lemma sample_opened_ids : ids_unique (w_db sample_opened).
Proof. apply (bool_decide_unpack (NoDup _)). vm_compute. exact I. Qed.

Lemma initiate_is_idempotent_witness :
  ∃ t w', initiate sample_config sample_business sample_order (Some "key-1") empty_world
            = (Return t, w')
    ∧ initiate sample_config sample_business sample_order (Some "key-1") w' = (Return t, w').
Proof.
  assert (Hrun : ∃ t w', initiate sample_config sample_business sample_order (Some "key-1") empty_world
            = (Return t, w')
            ∧ assertBusinessRules sample_config sample_business sample_order w' = (Return tt, w')).
  { eexists _, _. split; vm_compute; reflexivity. }
  destruct Hrun as (t & w' & Hrun & Hrules). exists t, w'. split; [exact Hrun|].
  destruct (initiate_is_idempotent _ _ _ _ _ _ _ empty_ok Hrun) as (_ & _ & _ & _ & _ & Hagain).
  apply Hagain; [reflexivity|exact Hrules].
Defined.

Lemma claim_requires_conforming_collection_witness :
  ∃ u w', confirmAndClaimBankProcessing sample_config sample_row
            (sample_notification "EVT-1" "AGG-1" MobileMoneyWebhookStatus.CONFIRMED 125075)
            (λ _, mret tt) sample_opened = (Return (u, true), w')
    ∧ 125075 = tx_amount sample_row.
Proof.
  assert (Hrun : ∃ u w', confirmAndClaimBankProcessing sample_config sample_row
            (sample_notification "EVT-1" "AGG-1" MobileMoneyWebhookStatus.CONFIRMED 125075)
            (λ _, mret tt) sample_opened = (Return (u, true), w')).
  { eexists _, _. vm_compute. reflexivity. }
  destruct Hrun as (u & w' & Hrun). exists u, w'. split; [exact Hrun|].
  apply (claim_requires_conforming_collection _ _ _ _ _ _ _ _ sample_opened_ok sample_opened_ids Hrun).
Defined.

Lemma late_notification_is_inert_witness :
  let w := sample_opened <| w_db := (w_db sample_opened) <| db_transactions := [sample_payment] |> |> in
  markProviderFailed sample_payment
    (sample_notification "EVT-1" "AGG-1" MobileMoneyWebhookStatus.FAILED 1000) w
  = (Return sample_payment, w).
Proof.
  apply (late_notification_is_inert sample_config sample_payment
    (sample_notification "EVT-1" "AGG-1" MobileMoneyWebhookStatus.FAILED 1000) (λ _, mret tt)).
  - apply (bool_decide_unpack (NoDup _)). vm_compute. exact I.
  - reflexivity.
  - discriminate.
Defined.

Lemma mismatch_opens_debt_witness :
  ∃ u claimed w', confirmAndClaimBankProcessing sample_config sample_row
            (sample_notification "EVT-1" "AGG-1" MobileMoneyWebhookStatus.CONFIRMED 125074)
            (λ _, mret tt) sample_opened = (Return (u, claimed), w')
    ∧ claimed = false ∧ tx_refundStatus u = RefundStatus.REQUIRED.
Proof.
  assert (Hrun : ∃ u claimed w', confirmAndClaimBankProcessing sample_config sample_row
            (sample_notification "EVT-1" "AGG-1" MobileMoneyWebhookStatus.CONFIRMED 125074)
            (λ _, mret tt) sample_opened = (Return (u, claimed), w')).
  { eexists _, _, _. vm_compute. reflexivity. }
  destruct Hrun as (u & claimed & w' & Hrun). exists u, claimed, w'. split; [exact Hrun|].
  assert (Hgap : conforms sample_row
    (sample_notification "EVT-1" "AGG-1" MobileMoneyWebhookStatus.CONFIRMED 125074) = false)
    by (vm_compute; reflexivity).
  assert (Hrow : List.find (by_id (tx_id sample_row)) (db_transactions (w_db sample_opened))
    = Some sample_row) by (vm_compute; reflexivity).
  assert (Hbank : tx_bankStatus sample_row = Some BankProcessingStatus.NOT_STARTED)
    by (vm_compute; reflexivity).
  destruct (mismatch_opens_debt _ _ _ _ _ _ _ _ sample_row sample_opened_ok sample_opened_ids
    Hgap Hrow Hbank Hrun) as (H1 & _ & _ & _ & _ & H2 & _).
  split; [exact H1|exact H2].
Defined.
