(* ===== verification/BankWorker.v ===== *)
(** The queue of bank instructions: [src/mobile-money/bank-instruction.worker.ts].

    [enqueue] adds the instruction of a claimed payment, [drain] claims the due ones
    one after the other and attempts them: a failed attempt is put back with an
    exponential delay, and the last one is dead-lettered, which opens the debt to the
    payer.  The call to the bank is a parameter, [execute], as in the source; the
    in-memory flag [running] and the rows other instances have locked are arguments. *)
From S2P Require Import Prelude Domain StateMachine Money External Fingerprint EventXml.
From S2P Require Import Database Ledger EventLedger Ports Services Reconciliation MobileMoney.
Open Scope Z_scope.

(** [Math.min(2 ** attempts * 1000, 30_000)] *)
Definition backoffMs (attempts : Z) : Z := Z.min (2 ^ attempts * 1000) 30000.

Definition IN_FLIGHT_LEASE_MS : Z := 5 * 60000.

Record DrainOutcome := mkDrainOutcome {
  do_claimed : nat;
  do_completed : nat;
  do_deadLettered : nat
}.

(** What [attempt] answers. *)
Inductive Settled := SettledCompleted | SettledRetry | SettledDeadLetter.

#[export] Instance Settled_eq_dec : EqDecision Settled.
Proof. solve_decision. Defined.

Definition instruction_of (reference : string) (i : BankInstruction) : bool :=
  str_eqb (bi_transactionReference i) reference.

(** The [WHERE] of [claimNext]. *)
Definition due (date : Z) (i : BankInstruction) : bool :=
  (is_eq (bi_status i) BankInstructionStatus.PENDING && (bi_nextAttemptAt i <=? date))
  || (is_eq (bi_status i) BankInstructionStatus.IN_FLIGHT
      && (bi_updatedAt i <=? date - IN_FLIGHT_LEASE_MS)).

(** The bank leg has an outcome already. *)
Definition bank_settled (t : Transaction) : bool :=
  is_eq (tx_bankStatus t) (Some BankProcessingStatus.COMPLETED)
  || is_eq (tx_bankStatus t) (Some BankProcessingStatus.FAILED)
  || is_eq (tx_bankStatus t) (Some BankProcessingStatus.BLOCKED).

Definition completed (i : BankInstruction) : BankInstruction :=
  i <| bi_status := BankInstructionStatus.COMPLETED |> <| bi_lastError := None |>.

(** What [deadLetter] assigns to the transaction. *)
Definition assign_abandoned (i : BankInstruction) (reason : string) (date : Z) (t : Transaction) :
    Transaction :=
  t <| tx_status := TransactionStatus.FAILED |>
    <| tx_bankStatus := Some BankProcessingStatus.FAILED |>
    <| tx_reconciliationStatus := Some ReconciliationStatus.MANUAL_REVIEW |>
    <| tx_reconciliationReason :=
         Some "Confirmation Mobile Money recue mais traitement bancaire abandonne apres reprises" |>
    <| tx_refundStatus := RefundStatus.REQUIRED |>
    <| tx_caseStatus := CaseStatus.MANUAL_REVIEW |>
    <| tx_failureReason := Some (slice 1024 reason) |>
    <| tx_processedAt := Some date |>
    <| tx_caseReason := Some ("Instruction bancaire abandonnee apres " +:+ pretty (bi_attempts i)
         +:+ " tentatives : encaissement confirme sans contrepartie, "
         +:+ "remboursement du payeur a instruire") |>.

Definition abandoned (i : BankInstruction) (reason : string) : BankInstruction :=
  i <| bi_status := BankInstructionStatus.DEAD_LETTER |>
    <| bi_lastError := Some (slice 1024 reason) |> <| bi_retryable := false |>.

Section BankWorker.
Context {HH : Hashing} {HX : XsdEngine} {HE : Entropy} {HT : ErrorText}.
Context (config : MobileMoneyConfig).

Definition enqueue (t : Transaction) : App BankInstruction :=
  date ← now;
  insert_instruction {|
    bi_transactionReference := tx_reference t;
    bi_status := BankInstructionStatus.PENDING;
    bi_attempts := 0;
    bi_nextAttemptAt := date;
    bi_lastError := None;
    bi_retryable := true;
    bi_correlationId := tx_correlationId t;
    bi_updatedAt := 0
  |}.

(** The first due instruction no other instance has locked. *)
Definition next_due (locked : BankInstruction → bool) (date : Z) (d : Db) : option BankInstruction :=
  head (sort_by bi_nextAttemptAt
    (List.filter (λ i, due date i && negb (locked i)) (db_instructions d))).

Definition claimNext (locked : BankInstruction → bool) :
    App (option (BankInstruction * Transaction)) :=
  transaction
    (date ← now;
     d ← get_db;
     match next_due locked date d with
     | None => mret None
     | Some i =>
         t ← find_transaction (by_reference (bi_transactionReference i));
         match t with
         | None =>
             save_instruction (i <| bi_status := BankInstructionStatus.DEAD_LETTER |>
               <| bi_lastError := Some "Transaction introuvable" |> <| bi_retryable := false |>) ;;
             mret None
         | Some t =>
             let i := i <| bi_status := BankInstructionStatus.IN_FLIGHT |>
                        <| bi_attempts := bi_attempts i + 1 |> in
             i ← save_instruction i;
             mret (Some (i, t))
         end
     end).

Definition deadLetter (i : BankInstruction) (reason : string) : Ent unit :=
  t ← entity;
  let before := stateOf t in
  lift (transaction
    (date ← now;
     save_instruction (abandoned i reason) ;;
     updated ← save_transaction (assign_abandoned i reason date t);
     assertTransition before (stateOf updated) (tx_reference updated) ;;
     record true (event_input TransactionEventType.BANK_PROCESSING_FAILED updated
                    (tx_failureReason updated)) ;;
     record true (event_input TransactionEventType.CASE_OPENED updated (tx_caseReason updated)) ;;
     mret tt)).

Definition exhausted (i : BankInstruction) : bool :=
  mm_bankWorkerMaxAttempts config <=? bi_attempts i.

Definition attempt (execute : Ent unit) (i : BankInstruction) : Ent Settled :=
  try_catch
    (t ← entity;
     (if bank_settled t then mret tt else execute) ;;
     lift (save_instruction (completed i)) ;;
     mret SettledCompleted)
    (λ error,
      let reason := error_message error in
      if exhausted i then deadLetter i reason ;; mret SettledDeadLetter
      else
        date ← lift now;
        lift (save_instruction
          (i <| bi_status := BankInstructionStatus.PENDING |>
             <| bi_lastError := Some (slice 1024 reason) |>
             <| bi_nextAttemptAt := date + backoffMs (bi_attempts i) |>)) ;;
        mret SettledRetry).

Definition count_settled (settled : Settled) (o : DrainOutcome) : DrainOutcome :=
  mkDrainOutcome (S (do_claimed o))
    (if is_eq settled SettledCompleted then S (do_completed o) else do_completed o)
    (if is_eq settled SettledDeadLetter then S (do_deadLettered o) else do_deadLettered o).

(** The [for] loop, [limit] turns at most. *)
Fixpoint drain_loop (locked : BankInstruction → bool) (execute : Ent unit) (limit : nat)
    (o : DrainOutcome) : App DrainOutcome :=
  match limit with
  | O => mret o
  | S limit =>
      claimed ← claimNext locked;
      match claimed with
      | None => mret o
      | Some (i, t) =>
          settled ← with_entity t (attempt execute i);
          drain_loop locked execute limit (count_settled settled o)
      end
  end.

Definition drain (running : bool) (locked : BankInstruction → bool) (execute : option (Ent unit))
    (limit : nat) : App DrainOutcome :=
  if running then mret (mkDrainOutcome 0 0 0)
  else match execute with
       | None => mret (mkDrainOutcome 0 0 0)
       | Some execute => drain_loop locked execute limit (mkDrainOutcome 0 0 0)
       end.

Definition findDeadLettered : App (list BankInstruction) :=
  d ← get_db;
  mret (sort_by (λ i, - bi_updatedAt i)
    (List.filter (λ i, is_eq (bi_status i) BankInstructionStatus.DEAD_LETTER) (db_instructions d))).

Definition countDue : App nat :=
  d ← get_db;
  date ← now;
  mret (length (List.filter (λ i, is_eq (bi_status i) BankInstructionStatus.PENDING
    && (bi_nextAttemptAt i <=? date)) (db_instructions d))).

(** * Lemmas *)

Lemma enqueue_refines t : Respects (on_db ledger_refines) (enqueue t).
Proof. unfold enqueue. respects. Qed.

Lemma claimNext_refines locked : Respects (on_db ledger_refines) (claimNext locked).
Proof. unfold claimNext. respects. Qed.

Lemma deadLetter_refines i reason : Respects (on_ent ledger_refines) (deadLetter i reason).
Proof. unfold deadLetter. respects. Qed.
#[local] Hint Resolve claimNext_refines deadLetter_refines : effects.

Lemma attempt_refines execute i :
  Respects (on_ent ledger_refines) execute → Respects (on_ent ledger_refines) (attempt execute i).
Proof. intros He. unfold attempt. respects. Qed.

Lemma drain_refines running locked execute limit :
  (∀ e, execute = Some e → Respects (on_ent ledger_refines) e) →
  Respects (on_db ledger_refines) (drain running locked execute limit).
Proof.
  intros He. unfold drain. destruct running; [respects|]. destruct execute as [e|]; [|respects].
  specialize (He e eq_refl). pose proof (λ i, attempt_refines e i He).
  generalize (mkDrainOutcome 0 0 0). induction limit as [|limit IH]; intros o; simpl; respects.
Qed.
End BankWorker.

#[export] Hint Resolve enqueue_refines claimNext_refines deadLetter_refines attempt_refines : effects.

(** * What an attempt does *)

Lemma slice_fits n s : fits n (slice n s) = true.
Proof.
  unfold fits. apply Nat.leb_le. revert n. induction s as [|c s IH]; intros n; simpl; [lia|].
  destruct (continues c) eqn:Hc; simpl.
  - rewrite Hc. apply IH.
  - destruct n as [|[|n]]; simpl; [lia| |].
    + destruct (is_pair c); simpl; [lia|]. rewrite Hc. specialize (IH 0%nat). lia.
    + rewrite Hc. destruct (is_pair c); [specialize (IH n)|specialize (IH (S n))]; lia.
Qed.

(** The delays grow from two seconds to thirty. *)
Lemma backoffMs_bounds n : 1 <= n → 2000 <= backoffMs n <= 30000.
Proof.
  intros Hn. unfold backoffMs. assert (2 ^ 1 <= 2 ^ n) by (apply Z.pow_le_mono_r; lia). lia.
Qed.

Lemma backoffMs_mono m n : m <= n → backoffMs m <= backoffMs n.
Proof.
  intros Hmn. unfold backoffMs. assert (2 ^ m <= 2 ^ n) by (apply Z.pow_le_mono_r; lia). lia.
Qed.

Section attempts.
Context {HH : Hashing} {HX : XsdEngine} {HE : Entropy} {HT : ErrorText}.
Context (config : MobileMoneyConfig).

(** The table after a [save] of an instruction. *)
Definition saved_instruction (i : BankInstruction) (date : Z) (d : Db) : Db :=
  d <| db_instructions := upsert same_instruction (i <| bi_updatedAt := date |>) (db_instructions d) |>.

Lemma save_instruction_eq i w :
  instruction_fits i = true →
  save_instruction i w = (Return (i <| bi_updatedAt := w_now w |>),
                          w <| w_db := saved_instruction i (w_now w) (w_db w) |>).
Proof. intros Hf. unfold save_instruction, throw_unless, now, get_db, mbind, Eff_bind. simpl. by rewrite Hf. Qed.

Lemma save_instruction_return i w j w' :
  save_instruction i w = (Return j, w') →
  w' = w <| w_db := saved_instruction i (w_now w) (w_db w) |> ∧ instruction_fits i = true.
Proof.
  unfold save_instruction, throw_unless, now, get_db, mbind, Eff_bind. simpl.
  destruct (instruction_fits i); [|done]. by intros [= _ <-].
Qed.

Lemma abandoned_fits i reason : instruction_fits i = true → instruction_fits (abandoned i reason) = true.
Proof.
  unfold instruction_fits. intros [_ Hc]%andb_true_iff. simpl. by rewrite slice_fits, Hc.
Qed.

Lemma completed_fits i : instruction_fits i = true → instruction_fits (completed i) = true.
Proof. unfold instruction_fits. intros [_ Hc]%andb_true_iff. simpl. by rewrite Hc. Qed.

Lemma deadLetter_throws i reason t w err t' w' :
  deadLetter i reason (t, w) = (Throw err, (t', w')) → w_db w' = w_db w.
Proof.
  unfold deadLetter. erewrite bind_return by reflexivity. cbv zeta. cbn [fst].
  intros [-> H]%lift_throw_inv. by eapply transaction_rolls_back.
Qed.

Lemma deadLetter_return i reason t w u t' w' :
  ledger_ok (w_db w) → deadLetter i reason (t, w) = (Return u, (t', w')) →
  t' = t ∧ accepts (stateOf t) (stateOf (assign_abandoned i reason (w_now w) t)) = true
  ∧ ∃ facts, recorded (saved (assign_abandoned i reason (w_now w) t)
                         (saved_instruction (abandoned i reason) (w_now w) (w_db w))) facts (w_db w')
      ∧ all_of (tx_reference t) facts
      ∧ types_of facts = [TransactionEventType.BANK_PROCESSING_FAILED;
                          TransactionEventType.CASE_OPENED].
Proof.
  intros Hok. unfold deadLetter. erewrite bind_return by reflexivity. cbv zeta. cbn [fst].
  intros [-> H]%lift_inv. apply transaction_inv in H.
  apply bind_inv in H as (date & w0 & [= <- <-] & H).
  apply bind_inv in H as (j & w1 & [-> _]%save_instruction_return & H).
  apply bind_inv in H as (v & w1 & (-> & -> & _)%save_transaction_return & H).
  apply bind_inv in H as (b & w1 & [Ha ->]%assertTransition_return & H).
  match type of H with _ ?v = _ =>
    assert (H0 : recorded (saved (assign_abandoned i reason (w_now w) t)
      (saved_instruction (abandoned i reason) (w_now w) (w_db w))) [] (w_db v)) by by apply recorded_nil
  end.
  apply bind_inv in H as (e1 & w2 & (H1 & T1 & R1)%(record_step _ _ _ _ _ _ _ H0) & H).
  apply bind_inv in H as (e2 & w3 & (H2 & T2 & R2)%(record_step _ _ _ _ _ _ _ H1) & [= <- <-]).
  split_and!; [done..|]. eexists. split_and!; [exact H2| |].
  - unfold all_of. simpl. by repeat constructor.
  - unfold types_of. simpl. by rewrite T1, T2.
Qed.

(** [attempt] once [execute] has thrown. *)
Lemma attempt_throws execute i t w err t1 w1 :
  bank_settled t = false → execute (t, w) = (Throw err, (t1, w1)) →
  attempt config execute i (t, w) =
  (if exhausted config i then deadLetter i (error_message err) ;; mret SettledDeadLetter
   else
     date ← lift now;
     lift (save_instruction
       (i <| bi_status := BankInstructionStatus.PENDING |>
          <| bi_lastError := Some (slice 1024 (error_message err)) |>
          <| bi_nextAttemptAt := date + backoffMs (bi_attempts i) |>)) ;;
     mret SettledRetry) (t1, w1).
Proof.
  intros Hb He. unfold attempt, try_catch. erewrite bind_return by reflexivity. cbn [fst].
  rewrite Hb. erewrite bind_throw by exact He. done.
Qed.

Lemma rescheduled_fits i reason next :
  instruction_fits i = true →
  instruction_fits (i <| bi_status := BankInstructionStatus.PENDING |>
    <| bi_lastError := Some (slice 1024 reason) |> <| bi_nextAttemptAt := next |>) = true.
Proof.
  unfold instruction_fits. intros [_ Hc]%andb_true_iff. simpl. by rewrite slice_fits, Hc.
Qed.

(** A failed attempt that is not the last is only put back: whatever [execute]
    threw, the instruction goes back to the queue with its error and a delay of two
    to thirty seconds that never shrinks from one attempt to the next; the attempt
    itself does not fail, no fact is recorded and no row moves. *)
Theorem failed_attempt_is_rescheduled execute i t w err t1 w1 :
  bank_settled t = false → exhausted config i = false → instruction_fits i = true →
  1 <= bi_attempts i → execute (t, w) = (Throw err, (t1, w1)) →
  ∃ next, attempt config execute i (t, w) = (Return SettledRetry, (t1, w1 <| w_db :=
      saved_instruction (i <| bi_status := BankInstructionStatus.PENDING |>
        <| bi_lastError := Some (slice 1024 (error_message err)) |>
        <| bi_nextAttemptAt := next |>) (w_now w1) (w_db w1) |>))
    ∧ w_now w1 + 2000 <= next <= w_now w1 + 30000
    ∧ ∀ n, bi_attempts i <= n → next <= w_now w1 + backoffMs n.
Proof.
  intros Hb Hex Hfit Hn He. exists (w_now w1 + backoffMs (bi_attempts i)).
  rewrite (attempt_throws _ _ _ _ _ _ _ Hb He), Hex. split_and!.
  - erewrite bind_return by reflexivity. cbv zeta.
    unfold mbind, Eff_bind, lift. cbn [fst snd]. rewrite save_instruction_eq; [done|]. by apply rescheduled_fits.
  - pose proof (backoffMs_bounds _ Hn). lia.
  - pose proof (backoffMs_bounds _ Hn). lia.
  - intros n Hle. pose proof (backoffMs_mono _ _ Hle). lia.
Qed.

(** The last failed attempt opens a debt or changes nothing.  When the attempts
    are used up, either the instruction is dead-lettered in one transaction with
    the failed row, the refund required, the case under review and the two facts
    that say so, or the attempt throws and the database is as [execute] left it. *)
Theorem exhausted_attempt_opens_debt execute i t w err t1 w1 :
  ledger_ok (w_db w1) → bank_settled t = false → exhausted config i = true →
  execute (t, w) = (Throw err, (t1, w1)) →
  let '(o, (t', w')) := attempt config execute i (t, w) in
  match o with
  | Return settled =>
      settled = SettledDeadLetter
      ∧ (∃ u, u ∈ db_transactions (w_db w') ∧ tx_id u = tx_id t1
          ∧ tx_bankStatus u = Some BankProcessingStatus.FAILED
          ∧ tx_refundStatus u = RefundStatus.REQUIRED ∧ tx_caseStatus u = CaseStatus.MANUAL_REVIEW
          ∧ accepts (stateOf t1) (stateOf u) = true)
      ∧ (∃ j, j ∈ db_instructions (w_db w') ∧ same_instruction i j = true
          ∧ bi_status j = BankInstructionStatus.DEAD_LETTER)
      ∧ ∃ facts, chain_of (tx_reference t1) (w_db w') = chain_of (tx_reference t1) (w_db w1) ++ facts
          ∧ types_of facts = [TransactionEventType.BANK_PROCESSING_FAILED;
                              TransactionEventType.CASE_OPENED]
  | Throw _ => w_db w' = w_db w1
  end.
Proof.
  intros Hok Hb Hex He. rewrite (attempt_throws _ _ _ _ _ _ _ Hb He), Hex.
  unfold mbind at 1, Eff_bind at 1.
  destruct (deadLetter i (error_message err) (t1, w1)) as [[u|e] [t2 w2]] eqn:Hd.
  - apply deadLetter_return in Hd as (-> & Ha & facts & Hrec & Hall & Htypes); [|done].
    cbn [mret Eff_ret]. split_and!; [done| | |].
    + exists (assign_abandoned i (error_message err) (w_now w1) t1).
      rewrite (recorded_transactions _ _ _ Hrec), elem_of_saved.
      split_and!; [by left|reflexivity..|exact Ha].
    + exists ((abandoned i (error_message err)) <| bi_updatedAt := w_now w1 |>).
      rewrite (recorded_instructions _ _ _ Hrec). split_and!; [| |done].
      * unfold saved, saved_instruction. simpl. apply elem_of_upsert.
      * unfold same_instruction. simpl. apply str_eqb_refl.
    + exists facts. split; [|done]. refine (recorded_chain _ _ _ _ _ Hrec Hall). exact Hok.
  - by eapply deadLetter_throws.
Qed.
(** A settled bank leg is never instructed again.  On a row whose bank leg was
    completed, failed or blocked, [attempt] does not depend on [execute]: it marks
    the instruction completed and calls no one. *)
Theorem settled_leg_is_not_replayed execute i t w :
  bank_settled t = true → instruction_fits i = true →
  attempt config execute i (t, w) =
    (Return SettledCompleted,
     (t, w <| w_db := saved_instruction (completed i) (w_now w) (w_db w) |>)).
Proof.
  intros Hb Hfit. unfold attempt, try_catch. erewrite bind_return by reflexivity. cbn [fst].
  rewrite Hb. erewrite bind_return by reflexivity. unfold mbind, Eff_bind, lift. cbn [fst snd].
  by rewrite save_instruction_eq by by apply completed_fits.
Qed.

(** [claimNext] takes the due instruction that has waited the longest among those
    no other instance has locked, with the row it is for; the instruction is then in
    flight, counts one attempt more, and is not due again before its lease ends. *)
Theorem claimNext_takes_oldest_due locked w i t w' :
  claimNext locked w = (Return (Some (i, t)), w') →
  ∃ j, j ∈ db_instructions (w_db w) ∧ due (w_now w) j = true ∧ locked j = false
    ∧ (∀ k, k ∈ db_instructions (w_db w) → due (w_now w) k = true → locked k = false →
         bi_nextAttemptAt j <= bi_nextAttemptAt k)
    ∧ List.find (by_reference (bi_transactionReference j)) (db_transactions (w_db w)) = Some t
    ∧ i = j <| bi_status := BankInstructionStatus.IN_FLIGHT |>
            <| bi_attempts := bi_attempts j + 1 |> <| bi_updatedAt := w_now w |>
    ∧ i ∈ db_instructions (w_db w')
    ∧ ∀ date, date < w_now w + IN_FLIGHT_LEASE_MS → due date i = false.
Proof.
  unfold claimNext. intros (date & w0 & [= <- <-] & H)%transaction_inv%bind_inv.
  apply bind_inv in H as (d & w0 & [= <- <-] & H).
  destruct (next_due locked (w_now w) (w_db w)) as [j|] eqn:Hj; [|done].
  apply bind_inv in H as (o & w1 & (d & w2 & [= <- <-] & [= <- <-])%bind_inv & H).
  destruct (List.find _ _) as [u|] eqn:Hu.
  2: { apply bind_inv in H as (? & ? & _ & H). discriminate H. }
  apply bind_inv in H as (k & w1 & Hk & [= <- <- <-]).
  assert (Hk' := Hk). apply save_instruction_return in Hk' as [-> Hfit].
  rewrite save_instruction_eq in Hk by done. injection Hk as <-.
  unfold next_due in Hj. apply head_sort_by in Hj as [Hin Hmin].
  rewrite list_elem_of_In, filter_In, <- list_elem_of_In, andb_true_iff, negb_true_iff in Hin.
  destruct Hin as (Hin & Hdue & Hlock). exists j. split_and!; [done..| |done|done| |].
  - intros k Hk1 Hk2 Hk3. apply Hmin.
    by rewrite list_elem_of_In, filter_In, <- list_elem_of_In, Hk2, Hk3.
  - apply elem_of_upsert.
  - intros date Hdate. unfold due. simpl. apply Z.leb_gt. lia.
Qed.

(** A long error is never dead-lettered.  [deadLetter] cuts the reason to 1024
    units but [failure_reason] holds 512 characters: when the last attempt fails with a
    message that is still longer once cut, the transaction that would open the debt is refused, the error
    escapes from the worker and the database is as [execute] left it. *)
Theorem long_reason_is_never_dead_lettered execute i t w err t1 w1 :
  bank_settled t = false → exhausted config i = true → instruction_fits i = true →
  execute (t, w) = (Throw err, (t1, w1)) → fits 512 (slice 1024 (error_message err)) = false →
  ∃ w', attempt config execute i (t, w)
    = (Throw (QueryFailedError PG_STRING_TRUNCATION ""), (t1, w')) ∧ w_db w' = w_db w1.
Proof.
  intros Hb Hex Hfit He Hlong. rewrite (attempt_throws _ _ _ _ _ _ _ Hb He), Hex.
  assert (Hrefused : ∃ w', deadLetter i (error_message err) (t1, w1)
    = (Throw (QueryFailedError PG_STRING_TRUNCATION ""), (t1, w'))).
  { unfold deadLetter. erewrite bind_return by reflexivity. cbv zeta. cbn [fst].
    unfold lift. cbn [fst snd]. unfold transaction, atomic.
    erewrite bind_return by reflexivity. erewrite bind_throw.
    2: { erewrite bind_return by reflexivity.
      erewrite bind_return by by apply save_instruction_eq, abandoned_fits.
      erewrite bind_throw; [reflexivity|].
      unfold save_transaction. erewrite bind_return by reflexivity.
      erewrite bind_throw; [reflexivity|]. unfold transaction_error.
      replace (transaction_fits _) with false; [reflexivity|]. symmetry.
      eapply long_reason_unfit; [reflexivity|]. by apply Nat.leb_gt. }
    by eexists. }
  destruct Hrefused as [w' Hrefused]. exists w'. split; [by erewrite bind_throw by exact Hrefused|].
  by eapply deadLetter_throws.
Qed.
End attempts.

(** * Witnesses *)

#[local] Existing Instances Toy.hashing Toy.entropy Toy.xsd sample_texts.

(** The instruction of [sample_payment], attempted [attempts] times. *)
Definition sample_instruction (attempts : Z) : BankInstruction :=
  mkBankInstruction "TRF-1" BankInstructionStatus.IN_FLIGHT attempts 0 None true "c" 0.

Definition sample_queue (attempts : Z) : World :=
  sample_world <| w_db := (w_db sample_world)
    <| db_instructions := [sample_instruction attempts] |> |>.

Lemma sample_queue_ok attempts : ledger_ok (w_db (sample_queue attempts)).
Proof. intros reference. split; [exact I|]. simpl. lia. Qed.

Definition failing (message : string) : Ent unit := throw (PlainError message).

Lemma failed_attempt_is_rescheduled_witness :
  ∃ next w', attempt sample_config (failing "timeout") (sample_instruction 2)
               (sample_payment, sample_queue 2) = (Return SettledRetry, (sample_payment, w'))
    ∧ next <= w_now w' + 30000.
Proof.
  destruct (failed_attempt_is_rescheduled sample_config (failing "timeout") (sample_instruction 2)
    sample_payment (sample_queue 2) (PlainError "timeout") sample_payment (sample_queue 2))
    as (next & Hrun & Hb & _); [reflexivity|reflexivity|reflexivity|simpl; lia|reflexivity|].
  eexists next, _. split; [exact Hrun|]. exact (proj2 Hb).
Defined.

Lemma exhausted_attempt_opens_debt_witness :
  ∃ w', attempt sample_config (failing "timeout") (sample_instruction 4)
          (sample_payment, sample_queue 4) = (Return SettledDeadLetter, (sample_payment, w'))
    ∧ ∃ facts, chain_of "TRF-1" (w_db w') = chain_of "TRF-1" (w_db (sample_queue 4)) ++ facts
        ∧ types_of facts = [TransactionEventType.BANK_PROCESSING_FAILED;
                            TransactionEventType.CASE_OPENED].
Proof.
  assert (Hrun : ∃ w', attempt sample_config (failing "timeout") (sample_instruction 4)
    (sample_payment, sample_queue 4) = (Return SettledDeadLetter, (sample_payment, w'))).
  { eexists. vm_compute. reflexivity. }
  destruct Hrun as (w' & Hrun). exists w'. split; [exact Hrun|].
  assert (H := exhausted_attempt_opens_debt sample_config (failing "timeout") (sample_instruction 4)
    sample_payment (sample_queue 4) (PlainError "timeout") sample_payment (sample_queue 4)
    (sample_queue_ok 4) eq_refl eq_refl eq_refl).
  rewrite Hrun in H. destruct H as (_ & _ & _ & H). exact H.
Defined.

Lemma settled_leg_is_not_replayed_witness :
  ∃ w', attempt sample_config (failing "unreachable") (sample_instruction 4)
          (sample_done 1000, sample_queue 4) = (Return SettledCompleted, (sample_done 1000, w')).
Proof.
  eexists. apply (settled_leg_is_not_replayed sample_config (failing "unreachable")
    (sample_instruction 4) (sample_done 1000) (sample_queue 4)); reflexivity.
Defined.

Lemma claimNext_takes_oldest_due_witness :
  ∃ i w', claimNext (λ _, false) (sample_queue 1) = (Return (Some (i, sample_payment)), w')
    ∧ due (w_now (sample_queue 1)) i = false.
Proof.
  assert (Hrun : ∃ i w', claimNext (λ _, false) (sample_queue 1) = (Return (Some (i, sample_payment)), w')).
  { eexists _, _. vm_compute. reflexivity. }
  destruct Hrun as (i & w' & Hrun). exists i, w'. split; [exact Hrun|].
  destruct (claimNext_takes_oldest_due (λ _, false) (sample_queue 1) i sample_payment w' Hrun)
    as (j & _ & _ & _ & _ & _ & _ & _ & Hlease).
  apply Hlease. unfold IN_FLIGHT_LEASE_MS. lia.
Defined.

(** A message of six hundred characters. *)
Definition long_message : string := String.concat "" (replicate 600 "x").

Lemma long_reason_is_never_dead_lettered_witness :
  ∃ w', attempt sample_config (failing long_message) (sample_instruction 4)
          (sample_payment, sample_queue 4)
        = (Throw (QueryFailedError PG_STRING_TRUNCATION ""), (sample_payment, w')).
Proof.
  destruct (long_reason_is_never_dead_lettered sample_config (failing long_message)
    (sample_instruction 4) sample_payment (sample_queue 4) (PlainError long_message)
    sample_payment (sample_queue 4)) as (w' & Hrun & _);
    [reflexivity|reflexivity|reflexivity|reflexivity|vm_compute; reflexivity|exists w'; exact Hrun].
Defined.
