(* ===== verification/Webhook.v ===== *)
(** Callbacks of the aggregator and execution of bank instructions:
    [src/mobile-money/mobile-money-webhook.service.ts].

    [handle] authenticates a notification, claims it so that it is processed once,
    and applies it; [executeBankInstruction] calls the bank and applies its answer.
    Audit entries, which never fail, and metrics are left out. *)
From S2P Require Import Prelude Text Domain StateMachine Money External Fingerprint EventXml.
From S2P Require Import Database Ledger EventLedger Ports Services Reconciliation MobileMoney.
From S2P Require Import BankWorker.
Open Scope Z_scope.

Definition STALE_CLAIM_MS : Z := 5 * 60000.

(** [createHmac('sha256', secret).update(text).digest('hex')] *)
Class Hmac := { hmacSha256 : string → string → string }.

(** * Signature *)

(** The fields that are signed, as text. *)
Definition payload_fields (payload : MobileMoneyWebhookDto) : list string :=
  [dto_eventId payload; dto_aggregatorReference payload;
   MobileMoneyWebhookStatus.show (dto_status payload); toFixed2 (dto_amount payload);
   dto_currency payload; dto_occurredAt payload; or_default (dto_failureReason payload) ""].

(** [`${Buffer.byteLength(value)}:${value}`] *)
Definition prefixed (value : string) : string :=
  pretty (Z.of_nat (String.length value)) +:+ ":" +:+ value.

Definition canonicalPayload (payload : MobileMoneyWebhookDto) : string :=
  String.concat "|" (prefixed <$> payload_fields payload).

Section Webhook.
Context {HH : Hashing} {HX : XsdEngine} {HE : Entropy} {HD : DateParser} {HM : Hmac}
  {HS : SoapClient} {HT : ErrorText}.
Context (config : MobileMoneyConfig).

Definition sign (payload : MobileMoneyWebhookDto) : string :=
  "sha256=" +:+ hmacSha256 (mm_webhookSecret config) (canonicalPayload payload).

Definition verifySignature (payload : MobileMoneyWebhookDto) (signature : option string) :
    App unit :=
  throw_unless (str_eqb (or_default signature "") (sign payload))
    (HttpException 401 "INVALID_WEBHOOK_SIGNATURE").

(** * Claiming a notification *)

Definition webhook_of (eventId : string) (e : MobileMoneyWebhookEvent) : bool :=
  str_eqb (wh_eventId e) eventId.

Definition isClaimExpired (date : Z) (event : MobileMoneyWebhookEvent) : bool :=
  STALE_CLAIM_MS <? date - wh_updatedAt event.

Definition register (payload : MobileMoneyWebhookDto) : App MobileMoneyWebhookEvent :=
  try_catch
    (insert_webhook (mkMobileMoneyWebhookEvent (dto_eventId payload)
       (dto_aggregatorReference payload) WebhookProcessingStatus.RECEIVED payload None None 0))
    (λ error,
      if negb (isUniqueViolation error) then throw error
      else
        event ← find_webhook_or_fail (dto_eventId payload);
        throw_unless (str_eqb (wh_aggregatorReference event) (dto_aggregatorReference payload)
                      && str_eqb (canonicalPayload (wh_payload event)) (canonicalPayload payload))
          (HttpException 409 "WEBHOOK_EVENT_CONFLICT") ;;
        mret event).

(** Other sessions may commit between the reading of the event and its claim. *)
Definition registerAndClaim (interfere : Db → Db) (payload : MobileMoneyWebhookDto) :
    App (MobileMoneyWebhookEvent * bool) :=
  event ← register payload;
  date ← now;
  if is_eq (wh_processingStatus event) WebhookProcessingStatus.PROCESSED then mret (event, false)
  else if is_eq (wh_processingStatus event) WebhookProcessingStatus.PROCESSING
          && negb (isClaimExpired date event) then mret (event, false)
  else
    modify_db interfere ;;
    affected ← update_webhooks
      (λ e, webhook_of (wh_eventId event) e
            && is_eq (wh_processingStatus e) (wh_processingStatus event))
      (λ e, e <| wh_processingStatus := WebhookProcessingStatus.PROCESSING |>
              <| wh_failureReason := None |>);
    if negb (Nat.eqb affected 1) then
      event ← find_webhook_or_fail (wh_eventId event); mret (event, false)
    else mret (event <| wh_processingStatus := WebhookProcessingStatus.PROCESSING |>, true).

(** * Applying a notification *)

Definition handleConfirmation (t : Transaction) (payload : MobileMoneyWebhookDto) :
    App Transaction :=
  claim ← confirmAndClaimBankProcessing config t payload (λ confirmed, enqueue confirmed ;; mret tt);
  if negb (claim.2) then
    if is_matched claim.1 then with_entity claim.1 reconcile else mret claim.1
  else mret claim.1.

Definition apply_notification (payload : MobileMoneyWebhookDto) : App Transaction :=
  current ← findByAggregatorReference (dto_aggregatorReference payload);
  match dto_status payload with
  | MobileMoneyWebhookStatus.FAILED => markProviderFailed current payload
  | MobileMoneyWebhookStatus.CONFIRMED => handleConfirmation current payload
  end.

Definition handle_under (interfere : Db → Db) (payload : MobileMoneyWebhookDto)
    (signature : option string) : App Transaction :=
  verifySignature payload signature ;;
  claim ← registerAndClaim interfere payload;
  let event := claim.1 in
  if negb claim.2 then findByAggregatorReference (dto_aggregatorReference payload)
  else
    try_catch
      (result ← apply_notification payload;
       date ← now;
       save_webhook (event <| wh_processingStatus := WebhookProcessingStatus.PROCESSED |>
         <| wh_processedAt := Some date |> <| wh_failureReason := None |>) ;;
       mret result)
      (λ error,
        save_webhook (event <| wh_processingStatus := WebhookProcessingStatus.FAILED |>
          <| wh_failureReason := Some (slice 1024 (error_message error)) |>) ;;
        throw error).

Definition handle := handle_under (λ d, d).

(** * Executing an instruction *)

Definition assign_executed (amountInWords : string) (exchange : SoapExchange) (date : Z)
    (t : Transaction) : Transaction :=
  t <| tx_status := TransactionStatus.COMPLETED |>
    <| tx_bankStatus := Some BankProcessingStatus.COMPLETED |>
    <| tx_amountInWords := Some amountInWords |>
    <| tx_soapOperation := Some (sx_operation exchange) |>
    <| tx_soapDurationMs := Some (sx_durationMs exchange) |>
    <| tx_soapAttempts := Some (sx_attempts exchange) |>
    <| tx_processedAt := Some date |>.

(** The first transaction of [applyBankSuccess]: the row and its fact. *)
Definition persist_execution (before : TransactionState) (exchange : SoapExchange)
    (t : Transaction) : App Transaction :=
  transaction
    (persisted ← save_transaction t;
     assertTransition before (stateOf persisted) (tx_reference persisted) ;;
     record true (event_input TransactionEventType.BANK_PROCESSING_COMPLETED persisted
       (Some ("Instruction bancaire executee en " +:+ pretty (sx_durationMs exchange) +:+ " ms"))) ;;
     mret persisted).

Definition applyBankSuccess (before : TransactionState) (bankResult : string * SoapExchange) :
    Ent Transaction :=
  let exchange := bankResult.2 in
  date ← lift now;
  assigns (assign_executed bankResult.1 exchange date) ;;
  t ← entity;
  lift (persist_execution before exchange t) ;;
  reconcile.

Definition assign_bank_failure (error : GatewayError) (date : Z) (t : Transaction) : Transaction :=
  let t := t
    <| tx_status := TransactionStatus.FAILED |>
    <| tx_bankStatus := Some BankProcessingStatus.FAILED |>
    <| tx_reconciliationStatus := Some ReconciliationStatus.MANUAL_REVIEW |>
    <| tx_reconciliationReason :=
         Some "Confirmation Mobile Money recue mais echec du traitement bancaire SOAP" |>
    <| tx_failureReason := Some (error_message error) |>
    <| tx_processedAt := Some date |>
    <| tx_refundStatus := RefundStatus.REQUIRED |>
    <| tx_caseStatus := CaseStatus.MANUAL_REVIEW |>
    <| tx_caseReason := Some ("Encaissement fournisseur confirme, instruction bancaire en echec : "
                              +:+ "remboursement du payeur a instruire") |> in
  match error with
  | SoapFaultException operation faultCode faultString =>
      t <| tx_soapOperation := Some operation |> <| tx_faultCode := Some faultCode |>
        <| tx_faultString := Some faultString |>
  | SoapCommunicationException operation _ attempts _ =>
      t <| tx_soapOperation := Some operation |> <| tx_soapAttempts := Some attempts |>
  | _ => t
  end.

(** The transaction of [handleBankFailure]: the row, the failure and the debt it opens. *)
Definition persist_bank_failure (before : TransactionState) (t : Transaction) : App Transaction :=
  transaction
    (failed ← save_transaction t;
     assertTransition before (stateOf failed) (tx_reference failed) ;;
     record true (event_input TransactionEventType.BANK_PROCESSING_FAILED failed
                    (tx_failureReason failed)) ;;
     record true (event_input TransactionEventType.CASE_OPENED failed (tx_caseReason failed)) ;;
     mret failed).

Definition handleBankFailure (before : TransactionState) (error : GatewayError) :
    Ent Transaction :=
  date ← lift now;
  assigns (assign_bank_failure error date) ;;
  t ← entity;
  lift (persist_bank_failure before t).

Definition is_fault (error : GatewayError) : bool :=
  match error with SoapFaultException _ _ _ => true | _ => false end.

(** The [try] around the call: its result, or the fault that is a refusal. *)
Definition call_bank (amount : Z) : Ent ((string * SoapExchange) + GatewayError) :=
  try_catch (result ← lift (convertAmountToWords amount); mret (inl result))
    (λ error, if is_fault error then mret (inr error) else throw error).

Definition executeBankInstruction : Ent Transaction :=
  t ← entity;
  let before := stateOf t in
  answer ← call_bank (tx_amount t);
  match answer with
  | inl result => applyBankSuccess before result
  | inr error => handleBankFailure before error
  end.

(** [MobileMoneyModule.onModuleInit]: what the worker executes. *)
Definition executor : Ent unit := executeBankInstruction ;; mret tt.

(** * Lemmas *)

Lemma register_refines payload : Respects (on_db ledger_refines) (register payload).
Proof. unfold register. respects. Qed.
#[local] Hint Resolve register_refines : effects.

Lemma registerAndClaim_refines interfere payload :
  (∀ d, ledger_refines d (interfere d)) →
  Respects (on_db ledger_refines) (registerAndClaim interfere payload).
Proof.
  intros Hint. pose proof (modify_db_refines interfere Hint). unfold registerAndClaim. respects.
Qed.

Lemma apply_notification_refines payload :
  Respects (on_db ledger_refines) (apply_notification payload).
Proof. unfold apply_notification, handleConfirmation. respects. apply confirm_refines. intros u. respects. Qed.
#[local] Hint Resolve apply_notification_refines : effects.

Lemma handle_under_refines interfere payload signature :
  (∀ d, ledger_refines d (interfere d)) →
  Respects (on_db ledger_refines) (handle_under interfere payload signature).
Proof.
  intros Hint. pose proof (registerAndClaim_refines interfere payload Hint).
  unfold handle_under, verifySignature. respects.
Qed.

Lemma handle_refines payload signature :
  Respects (on_db ledger_refines) (handle payload signature).
Proof. apply handle_under_refines. by intros d ?; apply rtc_refl. Qed.

Lemma persist_execution_refines before exchange t :
  Respects (on_db ledger_refines) (persist_execution before exchange t).
Proof. unfold persist_execution. respects. Qed.

Lemma persist_bank_failure_refines before t :
  Respects (on_db ledger_refines) (persist_bank_failure before t).
Proof. unfold persist_bank_failure. respects. Qed.
#[local] Hint Resolve persist_execution_refines persist_bank_failure_refines : effects.

Lemma executeBankInstruction_refines : Respects (on_ent ledger_refines) executeBankInstruction.
Proof.
  unfold executeBankInstruction, call_bank, applyBankSuccess, handleBankFailure. respects.
Qed.
#[local] Hint Resolve executeBankInstruction_refines : effects.

Lemma executor_refines : Respects (on_ent ledger_refines) executor.
Proof. unfold executor. respects. Qed.
End Webhook.

#[export] Hint Resolve handle_refines executeBankInstruction_refines executor_refines : effects.

(** * The signed text *)

Lemma prefixed_inj a b x y : prefixed a +:+ x = prefixed b +:+ y → a = b ∧ x = y.
Proof.
  unfold prefixed. rewrite !append_assoc. intros Heq.
  apply (cut_inj is_digit ":"%char) in Heq as [Hn Heq]; [|done|apply pretty_Z_digits; lia..].
  apply (inj pretty) in Hn. apply append_inj in Heq; [|lia]. exact Heq.
Qed.

Lemma concat_prefixed_inj l l' :
  length l = length l' →
  String.concat "|" (prefixed <$> l) = String.concat "|" (prefixed <$> l') → l = l'.
Proof.
  assert (Hlast : ∀ a b, prefixed a = prefixed b → a = b).
  { intros a b Heq. by apply (prefixed_inj a b "" ""); rewrite Heq. }
  revert l'. induction l as [|a l IH]; intros [|b l'] Hlen; try discriminate Hlen; [done|].
  injection Hlen as Hlen. destruct l as [|a2 l], l' as [|b2 l']; try discriminate Hlen.
  - intros Heq. by rewrite (Hlast a b Heq).
  - intros Heq.
    change (prefixed a +:+ ("|" +:+ String.concat "|" (prefixed <$> a2 :: l))
            = prefixed b +:+ ("|" +:+ String.concat "|" (prefixed <$> b2 :: l'))) in Heq.
    apply prefixed_inj in Heq as [-> Heq]. apply (append_inj "|" _ "|") in Heq as [_ Heq]; [|done].
    by rewrite (IH (b2 :: l')).
Qed.

(** The signed text determines the notification: two payloads with one canonical
    text have the same event, aggregator reference, status, amount, currency, date
    and failure reason (an absent reason reads as an empty one), whatever
    characters the fields contain. *)
Theorem canonicalPayload_injective p q :
  canonicalPayload p = canonicalPayload q →
  dto_eventId p = dto_eventId q ∧ dto_aggregatorReference p = dto_aggregatorReference q
  ∧ dto_status p = dto_status q ∧ dto_amount p = dto_amount q
  ∧ dto_currency p = dto_currency q ∧ dto_occurredAt p = dto_occurredAt q
  ∧ or_default (dto_failureReason p) "" = or_default (dto_failureReason q) "".
Proof.
  intros Heq. apply concat_prefixed_inj in Heq; [|done].
  unfold payload_fields in Heq. injection Heq as H1 H2 H3 H4 H5 H6 H7.
  split_and!; try done; [|by apply toFixed2_inj].
  by destruct (dto_status p), (dto_status q).
Qed.

(** * What a callback does *)

Section callbacks.
Context {HH : Hashing} {HX : XsdEngine} {HE : Entropy} {HD : DateParser} {HM : Hmac}
  {HS : SoapClient} {HT : ErrorText}.
Context (config : MobileMoneyConfig).

(** An unsigned callback does nothing.  A notification whose signature is not the
    one of its content is answered 401 and leaves the whole state as it was; in
    particular the signature of one notification is accepted on another only if
    they agree on every signed field or their texts collide under the HMAC. *)
Theorem forged_callback_is_refused interfere payload signature w :
  (or_default signature "" ≠ sign config payload →
   handle_under config interfere payload signature w
     = (Throw (HttpException 401 "INVALID_WEBHOOK_SIGNATURE"), w))
  ∧ ∀ other, sign config other = sign config payload →
      payload_fields other = payload_fields payload
      ∨ (canonicalPayload other ≠ canonicalPayload payload
         ∧ hmacSha256 (mm_webhookSecret config) (canonicalPayload other)
           = hmacSha256 (mm_webhookSecret config) (canonicalPayload payload)).
Proof.
  split.
  - intros Hne. unfold handle_under, verifySignature.
    replace (str_eqb _ _) with false; [done|]. symmetry.
    apply not_true_iff_false. by rewrite str_eqb_spec.
  - intros other Hs. apply (append_inj "sha256=" _ "sha256=") in Hs as [_ Hs]; [|done].
    destruct (String.string_dec (canonicalPayload other) (canonicalPayload payload)) as [Heq|Hne].
    + left. by apply concat_prefixed_inj in Heq.
    + by right.
Qed.
(** The notification fits the columns, as validation requires. *)
Definition registrable (payload : MobileMoneyWebhookDto) : bool :=
  fits 128 (dto_eventId payload) && fits 64 (dto_aggregatorReference payload).

Definition webhook_row (eventId : string) (d : Db) : option MobileMoneyWebhookEvent :=
  List.find (webhook_of eventId) (db_webhooks d).

(** The row of an event already received, against a new notification. *)
Definition same_content (event : MobileMoneyWebhookEvent) (payload : MobileMoneyWebhookDto) : bool :=
  str_eqb (wh_aggregatorReference event) (dto_aggregatorReference payload)
  && str_eqb (canonicalPayload (wh_payload event)) (canonicalPayload payload).

Lemma webhook_row_id eventId d event : webhook_row eventId d = Some event → wh_eventId event = eventId.
Proof. intros [_ H]%find_some. by apply str_eqb_spec. Qed.

Lemma register_known payload event w :
  registrable payload = true → webhook_row (dto_eventId payload) (w_db w) = Some event →
  register payload w =
    (if same_content event payload then Return event
     else Throw (HttpException 409 "WEBHOOK_EVENT_CONFLICT"), w).
Proof.
  intros Hfit Hrow. unfold register, try_catch.
  set (fresh := mkMobileMoneyWebhookEvent _ _ _ _ _ _ _).
  assert (Hins : insert_webhook fresh w = (Throw (QueryFailedError PG_UNIQUE_VIOLATION "UQ_mm_webhook_event_id"), w)).
  { unfold insert_webhook. erewrite bind_return by reflexivity. erewrite bind_return by reflexivity.
    erewrite bind_return by (unfold throw_unless; simpl; unfold registrable in Hfit; by rewrite Hfit).
    erewrite bind_throw; [reflexivity|]. unfold throw_unless.
    replace (existsb _ _) with true; [done|]. symmetry. apply existsb_exists.
    apply find_some in Hrow as [Hin Hid]. exists event. split; [done|].
    unfold same_webhook. simpl. unfold webhook_of in Hid. apply str_eqb_spec in Hid as ->.
    apply str_eqb_refl. }
  rewrite Hins. cbn [isUniqueViolation]. rewrite str_eqb_refl. cbn [negb].
  erewrite bind_return.
  2: { unfold find_webhook_or_fail. erewrite bind_return by reflexivity.
       unfold webhook_row, webhook_of in Hrow. by rewrite Hrow. }
  unfold same_content. unfold mbind, Eff_bind, throw_unless.
  by destruct (_ && _).
Qed.

(** C13. A notification is applied once.  When its event was already processed, or is
    being processed by another instance whose claim has not expired, [handle] only
    answers the payment as it stands and writes nothing; with another content under
    the same event identifier it answers 409 and writes nothing. *)
Theorem callback_is_applied_once interfere payload event w :
  registrable payload = true → webhook_row (dto_eventId payload) (w_db w) = Some event →
  (same_content event payload = false →
   handle_under config interfere payload (Some (sign config payload)) w
     = (Throw (HttpException 409 "WEBHOOK_EVENT_CONFLICT"), w))
  ∧ (same_content event payload = true →
     wh_processingStatus event = WebhookProcessingStatus.PROCESSED
     ∨ wh_processingStatus event = WebhookProcessingStatus.PROCESSING
       ∧ isClaimExpired (w_now w) event = false →
     handle_under config interfere payload (Some (sign config payload)) w
       = findByAggregatorReference (dto_aggregatorReference payload) w
     ∧ w_db (handle_under config interfere payload (Some (sign config payload)) w).2 = w_db w).
Proof.
  intros Hfit Hrow. assert (Hreg := register_known _ _ _ Hfit Hrow).
  assert (Hsig : verifySignature config payload (Some (sign config payload)) w = (Return tt, w)).
  { unfold verifySignature. simpl. by rewrite str_eqb_refl. }
  split.
  - intros Hc. rewrite Hc in Hreg. unfold handle_under. erewrite bind_return by exact Hsig.
    unfold registerAndClaim. erewrite bind_throw; [reflexivity|]. by erewrite bind_throw by exact Hreg.
  - intros Hc Hst. rewrite Hc in Hreg.
    assert (Heq : handle_under config interfere payload (Some (sign config payload)) w
      = findByAggregatorReference (dto_aggregatorReference payload) w).
    { unfold handle_under. erewrite bind_return by exact Hsig.
      assert (Hclaim : registerAndClaim interfere payload w = (Return (event, false), w)).
      { unfold registerAndClaim. erewrite bind_return by exact Hreg.
        erewrite bind_return by reflexivity.
        destruct Hst as [-> | [-> Hexp]]; [done|]. by rewrite Hexp. }
      by erewrite bind_return by exact Hclaim. }
    split; [done|]. rewrite Heq.
    unfold findByAggregatorReference, find_transaction, or_not_found, mbind, Eff_bind. simpl.
    destruct (List.find _ _) as [t|]; [by destruct (is_mobile_money t)|done].
Qed.

Lemma find_upsert_webhook event rows :
  List.find (webhook_of (wh_eventId event)) (upsert same_webhook event rows) = Some event.
Proof. apply find_upsert; [intros f; apply str_eqb_sym|apply str_eqb_refl]. Qed.

(** An event that is neither processed nor under way is claimed. *)
Lemma registered_again payload event w :
  registrable payload = true → webhook_row (dto_eventId payload) (w_db w) = Some event →
  same_content event payload = true → NoDup (wh_eventId <$> db_webhooks (w_db w)) →
  wh_processingStatus event = WebhookProcessingStatus.FAILED
  ∨ wh_processingStatus event = WebhookProcessingStatus.RECEIVED →
  ∃ row w', registerAndClaim (λ d, d) payload w = (Return (row, true), w').
Proof.
  intros Hfit Hrow Hsame Hdup Hst. assert (Hreg := register_known _ _ _ Hfit Hrow).
  rewrite Hsame in Hreg. unfold registerAndClaim. erewrite bind_return by exact Hreg.
  erewrite bind_return by reflexivity.
  rewrite bool_decide_false by (destruct Hst as [-> | ->]; discriminate).
  rewrite (bool_decide_false (wh_processingStatus event = WebhookProcessingStatus.PROCESSING))
    by (destruct Hst as [-> | ->]; discriminate). cbn [andb].
  erewrite bind_return by reflexivity.
  assert (Haff : affected (λ e, webhook_of (wh_eventId event) e
      && is_eq (wh_processingStatus e) (wh_processingStatus event)) (db_webhooks (w_db w)) = 1%nat).
  { rewrite (affected_keyed wh_eventId _ _ event Hdup).
    - unfold webhook_of. by rewrite str_eqb_refl, bool_decide_true.
    - apply find_some in Hrow as [Hin _]. by apply list_elem_of_In.
    - intros x [Hx _]%andb_true_iff. by apply str_eqb_spec. }
  unfold update_webhooks, get_db, now, mbind, Eff_bind. simpl. rewrite Haff. by eexists _, _.
Qed.

(** C16. A failed callback is handed back.  When the processing of a claimed
    notification throws, [handle] rethrows the same error, the event is left FAILED
    with its reason and nothing else is written after the failure; the same
    notification is then claimed again, so that no confirmation is lost. *)
Theorem failed_callback_is_released payload event w w1 w2 err :
  registrable payload = true → NoDup (wh_eventId <$> db_webhooks (w_db w2)) →
  registerAndClaim (λ d, d) payload w = (Return (event, true), w1) →
  same_content event payload = true →
  apply_notification config payload w1 = (Throw err, w2) →
  ∃ w3, handle config payload (Some (sign config payload)) w = (Throw err, w3)
    ∧ (∃ row, webhook_row (dto_eventId payload) (w_db w3) = Some row
         ∧ wh_processingStatus row = WebhookProcessingStatus.FAILED
         ∧ wh_failureReason row = Some (slice 1024 (error_message err)))
    ∧ db_transactions (w_db w3) = db_transactions (w_db w2)
    ∧ db_events (w_db w3) = db_events (w_db w2)
    ∧ db_instructions (w_db w3) = db_instructions (w_db w2)
    ∧ ∃ row w4, registerAndClaim (λ d, d) payload w3 = (Return (row, true), w4).
Proof.
  intros Hfit Hdup Hclaim Hsame Happly.
  assert (Hid : wh_eventId event = dto_eventId payload).
  { unfold registerAndClaim in Hclaim. apply bind_inv in Hclaim as (e & w4 & Hreg & H).
    assert (He : wh_eventId e = dto_eventId payload).
    { revert Hreg. unfold register, try_catch.
      destruct (insert_webhook _ w) as [[f|e'] w5] eqn:Hins.
      - intros [= <- <-]. revert Hins. unfold insert_webhook, now, get_db, throw_unless, mbind, Eff_bind.
        simpl. destruct (fits 128 _ && _); [|done]. destruct (negb _); [|done]. by intros [= <- _].
      - destruct (negb _); [done|]. intros (g & w6 & Hg & H')%bind_inv.
        apply bind_inv in H' as (? & ? & ? & [= <- <-]).
        revert Hg. unfold find_webhook_or_fail, get_db, mbind, Eff_bind. simpl.
        destruct (List.find _ _) as [r|] eqn:Hf; [|done]. intros [= <- _].
        apply find_some in Hf as [_ Hf]. by apply str_eqb_spec. }
    apply bind_inv in H as (date & w5 & _ & H).
    destruct (is_eq _ _); [done|]. destruct (_ && negb _); [done|].
    apply bind_inv in H as (? & w6 & _ & H). apply bind_inv in H as (n & w7 & _ & H).
    destruct (negb _); [by apply bind_inv in H as (? & ? & _ & [=])|].
    by injection H as <- _. }
  assert (Hsig : verifySignature config payload (Some (sign config payload)) w = (Return tt, w)).
  { unfold verifySignature. simpl. by rewrite str_eqb_refl. }
  set (row := event <| wh_processingStatus := WebhookProcessingStatus.FAILED |>
    <| wh_failureReason := Some (slice 1024 (error_message err)) |>).
  set (row' := row <| wh_updatedAt := w_now w2 |>).
  set (w3 := w2 <| w_db := (w_db w2) <| db_webhooks :=
    upsert same_webhook row' (db_webhooks (w_db w2)) |> |>).
  assert (Hrow : webhook_row (dto_eventId payload) (w_db w3) = Some row').
  { unfold webhook_row. rewrite <- Hid. exact (find_upsert_webhook row' _). }
  exists w3. split_and!; try done.
  - unfold handle, handle_under. erewrite bind_return by exact Hsig.
    erewrite bind_return by exact Hclaim. cbv zeta. cbn [fst snd negb].
    unfold try_catch. erewrite bind_throw by exact Happly.
    erewrite bind_return; [reflexivity|]. unfold save_webhook.
    erewrite bind_return by reflexivity. erewrite bind_return by reflexivity.
    erewrite bind_return; [reflexivity|]. unfold throw_unless. simpl. by rewrite slice_fits.
  - by exists row'.
  - apply (registered_again payload row' w3 Hfit Hrow); [done| |by left].
    exact (upsert_nodup wh_eventId row' _ Hdup).
Qed.
End callbacks.

(** * What the execution of an instruction does *)

Section execution.
Context {HH : Hashing} {HX : XsdEngine} {HE : Entropy} {HS : SoapClient} {HT : ErrorText}.

(** The history the bank sees. *)
Definition bank_history (t : Transaction) (w : World) : list ExternalCall :=
  w_calls w ++ [CallConvertAmountToWords (tx_amount t)].

Definition after_call (t : Transaction) (w : World) : World :=
  w <| w_calls := bank_history t w |>.

Lemma call_bank_eq t w :
  call_bank (tx_amount t) (t, w) =
    (match soap_convert (bank_history t w) (tx_amount t) with
     | Return result => Return (inl result)
     | Throw err => if is_fault err then Return (inr err) else Throw err
     end, (t, after_call t w)).
Proof.
  unfold call_bank, try_catch, convertAmountToWords, mbind, Eff_bind, lift. cbn [fst snd].
  rewrite ask_eq. fold (bank_history t w). destruct (soap_convert _ _) as [r|err]; [done|].
  by destruct (is_fault err).
Qed.

Definition executed (answer : string * SoapExchange) (t : Transaction) (w : World) : Transaction :=
  assign_executed answer.1 answer.2 (w_now w) t.

Lemma persist_execution_return before exchange t w r w' :
  ledger_ok (w_db w) → persist_execution before exchange t w = (Return r, w') →
  accepts before (stateOf t) = true
  ∧ ∃ fact, recorded (saved t (w_db w)) [fact] (w_db w')
      ∧ event_type fact = TransactionEventType.BANK_PROCESSING_COMPLETED
      ∧ event_reference fact = tx_reference t.
Proof.
  intros Hok. unfold persist_execution.
  intros (u & w1 & (-> & -> & _)%save_transaction_return & H)%transaction_inv%bind_inv.
  apply bind_inv in H as (b & w1 & [Ha ->]%assertTransition_return & H).
  apply bind_inv in H as (fact & w1 & Hrec & [= <- <-]).
  apply record_recorded in Hrec as (Hr & _ & Htype & Href & _); [|by apply saved_ok].
  split; [done|]. by exists fact.
Qed.

Lemma execute_success t w answer :
  soap_convert (bank_history t w) (tx_amount t) = Return answer →
  executeBankInstruction (t, w) =
    match persist_execution (stateOf t) answer.2 (executed answer t w) (after_call t w) with
    | (Return _, w1) => reconcile (executed answer t w, w1)
    | (Throw err, w1) => (Throw err, (executed answer t w, w1))
    end.
Proof.
  intros Hs. unfold executeBankInstruction. erewrite bind_return by reflexivity. cbv zeta. cbn [fst].
  erewrite bind_return by (by rewrite call_bank_eq, Hs).
  unfold applyBankSuccess. erewrite bind_return by reflexivity. erewrite bind_return by reflexivity.
  erewrite bind_return by reflexivity. cbn [fst snd].
  change (assign_executed answer.1 answer.2 (w_now (after_call t w)) t) with (executed answer t w).
  unfold mbind at 1, Eff_bind at 1, lift at 1. cbn [fst snd].
  by destruct (persist_execution _ _ _ _) as [[r|err] w1].
Qed.

(** C6. A positive answer of the bank is never lost once it is persisted.  On a
    confirmed payment, [executeBankInstruction] either fails before anything is
    written, or leaves the row completed with its [BANK_PROCESSING_COMPLETED] fact;
    the comparison that follows has its own transaction, so its failure does not
    undo that fact, and its success appends the verdict right after it. *)
Theorem executed_payment_is_kept t w answer :
  ledger_ok (w_db w) → tx_paymentChannel t = PaymentChannel.MOBILE_MONEY →
  tx_providerStatus t = Some ProviderStatus.CONFIRMED → is_matched t = false →
  soap_convert (bank_history t w) (tx_amount t) = Return answer →
  let '(o, (_, w')) := executeBankInstruction (t, w) in
  match o with
  | Throw _ => w_db w' = w_db w
      ∨ (∃ fact, recorded (saved (executed answer t w) (w_db w)) [fact] (w_db w')
           ∧ event_type fact = TransactionEventType.BANK_PROCESSING_COMPLETED)
  | Return r =>
      tx_bankStatus r = Some BankProcessingStatus.COMPLETED ∧ r ∈ db_transactions (w_db w')
      ∧ (is_matched r = true ↔ tx_aggregatorAmount t = Some (tx_amount t) ∧ currency_matches t = true)
      ∧ ∃ fact verdict rest,
          chain_of (tx_reference t) (w_db w')
            = chain_of (tx_reference t) (w_db w) ++ fact :: verdict :: rest
          ∧ event_type fact = TransactionEventType.BANK_PROCESSING_COMPLETED
          ∧ event_type verdict = (if is_matched r then TransactionEventType.RECONCILIATION_MATCHED
                                  else TransactionEventType.RECONCILIATION_MISMATCH)
          ∧ Forall (λ e, is_closing e = true) rest
  end.
Proof.
  intros Hok Hch Hprov Hm Hs. rewrite (execute_success _ _ _ Hs).
  set (t1 := executed answer t w).
  destruct (persist_execution _ _ _ _) as [[r|err] w1] eqn:Hp.
  2: { left. apply transaction_rolls_back in Hp. exact Hp. }
  apply persist_execution_return in Hp as (_ & fact & Hrec & Htype & Href); [|done].
  change (w_db (after_call t w)) with (w_db w) in Hrec.
  rewrite (reconcile_decides t1 w1); [|done|done|unfold both_legs_done; simpl; by rewrite Hprov].
  destruct (persist_verdict _ _ w1) as [[v|err] w2] eqn:Hv.
  2: { right. exists fact. split; [|done]. apply transaction_rolls_back in Hv. by rewrite Hv. }
  apply persist_verdict_return in Hv as (-> & _ & verdict & rest & Hrec2 & Href2 & Htype2 & Hno & Hyes);
    [|apply Hrec].
  set (r1 := assign_verdict (w_now w1) t1) in *. split_and!.
  - done.
  - rewrite (recorded_transactions _ _ _ Hrec2), elem_of_saved. by left.
  - unfold r1. rewrite is_matched_verdict, andb_true_iff, amount_matches_spec. done.
  - exists fact, verdict, rest. split_and!; [|done|done|].
    + rewrite (recorded_chain (tx_reference t) _ _ _ (saved_ok r1 _ (recorded_ok _ _ _ Hrec)) Hrec2).
      * change (chain_of (tx_reference t) (saved r1 (w_db w1))) with (chain_of (tx_reference t) (w_db w1)).
        rewrite (recorded_chain (tx_reference t) _ _ _ (saved_ok t1 _ Hok) Hrec) by by constructor.
        by rewrite <- app_assoc.
      * constructor; [done|]. destruct (is_matched r1); [|by rewrite Hno].
        destruct (Hyes eq_refl) as [Hall _]. eapply Forall_impl; [exact Hall|]. by intros e [? _].
    + destruct (is_matched r1); [|by rewrite Hno].
      destruct (Hyes eq_refl) as [Hall _]. eapply Forall_impl; [exact Hall|]. by intros e [_ ?].
Qed.
Lemma persist_bank_failure_return before t w r w' :
  ledger_ok (w_db w) → persist_bank_failure before t w = (Return r, w') →
  r = t ∧ accepts before (stateOf t) = true
  ∧ ∃ facts, recorded (saved t (w_db w)) facts (w_db w') ∧ all_of (tx_reference t) facts
      ∧ types_of facts = [TransactionEventType.BANK_PROCESSING_FAILED;
                          TransactionEventType.CASE_OPENED].
Proof.
  intros Hok. unfold persist_bank_failure.
  intros (u & w1 & (-> & -> & _)%save_transaction_return & H)%transaction_inv%bind_inv.
  apply bind_inv in H as (b & w1 & [Ha ->]%assertTransition_return & H).
  assert (H0 : recorded (saved t (w_db w)) [] (w_db (w <| w_db := saved t (w_db w) |>)))
    by exact (recorded_nil _ (saved_ok t _ Hok)).
  apply bind_inv in H as (e1 & w1 & (H1 & T1 & R1)%(record_step _ _ _ _ _ _ _ H0) & H).
  apply bind_inv in H as (e2 & w2 & (H2 & T2 & R2)%(record_step _ _ _ _ _ _ _ H1) & [= <- <-]).
  split_and!; [done..|]. eexists. split_and!; [exact H2| |].
  - unfold all_of. by repeat constructor.
  - unfold types_of. simpl. by rewrite T1, T2.
Qed.

(** C11. In one call of [executeBankInstruction], only a refusal of the bank opens a debt
    (the dead letter of the worker, after as many incidents as it allows, is another way).
    When the call throws, a SOAP fault makes [executeBankInstruction] return the failed
    row, refund required and case under review, with exactly the two facts that say so, or
    throw and write nothing; a transport incident is thrown as it is, to be retried, and leaves the
    row in memory and the database as they were. *)
Theorem refused_payment_opens_debt t w err :
  ledger_ok (w_db w) → soap_convert (bank_history t w) (tx_amount t) = Throw err →
  let '(o, (t', w')) := executeBankInstruction (t, w) in
  match o with
  | Return r =>
      is_fault err = true ∧ r ∈ db_transactions (w_db w')
      ∧ tx_bankStatus r = Some BankProcessingStatus.FAILED ∧ tx_status r = TransactionStatus.FAILED
      ∧ tx_refundStatus r = RefundStatus.REQUIRED ∧ tx_caseStatus r = CaseStatus.MANUAL_REVIEW
      ∧ accepts (stateOf t) (stateOf r) = true
      ∧ ∃ facts, chain_of (tx_reference t) (w_db w') = chain_of (tx_reference t) (w_db w) ++ facts
          ∧ types_of facts = [TransactionEventType.BANK_PROCESSING_FAILED;
                              TransactionEventType.CASE_OPENED]
  | Throw e => w_db w' = w_db w ∧ (is_fault err = false → e = err ∧ t' = t)
  end.
Proof.
  intros Hok Hs. unfold executeBankInstruction. erewrite bind_return by reflexivity. cbv zeta. cbn [fst].
  destruct (is_fault err) eqn:Hf.
  - erewrite bind_return by (rewrite call_bank_eq, Hs, Hf; reflexivity).
    unfold handleBankFailure. erewrite bind_return by reflexivity. erewrite bind_return by reflexivity.
    erewrite bind_return by reflexivity. cbn [fst snd].
    set (t1 := assign_bank_failure err _ t). unfold lift. cbn [fst snd].
    destruct (persist_bank_failure _ _ _) as [[r|e] w1] eqn:Hp.
    2: { split; [|done]. apply transaction_rolls_back in Hp. exact Hp. }
    apply persist_bank_failure_return in Hp as (-> & Ha & facts & Hrec & Hall & Htypes); [|done].
    assert (Hstate : tx_bankStatus t1 = Some BankProcessingStatus.FAILED
      ∧ tx_status t1 = TransactionStatus.FAILED ∧ tx_refundStatus t1 = RefundStatus.REQUIRED
      ∧ tx_caseStatus t1 = CaseStatus.MANUAL_REVIEW ∧ tx_reference t1 = tx_reference t)
      by by destruct err.
    destruct Hstate as (? & ? & ? & ? & Href). rewrite Href in Hall. split_and!; try done.
    + rewrite (recorded_transactions _ _ _ Hrec), elem_of_saved. by left.
    + exists facts. split; [|done]. exact (recorded_chain _ _ _ _ (saved_ok t1 _ Hok) Hrec Hall).
  - erewrite bind_throw by (rewrite call_bank_eq, Hs, Hf; reflexivity). done.
Qed.

(** After a positive answer, the row in memory is completed, whatever follows. *)
Lemma execute_success_entity t w answer :
  tx_paymentChannel t = PaymentChannel.MOBILE_MONEY →
  tx_providerStatus t = Some ProviderStatus.CONFIRMED → is_matched t = false →
  soap_convert (bank_history t w) (tx_amount t) = Return answer →
  tx_bankStatus (executeBankInstruction (t, w)).2.1 = Some BankProcessingStatus.COMPLETED.
Proof.
  intros Hch Hprov Hm Hs. rewrite (execute_success _ _ _ Hs). set (t1 := executed answer t w).
  destruct (persist_execution _ _ _ _) as [[r|err] w1]; [|done].
  rewrite (reconcile_decides t1 w1); [|done|done|unfold both_legs_done; simpl; by rewrite Hprov].
  by destruct (persist_verdict _ _ w1) as [o w2].
Qed.
End execution.

(** * The worker around the execution *)

Section worker.
Context {HH : Hashing} {HX : XsdEngine} {HE : Entropy} {HD : DateParser} {HM : Hmac}
  {HS : SoapClient} {HT : ErrorText}.
Context (config : MobileMoneyConfig).

Lemma completed_is_never_failed s1 s2 :
  st_bankStatus s1 = Some BankProcessingStatus.COMPLETED →
  st_bankStatus s2 = Some BankProcessingStatus.FAILED → accepts s1 s2 = false.
Proof.
  intros H1 H2. apply not_true_is_false. intros [Hm _]%accepts_spec.
  destruct Hm as [_ _ Hb _ _ _]. rewrite H1, H2 in Hb.
  destruct Hb as [?|[?|[?|(f & t & [= <-] & [= <-] & Hin)]]]; try done.
  vm_compute in Hin. by apply elem_of_nil in Hin.
Qed.

(** C15. An attempt in which the bank answered positively never dead-letters its
    instruction, even the last one and even if nothing could be written: around
    [executeBankInstruction], the instruction is completed when the execution succeeds,
    put back when attempts remain, and otherwise the error of the refused dead letter
    escapes while the database stays as the execution left it.  The promise is that of one
    attempt: an instruction put back calls the bank again, and what that later call
    answers may open the debt. *)
Theorem executed_attempt_is_never_dead_lettered i t w answer :
  ledger_ok (w_db w) → tx_paymentChannel t = PaymentChannel.MOBILE_MONEY →
  tx_providerStatus t = Some ProviderStatus.CONFIRMED → is_matched t = false →
  bank_settled t = false → instruction_fits i = true →
  soap_convert (bank_history t w) (tx_amount t) = Return answer →
  let '(o, (_, w')) := attempt config executor i (t, w) in
  match o, (executor (t, w)).1 with
  | Return settled, Return _ => settled = SettledCompleted
  | Return settled, Throw _ => settled = SettledRetry ∧ exhausted config i = false
  | Throw _, Throw _ => exhausted config i = true ∧ w_db w' = w_db (executor (t, w)).2.2
  | Throw _, Return _ => False
  end.
Proof.
  intros Hok Hch Hprov Hm Hb Hfit Hs.
  assert (Hent : tx_bankStatus (executor (t, w)).2.1 = Some BankProcessingStatus.COMPLETED).
  { rewrite <- (execute_success_entity _ _ _ Hch Hprov Hm Hs). unfold executor, mbind, Eff_bind.
    by destruct (executeBankInstruction (t, w)) as [[?|?] [? ?]]. }
  assert (Hled : ledger_ok (w_db (executor (t, w)).2.2)).
  { assert (H := executor_refines (t, w)). exact (ledger_run_ok _ _ (H Hok) Hok). }
  destruct (executor (t, w)) as [[u|err] [t1 w1]] eqn:He; cbn [fst snd] in *.
  - unfold attempt, try_catch. erewrite bind_return by reflexivity. cbn [fst]. rewrite Hb.
    erewrite bind_return by exact He. unfold mbind, Eff_bind, lift. cbn [fst snd].
    by rewrite save_instruction_eq by by apply completed_fits.
  - rewrite (attempt_throws config executor i t w err t1 w1 Hb He). destruct (exhausted config i) eqn:Hex.
    + unfold mbind, Eff_bind.
      destruct (deadLetter i (error_message err) (t1, w1)) as [[v|e] [t2 w2]] eqn:Hd.
      * apply deadLetter_return in Hd as (_ & Ha & _); [|done].
        by rewrite completed_is_never_failed in Ha.
      * split; [done|]. by eapply deadLetter_throws.
    + erewrite bind_return by reflexivity. cbv zeta. unfold mbind, Eff_bind, lift. cbn [fst snd].
      rewrite save_instruction_eq; [done|]. by apply rescheduled_fits.
Qed.
End worker.

(** * Witnesses *)

Definition sample_hmac : Hmac := {| hmacSha256 secret text := secret +:+ "/" +:+ text |}.

#[local] Existing Instances Toy.hashing Toy.entropy Toy.xsd sample_dates sample_texts sample_hmac.

Lemma canonicalPayload_injective_witness :
  let p := sample_notification "EVT-1" "AGG-1" MobileMoneyWebhookStatus.CONFIRMED 1000 in
  let q := p <| dto_failureReason := Some "" |> in
  p ≠ q ∧ dto_amount p = dto_amount q.
Proof.
  intros p q. split; [discriminate|]. apply (canonicalPayload_injective p q).
  vm_compute. reflexivity.
Defined.

(** A notification already processed, and the world that holds it. *)
Definition sample_callback : MobileMoneyWebhookDto :=
  sample_notification "EVT-1" (or_default (tx_aggregatorReference sample_row) "")
    MobileMoneyWebhookStatus.CONFIRMED 125075.
Definition sample_received : World :=
  sample_opened <| w_db := (w_db sample_opened) <| db_webhooks :=
    [mkMobileMoneyWebhookEvent "EVT-1" (dto_aggregatorReference sample_callback)
       WebhookProcessingStatus.PROCESSED sample_callback None (Some 0) 0] |> |>.

Lemma callback_is_applied_once_witness (_bank := sample_bank) :
  ∃ u w', handle_under sample_config (λ d, d) sample_callback
            (Some (sign sample_config sample_callback)) sample_received = (Return u, w')
    ∧ w_db w' = w_db sample_received.
Proof.
  assert (Hev : ∃ event, webhook_row (dto_eventId sample_callback) (w_db sample_received) = Some event
    ∧ same_content event sample_callback = true
    ∧ wh_processingStatus event = WebhookProcessingStatus.PROCESSED).
  { eexists. split_and!; vm_compute; reflexivity. }
  destruct Hev as (event & Hrow & Hsame & Hst).
  assert (Hfit : registrable sample_callback = true) by (vm_compute; reflexivity).
  destruct (callback_is_applied_once sample_config (λ d, d) sample_callback event sample_received
    Hfit Hrow) as [_ H].
  destruct (H Hsame (or_introl Hst)) as [Heq Hdb].
  assert (Hrun : ∃ u w', findByAggregatorReference (dto_aggregatorReference sample_callback)
    sample_received = (Return u, w')) by (eexists _, _; vm_compute; reflexivity).
  destruct Hrun as (u & w' & Hrun). rewrite Heq in Hdb |- *. rewrite Hrun in Hdb |- *.
  exists u, w'. split; [exact eq_refl|exact Hdb].
Defined.

(** A notification of a collection nobody ordered, once claimed and once refused. *)
Definition unknown_callback : MobileMoneyWebhookDto :=
  sample_notification "EVT-9" "UNKNOWN" MobileMoneyWebhookStatus.CONFIRMED 1000.
Definition unknown_claimed : World := (registerAndClaim (λ d, d) unknown_callback sample_opened).2.
Definition unknown_refused (_bank := sample_bank) : World :=
  (apply_notification sample_config unknown_callback unknown_claimed).2.

Lemma failed_callback_is_released_witness (_bank := sample_bank) :
  ∃ w3 row w4, handle sample_config unknown_callback
        (Some (sign sample_config unknown_callback)) sample_opened
      = (Throw (HttpException 404 "AGGREGATOR_TRANSACTION_NOT_FOUND"), w3)
    ∧ registerAndClaim (λ d, d) unknown_callback w3 = (Return (row, true), w4).
Proof.
  assert (Hclaim : ∃ event, registerAndClaim (λ d, d) unknown_callback sample_opened
    = (Return (event, true), unknown_claimed) ∧ same_content event unknown_callback = true).
  { eexists. split; (vm_compute; reflexivity). }
  assert (Happly : apply_notification sample_config unknown_callback unknown_claimed
    = (Throw (HttpException 404 "AGGREGATOR_TRANSACTION_NOT_FOUND"), unknown_refused)).
  { vm_compute. reflexivity. }
  assert (Hdup : NoDup (wh_eventId <$> db_webhooks (w_db unknown_refused))).
  { apply (bool_decide_unpack (NoDup _)). vm_compute. exact I. }
  assert (Hfit : registrable unknown_callback = true) by (vm_compute; reflexivity).
  destruct Hclaim as (event & Hclaim & Hsame).
  destruct (failed_callback_is_released sample_config unknown_callback event sample_opened
    unknown_claimed unknown_refused _ Hfit Hdup Hclaim Hsame Happly)
    as (w3 & H & _ & _ & _ & _ & row & w4 & Hagain).
  exists w3, row, w4. exact (conj H Hagain).
Defined.

Lemma executed_payment_is_kept_witness (_bank := sample_bank) :
  ∃ r w', executeBankInstruction (sample_payment, sample_world) = (Return r, (r, w'))
    ∧ tx_bankStatus r = Some BankProcessingStatus.COMPLETED ∧ is_matched r = true.
Proof.
  assert (Hrun : ∃ r w', executeBankInstruction (sample_payment, sample_world)
    = (Return r, (r, w'))) by (eexists _, _; vm_compute; reflexivity).
  destruct Hrun as (r & w' & Hrun). exists r, w'. split; [exact Hrun|].
  assert (H := executed_payment_is_kept sample_payment sample_world _ sample_ledger_ok
    eq_refl eq_refl eq_refl eq_refl).
  rewrite Hrun in H. destruct H as (H1 & _ & H2 & _). split; [exact H1|]. apply H2.
  split; reflexivity.
Defined.

Lemma refused_payment_opens_debt_witness (_bank := refusing_bank) :
  ∃ r w', executeBankInstruction (sample_payment, sample_world) = (Return r, (r, w'))
    ∧ tx_refundStatus r = RefundStatus.REQUIRED.
Proof.
  assert (Hrun : ∃ r w', executeBankInstruction (sample_payment, sample_world)
    = (Return r, (r, w'))) by (eexists _, _; vm_compute; reflexivity).
  destruct Hrun as (r & w' & Hrun). exists r, w'. split; [exact Hrun|].
  assert (H := refused_payment_opens_debt sample_payment sample_world _ sample_ledger_ok eq_refl).
  rewrite Hrun in H. apply H.
Defined.


Lemma executed_attempt_is_never_dead_lettered_witness (_bank := sample_bank) :
  ∃ p, attempt sample_config executor (sample_instruction 4) (sample_payment, sample_queue 4)
         = (Return SettledCompleted, p).
Proof.
  destruct (attempt sample_config executor (sample_instruction 4) (sample_payment, sample_queue 4))
    as [o [t' w']] eqn:Hrun.
  assert (Hret : (executor (sample_payment, sample_queue 4)).1 = Return tt)
    by (vm_compute; reflexivity).
  assert (H := executed_attempt_is_never_dead_lettered sample_config (sample_instruction 4)
    sample_payment (sample_queue 4) _ (sample_queue_ok 4) eq_refl eq_refl eq_refl eq_refl eq_refl
    eq_refl).
  rewrite Hrun, Hret in H. exists (t', w').
  destruct o as [settled|err]; [|destruct H]. rewrite H. exact eq_refl.
Defined.
