(* ===== verification/Refunds.v ===== *)
(** Refunds of the payer: [src/refunds/refunds.service.ts].

    A refund is one row per payment, attempted at the provider under a key drawn
    once.  [attempt] holds two objects, the refund and the transaction, whose fields
    it assigns before each save: its state is the pair of them, see [Obj]. *)
From S2P Require Import Prelude Domain StateMachine Money External Fingerprint EventXml.
From S2P Require Import Database Ledger EventLedger Ports Services.
Open Scope Z_scope.

Definition ATTEMPTABLE (status : RefundStatus) : bool :=
  bool_decide (status ∈ [RefundStatus.REQUIRED; RefundStatus.REQUESTED; RefundStatus.FAILED]).

Record AttemptActor := mkAttemptActor {
  aa_actorId : string;
  aa_actorRole : EventActorRole;
  aa_actionOrigin : EventActionOrigin;
  aa_manual : bool
}.

Definition operator (requestedBy : string) : AttemptActor :=
  mkAttemptActor requestedBy EventActorRole.REFUND_OPERATOR EventActionOrigin.API true.
Definition retry_worker : AttemptActor :=
  mkAttemptActor "refund-retry-worker" EventActorRole.SYSTEM EventActionOrigin.RETRY_WORKER false.

Definition CLOSED_REFUNDED : option string := Some "Dossier clos apres remboursement du payeur".

(** * The objects of an attempt *)

Abbreviation Case := (Refund * Transaction)%type.

Definition held_refund : Obj Case Refund := c ← entity; mret c.1.
Definition held_payment : Obj Case Transaction := c ← entity; mret c.2.
Definition assign_refund (f : Refund → Refund) : Obj Case unit := assigns (λ c, (f c.1, c.2)).
Definition assign_payment (f : Transaction → Transaction) : Obj Case unit :=
  assigns (λ c, (c.1, f c.2)).

(** [manager.getRepository(Refund).save(refund)]: the object receives [updatedAt]. *)
Definition save_held : Obj Case Refund :=
  r ← held_refund;
  persisted ← lift (save_refund r);
  assign_refund (λ _, persisted) ;;
  mret persisted.

Section Refunds.
Context {HH : Hashing} {HX : XsdEngine} {HE : Entropy} {HR : RefundProvider} {HT : ErrorText}.

(** * Reading *)

Definition findByTransaction (reference : string) : App Refund :=
  refund ← find_refund reference;
  ret_option refund (HttpException 404 "REFUND_NOT_FOUND").

Definition loadRefundable (reference : string) : App Transaction :=
  found ← find_transaction (by_reference reference);
  t ← ret_option found (HttpException 404 "TRANSACTION_NOT_FOUND");
  throw_unless (negb (is_eq (tx_refundStatus t) RefundStatus.NOT_REQUIRED))
    (HttpException 422 "REFUND_NOT_REQUIRED") ;;
  throw_unless (bool_decide (tx_aggregatorAmount t ≠ None ∧ tx_aggregatorCurrency t ≠ None))
    (HttpException 422 "REFUND_AMOUNT_UNKNOWN") ;;
  mret t.

Definition isReconciled (refund : Refund) (t : Transaction) : bool :=
  is_eq (rf_status refund) RefundStatus.COMPLETED
  && amountsMatch (Some (cents (rf_amount refund))) (cents <$> tx_aggregatorAmount t)
  && currenciesMatch (Some (rf_currency refund)) (tx_aggregatorCurrency t).

(** * Opening a refund *)

Definition refund_draft (t : Transaction) (requestedBy : option string) (key correlation : string) :
    Refund := {|
  rf_transactionReference := tx_reference t;
  rf_status := RefundStatus.REQUIRED;
  rf_amount := or_default (tx_aggregatorAmount t) 0;
  rf_currency := or_default (tx_aggregatorCurrency t) "";
  rf_reason := match tx_caseReason t with Some r => Some r | None => tx_failureReason t end;
  rf_providerIdempotencyKey := "RFD-" +:+ key;
  rf_providerRefundReference := None;
  rf_attempts := 0;
  rf_lastError := None;
  rf_retryable := true;
  rf_requestedAt := None;
  rf_completedAt := None;
  rf_createdBy := requestedBy;
  rf_lastRequestedBy := None;
  rf_lastApprovedBy := None;
  rf_correlationId := if truthy (Some (tx_correlationId t)) then tx_correlationId t else correlation;
  rf_updatedAt := 0
|}.

(** Other sessions may commit between the search and the insertion. *)
Definition findOrCreate (interfere : Db → Db) (t : Transaction) (requestedBy : option string) :
    App Refund :=
  existing ← find_refund (tx_reference t);
  match existing with
  | Some refund => mret refund
  | None =>
      bytes ← draw_bytes 16;
      correlation ← getCorrelationId;
      modify_db interfere ;;
      try_catch (insert_refund (refund_draft t requestedBy (toHex bytes) correlation))
        (λ error,
          if isUniqueViolation error then
            winner ← find_refund (tx_reference t);
            ret_option winner (HttpException 409 "REFUND_CONFLICT")
          else throw error)
  end.

(** * An attempt *)

(** The fields [update] sets; an absent case status is left as it is. *)
Definition set_refund_state (status : RefundStatus) (case : option CaseStatus) (t : Transaction) :
    Transaction :=
  t <| tx_refundStatus := status |>
    <| tx_caseStatus := or_default case (tx_caseStatus t) |>.

Definition syncTransaction (status : RefundStatus) (case : option CaseStatus) :
    Obj Case Transaction :=
  t ← held_payment;
  let before := stateOf t in
  lift (update_transactions (by_id (tx_id t)) (set_refund_state status case)) ;;
  updated ← lift (find_transaction_or_fail (by_id (tx_id t)));
  lift (assertTransition before (stateOf updated) (tx_reference updated)) ;;
  assign_payment (set_refund_state (tx_refundStatus updated) (Some (tx_caseStatus updated))) ;;
  mret updated.

Definition refund_input (type : TransactionEventType) (t : Transaction) (refund : Refund)
    (detail : string) (actor : option AttemptActor) : RecordEventInput :=
  mkRecordEventInput type t (Some (rf_amount refund)) (Some (rf_currency refund)) (Some detail) None
    (aa_actorId <$> actor) (aa_actorRole <$> actor) (aa_actionOrigin <$> actor).

Definition assign_succeeded (providerRefundReference : string) (date : Z) (r : Refund) : Refund :=
  r <| rf_status := RefundStatus.COMPLETED |>
    <| rf_providerRefundReference := Some providerRefundReference |>
    <| rf_completedAt := Some date |> <| rf_lastError := None |> <| rf_retryable := false |>.

(** Extinction of the debt, resolution of the case and closing, as one. *)
Definition persist_success (providerRefundReference : string) (deduplicated : bool)
    (actor : option AttemptActor) : Obj Case Refund :=
  transaction_on
    (persisted ← save_held;
     updated ← syncTransaction RefundStatus.COMPLETED (Some CaseStatus.RESOLVED);
     lift (record true (refund_input TransactionEventType.REFUND_COMPLETED updated persisted
       ("Remboursement confirme (" +:+ providerRefundReference +:+ ")"
        +:+ (if deduplicated then " — reprise d une demande anterieure" else "")) actor)) ;;
     lift (closeCase true updated CLOSED_REFUNDED) ;;
     mret persisted).

Definition recordSuccess (providerRefundReference : string) (deduplicated : bool)
    (actor : option AttemptActor) : Obj Case Refund :=
  date ← lift now;
  assign_refund (assign_succeeded providerRefundReference date) ;;
  persist_success providerRefundReference deduplicated actor.

Definition is_rejected (error : GatewayError) : bool :=
  match error with ProviderRefundRejectedException _ => true | _ => false end.

Definition failure_reason (error : GatewayError) : string :=
  match error with
  | ProviderRefundRejectedException reason | ProviderRefundUnavailableException reason => reason
  | _ => error_message error
  end.

Definition assign_failed (error : GatewayError) (r : Refund) : Refund :=
  r <| rf_status := RefundStatus.FAILED |>
    <| rf_lastError := Some (slice 1024 (failure_reason error)) |>
    <| rf_retryable := negb (is_rejected error) |>.

Definition recordFailure (error : GatewayError) (actor : option AttemptActor) : Obj Case Refund :=
  assign_refund (assign_failed error) ;;
  transaction_on
    (persisted ← save_held;
     updated ← syncTransaction RefundStatus.FAILED None;
     lift (record true (refund_input TransactionEventType.REFUND_FAILED updated persisted
       ("Tentative " +:+ pretty (rf_attempts persisted) +:+ " en echec : "
        +:+ failure_reason error) actor)) ;;
     mret persisted).

Definition assign_requested (actor : option AttemptActor) (date : Z) (r : Refund) : Refund :=
  r <| rf_status := RefundStatus.REQUESTED |>
    <| rf_attempts := rf_attempts r + 1 |>
    <| rf_requestedAt := Some (or_default (rf_requestedAt r) date) |>
    <| rf_lastRequestedBy :=
         match actor with
         | Some a => if aa_manual a then Some (aa_actorId a) else rf_lastRequestedBy r
         | None => rf_lastRequestedBy r
         end |>.

Definition attemptable (r : Refund) : bool :=
  ATTEMPTABLE (rf_status r)
  && negb (is_eq (rf_status r) RefundStatus.FAILED && negb (rf_retryable r)).

(** The SQL transaction that closes before the provider is called. *)
Definition persist_request (actor : option AttemptActor) : Obj Case Refund :=
  transaction_on
    (persisted ← save_held;
     syncTransaction RefundStatus.REQUESTED None ;;
     t ← held_payment;
     lift (record true (refund_input TransactionEventType.REFUND_REQUESTED t persisted
       ("Tentative " +:+ pretty (rf_attempts persisted) +:+ " de remboursement de "
        +:+ toFixed2 (rf_amount persisted) +:+ " " +:+ rf_currency persisted) actor)) ;;
     mret persisted).

(** The [try] around the provider, whose [catch] also covers [recordSuccess]. *)
Definition call_provider (actor : option AttemptActor) (inFlight : Refund) : Obj Case Refund :=
  try_catch
    (t ← held_payment;
     result ← lift (refund_call (rf_providerIdempotencyKey inFlight) (tx_aggregatorReference t)
                      (rf_amount inFlight) (rf_currency inFlight));
     recordSuccess (pf_providerRefundReference result) (pf_deduplicated result) actor)
    (λ error, recordFailure error actor).

Definition attempt (actor : option AttemptActor) : Obj Case Refund :=
  r ← held_refund;
  if negb (attemptable r) then mret r
  else
    date ← lift now;
    assign_refund (assign_requested actor date) ;;
    inFlight ← persist_request actor;
    call_provider actor inFlight.

(** * Operations *)

Definition requestRefund_under (interfere : Db → Db) (reference : string)
    (requestedBy : option string) : App Refund :=
  t ← loadRefundable reference;
  refund ← findOrCreate interfere t requestedBy;
  if is_eq (rf_status refund) RefundStatus.COMPLETED then
    closeCase false t CLOSED_REFUNDED ;;
    mret refund
  else
    with_entity (refund, t)
      (attempt (if truthy requestedBy then operator <$> requestedBy else None)).

Definition requestRefund := requestRefund_under (λ d, d).

Definition same_actor (reopenedBy lastRequestedBy : option string) : bool :=
  truthy reopenedBy && truthy lastRequestedBy && is_eq lastRequestedBy reopenedBy.

Definition assign_reopened (reopenedBy : option string) (r : Refund) : Refund :=
  r <| rf_retryable := true |> <| rf_lastError := None |> <| rf_lastApprovedBy := reopenedBy |>.

Definition reopenRefund (reference : string) (reopenedBy : option string) : App Refund :=
  transaction
    (found ← find_refund reference;
     refund ← ret_option found (HttpException 404 "REFUND_NOT_FOUND");
     throw_unless (negb (is_eq (rf_status refund) RefundStatus.COMPLETED))
       (HttpException 422 "REFUND_ALREADY_COMPLETED") ;;
     throw_unless (negb (rf_retryable refund)) (HttpException 422 "REFUND_ALREADY_RETRYABLE") ;;
     throw_unless (negb (same_actor reopenedBy (rf_lastRequestedBy refund)))
       (HttpException 403 "SEGREGATION_OF_DUTIES") ;;
     t ← find_transaction_or_fail (by_reference reference);
     let refund := assign_reopened reopenedBy refund in
     record true (mkRecordEventInput TransactionEventType.REFUND_REOPENED t
       (Some (rf_amount refund)) (Some (rf_currency refund))
       (Some "Dossier rouvert apres levee du refus fournisseur") None reopenedBy
       (if truthy reopenedBy then Some EventActorRole.REFUND_APPROVER else None)
       (if truthy reopenedBy then Some EventActionOrigin.API else None)) ;;
     save_refund refund).

(** * Retrying *)

Definition to_retry (r : Refund) : bool :=
  is_eq (rf_status r) RefundStatus.REQUESTED
  || is_eq (rf_status r) RefundStatus.FAILED && rf_retryable r.

Fixpoint retry_all (pending : list Refund) (completed : nat) : App nat :=
  match pending with
  | [] => mret completed
  | refund :: pending =>
      found ← find_transaction (by_reference (rf_transactionReference refund));
      match found with
      | None => retry_all pending completed
      | Some t =>
          result ← with_entity (refund, t) (attempt (Some retry_worker));
          retry_all pending
            (if is_eq (rf_status result) RefundStatus.COMPLETED then S completed else completed)
      end
  end.

Definition retryPending (limit : nat) : App (nat * nat) :=
  d ← get_db;
  let pending := take limit (sort_by rf_updatedAt (List.filter to_retry (db_refunds d))) in
  completed ← retry_all pending 0;
  mret (length pending, completed).

(** [RefundRetryWorker.runOnce]; [running]: this process is at it. *)
Definition runOnce (running : bool) : App (nat * nat) :=
  if running then mret (0%nat, 0%nat) else retryPending 20.

(** * Refinement *)

Abbreviation holds := (Respects (@on_ent Case ledger_refines)).

Lemma held_refund_frames : holds held_refund.
Proof. unfold held_refund. respects. Qed.

Lemma held_payment_frames : holds held_payment.
Proof. unfold held_payment. respects. Qed.

Lemma assign_refund_frames f : holds (assign_refund f).
Proof. apply assigns_respects. apply _. Qed.

Lemma assign_payment_frames f : holds (assign_payment f).
Proof. apply assigns_respects. apply _. Qed.
#[local] Hint Resolve held_refund_frames held_payment_frames assign_refund_frames
  assign_payment_frames : effects.

Lemma save_held_frames : holds save_held.
Proof. unfold save_held. respects. Qed.
#[local] Hint Resolve save_held_frames : effects.

Lemma syncTransaction_frames status case : holds (syncTransaction status case).
Proof. unfold syncTransaction. respects. Qed.
#[local] Hint Resolve syncTransaction_frames : effects.

Lemma refund_attempt_refines actor : holds (attempt actor).
Proof.
  unfold attempt, persist_request, call_provider, recordSuccess, persist_success, recordFailure.
  respects.
Qed.
#[local] Hint Resolve refund_attempt_refines : effects.

Lemma requestRefund_under_refines interfere reference requestedBy :
  (∀ d, ledger_refines d (interfere d)) →
  Respects (on_db ledger_refines) (requestRefund_under interfere reference requestedBy).
Proof.
  intros Hint. assert (Hm : Respects (on_db ledger_refines) (modify_db interfere)).
  { intros w. apply Hint. }
  unfold requestRefund_under, loadRefundable, findOrCreate. respects.
Qed.

Lemma requestRefund_refines reference requestedBy :
  Respects (on_db ledger_refines) (requestRefund reference requestedBy).
Proof. apply requestRefund_under_refines. by intros d ?; apply rtc_refl. Qed.

Lemma reopenRefund_refines reference reopenedBy :
  Respects (on_db ledger_refines) (reopenRefund reference reopenedBy).
Proof. unfold reopenRefund. respects. Qed.

Lemma retry_all_refines pending completed :
  Respects (on_db ledger_refines) (retry_all pending completed).
Proof. revert completed. induction pending; intros completed; simpl; respects. Qed.
#[local] Hint Resolve retry_all_refines : effects.

Lemma retryPending_refines limit : Respects (on_db ledger_refines) (retryPending limit).
Proof. unfold retryPending. respects. Qed.
#[local] Hint Resolve retryPending_refines : effects.

Lemma runOnce_refines running : Respects (on_db ledger_refines) (runOnce running).
Proof. unfold runOnce. respects. Qed.
End Refunds.

#[export] Hint Resolve refund_attempt_refines requestRefund_refines reopenRefund_refines
  runOnce_refines : effects.

(** * What an attempt does *)

Section outcomes.
Context {HH : Hashing} {HX : XsdEngine} {HE : Entropy} {HR : RefundProvider} {HT : ErrorText}.

Definition refund_saved (r : Refund) (d : Db) : Db :=
  d <| db_refunds := upsert same_refund r (db_refunds d) |>.

(** The row of the payment once the state of its refund was copied to it. *)
Definition synced (id : string) (status : RefundStatus) (case : option CaseStatus) (d : Db) : Db :=
  updated_where (by_id id) (set_refund_state status case) d.

Lemma synced_ok id status case r d : ledger_ok d → ledger_ok (synced id status case (refund_saved r d)).
Proof. done. Qed.

Lemma recorded_synced_chain id status case d r facts d' reference :
  ledger_ok d → recorded (synced id status case (refund_saved r d)) facts d' →
  Forall (λ e, event_reference e = reference) facts →
  chain_of reference d' = chain_of reference d ++ facts.
Proof.
  intros Hok Hrec Hall.
  by rewrite (recorded_chain reference _ _ _ (synced_ok id status case r d Hok) Hrec Hall).
Qed.

Lemma save_held_return r t w p s' :
  save_held ((r, t), w) = (Return p, s') →
  p = r <| rf_updatedAt := w_now w |>
  ∧ s' = ((p, t), w <| w_db := refund_saved p (w_db w) |>).
Proof.
  unfold save_held, held_refund. intros H. erewrite bind_return in H by reflexivity.
  unfold save_refund, assign_refund, throw_unless in H. cbn [fst] in H.
  destruct (refund_fits r); [|discriminate H]. by injection H as <- <-.
Qed.

Lemma syncTransaction_return status case r t w u s' :
  ids_unique (w_db w) → syncTransaction status case ((r, t), w) = (Return u, s') →
  ∃ row, List.find (by_id (tx_id t)) (db_transactions (w_db w)) = Some row
  ∧ u = set_refund_state status case row ∧ accepts (stateOf t) (stateOf u) = true
  ∧ s' = ((r, set_refund_state (tx_refundStatus u) (Some (tx_caseStatus u)) t),
          w <| w_db := synced (tx_id t) status case (w_db w) |>).
Proof.
  intros Hdup. unfold syncTransaction, held_payment. intros H.
  erewrite bind_return in H by reflexivity. cbn [fst snd] in H. cbv zeta in H.
  apply bind_inv in H as (n & [c w1] & [-> H1]%lift_inv & H).
  apply update_transactions_return in H1 as (_ & -> & _).
  apply bind_inv in H as (v & [c w1] & [-> H1]%lift_inv & H).
  apply find_transaction_or_fail_return in H1 as [Hf ->].
  apply bind_inv in H as (b & [c w1] & [-> H1]%lift_inv & H).
  apply assertTransition_return in H1 as [Ha ->].
  erewrite bind_return in H by reflexivity. injection H as <- <-. simpl in Hf.
  destruct (List.find (by_id (tx_id t)) (db_transactions (w_db w))) as [row|] eqn:Hr.
  - destruct (update_row (by_id (tx_id t)) (set_refund_state status case) (tx_id t))
      with (2 := λ u : Transaction, eq_refl (tx_id u)) (3 := Hdup) (4 := Hr) as [_ Hu];
      [by intros v' ?%by_id_true|].
    rewrite Hu in Hf. apply find_some in Hr as [_ Hid]. rewrite Hid in Hf. injection Hf as <-.
    exists row. done.
  - destruct (update_row_absent (by_id (tx_id t)) (set_refund_state status case) (tx_id t))
      with (2 := Hr) as [_ Hu]; [by intros v' ?%by_id_true|]. congruence.
Qed.

(** The common start of the three SQL transactions of an attempt. *)
Lemma save_and_sync {A} status case (body : Refund → Transaction → Obj Case A) r t w a s' :
  ids_unique (w_db w) →
  (persisted ← save_held; updated ← syncTransaction status case; body persisted updated)
    ((r, t), w) = (Return a, s') →
  ∃ row, List.find (by_id (tx_id t)) (db_transactions (w_db w)) = Some row
  ∧ let p := r <| rf_updatedAt := w_now w |> in
    let u := set_refund_state status case row in
    accepts (stateOf t) (stateOf u) = true
    ∧ body p u ((p, set_refund_state (tx_refundStatus u) (Some (tx_caseStatus u)) t),
        w <| w_db := synced (tx_id t) status case (refund_saved p (w_db w)) |>) = (Return a, s').
Proof.
  intros Hdup (p & s1 & [-> ->]%save_held_return & H)%bind_inv.
  apply bind_inv in H as (u & s1 & (row & Hr & -> & Ha & ->)%syncTransaction_return & H); [|done].
  exists row. split; [exact Hr|]. cbv zeta. split; [exact Ha|exact H].
Qed.

Lemma persist_request_return actor r t w p s' :
  ledger_ok (w_db w) → ids_unique (w_db w) →
  persist_request actor ((r, t), w) = (Return p, s') →
  ∃ row w', List.find (by_id (tx_id t)) (db_transactions (w_db w)) = Some row
  ∧ let u := set_refund_state RefundStatus.REQUESTED None row in
    accepts (stateOf t) (stateOf u) = true
    ∧ p = r <| rf_updatedAt := w_now w |> ∧ ambient w w'
    ∧ s' = ((p, set_refund_state (tx_refundStatus u) (Some (tx_caseStatus u)) t), w')
    ∧ ∃ fact, recorded (synced (tx_id t) RefundStatus.REQUESTED None (refund_saved p (w_db w)))
                [fact] (w_db w')
        ∧ event_type fact = TransactionEventType.REFUND_REQUESTED
        ∧ event_reference fact = tx_reference t.
Proof.
  intros Hok Hdup (row & Hr & Ha & H)%transaction_on_inv%save_and_sync; [|done].
  unfold held_payment in H. erewrite bind_return in H by reflexivity. cbn [fst snd] in H.
  apply bind_inv in H as (fact & [c w'] & [-> Hrec]%lift_inv & [= <- <-]).
  assert (Hamb := respects_run _ _ _ _ _ (record_silent _ _) Hrec).
  apply record_recorded in Hrec as (Hrec & _ & Htype & Href & _); [|by apply synced_ok].
  exists row, w'. cbv zeta. split_and!; try done. by exists fact.
Qed.

#[local] Strategy expand [persist_success persist_request].

Lemma recordSuccess_eq reference dedup actor r t w :
  recordSuccess reference dedup actor ((r, t), w)
  = persist_success reference dedup actor ((assign_succeeded reference (w_now w) r, t), w).
Proof. unfold recordSuccess. by do 2 erewrite bind_return by reflexivity. Qed.

Lemma recordSuccess_return reference dedup actor r t w p s' :
  ledger_ok (w_db w) → ids_unique (w_db w) →
  recordSuccess reference dedup actor ((r, t), w) = (Return p, s') →
  ∃ row w', List.find (by_id (tx_id t)) (db_transactions (w_db w)) = Some row
  ∧ let u := set_refund_state RefundStatus.COMPLETED (Some CaseStatus.RESOLVED) row in
    accepts (stateOf t) (stateOf u) = true
    ∧ p = (assign_succeeded reference (w_now w) r) <| rf_updatedAt := w_now w |>
    ∧ s'.2 = w' ∧ s'.1.1 = p
    ∧ ∃ fact closing,
        recorded (synced (tx_id t) RefundStatus.COMPLETED (Some CaseStatus.RESOLVED)
                    (refund_saved p (w_db w))) (fact :: closing) (w_db w')
        ∧ event_type fact = TransactionEventType.REFUND_COMPLETED
        ∧ Forall (λ e, event_reference e = tx_reference row) (fact :: closing)
        ∧ Forall (λ e, is_closing e = true) closing
        ∧ existsb is_closing (rows_of (tx_reference row) (w_db w')) = true.
Proof.
  intros Hok Hdup H. rewrite recordSuccess_eq in H. unfold persist_success in H.
  apply transaction_on_inv in H. apply save_and_sync in H as (row & Hr & Ha & H); [|done].
  apply bind_inv in H as (fact & [c w1] & [-> Hrec]%lift_inv & H).
  apply bind_inv in H as (o & [c w2] & [-> Hc]%lift_inv & [= <- <-]).
  apply record_recorded in Hrec as (Hrec & _ & Htype & Href & _); [|by apply synced_ok].
  apply closeCase_recorded in Hc as (Hrec2 & Hall & Hclosed); [|apply Hrec].
  exists row, w2. cbv zeta. split_and!; try done. exists fact, (option_facts o). split_and!; [|done| | |].
  - exact (recorded_trans _ _ _ [fact] _ Hrec Hrec2).
  - constructor; [done|]. eapply Forall_impl; [exact Hall|]. by intros e [? _].
  - eapply Forall_impl; [exact Hall|]. by intros e [_ ?].
  - apply Hclosed. change (tx_reference (set_refund_state _ _ row)) with (tx_reference row).
    rewrite (recorded_rows (tx_reference row) _ _ _ Hrec) by by constructor.
    intros [_ Hnil]%app_nil. discriminate Hnil.
Qed.

Lemma recordFailure_return error actor r t w p s' :
  ledger_ok (w_db w) → ids_unique (w_db w) →
  recordFailure error actor ((r, t), w) = (Return p, s') →
  ∃ row w', List.find (by_id (tx_id t)) (db_transactions (w_db w)) = Some row
  ∧ let u := set_refund_state RefundStatus.FAILED None row in
    accepts (stateOf t) (stateOf u) = true
    ∧ p = (assign_failed error r) <| rf_updatedAt := w_now w |>
    ∧ s'.2 = w' ∧ s'.1.1 = p
    ∧ ∃ fact, recorded (synced (tx_id t) RefundStatus.FAILED None (refund_saved p (w_db w)))
                [fact] (w_db w')
        ∧ event_type fact = TransactionEventType.REFUND_FAILED
        ∧ event_reference fact = tx_reference row.
Proof.
  intros Hok Hdup H. unfold recordFailure in H. erewrite bind_return in H by reflexivity.
  apply transaction_on_inv, save_and_sync in H as (row & Hr & Ha & H); [|done].
  apply bind_inv in H as (fact & [c w'] & [-> Hrec]%lift_inv & [= <- <-]).
  apply record_recorded in Hrec as (Hrec & _ & Htype & Href & _); [|by apply synced_ok].
  exists row, w'. cbv zeta. split_and!; try done. by exists fact.
Qed.

(** ** The row of the payment *)

Lemma synced_ids id status case d : ids_unique d → ids_unique (synced id status case d).
Proof. intros Hdup. unfold ids_unique, synced, updated_where. simpl. by rewrite ids_unique_update. Qed.

Lemma synced_row id status case d row :
  ids_unique d → List.find (by_id id) (db_transactions d) = Some row →
  List.find (by_id id) (db_transactions (synced id status case d))
  = Some (set_refund_state status case row).
Proof.
  intros Hdup Hr. change (db_transactions (synced id status case d))
    with (update_where (by_id id) (set_refund_state status case) (db_transactions d)).
  destruct (update_row (by_id id) (set_refund_state status case) id)
    with (2 := λ u : Transaction, eq_refl (tx_id u)) (3 := Hdup) (4 := Hr) as [_ Hu];
    [by intros v ?%by_id_true|].
  apply find_some in Hr as [_ Hid]. by rewrite Hid in Hu.
Qed.

Definition refund_row (reference : string) (d : Db) : option Refund :=
  List.find (λ r, str_eqb (rf_transactionReference r) reference) (db_refunds d).

Lemma refund_row_saved reference r d :
  rf_transactionReference r = reference → refund_row reference (refund_saved r d) = Some r.
Proof.
  intros <-. apply find_upsert; [intros s; apply str_eqb_sym|apply str_eqb_refl].
Qed.

Lemma refund_row_recorded id status case reference r d facts d' :
  rf_transactionReference r = reference →
  recorded (synced id status case (refund_saved r d)) facts d' → refund_row reference d' = Some r.
Proof.
  intros Href Hrec. unfold refund_row. rewrite (recorded_refunds _ _ _ Hrec).
  by apply refund_row_saved.
Qed.

(** The row in the database once a synchronisation and its facts are there. *)
Lemma recorded_synced id status case d r facts d' row :
  ids_unique d → List.find (by_id id) (db_transactions d) = Some row →
  recorded (synced id status case (refund_saved r d)) facts d' →
  ids_unique d' ∧ r ∈ db_refunds d'
  ∧ List.find (by_id id) (db_transactions d') = Some (set_refund_state status case row).
Proof.
  intros Hdup Hr Hrec. unfold ids_unique. rewrite (recorded_transactions _ _ _ Hrec).
  rewrite (recorded_refunds _ _ _ Hrec). split_and!.
  - by apply (synced_ids id status case (refund_saved r d)).
  - apply elem_of_upsert.
  - by apply (synced_row id status case (refund_saved r d)).
Qed.

(** ** Forward equations *)

Definition provider_call (r : Refund) (t : Transaction) : ExternalCall :=
  CallRefund (rf_providerIdempotencyKey r) (tx_aggregatorReference t) (rf_amount r) (rf_currency r).

(** What the provider answers to [r] after the calls of [history]. *)
Definition provider_answer (history : list ExternalCall) (r : Refund) (t : Transaction) :
    Outcome GatewayError ProviderRefund :=
  provider_refund (history ++ [provider_call r t]) (rf_providerIdempotencyKey r)
    (tx_aggregatorReference t) (rf_amount r) (rf_currency r).

Definition called (r : Refund) (t : Transaction) (w : World) : World :=
  w <| w_calls := w_calls w ++ [provider_call r t] |>.

Lemma attempt_eq actor r t w :
  attemptable r = true →
  attempt actor ((r, t), w) =
    match persist_request actor ((assign_requested actor (w_now w) r, t), w) with
    | (Return p, s1) => call_provider actor p s1
    | (Throw err, s1) => (Throw err, s1)
    end.
Proof.
  intros Hr. unfold attempt, held_refund. erewrite bind_return by reflexivity. cbn [fst].
  rewrite Hr. cbn [negb]. do 2 erewrite bind_return by reflexivity. cbn [fst snd].
  unfold mbind, Eff_bind. by destruct (persist_request _ _) as [[p|err] s1].
Qed.

Lemma call_provider_eq actor r t w :
  call_provider actor r ((r, t), w) =
    match provider_answer (w_calls w) r t with
    | Return result =>
        match recordSuccess (pf_providerRefundReference result) (pf_deduplicated result) actor
                ((r, t), called r t w) with
        | (Throw err, s1) => recordFailure err actor s1
        | done => done
        end
    | Throw err => recordFailure err actor ((r, t), called r t w)
    end.
Proof.
  unfold call_provider, try_catch, held_payment, refund_call, provider_answer, called.
  erewrite bind_return by reflexivity. cbn [fst snd]. unfold mbind at 1, Eff_bind at 1.
  unfold lift at 1. cbn [fst snd]. rewrite ask_eq. unfold provider_call.
  by destruct (provider_refund _ _ _ _ _).
Qed.

Lemma recordFailure_status error actor s p s' :
  recordFailure error actor s = (Return p, s') → rf_status p = RefundStatus.FAILED.
Proof.
  destruct s as [[r t] w]. intros H. unfold recordFailure in H.
  erewrite bind_return in H by reflexivity. apply transaction_on_inv in H.
  apply bind_inv in H as (q & s1 & [-> ->]%save_held_return & H).
  apply bind_inv in H as (u & s2 & _ & H). by apply bind_inv in H as (f & s3 & _ & [= <- _]).
Qed.

Lemma recordFailure_throws error actor s err s' :
  recordFailure error actor s = (Throw err, s') → w_db s'.2 = w_db s.2.
Proof.
  destruct s as [[r t] w], s' as [c w']. intros H. unfold recordFailure in H.
  erewrite bind_return in H by reflexivity. by apply transaction_on_rolls_back in H.
Qed.

Lemma recordSuccess_throws reference dedup actor s err s' :
  recordSuccess reference dedup actor s = (Throw err, s') → w_db s'.2 = w_db s.2.
Proof.
  destruct s as [[r t] w], s' as [c w']. rewrite recordSuccess_eq. unfold persist_success.
  apply transaction_on_rolls_back.
Qed.

Lemma syncTransaction_silent status case : Respects ambient_on (syncTransaction status case).
Proof. unfold syncTransaction, held_payment, assign_payment. respects. Qed.

Lemma save_held_silent : Respects ambient_on save_held.
Proof. unfold save_held, held_refund, assign_refund. respects. Qed.
#[local] Hint Resolve syncTransaction_silent save_held_silent : effects.

Lemma persist_request_silent actor : Respects ambient_on (persist_request actor).
Proof. unfold persist_request, held_payment. apply transaction_on_silent. respects. Qed.

(** The state in which the provider is called. *)
Record requested (actor : option AttemptActor) (r : Refund) (t : Transaction) (w : World)
    (p : Refund) (u : Transaction) (w' : World) : Prop := {
  requested_refund : p = (assign_requested actor (w_now w) r) <| rf_updatedAt := w_now w |>;
  requested_payment : u = set_refund_state RefundStatus.REQUESTED None t;
  requested_ambient : ambient w w';
  requested_ids : ids_unique (w_db w');
  requested_ok : ledger_ok (w_db w');
  requested_saved : p ∈ db_refunds (w_db w');
  requested_refund_row : refund_row (rf_transactionReference r) (w_db w') = Some p;
  requested_row : List.find (by_id (tx_id t)) (db_transactions (w_db w')) = Some u;
  requested_fact : ∃ fact,
    chain_of (tx_reference t) (w_db w') = chain_of (tx_reference t) (w_db w) ++ [fact]
    ∧ event_type fact = TransactionEventType.REFUND_REQUESTED
}.

Lemma attempt_requests actor r t w :
  ledger_ok (w_db w) → ids_unique (w_db w) → attemptable r = true →
  List.find (by_id (tx_id t)) (db_transactions (w_db w)) = Some t →
  (∃ err c w', attempt actor ((r, t), w) = (Throw err, (c, w')) ∧ w_db w' = w_db w
     ∧ w_calls w' = w_calls w)
  ∨ ∃ p u w1, requested actor r t w p u w1
      ∧ attempt actor ((r, t), w) = call_provider actor p ((p, u), w1).
Proof.
  intros Hok Hdup Hatt Hrow. rewrite attempt_eq by done.
  destruct (persist_request _ _) as [[p1|err] s1] eqn:Hreq.
  2: { left. destruct s1 as [c w']. exists err, c, w'. split_and!; [done| |].
       - unfold persist_request in Hreq. by apply transaction_on_rolls_back in Hreq.
       - exact (proj1 (respects_run _ _ _ _ _ (persist_request_silent _) Hreq)). }
  right. apply persist_request_return in Hreq
    as (row & w1 & Hrow' & _ & -> & Hamb & -> & fact & Hrec & Htype & Href); [|done..].
  rewrite Hrow in Hrow'. injection Hrow' as <-.
  destruct (recorded_synced _ _ _ _ _ _ _ _ Hdup Hrow Hrec) as (Hdup1 & Hin & Hrow1).
  eexists _, _, w1. split; [|reflexivity]. split; try done; [apply Hrec| |].
  { exact (refund_row_recorded _ _ _ _ _ _ _ _ eq_refl Hrec). }
  exists fact. split; [|done].
  by rewrite (recorded_synced_chain _ _ _ _ _ _ _ (tx_reference t) Hok Hrec) by by constructor.
Qed.

(** C36. A refund is completed only on the provider's word, and then the debt is
    extinct.  When an attempt leaves its refund completed, the provider had answered
    the call made under the refund's key for its amount; the refund carries its
    reference; the row of the payment says completed and resolved; the register
    gained the request, the completion and at most closing facts; and the case is
    closed. *)
Theorem refund_success_extinguishes_debt actor r t w p s' :
  ledger_ok (w_db w) → ids_unique (w_db w) → attemptable r = true →
  List.find (by_id (tx_id t)) (db_transactions (w_db w)) = Some t →
  attempt actor ((r, t), w) = (Return p, s') → rf_status p = RefundStatus.COMPLETED →
  let d' := w_db s'.2 in
  ∃ result, provider_answer (w_calls w) r t = Return result
  ∧ rf_providerRefundReference p = Some (pf_providerRefundReference result)
  ∧ rf_amount p = rf_amount r ∧ rf_providerIdempotencyKey p = rf_providerIdempotencyKey r
  ∧ rf_attempts p = rf_attempts r + 1 ∧ p ∈ db_refunds d'
  ∧ (∃ u, List.find (by_id (tx_id t)) (db_transactions d') = Some u
      ∧ tx_refundStatus u = RefundStatus.COMPLETED ∧ tx_caseStatus u = CaseStatus.RESOLVED)
  ∧ ∃ requested completed closing,
      chain_of (tx_reference t) d' = chain_of (tx_reference t) (w_db w)
                                     ++ requested :: completed :: closing
      ∧ event_type requested = TransactionEventType.REFUND_REQUESTED
      ∧ event_type completed = TransactionEventType.REFUND_COMPLETED
      ∧ Forall (λ e, is_closing e = true) closing
      ∧ existsb is_closing (rows_of (tx_reference t) d') = true.
Proof.
  intros Hok Hdup Hatt Hrow. destruct (attempt_requests actor r t w Hok Hdup Hatt Hrow)
    as [(err & c & w' & -> & _ & _)|(p1 & u & w1 & Hreq & ->)]; [done|].
  destruct Hreq as [-> -> [Hcalls _] Hdup1 Hok1 _ _ Hrow1 (fact & Hchain & Htype)].
  set (r1 := (assign_requested actor (w_now w) r) <| rf_updatedAt := w_now w |>) in *.
  rewrite call_provider_eq, Hcalls. change (provider_answer (w_calls w) r1 _)
    with (provider_answer (w_calls w) r t).
  destruct (provider_answer _ _ _) as [result|err].
  2: { intros Hf%recordFailure_status. by rewrite Hf. }
  destruct (recordSuccess _ _ _ _) as [[p2|err] s2] eqn:Hs.
  2: { intros Hf%recordFailure_status. by rewrite Hf. }
  intros [= <- <-] _. exists result. apply recordSuccess_return in Hs
    as (row & w2 & Hrow2 & _ & -> & -> & _ & last & closing & Hrec2 & Htype2 & Hall & Hcl & Hclosed);
    [|exact Hok1|exact Hdup1].
  change (find (by_id (tx_id t)) (db_transactions (w_db w1)) = Some row) in Hrow2.
  rewrite Hrow1 in Hrow2. injection Hrow2 as <-.
  destruct (recorded_synced _ _ _ _ _ _ _ _ Hdup1 Hrow1 Hrec2) as (_ & Hin & Hrow2).
  change (tx_reference (set_refund_state _ _ t)) with (tx_reference t) in *.
  split_and!; try done; [by eexists|].
  exists fact, last, closing. split_and!; try done.
  by rewrite (recorded_synced_chain _ _ _ _ _ _ _ _ Hok1 Hrec2 Hall), Hchain, <- app_assoc.
Qed.

(** A refusal keeps the debt open.  When the provider does not confirm, an
    attempt that returns leaves a failed refund, which stays in the retry queue
    unless the refusal was a business rejection; the payment's refund is failed but
    its case is as it was; and the register gained exactly the request and the
    failure, so the case is not closed by them. *)
Theorem refused_refund_keeps_debt actor r t w p s' err :
  ledger_ok (w_db w) → ids_unique (w_db w) → attemptable r = true →
  List.find (by_id (tx_id t)) (db_transactions (w_db w)) = Some t →
  provider_answer (w_calls w) r t = Throw err →
  attempt actor ((r, t), w) = (Return p, s') →
  let d' := w_db s'.2 in
  rf_status p = RefundStatus.FAILED ∧ p ∈ db_refunds d'
  ∧ to_retry p = negb (is_rejected err) ∧ attemptable p = negb (is_rejected err)
  ∧ rf_providerIdempotencyKey p = rf_providerIdempotencyKey r ∧ rf_amount p = rf_amount r
  ∧ (∃ u, List.find (by_id (tx_id t)) (db_transactions d') = Some u
      ∧ tx_refundStatus u = RefundStatus.FAILED ∧ tx_caseStatus u = tx_caseStatus t)
  ∧ ∃ facts, chain_of (tx_reference t) d' = chain_of (tx_reference t) (w_db w) ++ facts
      ∧ event_type <$> facts = [TransactionEventType.REFUND_REQUESTED;
                                TransactionEventType.REFUND_FAILED].
Proof.
  intros Hok Hdup Hatt Hrow Hans. destruct (attempt_requests actor r t w Hok Hdup Hatt Hrow)
    as [(e & c & w' & -> & _ & _)|(p1 & u & w1 & Hreq & ->)]; [done|].
  destruct Hreq as [-> -> [Hcalls _] Hdup1 Hok1 _ _ Hrow1 (fact & Hchain & Htype)].
  set (r1 := (assign_requested actor (w_now w) r) <| rf_updatedAt := w_now w |>) in *.
  rewrite call_provider_eq, Hcalls. change (provider_answer (w_calls w) r1 _)
    with (provider_answer (w_calls w) r t). rewrite Hans.
  intros (row & w2 & Hrow2 & _ & -> & <- & _ & last & Hrec2 & Htype2 & Href2)%recordFailure_return;
    [|exact Hok1|exact Hdup1].
  change (find (by_id (tx_id t)) (db_transactions (w_db w1)) = Some row) in Hrow2.
  rewrite Hrow1 in Hrow2. injection Hrow2 as <-.
  destruct (recorded_synced _ _ _ _ _ _ _ _ Hdup1 Hrow1 Hrec2) as (_ & Hin & Hrow2).
  split_and!; try done.
  - by destruct err.
  - by eexists.
  - exists [fact; last]. split; [|by simpl; rewrite Htype, Htype2].
    rewrite (recorded_synced_chain _ _ _ _ _ _ _ (tx_reference t) Hok1 Hrec2) by by constructor.
    by rewrite Hchain, <- app_assoc.
Qed.

(** C35. An interrupted attempt is taken up again under the same key.  Whatever the
    provider answered, and even if its confirmation could not be written, an attempt
    that throws leaves the database as it was, or with the request on record: the
    refund is requested, in the retry queue, for the same amount and under the same
    key; nothing says that it completed or failed. *)
Theorem interrupted_refund_stays_due actor r t w err s' :
  ledger_ok (w_db w) → ids_unique (w_db w) → attemptable r = true →
  List.find (by_id (tx_id t)) (db_transactions (w_db w)) = Some t →
  attempt actor ((r, t), w) = (Throw err, s') →
  let d' := w_db s'.2 in
  d' = w_db w
  ∨ ∃ p u fact, p ∈ db_refunds d' ∧ rf_status p = RefundStatus.REQUESTED
      ∧ to_retry p = true ∧ attemptable p = true
      ∧ rf_providerIdempotencyKey p = rf_providerIdempotencyKey r ∧ rf_amount p = rf_amount r
      ∧ List.find (by_id (tx_id t)) (db_transactions d') = Some u
      ∧ tx_refundStatus u = RefundStatus.REQUESTED
      ∧ chain_of (tx_reference t) d' = chain_of (tx_reference t) (w_db w) ++ [fact]
      ∧ event_type fact = TransactionEventType.REFUND_REQUESTED.
Proof.
  intros Hok Hdup Hatt Hrow. destruct (attempt_requests actor r t w Hok Hdup Hatt Hrow)
    as [(e & c & w' & -> & Hdb & _)|(p & u & w1 & Hreq & ->)]; [by intros [= _ <-]; left|].
  intros H. assert (Hdb : w_db s'.2 = w_db w1).
  { revert H. rewrite call_provider_eq. destruct (provider_answer _ _ _) as [result|e].
    - destruct (recordSuccess _ _ _ _) as [[p2|e] s2] eqn:Hs; [done|].
      intros ->%recordFailure_throws. by apply recordSuccess_throws in Hs.
    - by intros ->%recordFailure_throws. }
  right. destruct Hreq as [-> -> _ _ _ Hin _ Hrow1 (fact & Hchain & Htype)].
  cbv zeta. rewrite Hdb. eexists _, _, fact. split_and!; try exact Hin; try exact Hrow1; try done.
Qed.

(** ** Whole requests *)

Definition same_terms (r s : Refund) : Prop :=
  rf_providerIdempotencyKey s = rf_providerIdempotencyKey r
  ∧ rf_amount s = rf_amount r ∧ rf_currency s = rf_currency r.

Lemma recordSuccess_silent reference dedup actor :
  Respects ambient_on (recordSuccess reference dedup actor).
Proof.
  unfold recordSuccess, assign_refund. apply respects_bind; [apply _|respects|intros date].
  apply respects_bind; [apply _|respects|intros []]. apply transaction_on_silent. respects.
Qed.

Lemma recordFailure_silent error actor : Respects ambient_on (recordFailure error actor).
Proof.
  unfold recordFailure, assign_refund. apply respects_bind; [apply _|respects|intros []].
  apply transaction_on_silent. respects.
Qed.

(** One call to the provider, and one only. *)
Lemma call_provider_calls actor r t w :
  w_calls (call_provider actor r ((r, t), w)).2.2 = w_calls w ++ [provider_call r t].
Proof.
  rewrite call_provider_eq. change (w_calls w ++ [provider_call r t]) with (w_calls (called r t w)).
  destruct (provider_answer _ _ _) as [result|err].
  - assert (Hs := recordSuccess_silent (pf_providerRefundReference result)
                    (pf_deduplicated result) actor ((r, t), called r t w)).
    destruct (recordSuccess _ _ _ _) as [[p|err] s1]; [apply Hs|].
    rewrite (proj1 (recordFailure_silent err actor s1)). apply Hs.
  - apply (recordFailure_silent err actor ((r, t), called r t w)).
Qed.

(** The refund object keeps its terms through the assignments of [persist_success],
    which a rollback does not undo. *)
Definition terms_kept (s s' : Case * World) : Prop :=
  rf_transactionReference s'.1.1 = rf_transactionReference s.1.1 ∧ same_terms s.1.1 s'.1.1.

#[export] Instance terms_kept_preorder : PreOrder terms_kept.
Proof.
  split; [done|]. intros s1 s2 s3 [H1 (H2 & H3 & H4)] [H5 (H6 & H7 & H8)].
  split; [|split_and!]; congruence.
Qed.

Lemma lift_terms {A} (m : App A) : Respects terms_kept (lift m).
Proof. intros [c w]. unfold lift. simpl. by destruct (m w). Qed.
#[local] Hint Resolve lift_terms : effects.

Lemma save_held_terms : Respects terms_kept save_held.
Proof.
  intros [[r t] w]. destruct (save_held ((r, t), w)) as [[p|e] s'] eqn:Hs.
  - by apply save_held_return in Hs as [-> ->].
  - unfold save_held, held_refund in Hs. erewrite bind_return in Hs by reflexivity.
    apply bind_throw_inv in Hs as [Hs|(p & s1 & _ & H)]; [|discriminate H].
    cbn [fst] in Hs. destruct s' as [c w']. by apply lift_throw_inv in Hs as [-> _].
Qed.

Lemma syncTransaction_terms status case : Respects terms_kept (syncTransaction status case).
Proof.
  unfold syncTransaction, held_payment, assign_payment.
  repeat (apply respects_bind; [apply _| |intros ?]); try apply lift_terms; done.
Qed.

Lemma persist_success_terms reference dedup actor :
  Respects terms_kept (persist_success reference dedup actor).
Proof.
  intros s. unfold persist_success, transaction_on, entity_after. destruct (transaction _ _) as [o w'].
  cbn [fst snd]. set (m := save_held ≫= _). assert (Hm : Respects terms_kept m).
  { apply respects_bind; [apply _|apply save_held_terms|intros p].
    apply respects_bind; [apply _|apply syncTransaction_terms|intros u].
    repeat (apply respects_bind; [apply _|apply lift_terms|intros ?]). done. }
  destruct s as [c w]. exact (Hm (c, w)).
Qed.

(** The row of the refund after the call: the same terms, whatever happened. *)
Lemma call_provider_row actor r t w :
  ledger_ok (w_db w) → ids_unique (w_db w) →
  refund_row (rf_transactionReference r) (w_db w) = Some r →
  ∃ r', refund_row (rf_transactionReference r) (w_db (call_provider actor r ((r, t), w)).2.2)
        = Some r' ∧ same_terms r r'.
Proof.
  intros Hok Hdup Hrow.
  destruct (call_provider actor r ((r, t), w)) as [o s'] eqn:Hc. cbn [fst snd]. revert Hc.
  assert (Hfail : ∀ err s o s', recordFailure err actor s = (o, s') →
    w_db s.2 = w_db w → same_terms r s.1.1 →
    rf_transactionReference s.1.1 = rf_transactionReference r →
    ∃ r', refund_row (rf_transactionReference r) (w_db s'.2) = Some r' ∧ same_terms r r').
  { intros err [[r1 t1] w1] o1 s1 Hf Hdb Hterms Href. cbn [fst snd] in *. destruct o1 as [p|e].
    - apply recordFailure_return in Hf as (row & w2 & _ & _ & -> & -> & _ & fact & Hrec & _);
        [|by rewrite Hdb..].
      eexists. split; [by refine (refund_row_recorded _ _ _ _ _ _ _ _ _ Hrec)|done].
    - apply recordFailure_throws in Hf. cbn [snd] in Hf. rewrite Hf, Hdb. by exists r. }
  rewrite call_provider_eq. destruct (provider_answer _ _ _) as [result|err].
  2: { intros Hf. by eapply Hfail. }
  rewrite recordSuccess_eq. destruct (persist_success _ _ _ _) as [[p|err] s1] eqn:Hs.
  - intros [= <- <-]. rewrite <- recordSuccess_eq in Hs.
    apply recordSuccess_return in Hs as (row & w2 & _ & _ & -> & -> & _ & fact & closing & Hrec & _);
      [|done..].
    eexists. split; [by refine (refund_row_recorded _ _ _ _ _ _ _ _ _ Hrec)|done].
  - intros Hf. destruct (respects_run _ _ _ _ _ (persist_success_terms _ _ _) Hs) as [Href Hterms].
    unfold persist_success in Hs. destruct s1 as [c1 w1]. apply transaction_on_rolls_back in Hs.
    by eapply Hfail.
Qed.

(** Only in the [else] branch of [requestRefund] may the provider be called. *)
Lemma loadRefundable_reads reference w :
  ∃ o, loadRefundable reference w = (o, w)
  ∧ ∀ t, o = Return t → List.find (by_reference reference) (db_transactions (w_db w)) = Some t
      ∧ tx_aggregatorAmount t ≠ None ∧ tx_aggregatorCurrency t ≠ None
      ∧ tx_refundStatus t ≠ RefundStatus.NOT_REQUIRED.
Proof.
  unfold loadRefundable, find_transaction. erewrite bind_return by reflexivity.
  destruct (List.find _ _) as [t|]; [|eexists; split; [reflexivity|done]]. erewrite bind_return by reflexivity.
  unfold throw_unless. destruct (is_eq (tx_refundStatus t) _) eqn:Hst; [eexists; split; [reflexivity|done]|].
  erewrite bind_return by reflexivity. destruct (bool_decide (_ ∧ _)) eqn:Ham; [|eexists; split; [reflexivity|done]].
  apply bool_decide_eq_true in Ham as [Ham Hcur]. apply bool_decide_eq_false in Hst.
  eexists. split; [reflexivity|]. by intros u [= <-].
Qed.

Definition refund_rows_kept (w w' : World) : Prop := db_refunds (w_db w') = db_refunds (w_db w).

(** A request for a completed refund only repairs the closing of the case. *)
Lemma completed_refund_kept r t w :
  ledger_ok (w_db w) →
  let '(o, w') := (closeCase false t CLOSED_REFUNDED ;; mret r : App Refund) w in
  w_calls w' = w_calls w ∧ refund_rows_kept w w' ∧ ∀ r', o = Return r' → r' = r.
Proof.
  intros Hok. unfold mbind, Eff_bind.
  assert (Hcalls := closeCase_silent false t CLOSED_REFUNDED w).
  destruct (closeCase false t CLOSED_REFUNDED w) as [[c|err] w1] eqn:Hc; destruct Hcalls as [Hcalls _];
    cbn [snd] in Hcalls; (split; [done|]).
  - apply closeCase_recorded in Hc as [Hrec _]; [|done]. split; [|by intros r' [= <-]].
    exact (recorded_refunds _ _ _ Hrec).
  - split; [|done]. by destruct (respects_run _ _ _ _ _ (closeCase_only _ _ _) Hc) as (_ & Href & _).
Qed.

(** An attempt keeps the terms of the refund, and calls the provider under them. *)
Lemma attempt_keeps_terms actor r t w o c w' :
  ledger_ok (w_db w) → ids_unique (w_db w) →
  List.find (by_id (tx_id t)) (db_transactions (w_db w)) = Some t →
  refund_row (rf_transactionReference r) (w_db w) = Some r →
  attempt actor ((r, t), w) = (o, (c, w')) →
  (w_calls w' = w_calls w ∨ attemptable r = true ∧ w_calls w' = w_calls w ++ [provider_call r t])
  ∧ ∃ r', refund_row (rf_transactionReference r) (w_db w') = Some r' ∧ same_terms r r'.
Proof.
  intros Hok Hdup Hid Hr Ha. destruct (attemptable r) eqn:Hatt.
  2: { unfold attempt, held_refund in Ha. erewrite bind_return in Ha by reflexivity.
       cbn [fst] in Ha. rewrite Hatt in Ha. injection Ha as <- <- <-. split; [by left|by exists r]. }
  destruct (attempt_requests actor r t w Hok Hdup Hatt Hid)
    as [(err & c1 & w1 & H & Hdb & Hcalls)|(p & u & w1 & Hreq & H)]; rewrite H in Ha.
  - injection Ha as <- <- <-. split; [by left|by exists r; rewrite Hdb].
  - destruct Hreq as [-> -> [Hcalls _] Hdup1 Hok1 _ Hrow1 _ _].
    set (r1 := (assign_requested _ (w_now w) r) <| rf_updatedAt := w_now w |>) in *.
    assert (Hc := call_provider_calls actor r1 (set_refund_state RefundStatus.REQUESTED None t) w1).
    destruct (call_provider_row actor r1 (set_refund_state RefundStatus.REQUESTED None t) w1 Hok1 Hdup1)
      as (r' & Hr' & Hterms); [exact Hrow1|].
    rewrite Ha, Hcalls in *. cbn [fst snd] in *. split; [by right|by exists r'].
Qed.

(** One payment, one key.  Once a payment has its refund, a request for it calls
    the provider at most once, only if the refund may still be attempted, and always
    under the key, for the amount and in the currency of that refund; whatever the
    outcome, the row keeps them, so every later request repeats the same call and
    the provider can recognise it.  A completed refund is returned as it is. *)
Theorem requests_share_one_key reference requestedBy r t w :
  ledger_ok (w_db w) → ids_unique (w_db w) →
  List.find (by_reference reference) (db_transactions (w_db w)) = Some t →
  refund_row reference (w_db w) = Some r →
  let '(o, w') := requestRefund reference requestedBy w in
  (w_calls w' = w_calls w
   ∨ attemptable r = true ∧ w_calls w' = w_calls w ++ [provider_call r t])
  ∧ (∃ r', refund_row reference (w_db w') = Some r' ∧ same_terms r r')
  ∧ (rf_status r = RefundStatus.COMPLETED → w_calls w' = w_calls w ∧ ∀ r', o = Return r' → r' = r).
Proof.
  intros Hok Hdup Ht Hr. unfold requestRefund, requestRefund_under.
  destruct (loadRefundable_reads reference w) as ([u|err] & Hload & Hu).
  2: { erewrite bind_throw by exact Hload. split_and!; [by left|by exists r|by intros _; split_and!]. }
  erewrite bind_return by exact Hload. destruct (Hu u eq_refl) as (Hfind & _).
  rewrite Ht in Hfind. injection Hfind as <-.
  assert (Hreft : tx_reference t = reference) by (apply find_some in Ht as [_ H]; by apply str_eqb_spec).
  assert (Hrefr : rf_transactionReference r = reference).
  { apply find_some in Hr as [_ H]. by apply str_eqb_spec. }
  assert (Hfound : findOrCreate (λ d, d) t requestedBy w = (Return r, w)).
  { unfold findOrCreate. erewrite bind_return by reflexivity. rewrite Hreft.
    unfold refund_row in Hr. by rewrite Hr. }
  erewrite bind_return by exact Hfound. destruct (is_eq (rf_status r) _) eqn:Hst.
  - apply bool_decide_eq_true in Hst. assert (Hkept := completed_refund_kept r t w Hok).
    destruct ((closeCase _ _ _ ;; _) w) as [o w']. destruct Hkept as (Hcalls & Hrows & Hsame).
    split_and!; [by left| |by intros _; split]. exists r. split; [|done].
    unfold refund_row. by rewrite Hrows.
  - apply bool_decide_eq_false in Hst. unfold with_entity.
    destruct (attempt _ ((r, t), w)) as [o [c w']] eqn:Ha. cbn [snd].
    assert (Hid : List.find (by_id (tx_id t)) (db_transactions (w_db w)) = Some t).
    { apply find_by_id; [done|]. by apply list_elem_of_In, (find_some (by_reference reference)). }
    rewrite <- Hrefr in Hr |- *.
    destruct (attempt_keeps_terms _ r t w o c w' Hok Hdup Hid Hr Ha). by split_and!.
Qed.

(** Lifting a rejection takes a second actor.  [reopenRefund] refuses, and
    changes nothing, when the actor is the one who last requested the refund; it
    succeeds only on a refund that is open and rejected, and then the refund is
    retryable again, under its key, with the approver on its row and on the
    [REFUND_REOPENED] fact that ends the register. *)
Theorem reopening_needs_a_second_actor reference reopenedBy w :
  ledger_ok (w_db w) →
  let '(o, w') := reopenRefund reference reopenedBy w in
  match o with
  | Throw _ => w_db w' = w_db w
  | Return s =>
      ∃ r fact, refund_row reference (w_db w) = Some r
      ∧ rf_status r ≠ RefundStatus.COMPLETED ∧ rf_retryable r = false
      ∧ same_actor reopenedBy (rf_lastRequestedBy r) = false
      ∧ same_terms r s ∧ rf_status s = rf_status r ∧ rf_retryable s = true
      ∧ rf_lastApprovedBy s = reopenedBy ∧ refund_row reference (w_db w') = Some s
      ∧ chain_of reference (w_db w') = chain_of reference (w_db w) ++ [fact]
      ∧ event_type fact = TransactionEventType.REFUND_REOPENED
      ∧ se_actorId (ev_data fact) = reopenedBy
  end.
Proof.
  intros Hok. destruct (reopenRefund reference reopenedBy w) as [[s|err] w'] eqn:H.
  2: { unfold reopenRefund in H. by apply transaction_rolls_back in H. }
  unfold reopenRefund in H. apply transaction_inv in H.
  apply bind_inv in H as (o & w1 & H1 & H). unfold find_refund in H1.
  erewrite bind_return in H1 by reflexivity. injection H1 as <- <-.
  fold (refund_row reference (w_db w)) in H. destruct (refund_row reference (w_db w)) as [r|] eqn:Hr;
    [|by apply bind_inv in H as (? & ? & [=] & _)].
  erewrite bind_return in H by reflexivity. unfold throw_unless in H.
  destruct (is_eq (rf_status r) _) eqn:Hst; [by apply bind_inv in H as (? & ? & [=] & _)|].
  erewrite bind_return in H by reflexivity. apply bool_decide_eq_false in Hst.
  destruct (rf_retryable r) eqn:Hre; [by apply bind_inv in H as (? & ? & [=] & _)|].
  erewrite bind_return in H by reflexivity.
  destruct (same_actor _ _) eqn:Hsame; [by apply bind_inv in H as (? & ? & [=] & _)|].
  erewrite bind_return in H by reflexivity.
  apply bind_inv in H as (t & w1 & [Ht ->]%find_transaction_or_fail_return & H). cbv zeta in H.
  apply find_some in Ht as [_ Ht]. apply str_eqb_spec in Ht.
  apply bind_inv in H as (fact & w1 & Hrec & H).
  apply record_recorded in Hrec as (Hrec & _ & Htype & Href & p & id & date & corr & fp & salt & Hfact);
    [|done]. simpl in Href. rewrite Ht in Href.
  unfold save_refund in H. do 2 erewrite bind_return in H by reflexivity.
  unfold throw_unless in H. destruct (refund_fits _); [|by apply bind_inv in H as (? & ? & [=] & _)].
  do 2 erewrite bind_return in H by reflexivity. injection H as <- <-.
  apply find_some in Hr as Hr'. destruct Hr' as [_ Hrefr%str_eqb_spec].
  exists r, fact. split_and!; try done.
  - by apply (refund_row_saved reference).
  - change (chain_of reference (refund_saved ((assign_reopened reopenedBy r)
      <| rf_updatedAt := w_now w1 |>) (w_db w1)) = chain_of reference (w_db w) ++ [fact]).
    change (chain_of reference (w_db w1) = chain_of reference (w_db w) ++ [fact]).
    by rewrite (recorded_chain reference _ _ _ Hok Hrec) by by constructor.
  - by rewrite Hfact.
Qed.

Lemma refund_row_none draft d :
  existsb (same_refund draft) (db_refunds d) = false →
  refund_row (rf_transactionReference draft) d = None.
Proof.
  intros Hnew%existsb_false. unfold refund_row. destruct (List.find _ _) as [s|] eqn:Hs; [|done].
  apply find_some in Hs as [Hin Heq]. rewrite Forall_forall in Hnew.
  apply list_elem_of_In, Hnew in Hin. unfold same_refund in Hin. by rewrite str_eqb_sym, Heq in Hin.
Qed.

Lemma insert_refund_throws r w err w' : insert_refund r w = (Throw err, w') → w' = w.
Proof.
  unfold insert_refund, throw_unless, mbind, Eff_bind. cbn [get_db now gets].
  repeat match goal with |- context [if ?b then _ else _] => destruct b; cbn [mret Eff_ret throw] end;
    by intros [= _ <-].
Qed.

(** What was collected is what will be refunded.  [findOrCreate] never opens a
    second refund for a payment: it returns the one that is there, including one
    another session opened meanwhile, or opens one for exactly the amount and
    currency the provider collected, to be attempted. *)
Theorem refund_is_of_the_collected_amount interfere t requestedBy w r w' :
  findOrCreate interfere t requestedBy w = (Return r, w') →
  refund_row (tx_reference t) (w_db w') = Some r
  ∧ (refund_row (tx_reference t) (w_db w) = Some r ∧ w' = w
     ∨ refund_row (tx_reference t) (w_db w) = None
       ∧ (refund_row (tx_reference t) (interfere (w_db w)) = Some r
          ∨ refund_row (tx_reference t) (interfere (w_db w)) = None
            ∧ rf_amount r = or_default (tx_aggregatorAmount t) 0
            ∧ rf_currency r = or_default (tx_aggregatorCurrency t) ""
            ∧ attemptable r = true)).
Proof.
  unfold findOrCreate. intros (o & w1 & H1 & H)%bind_inv. unfold find_refund in H1.
  erewrite bind_return in H1 by reflexivity. injection H1 as <- <-.
  fold (refund_row (tx_reference t) (w_db w)) in H.
  destruct (refund_row (tx_reference t) (w_db w)) as [s|] eqn:Hr.
  { injection H as <- <-. split; [done|by left]. }
  do 3 erewrite bind_return in H by reflexivity. set (w2 := _ <| w_db := _ |>) in H.
  set (draft := refund_draft _ _ _ _) in H. unfold try_catch in H.
  destruct (insert_refund draft w2) as [[s|err] w3] eqn:Hins.
  - injection H as <- <-. unfold insert_refund in Hins.
    do 2 erewrite bind_return in Hins by reflexivity. unfold throw_unless in Hins.
    destruct (refund_fits _); [|by apply bind_inv in Hins as (? & ? & [=] & _)].
    erewrite bind_return in Hins by reflexivity.
    destruct (existsb (same_refund draft) _) eqn:Hnew;
      [by apply bind_inv in Hins as (? & ? & [=] & _)|].
    erewrite bind_return in Hins by reflexivity.
    destruct (negb _); [|by apply bind_inv in Hins as (? & ? & [=] & _)].
    erewrite bind_return in Hins by reflexivity.
    destruct (existsb (by_reference _) _); [|by apply bind_inv in Hins as (? & ? & [=] & _)].
    do 2 erewrite bind_return in Hins by reflexivity. injection Hins as <- <-.
    assert (Hnone : refund_row (tx_reference t) (interfere (w_db w)) = None).
    { exact (refund_row_none draft _ Hnew). }
    split; [|right; split; [done|]; right; by split_and!].
    unfold refund_row. apply find_snoc; [exact Hnone|apply str_eqb_refl].
  - apply insert_refund_throws in Hins as ->. destruct (isUniqueViolation err); [|discriminate H].
    unfold find_refund in H. erewrite bind_return in H by reflexivity.
    change (List.find _ _) with (refund_row (tx_reference t) (interfere (w_db w))) in H.
    destruct (refund_row (tx_reference t) (interfere (w_db w))) as [s|] eqn:Hw; [|discriminate H].
    injection H as <- <-. split; [exact Hw|]. right. split; [done|by left].
Qed.
End outcomes.

(** * Witnesses *)

#[local] Instance sample_errors : ErrorText := {| error_message _ := "erreur" |}.
#[local] Existing Instances Toy.hashing Toy.entropy Toy.xsd.

(** A provider that pays everything and one that refuses. *)
Definition paying_provider : RefundProvider :=
  {| provider_refund _ _ _ _ _ := Return (mkProviderRefund "RFN-1" false) |}.
Definition refusing_provider : RefundProvider :=
  {| provider_refund _ _ _ _ _ :=
       Throw (ProviderRefundRejectedException "Solde marchand insuffisant") |}.

(** A payment collected whose bank leg failed, and its refund. *)
Definition sample_debt : Transaction :=
  sample_payment <| tx_status := TransactionStatus.FAILED |>
    <| tx_bankStatus := Some BankProcessingStatus.FAILED |>
    <| tx_reconciliationStatus := Some ReconciliationStatus.MANUAL_REVIEW |>
    <| tx_refundStatus := RefundStatus.REQUIRED |> <| tx_caseStatus := CaseStatus.MANUAL_REVIEW |>.
Definition sample_refund : Refund :=
  mkRefund "TRF-1" RefundStatus.REQUIRED 1000 "USD" None "RFD-1" None 0 None true None None
    (Some "ops-1") None None "c" 0.
Definition sample_due : World :=
  mkWorld (empty_db <| db_transactions := [sample_debt] |> <| db_refunds := [sample_refund] |>)
    0 1769212800000 "corr" [].

Lemma sample_due_ok : ledger_ok (w_db sample_due).
Proof. intros reference. split; [exact I|]. simpl. lia. Qed.

Lemma sample_due_ids : ids_unique (w_db sample_due).
Proof. apply (bool_decide_unpack (NoDup _)). vm_compute. exact I. Qed.

Lemma refund_success_extinguishes_debt_witness (_provider := paying_provider) :
  ∃ p s', attempt (Some (operator "ops-1")) ((sample_refund, sample_debt), sample_due)
          = (Return p, s')
    ∧ rf_providerRefundReference p = Some "RFN-1"
    ∧ existsb is_closing (rows_of "TRF-1" (w_db s'.2)) = true.
Proof.
  assert (Hrun : ∃ p s', attempt (Some (operator "ops-1"))
      ((sample_refund, sample_debt), sample_due) = (Return p, s')
    ∧ rf_status p = RefundStatus.COMPLETED).
  { eexists _, _. split; (vm_compute; reflexivity). }
  destruct Hrun as (p & s' & Hrun & Hst). exists p, s'. split; [exact Hrun|].
  destruct (refund_success_extinguishes_debt (Some (operator "ops-1")) sample_refund sample_debt
    sample_due p s' sample_due_ok sample_due_ids eq_refl eq_refl Hrun Hst) as (result & Hres & Href & _ & _ & _ & _ & _ & _ & _ & _ & _ & _ & _ & _ & Hcl).
  injection Hres as <-. split; [exact Href|exact Hcl].
Defined.

Lemma refused_refund_keeps_debt_witness (_provider := refusing_provider) :
  ∃ p s', attempt None ((sample_refund, sample_debt), sample_due) = (Return p, s')
    ∧ rf_status p = RefundStatus.FAILED ∧ to_retry p = false.
Proof.
  assert (Hrun : ∃ p s', attempt None ((sample_refund, sample_debt), sample_due) = (Return p, s')).
  { eexists _, _. vm_compute. reflexivity. }
  destruct Hrun as (p & s' & Hrun). exists p, s'. split; [exact Hrun|].
  destruct (refused_refund_keeps_debt (HR := _provider) None sample_refund sample_debt sample_due p s'
    (ProviderRefundRejectedException "Solde marchand insuffisant") sample_due_ok sample_due_ids eq_refl eq_refl eq_refl Hrun) as (Hst & _ & Hre & _).
  split; [exact Hst|exact Hre].
Defined.

(** A provider whose reference is too long for its column: the confirmation cannot be
    written. *)
Definition verbose_provider : RefundProvider :=
  {| provider_refund _ _ _ _ _ :=
       Return (mkProviderRefund (String.concat "" (replicate 65 "R")) false) |}.

Lemma interrupted_refund_stays_due_witness (_provider := verbose_provider) :
  ∃ err s' p, attempt None ((sample_refund, sample_debt), sample_due) = (Throw err, s')
    ∧ p ∈ db_refunds (w_db s'.2) ∧ rf_status p = RefundStatus.REQUESTED ∧ to_retry p = true.
Proof.
  assert (Hrun : ∃ err s', attempt None ((sample_refund, sample_debt), sample_due) = (Throw err, s')
    ∧ length (db_events (w_db s'.2)) = 1%nat).
  { eexists _, _. split; (vm_compute; reflexivity). }
  destruct Hrun as (err & s' & Hrun & Hlen).
  destruct (interrupted_refund_stays_due None sample_refund sample_debt sample_due err s'
      sample_due_ok sample_due_ids eq_refl eq_refl Hrun)
    as [Hdb|(p & u & fact & Hin & Hst & Hre & _)]; [rewrite Hdb in Hlen; discriminate Hlen|].
  exists err, s', p. split; [exact Hrun|]. split; [exact Hin|]. split; [exact Hst|exact Hre].
Defined.

Lemma requests_share_one_key_witness (_provider := refusing_provider) :
  ∃ r', refund_row "TRF-1" (w_db (requestRefund "TRF-1" (Some "ops-1") sample_due).2) = Some r'
    ∧ rf_providerIdempotencyKey r' = "RFD-1".
Proof.
  assert (H := requests_share_one_key "TRF-1" (Some "ops-1") sample_refund sample_debt sample_due
    sample_due_ok sample_due_ids eq_refl eq_refl).
  destruct (requestRefund "TRF-1" (Some "ops-1") sample_due) as [o w'].
  destruct H as (_ & (r' & Hr & Hkey & _) & _). exists r'. split; [exact Hr|exact Hkey].
Defined.

(** The refund once the provider rejected it. *)
Definition sample_rejected : World :=
  sample_due <| w_db := (w_db sample_due) <| db_refunds :=
    [sample_refund <| rf_status := RefundStatus.FAILED |> <| rf_retryable := false |>
       <| rf_lastRequestedBy := Some "ops-1" |>] |> |>.

Lemma reopening_needs_a_second_actor_witness :
  (∃ s w', reopenRefund "TRF-1" (Some "boss-1") sample_rejected = (Return s, w')
     ∧ rf_retryable s = true)
  ∧ ∃ w', reopenRefund "TRF-1" (Some "ops-1") sample_rejected
          = (Throw (HttpException 403 "SEGREGATION_OF_DUTIES"), w')
       ∧ w_db w' = w_db sample_rejected.
Proof.
  assert (Hok : ledger_ok (w_db sample_rejected)) by exact sample_due_ok. split.
  - assert (Hrun : ∃ s w', reopenRefund "TRF-1" (Some "boss-1") sample_rejected = (Return s, w')).
    { eexists _, _. vm_compute. reflexivity. }
    destruct Hrun as (s & w' & Hrun). exists s, w'. split; [exact Hrun|].
    assert (H := reopening_needs_a_second_actor "TRF-1" (Some "boss-1") sample_rejected Hok).
    rewrite Hrun in H. destruct H as (r & fact & _ & _ & _ & _ & _ & _ & H & _). exact H.
  - assert (Hrun : ∃ w', reopenRefund "TRF-1" (Some "ops-1") sample_rejected
      = (Throw (HttpException 403 "SEGREGATION_OF_DUTIES"), w')).
    { eexists. vm_compute. reflexivity. }
    destruct Hrun as (w' & Hrun). exists w'. split; [exact Hrun|].
    assert (H := reopening_needs_a_second_actor "TRF-1" (Some "ops-1") sample_rejected Hok).
    rewrite Hrun in H. exact H.
Defined.

Lemma refund_is_of_the_collected_amount_witness :
  ∃ r w', findOrCreate (λ d, d) sample_debt (Some "ops-1")
            (sample_due <| w_db := (w_db sample_due) <| db_refunds := [] |> |>) = (Return r, w')
    ∧ rf_amount r = 1000 ∧ attemptable r = true.
Proof.
  set (w := sample_due <| w_db := _ |>).
  assert (Hrun : ∃ r w', findOrCreate (λ d, d) sample_debt (Some "ops-1") w = (Return r, w')).
  { eexists _, _. vm_compute. reflexivity. }
  destruct Hrun as (r & w' & Hrun). exists r, w'. split; [exact Hrun|].
  destruct (refund_is_of_the_collected_amount _ _ _ _ _ _ Hrun)
    as [_ [[H _]|[_ [H|(_ & Ham & _ & Hatt)]]]]; [discriminate H|discriminate H|].
  split; [exact Ham|exact Hatt].
Defined.
