(* ===== verification/Treasury.v ===== *)
(** Repatriation of the collected funds: [src/treasury/treasury.service.ts].

    [sweep] records one [SETTLEMENT_SWEPT] fact per reconciled payment, each in its
    own SQL transaction that locks the row and reads it again. *)
From S2P Require Import Prelude Domain StateMachine Money External Fingerprint EventXml.
From S2P Require Import Database Ledger EventLedger Ports ChainVerification Services.
Open Scope Z_scope.

Record SweepOutcome := mkSweepOutcome {
  so_examined : nat;
  so_swept : nat;
  so_amount : Z
}.

(** What is read again under the lock. *)
Definition sweepable (t : Transaction) : bool :=
  is_eq (tx_providerStatus t) (Some ProviderStatus.CONFIRMED)
  && is_eq (tx_reconciliationStatus t) (Some ReconciliationStatus.MATCHED)
  && is_eq (tx_refundStatus t) RefundStatus.NOT_REQUIRED.

Definition is_sweep (e : TransactionEvent) : bool :=
  is_eq (event_type e) TransactionEventType.SETTLEMENT_SWEPT.

Definition alreadySwept (reference : string) (d : Db) : bool :=
  existsb (λ e, of_reference reference e && is_sweep e) (db_events d).

(** The [WHERE] clause. *)
Definition eligible (d : Db) (t : Transaction) : bool :=
  is_eq (tx_paymentChannel t) PaymentChannel.MOBILE_MONEY && sweepable t
  && bool_decide (tx_aggregatorAmount t ≠ None) && negb (alreadySwept (tx_reference t) d).

(** [ORDER BY confirmed_at ASC]: [NULL] comes last. *)
Definition by_confirmation (rows : list Transaction) : list Transaction :=
  sort_by (λ t, or_default (tx_mobileMoneyConfirmedAt t) 0)
    (List.filter (λ t, bool_decide (tx_mobileMoneyConfirmedAt t ≠ None)) rows)
  ++ List.filter (λ t, bool_decide (tx_mobileMoneyConfirmedAt t = None)) rows.

Section Treasury.
Context {HH : Hashing} {HX : XsdEngine} {HE : Entropy}.

Definition sweep_input (current : Transaction) (collected : Z) : RecordEventInput :=
  mkRecordEventInput TransactionEventType.SETTLEMENT_SWEPT current (Some collected)
    (tx_aggregatorCurrency current)
    (Some ("Rapatriement de " +:+ toFixed2 collected +:+ " " +:+ tx_currency current))
    None None None None.

(** One turn of the loop: the amount collected, unless there is nothing to sweep. *)
Definition sweep_one (t : Transaction) : App (option Z) :=
  transaction
    (found ← find_transaction (by_reference (tx_reference t));
     match found with
     | None => mret None
     | Some current =>
         match tx_aggregatorAmount current with
         | None => mret None
         | Some collected =>
             if negb (sweepable current) then mret None
             else
               d ← get_db;
               if alreadySwept (tx_reference current) d then mret None
               else record true (sweep_input current collected) ;; mret (Some collected)
         end
     end).

(** Other sessions may commit before each turn. *)
Fixpoint sweep_all (interfere : nat → Db → Db) (rows : list Transaction) (swept : nat)
    (amount : Z) : App (nat * Z) :=
  match rows with
  | [] => mret (swept, amount)
  | t :: rows =>
      modify_db (interfere (length rows)) ;;
      collected ← sweep_one t;
      match collected with
      | None => sweep_all interfere rows swept amount
      | Some collected => sweep_all interfere rows (S swept) (round (amount + collected))
      end
  end.

Definition sweep_under (interfere : nat → Db → Db) (limit : nat) : App SweepOutcome :=
  d ← get_db;
  let rows := take limit (by_confirmation (List.filter (eligible d) (db_transactions d))) in
  counts ← sweep_all interfere rows 0 0;
  mret (mkSweepOutcome (length rows) counts.1 counts.2).

Definition sweep := sweep_under (λ _ d, d).

(** * Lemmas *)

Lemma sweep_one_refines t : Respects (on_db ledger_refines) (sweep_one t).
Proof. unfold sweep_one. respects. Qed.
#[local] Hint Resolve sweep_one_refines : effects.

Lemma sweep_all_refines interfere rows swept amount :
  (∀ k d, ledger_refines d (interfere k d)) →
  Respects (on_db ledger_refines) (sweep_all interfere rows swept amount).
Proof.
  intros Hint. pose proof (λ k, modify_db_refines (interfere k) (Hint k)).
  revert swept amount. induction rows; intros swept amount; simpl; respects.
Qed.

Lemma sweep_under_refines interfere limit :
  (∀ k d, ledger_refines d (interfere k d)) →
  Respects (on_db ledger_refines) (sweep_under interfere limit).
Proof.
  intros Hint. pose proof (λ rows n a, sweep_all_refines interfere rows n a Hint).
  unfold sweep_under. respects.
Qed.

Lemma sweep_refines limit : Respects (on_db ledger_refines) (sweep limit).
Proof. apply sweep_under_refines. intros _ d _. apply rtc_refl. Qed.

(** What a turn that sweeps has done; the others change nothing. *)
Lemma sweep_one_return t w o w' :
  ledger_ok (w_db w) → sweep_one t w = (Return o, w') →
  match o with
  | None => w' = w
  | Some collected =>
      ∃ current fact, List.find (by_reference (tx_reference t)) (db_transactions (w_db w)) = Some current
      ∧ sweepable current = true ∧ tx_aggregatorAmount current = Some collected
      ∧ alreadySwept (tx_reference t) (w_db w) = false
      ∧ recorded (w_db w) [fact] (w_db w') ∧ event_reference fact = tx_reference t
      ∧ is_sweep fact = true ∧ se_observedAmount (ev_data fact) = Some collected
  end.
Proof.
  intros Hok H. unfold sweep_one in H. apply transaction_inv in H.
  unfold find_transaction in H. erewrite bind_return in H by reflexivity.
  destruct (List.find _ _) as [current|] eqn:Hf; [|by injection H as <- <-].
  destruct (tx_aggregatorAmount current) as [collected|] eqn:Ham; [|by injection H as <- <-].
  destruct (sweepable current) eqn:Hs; [|by injection H as <- <-]. cbn [negb] in H.
  erewrite bind_return in H by reflexivity.
  destruct (find_some _ _ Hf) as [_ Href%str_eqb_spec]. rewrite Href in H.
  destruct (alreadySwept _ _) eqn:Hn; [by injection H as <- <-|].
  apply bind_inv in H as (fact & w1 & Hrec & [= <- <-]).
  apply record_recorded in Hrec as (Hrec & _ & Htype & Hfref & p & id & date & corr & fp & salt & Hfact);
    [|done].
  exists current, fact. simpl in Hfref. rewrite Href in Hfref. split_and!; try done.
  - unfold is_sweep. by rewrite Htype.
  - by rewrite Hfact.
Qed.

(** ** One sweep per payment *)

Definition sweeps_of (reference : string) (d : Db) : list TransactionEvent :=
  List.filter (λ e, of_reference reference e && is_sweep e) (db_events d).

Definition swept_once (d : Db) : Prop := ∀ reference, (length (sweeps_of reference d) <= 1)%nat.

Lemma alreadySwept_none reference d : alreadySwept reference d = false → sweeps_of reference d = [].
Proof.
  unfold alreadySwept, sweeps_of. induction (db_events d) as [|e l IH]; simpl; [done|].
  intros [-> Hl]%orb_false_iff. by apply IH.
Qed.

Lemma sweep_one_once t w :
  ledger_ok (w_db w) → swept_once (w_db w) → swept_once (w_db (sweep_one t w).2).
Proof.
  intros Hok Honce. destruct (sweep_one t w) as [[o|err] w'] eqn:H; cbn [snd].
  2: { unfold sweep_one in H. apply transaction_rolls_back in H. by rewrite H. }
  apply sweep_one_return in H; [|done]. destruct o as [collected|]; [|by subst].
  destruct H as (current & fact & _ & _ & _ & Hn%alreadySwept_none & Hrec & Href & Hsw & _).
  intros reference. unfold sweeps_of. rewrite (recorded_events _ _ _ Hrec), filter_snoc, length_app.
  fold (sweeps_of reference (w_db w)).
  destruct (of_reference reference fact && is_sweep fact) eqn:Hof; [|simpl; specialize (Honce reference); lia].
  apply andb_true_iff in Hof as [Hof%str_eqb_spec _]. rewrite <- Hof, Href, Hn. simpl. lia.
Qed.

(** No collection is repatriated twice.  Whatever other sessions commit between
    the turns of the loop, provided they too keep the register well formed and sweep
    no payment twice, the register holds at most one [SETTLEMENT_SWEPT] per payment
    after [sweep], and even if it throws midway. *)
Theorem collection_is_swept_once interfere limit w :
  (∀ k d, ledger_ok d → ledger_ok (interfere k d)) →
  (∀ k d, swept_once d → swept_once (interfere k d)) →
  ledger_ok (w_db w) → swept_once (w_db w) →
  swept_once (w_db (sweep_under interfere limit w).2).
Proof.
  intros Hint Hsw Hok Honce. unfold sweep_under. erewrite bind_return by reflexivity.
  set (rows := take _ _). clearbody rows. cbv zeta.
  assert (Hall : ∀ rows n a w, ledger_ok (w_db w) → swept_once (w_db w) →
    swept_once (w_db (sweep_all interfere rows n a w).2)).
  { clear - Hint Hsw. induction rows as [|t rows IH]; intros n a w Hok Honce; [done|]. simpl.
    erewrite bind_return by reflexivity. set (w1 := w <| w_db := _ |>).
    assert (Hok1 : ledger_ok (w_db w1)) by by apply Hint.
    assert (Honce1 : swept_once (w_db w1)) by by apply Hsw.
    assert (H := sweep_one_once t w1 Hok1 Honce1).
    assert (Href := sweep_one_refines t w1). unfold mbind, Eff_bind.
    destruct (sweep_one t w1) as [[[c|]|err] w2]; [| |exact H];
      apply IH; try exact H; exact (ledger_run_ok _ _ (Href Hok1) Hok1). }
  specialize (Hall rows 0%nat 0 w Hok Honce). unfold mbind, Eff_bind.
  by destruct (sweep_all _ rows 0 0 w) as [[counts|err] w'].
Qed.

(** ** What a whole sweep does *)

(** The rows a sweep examines. *)
Definition to_sweep (limit : nat) (d : Db) : list Transaction :=
  take limit (by_confirmation (List.filter (eligible d) (db_transactions d))).

Definition collected_total (rows : list Transaction) : Z :=
  foldr (λ t acc, or_default (tx_aggregatorAmount t) 0 + acc) 0 rows.

Definition sweep_of (t : Transaction) (e : TransactionEvent) : Prop :=
  event_reference e = tx_reference t ∧ is_sweep e = true
  ∧ se_observedAmount (ev_data e) = tx_aggregatorAmount t.

Definition references_unique (d : Db) : Prop := NoDup (tx_reference <$> db_transactions d).

Lemma find_by_reference d t :
  references_unique d → t ∈ db_transactions d →
  List.find (by_reference (tx_reference t)) (db_transactions d) = Some t.
Proof.
  unfold references_unique. induction (db_transactions d) as [|u rows IH]; [by intros _ ?%not_elem_of_nil|].
  rewrite fmap_cons, NoDup_cons. intros [Hnew Hdup] Hin. simpl.
  unfold by_reference at 1. destruct (str_eqb (tx_reference u) (tx_reference t)) eqn:Heq.
  - apply elem_of_cons in Hin as [->|Hin]; [done|]. apply str_eqb_spec in Heq. exfalso.
    apply Hnew. rewrite Heq. by apply list_elem_of_fmap_2.
  - apply elem_of_cons in Hin as [->|Hin]; [by rewrite str_eqb_refl in Heq|]. by apply IH.
Qed.

Lemma eligible_recorded d d' facts t :
  recorded d facts d' → Forall (λ e, event_reference e ≠ tx_reference t) facts →
  eligible d' t = eligible d t.
Proof.
  intros Hrec Hne. unfold eligible, alreadySwept. rewrite (recorded_events _ _ _ Hrec), existsb_app.
  replace (existsb _ facts) with false; [by rewrite orb_false_r|]. symmetry. apply existsb_false.
  eapply Forall_impl; [exact Hne|]. intros e He. apply andb_false_iff. left.
  apply not_true_is_false. by intros ?%str_eqb_spec.
Qed.

Lemma sweep_all_return rows n a w n' a' w' :
  ledger_ok (w_db w) → references_unique (w_db w) → NoDup (tx_reference <$> rows) →
  Forall (λ t, t ∈ db_transactions (w_db w) ∧ eligible (w_db w) t = true) rows →
  sweep_all (λ _ d, d) rows n a w = (Return (n', a'), w') →
  n' = (n + length rows)%nat ∧ a' = a + collected_total rows
  ∧ ∃ facts, recorded (w_db w) facts (w_db w') ∧ Forall2 sweep_of rows facts.
Proof.
  revert n a w. induction rows as [|t rows IH]; intros n a w Hok Huniq Hdup Hall H.
  { injection H as <- <- <-. simpl. split_and!; [lia..|]. exists []. by split; [apply recorded_nil|]. }
  simpl in H. erewrite bind_return in H by reflexivity.
  replace (w <| w_db := w_db w |>) with w in H by by destruct w.
  apply bind_inv in H as (o & w1 & H1 & H).
  apply Forall_cons in Hall as [[Hin Hel] Hall]. rewrite fmap_cons, NoDup_cons in Hdup.
  destruct Hdup as [Hnew Hdup]. assert (Hel' := Hel). unfold eligible in Hel'.
  rewrite !andb_true_iff, negb_true_iff in Hel'. destruct Hel' as [[[_ Hsw] Ham] Hnot].
  apply bool_decide_eq_true in Ham. destruct (tx_aggregatorAmount t) as [c|] eqn:Hc; [|done].
  assert (Hone : ∃ fact, o = Some c ∧ recorded (w_db w) [fact] (w_db w1)
                         ∧ event_reference fact = tx_reference t ∧ is_sweep fact = true
                         ∧ se_observedAmount (ev_data fact) = Some c).
  { assert (Hf := find_by_reference _ _ Huniq Hin). apply sweep_one_return in H1 as Ho; [|done].
    destruct o as [c'|].
    - destruct Ho as (u & fact & Hu & _ & Hc' & _ & Hrec & Href & Hs & Hobs).
      rewrite Hf in Hu. injection Hu as <-. rewrite Hc in Hc'. injection Hc' as <-. by exists fact.
    - exfalso. clear Ho. unfold sweep_one in H1. apply transaction_inv in H1.
      unfold find_transaction in H1. erewrite bind_return in H1 by reflexivity.
      rewrite Hf, Hc, Hsw in H1. cbn [negb] in H1. erewrite bind_return in H1 by reflexivity.
      rewrite Hnot in H1. by apply bind_inv in H1 as (f & w2 & _ & [=]). }
  destruct Hone as (fact & -> & Hrec & Href & Hs & Hobs).
  apply IH in H as (-> & -> & facts & Hrecs & Hall2).
  - simpl. rewrite round_id, Hc. simpl. split_and!; [lia..|]. exists (fact :: facts).
    split; [by apply (recorded_trans _ _ _ [fact] _ Hrec Hrecs)|]. constructor; [|done].
    split_and!; [done|done|]. by rewrite Hobs.
  - apply Hrec.
  - unfold references_unique. by rewrite (recorded_transactions _ _ _ Hrec).
  - done.
  - rewrite Forall_forall in Hall |- *. intros u Hu. destruct (Hall u Hu) as [Huin Huel].
    rewrite (recorded_transactions _ _ _ Hrec). split; [done|].
    rewrite (eligible_recorded _ _ _ _ Hrec); [done|]. constructor; [|done]. rewrite Href.
    intros Heq. apply Hnew. rewrite Heq. by apply list_elem_of_fmap_2.
Qed.

Lemma by_confirmation_perm rows : by_confirmation rows ≡ₚ rows.
Proof.
  unfold by_confirmation. rewrite sort_by_perm. apply filter_split. intros t.
  by destruct (tx_mobileMoneyConfirmedAt t).
Qed.

Lemma to_sweep_rows limit d :
  references_unique d →
  NoDup (tx_reference <$> to_sweep limit d)
  ∧ Forall (λ t, t ∈ db_transactions d ∧ eligible d t = true) (to_sweep limit d).
Proof.
  intros Huniq. apply (page_rows tx_reference); [apply by_confirmation_perm|done].
Qed.

(** A sweep repatriates what was collected.  When it returns, it has recorded, in
    order of confirmation, exactly one [SETTLEMENT_SWEPT] per examined payment, for
    the collected amount; it reports their number and the sum of these amounts; no
    other table changed, and none of these payments is eligible any more. *)
Theorem sweep_repatriates_collections limit w o w' :
  ledger_ok (w_db w) → references_unique (w_db w) → sweep limit w = (Return o, w') →
  let rows := to_sweep limit (w_db w) in
  so_examined o = length rows ∧ so_swept o = length rows ∧ so_amount o = collected_total rows
  ∧ Forall (λ t, eligible (w_db w') t = false) rows
  ∧ ∃ facts, recorded (w_db w) facts (w_db w') ∧ Forall2 sweep_of rows facts.
Proof.
  intros Hok Huniq H rows. unfold sweep, sweep_under in H. erewrite bind_return in H by reflexivity.
  fold (to_sweep limit (w_db w)) in H. fold rows in H. cbv zeta in H.
  apply bind_inv in H as ([n a] & w1 & H & [= <- <-]).
  destruct (to_sweep_rows limit _ Huniq) as [Hdup Hall].
  apply sweep_all_return in H as (-> & -> & facts & Hrec & Hall2); [|done..].
  cbn [so_examined so_swept so_amount fst snd]. split_and!; [done|lia|lia| |by exists facts].
  apply Forall_forall. intros t Ht. unfold eligible. apply andb_false_iff. right.
  apply negb_false_iff. unfold alreadySwept. rewrite (recorded_events _ _ _ Hrec), existsb_app.
  apply orb_true_iff. right. apply existsb_exists.
  destruct (forall2_partner _ _ _ _ Ht Hall2) as (e & He & Href & Hs & _).
  exists e. split; [by apply list_elem_of_In|]. unfold of_reference.
  by rewrite Href, str_eqb_refl, Hs.
Qed.

Lemma sweep_extends limit w o w' t :
  ledger_ok (w_db w) → references_unique (w_db w) → sweep limit w = (Return o, w') →
  t ∈ to_sweep limit (w_db w) →
  ∃ fact rest, chain_of (tx_reference t) (w_db w')
               = chain_of (tx_reference t) (w_db w) ++ fact :: rest.
Proof.
  intros Hok Huniq H Ht. unfold sweep, sweep_under in H. erewrite bind_return in H by reflexivity.
  fold (to_sweep limit (w_db w)) in H. cbv zeta in H.
  apply bind_inv in H as ([n a] & w1 & H & [= <- <-]).
  destruct (to_sweep_rows limit _ Huniq) as [Hdup Hall].
  apply sweep_all_return in H as (_ & _ & facts & Hrec & Hall2); [|done..].
  destruct (forall2_partner _ _ _ _ Ht Hall2) as (e & He & Href & _ & _).
  rewrite !chain_of_ok by (done || apply Hrec). unfold rows_of.
  rewrite (recorded_events _ _ _ Hrec), List.filter_app.
  destruct (List.filter (of_reference (tx_reference t)) facts) as [|fact rest] eqn:Hf; [|by eexists _, _].
  exfalso. assert (Hin : e ∈ ([] : list TransactionEvent)); [|by apply not_elem_of_nil in Hin].
  rewrite <- Hf, list_elem_of_In, filter_In, <- list_elem_of_In. split; [done|].
  unfold of_reference. by rewrite Href, str_eqb_refl.
Qed.

Section audit.
Context {HC : ChainClient} (explorerTxUrl : option string).

(** Sweeping a closed case makes its audit fail.  A matched payment is eligible
    although its case was closed with the match; the fact that [sweep] records comes
    after the closing one, so that whatever verdict [verify] then returns for this
    payment is TAMPERED, where nobody tampered with anything. *)
Theorem sweeping_a_closed_case_breaks_its_audit limit w o w' t :
  ledger_ok (w_db w) → references_unique (w_db w) → sweep limit w = (Return o, w') →
  t ∈ to_sweep limit (w_db w) →
  existsb is_closing (chain_of (tx_reference t) (w_db w)) = true →
  ∀ report w'', verify explorerTxUrl (tx_reference t) w' = (Return report, w'') →
  rp_verdict report = TAMPERED.
Proof.
  intros Hok Huniq H Ht (e & He & Hc)%existsb_exists report w'' Hv.
  destruct (decide (rp_verdict report = TAMPERED)) as [|Hne]; [done|].
  destruct (sweep_extends _ _ _ _ _ Hok Huniq H Ht) as (fact & rest & Hchain).
  apply list_elem_of_In, list_elem_of_lookup in He as [i Hi].
  assert (Hlt := lookup_lt_Some _ _ _ Hi).
  assert (Hi' : chain_of (tx_reference t) (w_db w') !! i = Some e).
  { rewrite Hchain. by apply lookup_app_l_Some. }
  pose proof (closing_is_last _ _ _ _ _ _ _ Hi' Hc Hv Hne) as Hl.
  rewrite Hchain, length_app in Hl. simpl in Hl. lia.
Qed.
End audit.
End Treasury.

#[export] Hint Resolve sweep_one_refines sweep_refines : effects.

(** * Witnesses *)

#[local] Existing Instances Toy.hashing Toy.entropy Toy.xsd.

(** A matched payment whose case is closed. *)
Definition sample_matched : Transaction :=
  sample_payment <| tx_status := TransactionStatus.COMPLETED |>
    <| tx_bankStatus := Some BankProcessingStatus.COMPLETED |>
    <| tx_reconciliationStatus := Some ReconciliationStatus.MATCHED |>.
Definition sample_collected : World :=
  sample_case <| w_db := (w_db sample_case) <| db_transactions := [sample_matched] |> |>.

Lemma sample_collected_ok : ledger_ok (w_db sample_collected).
Proof.
  assert (Hok := sample_case_ok). unfold sample_collected. revert Hok.
  generalize sample_case. intros w Hok reference. exact (Hok reference).
Qed.

Lemma sample_collected_unique : references_unique (w_db sample_collected).
Proof. apply (bool_decide_unpack (NoDup _)). vm_compute. exact I. Qed.

Lemma collection_is_swept_once_witness :
  (length (sweeps_of "TRF-1" (w_db (sweep 10 (sweep 10 sample_collected).2).2)) <= 1)%nat.
Proof.
  assert (Honce : swept_once (w_db (sweep 10 sample_collected).2)).
  { apply (collection_is_swept_once (λ _ d, d)); [done|done|exact sample_collected_ok|].
    intros reference. replace (sweeps_of reference (w_db sample_collected)) with (@nil TransactionEvent);
      [simpl; lia|]. symmetry. unfold sweeps_of.
    assert (Hno : forallb (λ e, negb (is_sweep e)) (db_events (w_db sample_collected)) = true)
      by (vm_compute; reflexivity).
    induction (db_events (w_db sample_collected)) as [|e l IH]; [reflexivity|].
    simpl in *. apply andb_true_iff in Hno as [He Hl]. apply negb_true_iff in He.
    rewrite He, andb_false_r. exact (IH Hl). }
  assert (Hok : ledger_ok (w_db (sweep 10 sample_collected).2)).
  { assert (H := sweep_refines 10 sample_collected).
    exact (ledger_run_ok _ _ (H sample_collected_ok) sample_collected_ok). }
  assert (H := collection_is_swept_once (λ _ d, d) 10 _ (λ _ _ H, H) (λ _ _ H, H) Hok Honce).
  exact (H "TRF-1").
Defined.

Lemma sweep_repatriates_collections_witness :
  ∃ o w', sweep 10 sample_collected = (Return o, w')
    ∧ so_amount o = 1000 ∧ alreadySwept "TRF-1" (w_db w') = true.
Proof.
  assert (Hrun : ∃ o w', sweep 10 sample_collected = (Return o, w')
    ∧ alreadySwept "TRF-1" (w_db w') = true).
  { eexists _, _. split; (vm_compute; reflexivity). }
  destruct Hrun as (o & w' & Hrun & Hs). exists o, w'. split; [exact Hrun|]. split; [|exact Hs].
  destruct (sweep_repatriates_collections 10 sample_collected o w' sample_collected_ok
    sample_collected_unique Hrun) as (_ & _ & Ham & _).
  rewrite Ham. vm_compute. reflexivity.
Defined.

Lemma sweeping_a_closed_case_breaks_its_audit_witness (_chain := sample_chain) :
  ∃ w' report w'', verify None "TRF-1" w' = (Return report, w'') ∧ rp_verdict report = TAMPERED
    ∧ w' = (sweep 10 sample_collected).2.
Proof.
  assert (Hrun : ∃ o, (sweep 10 sample_collected).1 = Return o) by (eexists; vm_compute; reflexivity).
  assert (Hver : ∃ report, (verify None "TRF-1" (sweep 10 sample_collected).2).1 = Return report)
    by (eexists; vm_compute; reflexivity).
  assert (Hin : sample_matched ∈ to_sweep 10 (w_db sample_collected)).
  { assert (Heq : to_sweep 10 (w_db sample_collected) = [sample_matched]) by (vm_compute; reflexivity).
    rewrite Heq. by apply list_elem_of_singleton. }
  assert (Hcl : existsb is_closing (chain_of (tx_reference sample_matched) (w_db sample_collected)) = true)
    by (vm_compute; reflexivity).
  destruct (sweep 10 sample_collected) as [o w'] eqn:Hs. destruct Hrun as [o' Ho]. cbn [fst snd] in *.
  subst o. destruct (verify None "TRF-1" w') as [r w''] eqn:Hv. destruct Hver as [report Hr].
  cbn [fst] in Hr. subst r. exists w', report, w''. split; [exact Hv|]. split; [|reflexivity].
  exact (sweeping_a_closed_case_breaks_its_audit None 10 sample_collected o' w' sample_matched
    sample_collected_ok sample_collected_unique Hs Hin Hcl report w'' Hv).
Defined.
