(* ===== verification/Anchoring.v ===== *)
(** Anchoring of closed cases: [src/blockchain/anchor.service.ts].

    [processPendingBatch] takes up an interrupted batch or builds one from the
    closing facts that wait, publishes its root once, and writes the outcome.  The
    batches that still hold snapshots of transactions, which nothing produces any
    more, are left out: the items of a batch are facts. *)
From stdpp Require Import sorting.
From S2P Require Import Prelude Domain StateMachine Money External Fingerprint Merkle EventXml.
From S2P Require Import Database Ledger EventLedger Ports ChainVerification Services.
Open Scope Z_scope.

(** [blockchainConfig] and [anchorConfig]. *)
Record AnchorConfig := mkAnchorConfig {
  an_enabled : bool;
  an_chainId : string;
  an_contractAddress : string;
  an_batchMaxSize : nat;
  an_maxRetries : Z
}.

Record BatchOutcome := mkBatchOutcome {
  bo_batch : option AnchorBatch;
  bo_anchored : nat;
  bo_reason : option string
}.

Definition in_batch (batchId : string) (e : TransactionEvent) : bool :=
  is_eq (ev_batchId e) (Some batchId).

(** [events.find({ where: { batchId }, order: { leafIndex: 'ASC' } })]: [NULL] last. *)
Definition batch_items (batchId : string) (d : Db) : list TransactionEvent :=
  let rows := List.filter (in_batch batchId) (db_events d) in
  sort_by (λ e, or_default (ev_leafIndex e) 0)
    (List.filter (λ e, bool_decide (ev_leafIndex e ≠ None)) rows)
  ++ List.filter (λ e, bool_decide (ev_leafIndex e = None)) rows.

(** A closing fact that waits for a batch. *)
Definition waiting (e : TransactionEvent) : bool :=
  is_eq (ev_anchorStatus e) AnchorStatus.PENDING && is_closing e && is_eq (ev_batchId e) None.

Definition resumable (b : AnchorBatch) : bool :=
  is_eq (ab_status b) BatchStatus.PENDING || is_eq (ab_status b) BatchStatus.ANCHORING.

Definition event_ids (items : list TransactionEvent) : list string :=
  (λ e, se_id (ev_data e)) <$> items.

Definition among (items : list TransactionEvent) (e : TransactionEvent) : bool :=
  bool_decide (se_id (ev_data e) ∈ event_ids items).

(** What [finalizeBatch] learns from the chain. *)
Record ChainData := mkChainData {
  cd_txHash : option string;
  cd_blockNumber : option string;
  cd_gasUsed : option string;
  cd_chainId : option string;
  cd_contractAddress : option string;
  cd_anchoredAt : Z
}.

Definition nullish {A} (o fallback : option A) : option A :=
  match o with Some a => Some a | None => fallback end.

Definition assign_anchored (c : ChainData) (b : AnchorBatch) : AnchorBatch :=
  b <| ab_status := BatchStatus.ANCHORED |>
    <| ab_txHash := nullish (cd_txHash c) (ab_txHash b) |>
    <| ab_blockNumber := nullish (cd_blockNumber c) (ab_blockNumber b) |>
    <| ab_gasUsed := nullish (cd_gasUsed c) (ab_gasUsed b) |>
    <| ab_chainId := nullish (cd_chainId c) (ab_chainId b) |>
    <| ab_contractAddress := nullish (cd_contractAddress c) (ab_contractAddress b) |>
    <| ab_anchoredAt := Some (cd_anchoredAt c) |>
    <| ab_lastError := None |>.

Section Anchoring.
Context {HH : Hashing} {HX : XsdEngine} {HE : Entropy} {HC : ChainClient} {HT : ErrorText}.
Context (config : AnchorConfig).

(** * Building a batch *)

Fixpoint toLeaves (items : list TransactionEvent) : App (list string) :=
  match items with
  | [] => mret []
  | e :: items => leaf ← toLeaf (ev_fingerprint e); leaves ← toLeaves items; mret (leaf :: leaves)
  end.

(** [Object.assign(item, { batchId, leafIndex, merkleProof })], in order. *)
Fixpoint assign_proofs (tree : MerkleTree) (batchId : string) (items : list TransactionEvent)
    (index : nat) : App (list TransactionEvent) :=
  match items with
  | [] => mret []
  | e :: items =>
      proof ← getProof tree (Z.of_nat index);
      rest ← assign_proofs tree batchId items (S index);
      mret (e <| ev_batchId := Some batchId |> <| ev_leafIndex := Some (Z.of_nat index) |>
              <| ev_merkleProof := Some proof |> :: rest)
  end.

(** [events.save(items)]: an [UPDATE] of the columns that changed, row by row. *)
Fixpoint save_items (items : list TransactionEvent) : App unit :=
  match items with
  | [] => mret tt
  | e :: items =>
      update_events (λ r, str_eqb (se_id (ev_data r)) (se_id (ev_data e)))
        (λ r, r <| ev_batchId := ev_batchId e |> <| ev_leafIndex := ev_leafIndex e |>
                <| ev_merkleProof := ev_merkleProof e |>) ;;
      save_items items
  end.

Definition new_batch (root : string) (total : nat) : AnchorBatch :=
  mkAnchorBatch "" BatchStatus.PENDING root (Z.of_nat total) (Some (an_chainId config))
    (Some (an_contractAddress config)) None None None None 0 None 0.

(** The facts that the query locks and returns; [locked]: held by another session. *)
Definition select_waiting (locked : TransactionEvent → bool) (d : Db) : list TransactionEvent :=
  take (an_batchMaxSize config)
    (sort_by ev_createdAt (List.filter (λ e, waiting e && negb (locked e)) (db_events d))).

Definition createBatch (locked : TransactionEvent → bool) :
    App (option (AnchorBatch * list TransactionEvent)) :=
  transaction
    (d ← get_db;
     let pending := select_waiting locked d in
     if Nat.eqb (length pending) 0 then mret None
     else
       leaves ← toLeaves pending;
       tree ← buildMerkleTree leaves;
       batch ← insert_batch (new_batch (mt_root tree) (length pending));
       items ← assign_proofs tree (ab_id batch) pending 0;
       save_items items ;;
       mret (Some (batch, items))).

(** * Applying a status to the items *)

Definition markItems (items : list TransactionEvent) (status : AnchorStatus) : App unit :=
  if Nat.eqb (length items) 0 then mret tt
  else
    update_events (among items) (λ e, e <| ev_anchorStatus := status |>) ;;
    let closed := event_reference <$> List.filter is_closing items in
    if Nat.eqb (length closed) 0 then mret tt
    else
      update_transactions (λ t, bool_decide (tx_reference t ∈ closed))
        (λ t, t <| tx_anchorStatus := status |>) ;;
      mret tt.

(** * Taking up an interrupted batch *)

Fixpoint resume_first (candidates : list AnchorBatch) :
    App (option (AnchorBatch * list TransactionEvent)) :=
  match candidates with
  | [] => mret None
  | batch :: candidates =>
      d ← get_db;
      let items := batch_items (ab_id batch) d in
      let total := length items in
      if (Z.of_nat total =? ab_leafCount batch) && Nat.ltb 0 total then mret (Some (batch, items))
      else
        save_batch (batch <| ab_status := BatchStatus.FAILED |>
          <| ab_lastError := Some ("Lot incomplet apres reprise : " +:+ pretty (Z.of_nat total)
               +:+ "/" +:+ pretty (ab_leafCount batch) +:+ " elements") |>) ;;
        (if Nat.ltb 0 total then markItems items AnchorStatus.FAILED else mret tt) ;;
        resume_first candidates
  end.

Definition findResumableBatch : App (option (AnchorBatch * list TransactionEvent)) :=
  d ← get_db;
  resume_first (sort_by ab_createdAt (List.filter resumable (db_batches d))).

Definition findOrCreateBatch (locked : TransactionEvent → bool) :
    App (option (AnchorBatch * list TransactionEvent)) :=
  found ← findResumableBatch;
  match found with
  | Some claimed => mret (Some claimed)
  | None => createBatch locked
  end.

(** * Outcomes of an attempt *)

Definition recordBatchFailure (batch : AnchorBatch) (items : list TransactionEvent)
    (reason : string) (forceFailure : bool) : App BatchOutcome :=
  let abandoned := forceFailure || (an_maxRetries config <=? ab_attempts batch) in
  saved ← transaction
    (failed ← save_batch (batch
       <| ab_status := if abandoned then BatchStatus.FAILED else BatchStatus.PENDING |>
       <| ab_lastError := Some (slice 1024 reason) |>);
     (if abandoned then markItems items AnchorStatus.FAILED else mret tt) ;;
     mret failed);
  mret (mkBatchOutcome (Some saved) 0 (Some reason)).

Definition finalizeBatch (batch : AnchorBatch) (items : list TransactionEvent) (c : ChainData) :
    App BatchOutcome :=
  saved ← transaction
    (anchored ← save_batch (assign_anchored c batch);
     markItems items AnchorStatus.ANCHORED ;;
     mret anchored);
  mret (mkBatchOutcome (Some saved) (length items) None).

(** The batch on the chain is the persisted one. *)
Definition same_on_chain (batch : AnchorBatch) (oc : OnChainBatch) : bool :=
  str_eqb (toLowerCase (oc_merkleRoot oc)) (toLowerCase (ab_merkleRoot batch))
  && (oc_leafCount oc =? ab_leafCount batch).

Definition finalizeRecoveredBatch (batch : AnchorBatch) (items : list TransactionEvent)
    (oc : OnChainBatch) : App BatchOutcome :=
  if negb (same_on_chain batch oc) then
    recordBatchFailure batch items
      "Le lot existant sur la chaine ne correspond pas au lot persiste" true
  else finalizeBatch batch items (mkChainData None None None None None (oc_anchoredAt oc)).

(** * An attempt *)

(** [orderedLeaves]: the leaves are put back at their indices. *)
Fixpoint place_leaves (items : list TransactionEvent) (leafCount : Z)
    (leaves : list (option string)) : App (list (option string)) :=
  match items with
  | [] => mret leaves
  | e :: items =>
      match ev_leafIndex e with
      | Some index =>
          if (index <? 0) || (leafCount <=? index) then
            throw (PlainError ("Indice de feuille invalide (" +:+ pretty index +:+ ") pour l'element "
                               +:+ se_id (ev_data e)))
          else
            leaf ← toLeaf (ev_fingerprint e);
            place_leaves items leafCount (<[Z.to_nat index := Some leaf]> leaves)
      | None =>
          throw (PlainError ("Indice de feuille invalide (null) pour l'element "
                             +:+ se_id (ev_data e)))
      end
  end.

Definition orderedLeaves (items : list TransactionEvent) (leafCount : Z) : App (list string) :=
  leaves ← place_leaves items leafCount (replicate (Z.to_nat leafCount) None);
  match list_find (λ l, l = None) leaves with
  | Some (missing, _) =>
      throw (PlainError ("Feuille manquante a l'indice " +:+ pretty (Z.of_nat missing)))
  | None => mret (omap id leaves)
  end.

(** What the [try] around the chain gives: the batch found there, the receipt of its
    publication, or the error. *)
Definition publish (batch : AnchorBatch) (root : string) (total : nat) :
    App ((OnChainBatch + AnchorReceipt) + GatewayError) :=
  try_catch
    (existing ← getBatch (ab_id batch);
     match existing with
     | Some oc => mret (inl (inl oc))
     | None =>
         receipt ← anchorBatch (ab_id batch) root (Z.of_nat total);
         mret (inl (inr receipt))
     end)
    (λ error, mret (inr error)).

Definition attempt_publication (batch : AnchorBatch) (items : list TransactionEvent)
    (tree : MerkleTree) : App BatchOutcome :=
  batch ← save_batch (batch <| ab_status := BatchStatus.ANCHORING |>
                            <| ab_attempts := ab_attempts batch + 1 |>);
  answer ← publish batch (mt_root tree) (length items);
  match answer with
  | inl (inl existing) => finalizeRecoveredBatch batch items existing
  | inl (inr receipt) =>
      date ← now;
      finalizeBatch batch items (mkChainData (Some (ar_txHash receipt))
        (Some (ar_blockNumber receipt)) (Some (ar_gasUsed receipt)) (Some (ar_chainId receipt))
        (Some (ar_contractAddress receipt)) date)
  | inr error => recordBatchFailure batch items (error_message error) false
  end.

(** The last reading of an abandoned batch: an error counts as nothing found. *)
Definition last_reading (batch : AnchorBatch) : App (option OnChainBatch) :=
  try_catch (getBatch (ab_id batch)) (λ _, mret None).

(** ... once the leaves of the items gave a tree. *)
Definition anchor_tree (batch : AnchorBatch) (items : list TransactionEvent) (tree : MerkleTree) :
    App BatchOutcome :=
  if negb (str_eqb (toLowerCase (mt_root tree)) (toLowerCase (ab_merkleRoot batch))) then
    recordBatchFailure batch items
      "Les empreintes du lot ne correspondent plus a sa racine de Merkle" true
  else if an_maxRetries config <=? ab_attempts batch then
    onChain ← last_reading batch;
    match onChain with
    | Some oc => finalizeRecoveredBatch batch items oc
    | None =>
        recordBatchFailure batch items ("Nombre maximal de tentatives atteint ("
          +:+ pretty (an_maxRetries config) +:+ ")") true
    end
  else attempt_publication batch items tree.

Definition anchorBatchItems (batch : AnchorBatch) (items : list TransactionEvent) :
    App BatchOutcome :=
  read ← try_catch (leaves ← orderedLeaves items (ab_leafCount batch); mret (inl leaves))
           (λ error, mret (inr (error_message error)));
  match read with
  | inr reason => recordBatchFailure batch items reason true
  | inl leaves => tree ← buildMerkleTree leaves; anchor_tree batch items tree
  end.

(** [running]: this process is at it; [acquired]: the advisory lock was free. *)
Definition processPendingBatch (running acquired : bool) (locked : TransactionEvent → bool) :
    App BatchOutcome :=
  if negb (an_enabled config) then mret (mkBatchOutcome None 0 (Some "ANCHORING_DISABLED"))
  else if running || negb acquired then mret (mkBatchOutcome None 0 (Some "ALREADY_RUNNING"))
  else
    claimed ← findOrCreateBatch locked;
    match claimed with
    | None => mret (mkBatchOutcome None 0 (Some "NOTHING_TO_ANCHOR"))
    | Some (batch, items) => anchorBatchItems batch items
    end.

(** * Consultation *)

Definition findBatch (id : string) : App (option AnchorBatch) := find_batch id.

(** [ORDER BY created_at DESC LIMIT limit]; TypeORM writes no [LIMIT] for zero, PostgreSQL
    refuses a negative one. *)
Definition listBatches (limit : Z) : App (list AnchorBatch) :=
  if limit <? 0 then throw (QueryFailedError PG_INVALID_LIMIT "")
  else
    d ← get_db;
    let rows := sort_by (λ b, - ab_createdAt b) (db_batches d) in
    mret (if limit =? 0 then rows else take (Z.to_nat limit) rows).

(** [GROUP BY anchor_status]: the count of one status. *)
Definition getEventStatistics (status : AnchorStatus) : App nat :=
  d ← get_db; mret (length (List.filter (λ e, is_eq (ev_anchorStatus e) status) (db_events d))).

(** The status of the closing fact, or the row's own without one. *)
Definition case_status (d : Db) (t : Transaction) : AnchorStatus :=
  match List.find (λ e, of_reference (tx_reference t) e && is_closing e) (db_events d) with
  | Some e => ev_anchorStatus e
  | None => tx_anchorStatus t
  end.

Definition getStatistics (status : AnchorStatus) : App nat :=
  d ← get_db;
  mret (length (List.filter (λ t, is_eq (case_status d t) status) (db_transactions d))).
End Anchoring.

(** * Lemmas *)

(** ** What anchoring writes *)

Section anchoring_lemmas.
Context {HH : Hashing} {HX : XsdEngine} {HE : Entropy} {HC : ChainClient} {HT : ErrorText}.
Context (config : AnchorConfig).

Definition stamp (e r : TransactionEvent) : TransactionEvent :=
  if str_eqb (se_id (ev_data r)) (se_id (ev_data e)) then
    r <| ev_batchId := ev_batchId e |> <| ev_leafIndex := ev_leafIndex e |>
      <| ev_merkleProof := ev_merkleProof e |>
  else r.

Definition stamp_all (items : list TransactionEvent) (r : TransactionEvent) : TransactionEvent :=
  foldl (λ r e, stamp e r) r items.

Lemma stamp_facts e r : facts_of (stamp e r) = facts_of r.
Proof. unfold stamp. by destruct (str_eqb _ _). Qed.

Lemma stamp_all_facts items r : facts_of (stamp_all items r) = facts_of r.
Proof.
  unfold stamp_all. revert r. induction items as [|e items IH]; intros r; simpl; [done|].
  by rewrite IH, stamp_facts.
Qed.

Lemma facts_id e f : facts_of e = facts_of f → se_id (ev_data e) = se_id (ev_data f).
Proof. unfold facts_of. congruence. Qed.

(** An [UPDATE] of the anchoring columns passes the append-only trigger. *)
Lemma update_events_eq p f w :
  (∀ e, facts_of (f e) = facts_of e) →
  update_events p f w =
  (Return (affected p (db_events (w_db w))),
   w <| w_db := (w_db w) <| db_events := update_where p f (db_events (w_db w)) |> |>).
Proof.
  intros Hf. unfold update_events, mbind, Eff_bind, throw_unless. simpl.
  replace (forallb _ _) with true; [done|]. symmetry. apply forallb_forall. intros e _.
  rewrite Hf. rewrite bool_decide_true by done. by destruct (p e).
Qed.

Lemma save_items_eq items w :
  save_items items w =
  (Return tt, w <| w_db := (w_db w) <| db_events := stamp_all items <$> db_events (w_db w) |> |>).
Proof.
  revert w. induction items as [|e items IH]; intros w.
  - destruct w as [[] ? ? ? ?]. cbn. by rewrite list_fmap_id.
  - cbn [save_items]. erewrite bind_return by by apply update_events_eq.
    rewrite IH. cbn. unfold update_where. rewrite <- list_fmap_compose. done.
Qed.

Lemma stamp_all_other items r :
  se_id (ev_data r) ∉ event_ids items → stamp_all items r = r.
Proof.
  unfold stamp_all. revert r. induction items as [|e items IH]; intros r Hr; simpl; [done|].
  unfold event_ids in Hr. rewrite fmap_cons, not_elem_of_cons in Hr. destruct Hr as [Hne Hr].
  unfold stamp. destruct (str_eqb _ _) eqn:E; [by apply str_eqb_spec in E|]. by apply IH.
Qed.

Lemma stamp_all_item items i e r :
  NoDup (event_ids items) → items !! i = Some e → se_id (ev_data r) = se_id (ev_data e) →
  stamp_all items r = stamp e r.
Proof.
  unfold stamp_all. revert i r. induction items as [|f items IH]; intros i r Hdup Hi Hid; [done|].
  unfold event_ids in Hdup. rewrite fmap_cons, NoDup_cons in Hdup. destruct Hdup as [Hnew Hdup].
  destruct i as [|i]; simplify_eq/=.
  - apply stamp_all_other. unfold stamp. by destruct (str_eqb _ _); simpl; rewrite Hid.
  - replace (stamp f r) with r; [by eapply IH|]. unfold stamp.
    destruct (str_eqb _ _) eqn:E; [|done]. apply str_eqb_spec in E. exfalso. apply Hnew.
    rewrite <- E, Hid. by eapply (list_elem_of_fmap_2 (λ e, se_id (ev_data e))),
      list_elem_of_lookup_2.
Qed.

(** ** The batch [createBatch] builds *)

(** Item [index] of the batch, as the query found it. *)
Definition placed (batchId : string) (index : nat) (proof : list string) (e : TransactionEvent) :
    TransactionEvent :=
  e <| ev_batchId := Some batchId |> <| ev_leafIndex := Some (Z.of_nat index) |>
    <| ev_merkleProof := Some proof |>.

Definition leaf_of (e : TransactionEvent) : string := keccak256 (ev_fingerprint e).

Lemma toLeaves_inv items leaves w w' :
  toLeaves items w = (Return leaves, w') →
  w' = w ∧ leaves = leaf_of <$> items ∧ Forall (λ e, is_bytes32 (ev_fingerprint e) = true) items.
Proof.
  revert leaves w'. induction items as [|e items IH]; intros leaves w'; cbn [toLeaves].
  - by intros [= <- <-].
  - intros (leaf & w1 & (Hfp & -> & ->)%toLeaf_inv & H)%bind_inv.
    apply bind_inv in H as (rest & w1 & (-> & -> & Hrest)%IH & [= <- <-]).
    split_and!; [done..|]. by constructor.
Qed.

Lemma getProof_inv tree i proof (w w' : World) :
  getProof tree i w = (Return proof, w') → w' = w ∧ proof = proof_path (mt_layers tree) i.
Proof. unfold getProof. destruct (_ || _); [done|]. by intros [= <- <-]. Qed.

Lemma assign_proofs_inv tree batchId items k out w w' :
  assign_proofs tree batchId items k w = (Return out, w') →
  w' = w ∧ length out = length items ∧
  ∀ i e, items !! i = Some e → ∃ proof,
    getProof tree (Z.of_nat (k + i)) w = (Return proof, w)
    ∧ out !! i = Some (placed batchId (k + i) proof e).
Proof.
  revert k out w'. induction items as [|e items IH]; intros k out w'; cbn [assign_proofs].
  - by intros [= <- <-].
  - intros (proof & w1 & Hp & H)%bind_inv. destruct (getProof_inv _ _ _ _ _ Hp) as [-> _].
    apply bind_inv in H as (rest & w1 & (-> & Hlen & Hrest)%IH & [= <- <-]).
    split_and!; [done|simpl; lia|]. intros [|i] f Hi; simplify_eq/=.
    + exists proof. by rewrite Nat.add_0_r.
    + destruct (Hrest i f Hi) as (q & Hq & Hout). exists q.
      by replace (k + S i)%nat with (S k + i)%nat by lia.
Qed.

Lemma insert_batch_return b w b' w' :
  insert_batch b w = (Return b', w') →
  b' = b <| ab_id := randomUUID (w_draws w) |> <| ab_createdAt := w_now w |>
  ∧ existsb (same_batch b') (db_batches (w_db w)) = false
  ∧ w' = w <| w_draws := S (w_draws w) |>
           <| w_db := (w_db w) <| db_batches := db_batches (w_db w) ++ [b'] |> |>.
Proof.
  unfold insert_batch, draw_uuid, next_draw, now, get_db, put_db, throw_unless, mbind, Eff_bind.
  cbn. intros H. destruct (existsb _ _) eqn:Hex in H; cbn in H; [done|].
  destruct (fits_opt _ _) in H; cbn in H; [|done]. by injection H as <- <-.
Qed.

(** What a batch built from [pending] leaves in the database. *)
Definition with_batch (batch : AnchorBatch) (items : list TransactionEvent) (d : Db) : Db :=
  d <| db_batches := db_batches d ++ [batch] |> <| db_events := stamp_all items <$> db_events d |>.

Lemma createBatch_inv locked w batch items w' :
  createBatch config locked w = (Return (Some (batch, items)), w') →
  let pending := select_waiting config locked (w_db w) in
  ∃ tree : MerkleTree,
    pending ≠ [] ∧ length items = length pending
    ∧ Forall (λ e, is_bytes32 (ev_fingerprint e) = true) pending
    ∧ (∀ w : World, buildMerkleTree (leaf_of <$> pending) w = (Return tree, w))
    ∧ batch = (new_batch config (mt_root tree) (length pending))
                <| ab_id := randomUUID (w_draws w) |> <| ab_createdAt := w_now w |>
    ∧ existsb (same_batch batch) (db_batches (w_db w)) = false
    ∧ (∀ i e, pending !! i = Some e → ∃ proof,
         (∀ w : World, getProof tree (Z.of_nat i) w = (Return proof, w))
         ∧ items !! i = Some (placed (ab_id batch) i proof e))
    ∧ w' = w <| w_draws := S (w_draws w) |> <| w_db := with_batch batch items (w_db w) |>.
Proof.
  cbv zeta. unfold createBatch. intros H%transaction_return.
  apply bind_inv in H as (d & w1 & [= <- <-] & H). cbv zeta in H.
  destruct (Nat.eqb _ _) eqn:Hn; [done|]. apply Nat.eqb_neq in Hn.
  apply bind_inv in H as (leaves & w1 & (-> & -> & Hfp)%toLeaves_inv & H).
  apply bind_inv in H as (tree & w1 & Htree & H).
  assert (Hw1 : w1 = w) by (by apply buildMerkleTree_inv in Htree as (_ & _ & ? & _)). subst w1.
  apply bind_inv in H as (b & w1 & Hb & H). apply insert_batch_return in Hb as (-> & Hex & ->).
  apply bind_inv in H as (out & w2 & Hproofs & H).
  apply assign_proofs_inv in Hproofs as (-> & Hlen & Hproofs).
  apply bind_inv in H as ([] & w2 & Hsave & [= <- <- <-]).
  rewrite save_items_eq in Hsave. injection Hsave as <-.
  exists tree. split_and!; [by intros E; rewrite E in Hn|done|done| |done|done| |by destruct w as [[]]].
  - intros v. revert Htree. unfold buildMerkleTree.
    destruct (Nat.eqb _ 0); [done|]. intros ([] & w1 & [Hl _]%assert_leaves_inv & [= <- _])%bind_inv.
    erewrite bind_return by by apply assert_leaves_return. done.
  - intros i e Hi. destruct (Hproofs i e Hi) as (proof & Hp & Ho). exists proof. split; [|done].
    intros v. revert Hp. rewrite Nat.add_0_l. unfold getProof. destruct (_ || _); [done|].
    by intros [= <-].
Qed.

Definition events_unique (d : Db) : Prop := NoDup (event_ids (db_events d)).

Lemma select_waiting_rows locked d :
  events_unique d →
  NoDup (event_ids (select_waiting config locked d))
  ∧ Forall (λ e, e ∈ db_events d ∧ waiting e && negb (locked e) = true)
      (select_waiting config locked d).
Proof. apply (page_rows (λ e, se_id (ev_data e))), sort_by_perm. Qed.

Lemma unique_event d e f :
  events_unique d → e ∈ db_events d → f ∈ db_events d →
  se_id (ev_data e) = se_id (ev_data f) → e = f.
Proof.
  intros Hdup [i Hi]%list_elem_of_lookup [j Hj]%list_elem_of_lookup Hid.
  assert (i = j) as ->; [|congruence].
  eapply (NoDup_lookup _ _ _ _ Hdup); unfold event_ids; rewrite list_lookup_fmap.
  - by rewrite Hi.
  - rewrite Hj. simpl. by rewrite Hid.
Qed.

(** The stored row of an item is the item, and no other row changed. *)
Lemma stamped_rows d items pending :
  events_unique d → NoDup (event_ids items) → Forall (λ e, e ∈ db_events d) pending →
  (∀ i e, items !! i = Some e → ∃ batchId proof e0,
     pending !! i = Some e0 ∧ e = placed batchId i proof e0) →
  (∀ e, e ∈ items → e ∈ (stamp_all items <$> db_events d))
  ∧ ∀ r, r ∈ (stamp_all items <$> db_events d) → r ∈ items ∨ r ∈ db_events d.
Proof.
  intros Hdup Hids Hpending Hitems.
  assert (Hstamp : ∀ i e r, items !! i = Some e → r ∈ db_events d →
            se_id (ev_data r) = se_id (ev_data e) → stamp_all items r = e).
  { intros i e r Hi Hr Hid. rewrite (stamp_all_item items i e) by done.
    destruct (Hitems i e Hi) as (b & proof & e0 & H0 & ->).
    assert (r = e0) as ->.
    { apply (unique_event d); [done..|by apply (Forall_lookup_1 _ _ _ _ Hpending H0)|exact Hid]. }
    unfold stamp. by rewrite Hid, str_eqb_refl. }
  split.
  - intros e [i Hi]%list_elem_of_lookup. destruct (Hitems i e Hi) as (b & proof & e0 & H0 & He).
    apply list_elem_of_fmap. exists e0. assert (e0 ∈ db_events d) by by apply (Forall_lookup_1 _ _ _ _ Hpending H0).
    split; [|done]. symmetry. apply (Hstamp i); [done..|by rewrite He].
  - intros r (r0 & -> & Hr0)%list_elem_of_fmap.
    destruct (decide (se_id (ev_data r0) ∈ event_ids items)) as [Hin|Hout].
    + left. apply list_elem_of_fmap in Hin as (e & Hid & [i Hi]%list_elem_of_lookup).
      rewrite (Hstamp i e) by done. by eapply list_elem_of_lookup_2.
    + right. by rewrite stamp_all_other.
Qed.

Lemma stamped_unique d batch items : events_unique d → events_unique (with_batch batch items d).
Proof.
  unfold events_unique. intros Hd.
  replace (event_ids (db_events (with_batch batch items d))) with (event_ids (db_events d)); [done|].
  unfold event_ids. simpl. rewrite <- list_fmap_compose. apply list_fmap_ext. intros _ r _.
  symmetry. apply facts_id, stamp_all_facts.
Qed.

(** A created batch, its items, and the tree over the facts it was built from. *)
Record created (locked : TransactionEvent → bool) (w : World) (batch : AnchorBatch)
    (items pending : list TransactionEvent) (tree : MerkleTree) (d : Db) : Prop := {
  created_size : (0 < length items <= an_batchMaxSize config)%nat;
  created_length : length items = length pending;
  created_pending : Forall (λ e, e ∈ db_events (w_db w) ∧ waiting e = true ∧ locked e = false) pending;
  created_seals : Forall (λ e, is_bytes32 (ev_fingerprint e) = true) pending;
  created_tree (v : World) : buildMerkleTree (leaf_of <$> pending) v = (Return tree, v);
  created_batch : batch = (new_batch config (mt_root tree) (length items))
    <| ab_id := randomUUID (w_draws w) |> <| ab_createdAt := w_now w |>;
  created_item i e : items !! i = Some e → ∃ proof e0,
    pending !! i = Some e0 ∧ e = placed (ab_id batch) i proof e0
    ∧ ∀ w : World, getProof tree (Z.of_nat i) w = (Return proof, w);
  created_unique : NoDup (event_ids items);
  created_stored : d = with_batch batch items (w_db w);
  created_rows e : e ∈ items → e ∈ db_events d;
  created_others r : r ∈ db_events d → r ∈ items ∨ r ∈ db_events (w_db w)
}.

Lemma createBatch_created locked w batch items w' :
  events_unique (w_db w) →
  createBatch config locked w = (Return (Some (batch, items)), w') →
  ∃ pending tree, created locked w batch items pending tree (w_db w').
Proof.
  intros Hdup (tree & Hne & Hlen & Hfp & Htree & Hbatch & _ & Hitems & ->)%createBatch_inv.
  destruct (select_waiting_rows locked _ Hdup) as [Hids Hrows].
  assert (Hsize : (length (select_waiting config locked (w_db w)) <= an_batchMaxSize config)%nat)
    by apply firstn_le_length.
  revert Hne Hlen Hfp Htree Hbatch Hitems Hids Hrows Hsize.
  generalize (select_waiting config locked (w_db w)). intros pending.
  intros Hne Hlen Hfp Htree Hbatch Hitems Hids Hrows Hsize.
  assert (Hat : ∀ i e, items !! i = Some e → ∃ proof e0, pending !! i = Some e0
            ∧ e = placed (ab_id batch) i proof e0
            ∧ ∀ w : World, getProof tree (Z.of_nat i) w = (Return proof, w)).
  { intros i e Hi. destruct (lookup_lt_is_Some_2 pending i) as [e0 H0].
    { rewrite <- Hlen. by eapply lookup_lt_Some. }
    destruct (Hitems i e0 H0) as (proof & Hp & Hi'). rewrite Hi in Hi'. injection Hi' as ->.
    by exists proof, e0. }
  assert (Hsame : event_ids items = event_ids pending).
  { apply list_eq_same_length with (length pending); unfold event_ids; rewrite ?length_fmap; try done.
    intros i x y _. rewrite !list_lookup_fmap. destruct (items !! i) as [e|] eqn:Hi; [|done].
    destruct (Hat i e Hi) as (proof & e0 & -> & -> & _). simpl. congruence. }
  destruct (stamped_rows (w_db w) items pending) as [Hstored Hothers];
    [done|by rewrite Hsame|eapply Forall_impl; [exact Hrows|by intros ? [? _]]| |].
  { intros i e Hi. destruct (Hat i e Hi) as (proof & e0 & ? & ? & _). by exists (ab_id batch), proof, e0. }
  exists pending, tree. split; try done.
  - rewrite Hlen. destruct pending; simpl in *; [done|lia].
  - eapply Forall_impl; [exact Hrows|]. by intros e [He [? ?%negb_true_iff]%andb_true_iff].
  - by rewrite Hlen.
  - by rewrite Hsame.
Qed.

(** ** The batch, read back *)

Lemma sort_by_unique {A} (key : A → Z) l k :
  l ≡ₚ k → StronglySorted (λ x y, key x <= key y) k →
  (∀ x y, x ∈ k → y ∈ k → key x = key y → x = y) → sort_by key l = k.
Proof.
  intros Hp Hk Hinj. eapply StronglySorted_unique_strong;
    [|apply sort_by_ordered|exact Hk|by rewrite sort_by_perm].
  intros x y Hx Hy ??. rewrite elem_of_sort_by, Hp in Hx. apply Hinj; [done..|]. cbv beta in *. lia.
Qed.

Definition index_of (e : TransactionEvent) : Z := or_default (ev_leafIndex e) 0.

Lemma indexed_sorted k items :
  (∀ i e, items !! i = Some e → index_of e = Z.of_nat (k + i)) →
  StronglySorted (λ x y, index_of x <= index_of y) items.
Proof.
  revert k. induction items as [|e items IH]; intros k Hi; constructor.
  - apply (IH (S k)). intros i f Hf. rewrite (Hi (S i) f Hf). f_equal. lia.
  - apply Forall_lookup_2. intros i f Hf. rewrite (Hi 0%nat e eq_refl), (Hi (S i) f Hf). lia.
Qed.

(** [orderedLeaves] gives back the leaves in the order of the indices. *)
Lemma place_leaves_eq items pre (w : World) :
  (∀ i e, items !! i = Some e →
     ev_leafIndex e = Some (Z.of_nat (length pre + i)) ∧ is_bytes32 (ev_fingerprint e) = true) →
  place_leaves items (Z.of_nat (length pre + length items))
    (pre ++ replicate (length items) None) w =
  (Return (pre ++ (Some <$> (leaf_of <$> items))), w).
Proof.
  revert pre. induction items as [|e items IH]; intros pre Hi; simpl; [done|].
  destruct (Hi 0%nat e eq_refl) as [-> Hfp]. rewrite Nat.add_0_r.
  replace (Z.of_nat (length pre) <? 0) with false by (symmetry; apply Z.ltb_ge; lia).
  replace (Z.of_nat (length pre + S (length items)) <=? Z.of_nat (length pre)) with false
    by (symmetry; apply Z.leb_gt; lia). cbn [orb].
  erewrite bind_return by by apply toLeaf_return.
  rewrite Nat2Z.id. replace (length pre) with (length pre + 0)%nat at 2 by lia.
  rewrite insert_app_r. simpl. specialize (IH (pre ++ [Some (leaf_of e)])).
  rewrite length_app, <- !app_assoc in IH. simpl in IH.
  replace (length pre + 1 + length items)%nat with (length pre + S (length items))%nat in IH by lia.
  apply IH. intros i f Hf. destruct (Hi (S i) f Hf) as [-> ?]. split; [|done]. do 2 f_equal. lia.
Qed.

Lemma orderedLeaves_eq items (w : World) :
  (∀ i e, items !! i = Some e →
     ev_leafIndex e = Some (Z.of_nat i) ∧ is_bytes32 (ev_fingerprint e) = true) →
  orderedLeaves items (Z.of_nat (length items)) w = (Return (leaf_of <$> items), w).
Proof.
  intros Hi. unfold orderedLeaves. rewrite Nat2Z.id.
  erewrite bind_return by (apply (place_leaves_eq items []); exact Hi). simpl.
  generalize (leaf_of <$> items). intros leaves.
  replace (list_find (λ l, l = None) (Some <$> leaves)) with (@None (nat * option string)).
  - unfold mret, Eff_ret. do 2 f_equal. induction leaves as [|l leaves IH]; [done|].
    exact (f_equal (cons l) IH).
  - symmetry. apply list_find_None, Forall_forall. by intros l (? & -> & _)%list_elem_of_fmap.
Qed.

Lemma created_index locked w batch items pending tree d :
  created locked w batch items pending tree d →
  ∀ i e, items !! i = Some e →
    ev_leafIndex e = Some (Z.of_nat i) ∧ is_bytes32 (ev_fingerprint e) = true.
Proof.
  intros Hc i e Hi. destruct (created_item _ _ _ _ _ _ _ Hc i e Hi) as (proof & e0 & H0 & -> & _).
  split; [done|]. exact (Forall_lookup_1 _ _ _ _ (created_seals _ _ _ _ _ _ _ Hc) H0).
Qed.

Lemma created_leaves locked w batch items pending tree d :
  created locked w batch items pending tree d → leaf_of <$> items = leaf_of <$> pending.
Proof.
  intros Hc. apply list_eq_same_length with (length pending); rewrite ?length_fmap;
    [done|by eapply created_length|].
  intros i x y _. rewrite !list_lookup_fmap. destruct (items !! i) as [e|] eqn:Hi; [|done].
  destruct (created_item _ _ _ _ _ _ _ Hc i e Hi) as (proof & e0 & -> & -> & _). by intros [= <-] [= <-].
Qed.

(** The rows that carry the batch's identifier are its items, in order. *)
Lemma created_read_back locked w batch items pending tree d :
  created locked w batch items pending tree d → events_unique (w_db w) →
  Forall (λ e, ev_batchId e ≠ Some (ab_id batch)) (db_events (w_db w)) →
  batch_items (ab_id batch) d = items.
Proof.
  intros Hc Hold Hfresh. unfold batch_items. cbv zeta.
  assert (Hdup : events_unique d).
  { rewrite (created_stored _ _ _ _ _ _ _ Hc). by apply stamped_unique. }
  assert (Hlabel : ∀ e, e ∈ items → in_batch (ab_id batch) e = true ∧ ev_leafIndex e ≠ None).
  { intros e [i Hi]%list_elem_of_lookup.
    destruct (created_item _ _ _ _ _ _ _ Hc i e Hi) as (proof & e0 & H0 & -> & _).
    split; [by apply bool_decide_eq_true|done]. }
  assert (Hperm : List.filter (in_batch (ab_id batch)) (db_events d) ≡ₚ items).
  { apply NoDup_Permutation.
    - eapply (NoDup_fmap_1 (λ e, se_id (ev_data e))), sublist_NoDup; [exact Hdup|].
      apply fmap_sublist, filter_sublist.
    - exact (NoDup_fmap_1 _ _ (created_unique _ _ _ _ _ _ _ Hc)).
    - intros r. rewrite list_elem_of_In, filter_In, <- list_elem_of_In. split.
      + intros [Hr Hb%bool_decide_eq_true].
        destruct (created_others _ _ _ _ _ _ _ Hc r Hr) as [?|Hr']; [done|].
        rewrite Forall_forall in Hfresh. by destruct (Hfresh r Hr').
      + intros Hr. split; [by eapply created_rows|by apply Hlabel]. }
  assert (Hall : ∀ rows, rows ≡ₚ items →
    List.filter (λ e, bool_decide (ev_leafIndex e ≠ None)) rows = rows
    ∧ List.filter (λ e, bool_decide (ev_leafIndex e = None)) rows = []).
  { intros rows Hrows. assert (Hset : Forall (λ e, ev_leafIndex e ≠ None) rows).
    { apply Forall_forall. intros e. rewrite Hrows. by intros [_ ?]%Hlabel. }
    clear -Hset. induction Hset as [|e rows He _ [IH1 IH2]]; [done|]. simpl.
    rewrite (bool_decide_true _ He), (bool_decide_false _ He), IH1, IH2. done. }
  destruct (Hall _ Hperm) as [-> ->]. rewrite app_nil_r.
  assert (Hindex : ∀ i e, items !! i = Some e → index_of e = Z.of_nat (0 + i)).
  { intros i e Hi. unfold index_of. by destruct (created_index _ _ _ _ _ _ _ Hc i e Hi) as [-> _]. }
  apply (sort_by_unique index_of); [done|by eapply indexed_sorted|].
  intros x y [i Hi]%list_elem_of_lookup [j Hj]%list_elem_of_lookup.
  rewrite (Hindex _ _ Hi), (Hindex _ _ Hj). intros ?. assert (i = j) as -> by lia. congruence.
Qed.
End anchoring_lemmas.

(** C38. A batch can prove each of its facts.  The batch [createBatch] stores is not
    empty and within the size limit; its items are facts that waited and that no
    other session held, labelled with the batch and with their index; the proof
    stored with an item leads from its leaf to the stored root; and no other row
    of the register changes. *)
Theorem created_batch_is_provable {HH : Hashing} {HL : HashingLaws} {HE : Entropy} config locked w
    batch items w' :
  events_unique (w_db w) →
  createBatch config locked w = (Return (Some (batch, items)), w') →
  ab_status batch = BatchStatus.PENDING ∧ batch ∈ db_batches (w_db w')
  ∧ ab_leafCount batch = Z.of_nat (length items)
  ∧ (0 < length items <= an_batchMaxSize config)%nat
  ∧ (∀ i e, items !! i = Some e →
       e ∈ db_events (w_db w') ∧ ev_batchId e = Some (ab_id batch)
       ∧ ev_leafIndex e = Some (Z.of_nat i)
       ∧ (∃ e0, e0 ∈ db_events (w_db w) ∧ facts_of e = facts_of e0 ∧ waiting e0 = true
            ∧ locked e0 = false)
       ∧ ∃ proof, ev_merkleProof e = Some proof
           ∧ verifyProof (keccak256 (ev_fingerprint e)) proof (ab_merkleRoot batch) = true)
  ∧ ∀ r, r ∈ db_events (w_db w') → r ∈ items ∨ r ∈ db_events (w_db w).
Proof.
  intros Hdup (pending & tree & Hc)%createBatch_created; [|done].
  destruct Hc as [Hsize Hlen Hrows Hfp Htree Hbatch Hat _ Hstored Hin Hothers].
  split_and!; [by rewrite Hbatch|rewrite Hstored; apply elem_of_app; right; by left
    |by rewrite Hbatch|lia|lia| |exact Hothers].
  intros i e Hi. destruct (Hat i e Hi) as (proof & e0 & H0 & -> & Hproof).
  destruct (Forall_lookup_1 _ _ _ _ Hrows H0) as (Hin0 & Hw0 & Hl0).
  split_and!; [apply Hin; by eapply list_elem_of_lookup_2|done|done|by exists e0|].
  exists proof. split; [done|]. rewrite Hbatch. cbn [ab_merkleRoot new_batch].
  destruct (tree_proofs (leaf_of <$> pending) w) as (tree' & Ht' & _ & Hverify).
  { intros ->%fmap_nil_inv. simpl in Hlen. lia. }
  { apply Forall_fmap, Forall_forall. intros f _. apply keccak256_bytes32. }
  rewrite Htree in Ht'. injection Ht' as <-.
  destruct (Hverify i (leaf_of e0)) with (w' := w) as (proof' & Hp' & Hv);
    [by rewrite list_lookup_fmap, H0|]. rewrite Hproof in Hp'. by injection Hp' as <-.
Qed.

(** A crash between the constitution of a batch and its publication loses nothing.
    When no other batch is unfinished, the next run takes up the batch
    [createBatch] stored, with the same items in the same order, and their leaves
    give the root the batch was stored with. *)
Theorem interrupted_batch_is_resumed {HH : Hashing} {HE : Entropy} config locked w batch items w' :
  events_unique (w_db w) → List.filter resumable (db_batches (w_db w)) = [] →
  Forall (λ e, ev_batchId e ≠ Some (ab_id batch)) (db_events (w_db w)) →
  createBatch config locked w = (Return (Some (batch, items)), w') →
  findResumableBatch w' = (Return (Some (batch, items)), w')
  ∧ ∃ leaves tree, orderedLeaves items (ab_leafCount batch) w' = (Return leaves, w')
      ∧ buildMerkleTree leaves w' = (Return tree, w') ∧ mt_root tree = ab_merkleRoot batch.
Proof.
  intros Hdup Hnone Hfresh (pending & tree & Hc)%createBatch_created; [|done].
  assert (Hcount : ab_leafCount batch = Z.of_nat (length items)).
  { by rewrite (created_batch _ _ _ _ _ _ _ _ Hc). }
  split.
  - unfold findResumableBatch. erewrite bind_return by reflexivity.
    replace (List.filter resumable (db_batches (w_db w'))) with [batch].
    + simpl. erewrite bind_return by reflexivity. cbv zeta.
      rewrite (created_read_back _ _ _ _ _ _ _ _ Hc Hdup Hfresh), Hcount, Z.eqb_refl.
      replace (Nat.ltb 0 (length items)) with true; [done|]. symmetry. apply Nat.ltb_lt.
      by destruct (created_size _ _ _ _ _ _ _ _ Hc).
    + rewrite (created_stored _ _ _ _ _ _ _ _ Hc). simpl. rewrite List.filter_app, Hnone. simpl.
      by rewrite (created_batch _ _ _ _ _ _ _ _ Hc).
  - exists (leaf_of <$> items), tree. rewrite Hcount. split_and!.
    + by apply orderedLeaves_eq, (created_index _ _ _ _ _ _ _ _ Hc).
    + rewrite (created_leaves _ _ _ _ _ _ _ _ Hc). by apply (created_tree _ _ _ _ _ _ _ _ Hc).
    + by rewrite (created_batch _ _ _ _ _ _ _ _ Hc).
Qed.

(** ** Outcomes *)

(** The items, and the cases they close, carry the status. *)
Definition marked (items : list TransactionEvent) (status : AnchorStatus) (d : Db) : Prop :=
  (∀ e, e ∈ db_events d → se_id (ev_data e) ∈ event_ids items → ev_anchorStatus e = status)
  ∧ ∀ t e, t ∈ db_transactions d → e ∈ items → is_closing e = true →
      tx_reference t = event_reference e → tx_anchorStatus t = status.

Definition stored_batch (b : AnchorBatch) (d : Db) : Prop :=
  List.find (λ c, str_eqb (ab_id c) (ab_id b)) (db_batches d) = Some b.

Section outcomes.
Context {HH : Hashing} {HX : XsdEngine} {HC : ChainClient} {HT : ErrorText}.
Context (config : AnchorConfig).

Lemma save_batch_return b w b' w' :
  save_batch b w = (Return b', w') →
  b' = b ∧ w' = w <| w_db := (w_db w) <| db_batches := upsert same_batch b (db_batches (w_db w)) |> |>.
Proof.
  unfold save_batch, throw_unless, mbind, Eff_bind. cbn. intros H.
  destruct (fits_opt _ _) in H; cbn in H; [|done]. by injection H as <- <-.
Qed.

Lemma stored_upsert b d d' :
  db_batches d' = upsert same_batch b (db_batches d) → stored_batch b d'.
Proof.
  intros Hd. unfold stored_batch. rewrite Hd. apply find_upsert; [|apply str_eqb_refl].
  intros c. unfold same_batch. apply str_eqb_sym.
Qed.

Lemma marked_nothing status d : marked [] status d.
Proof. split; intros; by (exfalso; eapply not_elem_of_nil). Qed.

Lemma markItems_return items status w w' :
  markItems items status w = (Return tt, w') →
  marked items status (w_db w') ∧ db_batches (w_db w') = db_batches (w_db w)
  ∧ w_calls w' = w_calls w.
Proof.
  unfold markItems. destruct (Nat.eqb (length items) 0) eqn:Hn.
  { apply Nat.eqb_eq, length_zero_iff_nil in Hn as ->. intros [= <-].
    split; [apply marked_nothing|done]. }
  intros (n & w1 & H & Hrest)%bind_inv. rewrite update_events_eq in H by done.
  injection H as _ <-. cbv zeta in Hrest.
  assert (Hevents : ∀ e, e ∈ update_where (among items) (λ e, e <| ev_anchorStatus := status |>)
      (db_events (w_db w)) → se_id (ev_data e) ∈ event_ids items → ev_anchorStatus e = status).
  { intros e (e0 & _ & ->)%elem_of_update_where Hid.
    destruct (among items e0) eqn:Hin; [done|]. by apply bool_decide_eq_false in Hin. }
  destruct (Nat.eqb (length (event_reference <$> _)) 0) eqn:Hc.
  - injection Hrest as <-. split; [|done]. split; [exact Hevents|].
    intros t e _ He Hcl _. apply Nat.eqb_eq, length_zero_iff_nil, fmap_nil_inv in Hc.
    assert (Hin : In e (List.filter is_closing items)) by (apply filter_In; by rewrite <- list_elem_of_In).
    by rewrite Hc in Hin.
  - apply bind_inv in Hrest as (m & w2 & (-> & -> & _)%update_transactions_return & [= <-]).
    split; [|done]. split; [exact Hevents|].
    intros t e (t0 & _ & ->)%elem_of_update_where He Hcl Href.
    case_bool_decide as Hin; [done|]. simpl in *. exfalso. apply Hin. rewrite Href.
    apply list_elem_of_fmap_2. apply list_elem_of_In, filter_In. by rewrite <- list_elem_of_In.
Qed.

Lemma recordBatchFailure_return batch items reason force w out w' :
  recordBatchFailure config batch items reason force w = (Return out, w') →
  ∃ saved, out = mkBatchOutcome (Some saved) 0 (Some reason)
    ∧ ab_id saved = ab_id batch ∧ ab_attempts saved = ab_attempts batch
    ∧ stored_batch saved (w_db w') ∧ w_calls w' = w_calls w
    ∧ if force || (an_maxRetries config <=? ab_attempts batch)
      then ab_status saved = BatchStatus.FAILED ∧ marked items AnchorStatus.FAILED (w_db w')
      else ab_status saved = BatchStatus.PENDING ∧ db_events (w_db w') = db_events (w_db w)
        ∧ db_transactions (w_db w') = db_transactions (w_db w).
Proof.
  unfold recordBatchFailure. cbv zeta.
  intros (saved & w1 & H%transaction_return & [= <- <-])%bind_inv.
  apply bind_inv in H as (failed & w2 & [-> ->]%save_batch_return & H).
  apply bind_inv in H as ([] & w3 & H & [= <- <-]). eexists. split; [done|].
  do 2 (split; [done|]). destruct (_ || _).
  - apply markItems_return in H as (Hm & Hb & Hc).
    split; [by apply (stored_upsert _ (w_db w))|]. done.
  - injection H as <-. split; [by apply (stored_upsert _ (w_db w))|]. done.
Qed.

Lemma finalizeBatch_return batch items c w out w' :
  finalizeBatch batch items c w = (Return out, w') →
  out = mkBatchOutcome (Some (assign_anchored c batch)) (length items) None
  ∧ stored_batch (assign_anchored c batch) (w_db w') ∧ w_calls w' = w_calls w
  ∧ marked items AnchorStatus.ANCHORED (w_db w').
Proof.
  unfold finalizeBatch. intros (saved & w1 & H%transaction_return & [= <- <-])%bind_inv.
  apply bind_inv in H as (b & w2 & [-> ->]%save_batch_return & H).
  apply bind_inv in H as ([] & w3 & (Hm & Hb & Hc)%markItems_return & [= <- <-]).
  split; [done|]. by split; [apply (stored_upsert _ (w_db w))|].
Qed.

(** ** The course of an attempt *)

#[export] Instance eq_preorder : PreOrder (@eq World) := {}.

Lemma orderedLeaves_reads items leafCount w : (orderedLeaves items leafCount w).2 = w.
Proof.
  assert (Hplace : ∀ leaves, Respects eq (place_leaves items leafCount leaves)).
  { induction items as [|e items IH]; intros leaves; simpl; respects. }
  assert (H : Respects eq (orderedLeaves items leafCount)) by (unfold orderedLeaves; respects).
  symmetry. apply H.
Qed.

Lemma buildMerkleTree_reads leaves (w : World) : (buildMerkleTree leaves w).2 = w.
Proof.
  destruct (buildMerkleTree leaves w) as [[t|e] w'] eqn:H.
  - by apply buildMerkleTree_inv in H as (_ & _ & -> & _).
  - revert H. unfold buildMerkleTree. destruct (Nat.eqb _ 0); [by intros [= _ <-]|].
    assert (Hall : ∀ i, Respects eq (assert_leaves (S:=World) leaves i)).
    { induction leaves as [|l leaves IH]; intros i; simpl; unfold assertBytes32; respects. }
    intros [H|([] & w1 & _ & H)]%bind_throw_inv; [|done].
    symmetry. by apply (respects_run _ _ _ _ _ (Hall 0)) in H.
Qed.

(** The state once [getBatch] was called for the batch, and then [anchorBatch]. *)
Definition asked (batch : AnchorBatch) (w : World) : World :=
  w <| w_calls := w_calls w ++ [CallGetBatch (ab_id batch)] |>.

Definition published (batch : AnchorBatch) (root : string) (total : nat) (w : World) : World :=
  w <| w_calls := w_calls w ++ [CallAnchorBatch (ab_id batch) root (Z.of_nat total)] |>.

(** The chain's answers in a state. *)
Definition on_chain (batch : AnchorBatch) (w : World) : Outcome GatewayError (option OnChainBatch) :=
  chain_getBatch (w_calls (asked batch w)) (ab_id batch).

Definition receipt_of (batch : AnchorBatch) (root : string) (total : nat) (w : World) :
    Outcome GatewayError AnchorReceipt :=
  chain_anchorBatch (w_calls (published batch root total (asked batch w))) (ab_id batch) root
    (Z.of_nat total).

Lemma publish_eq batch root total w :
  publish batch root total w =
  match on_chain batch w with
  | Return (Some oc) => (Return (inl (inl oc)), asked batch w)
  | Return None =>
      (Return match receipt_of batch root total w with
              | Return receipt => inl (inr receipt)
              | Throw error => inr error
              end, published batch root total (asked batch w))
  | Throw error => (Return (inr error), asked batch w)
  end.
Proof.
  unfold publish, getBatch, anchorBatch, try_catch, mbind, Eff_bind. rewrite ask_eq.
  change (chain_getBatch (w_calls w ++ _) _) with (on_chain batch w).
  destruct (on_chain batch w) as [[oc|]|error]; [done| |done].
  rewrite ask_eq. unfold receipt_of, published, asked. cbn. by destruct (chain_anchorBatch _ _ _ _).
Qed.

Lemma last_reading_eq batch w :
  last_reading batch w =
  (Return match on_chain batch w with Return (Some oc) => Some oc | _ => None end, asked batch w).
Proof.
  unfold last_reading, getBatch, try_catch. rewrite ask_eq.
  change (chain_getBatch (w_calls w ++ _) _) with (on_chain batch w).
  by destruct (on_chain batch w) as [[oc|]|error].
Qed.

(** What an attempt comes down to. *)
Inductive attempt_course (batch : AnchorBatch) (items : list TransactionEvent) (w : World) : Prop :=
  | course_incoherent reason :
      anchorBatchItems config batch items w = recordBatchFailure config batch items reason true w →
      attempt_course batch items w
  | course_no_tree e :
      anchorBatchItems config batch items w = (Throw e, w) → attempt_course batch items w
  | course_exhausted reason :
      an_maxRetries config <= ab_attempts batch →
      anchorBatchItems config batch items w =
        match on_chain batch w with
        | Return (Some oc) => finalizeRecoveredBatch config batch items oc
        | _ => recordBatchFailure config batch items reason true
        end (asked batch w) →
      attempt_course batch items w
  | course_publication leaves tree :
      ab_attempts batch < an_maxRetries config →
      orderedLeaves items (ab_leafCount batch) w = (Return leaves, w) →
      buildMerkleTree leaves w = (Return tree, w) →
      toLowerCase (mt_root tree) = toLowerCase (ab_merkleRoot batch) →
      anchorBatchItems config batch items w = attempt_publication config batch items tree w →
      attempt_course batch items w.

Lemma attempt_takes_a_course batch items w : attempt_course batch items w.
Proof.
  pose proof (orderedLeaves_reads items (ab_leafCount batch) w) as Hread.
  destruct (orderedLeaves items (ab_leafCount batch) w) as [[leaves|e] w1] eqn:Hleaves; simpl in Hread; subst w1.
  2: { apply course_incoherent with (error_message e). unfold anchorBatchItems.
       erewrite bind_return; [|unfold try_catch; erewrite bind_throw by exact Hleaves; reflexivity].
       done. }
  assert (Hgo : ∀ k : list string + string → App BatchOutcome,
    (try_catch (leaves ← orderedLeaves items (ab_leafCount batch); mret (inl leaves))
       (λ error, mret (inr (error_message error))) ≫= k) w = k (inl leaves) w).
  { intros k. apply bind_return. unfold try_catch. erewrite bind_return by exact Hleaves. done. }
  pose proof (buildMerkleTree_reads leaves w) as Hread.
  destruct (buildMerkleTree leaves w) as [[tree|e] w1] eqn:Htree; simpl in Hread; subst w1.
  2: { apply course_no_tree with e. unfold anchorBatchItems. rewrite Hgo.
       by erewrite bind_throw by exact Htree. }
  assert (Hrun : anchorBatchItems config batch items w = anchor_tree config batch items tree w).
  { unfold anchorBatchItems. rewrite Hgo. by erewrite bind_return by exact Htree. }
  unfold anchor_tree in Hrun. destruct (str_eqb _ _) eqn:Hroot in Hrun; simpl in Hrun;
    [|by eapply course_incoherent].
  apply str_eqb_spec in Hroot. destruct (an_maxRetries config <=? ab_attempts batch) eqn:Hbudget.
  - apply Z.leb_le in Hbudget. eapply course_exhausted; [done|].
    rewrite Hrun. erewrite bind_return by apply last_reading_eq.
    by destruct (on_chain batch w) as [[oc|]|error].
  - apply Z.leb_gt in Hbudget. by eapply course_publication.
Qed.

(** ** Calls *)

Lemma save_batch_silent b : Respects ambient (save_batch b).
Proof. unfold save_batch. respects. Qed.
#[local] Hint Resolve save_batch_silent : effects.

Lemma markItems_silent items status : Respects ambient (markItems items status).
Proof. unfold markItems, update_events, update_transactions. respects. Qed.
#[local] Hint Resolve markItems_silent : effects.

Lemma recordBatchFailure_silent batch items reason force :
  Respects ambient (recordBatchFailure config batch items reason force).
Proof. unfold recordBatchFailure. cbv zeta. respects. Qed.

Lemma finalizeBatch_silent batch items c : Respects ambient (finalizeBatch batch items c).
Proof. unfold finalizeBatch. respects. Qed.
#[local] Hint Resolve recordBatchFailure_silent finalizeBatch_silent : effects.

Lemma finalizeRecoveredBatch_silent batch items oc :
  Respects ambient (finalizeRecoveredBatch config batch items oc).
Proof. unfold finalizeRecoveredBatch. respects. Qed.
#[local] Hint Resolve finalizeRecoveredBatch_silent : effects.

Lemma silent_calls {A} (m : App A) w : Respects ambient m → w_calls (m w).2 = w_calls w.
Proof. intros Hm. apply Hm. Qed.

(** The batch an attempt works on. *)
Definition started (batch : AnchorBatch) : AnchorBatch :=
  batch <| ab_status := BatchStatus.ANCHORING |> <| ab_attempts := ab_attempts batch + 1 |>.

Definition with_saved (b : AnchorBatch) (w : World) : World :=
  w <| w_db := (w_db w) <| db_batches := upsert same_batch b (db_batches (w_db w)) |> |>.

(** An attempt to publish, once the batch is saved as [ANCHORING]. *)
Lemma attempt_publication_eq batch items tree w :
  (∃ e, attempt_publication config batch items tree w = (Throw e, w))
  ∨ let w1 := with_saved (started batch) w in
    let root := mt_root tree in
    attempt_publication config batch items tree w =
    match on_chain batch w with
    | Return (Some oc) => finalizeRecoveredBatch config (started batch) items oc (asked batch w1)
    | Return None =>
        let w2 := published batch root (length items) (asked batch w1) in
        match receipt_of batch root (length items) w with
        | Return receipt =>
            finalizeBatch (started batch) items (mkChainData (Some (ar_txHash receipt))
              (Some (ar_blockNumber receipt)) (Some (ar_gasUsed receipt)) (Some (ar_chainId receipt))
              (Some (ar_contractAddress receipt)) (w_now w)) w2
        | Throw error => recordBatchFailure config (started batch) items (error_message error) false w2
        end
    | Throw error =>
        recordBatchFailure config (started batch) items (error_message error) false (asked batch w1)
    end.
Proof.
  unfold attempt_publication. destruct (save_batch (started batch) w) as [[b|e] w1] eqn:Hsave.
  - right. destruct (save_batch_return _ _ _ _ Hsave) as [-> ->].
    erewrite bind_return by exact Hsave.
    unfold mbind, Eff_bind. rewrite publish_eq.
    change (on_chain (started batch) _) with (on_chain batch w).
    change (receipt_of (started batch) (mt_root tree) (length items) _)
      with (receipt_of batch (mt_root tree) (length items) w).
    destruct (on_chain batch w) as [[oc|]|error]; [done| |done].
    by destruct (receipt_of _ _ _ _) as [receipt|error].
  - left. exists e. erewrite bind_throw by exact Hsave. do 2 f_equal.
    revert Hsave. unfold save_batch, throw_unless, mbind, Eff_bind. cbn. intros H.
    destruct (fits_opt _ _) in H; cbn in H; [done|]. by injection H.
Qed.
End outcomes.

(** C39. An attempt does not publish twice, nor what is already published (across attempts
    that overlap, it is the contract that refuses the second).  However an attempt on a
    batch ends, it has called the chain with nothing, with a reading of the batch, or with
    a reading and one publication; it publishes only when the chain answered that it did not know the
    batch, within the budget of attempts, and what it publishes is the number of
    items and the root of the tree over the leaves of the items, which is the root
    the batch was stored with. *)
Theorem batch_is_published_once {HH : Hashing} {HC : ChainClient} {HT : ErrorText} config batch
    items w o w' :
  anchorBatchItems config batch items w = (o, w') →
  w_calls w' = w_calls w
  ∨ w_calls w' = w_calls w ++ [CallGetBatch (ab_id batch)]
  ∨ ∃ leaves tree,
      w_calls w' = w_calls w ++ [CallGetBatch (ab_id batch);
                                 CallAnchorBatch (ab_id batch) (mt_root tree) (Z.of_nat (length items))]
      ∧ chain_getBatch (w_calls w ++ [CallGetBatch (ab_id batch)]) (ab_id batch) = Return None
      ∧ ab_attempts batch < an_maxRetries config
      ∧ orderedLeaves items (ab_leafCount batch) w = (Return leaves, w)
      ∧ buildMerkleTree leaves w = (Return tree, w)
      ∧ toLowerCase (mt_root tree) = toLowerCase (ab_merkleRoot batch).
Proof.
  intros Hrun. assert (Hw' : w' = (anchorBatchItems config batch items w).2) by by rewrite Hrun.
  rewrite Hw'. clear o w' Hrun Hw'.
  destruct (attempt_takes_a_course config batch items w)
    as [reason ->|e ->|reason Hb ->|leaves tree Hb Hl Ht Hr ->]; [left|by left|right; left|].
  - apply silent_calls, recordBatchFailure_silent.
  - destruct (on_chain batch w) as [[oc|]|error]; cbv iota;
      [by rewrite silent_calls by apply finalizeRecoveredBatch_silent
      |by rewrite silent_calls by apply recordBatchFailure_silent..].
  - destruct (attempt_publication_eq config batch items tree w) as [[e ->]| ->]; [by left|right].
    cbv zeta. destruct (on_chain batch w) as [[oc|]|error] eqn:Hc.
    + left. by rewrite silent_calls by apply finalizeRecoveredBatch_silent.
    + right. exists leaves, tree. split; [|done].
      destruct (receipt_of _ _ _ _) as [receipt|error];
        [rewrite silent_calls by apply finalizeBatch_silent
        |rewrite silent_calls by apply recordBatchFailure_silent]; simpl; by rewrite <- app_assoc.
    + left. by rewrite silent_calls by apply recordBatchFailure_silent.
Qed.

Section results.
Context {HH : Hashing} {HC : ChainClient} {HT : ErrorText}.
Context (config : AnchorConfig).

(** A result that fits a stored batch and its items. *)
Definition settled (items : list TransactionEvent) (out : BatchOutcome) (saved : AnchorBatch) (d : Db) :
    Prop :=
  bo_batch out = Some saved ∧ stored_batch saved d ∧
  match ab_status saved with
  | BatchStatus.ANCHORED =>
      ab_lastError saved = None ∧ bo_anchored out = length items
      ∧ marked items AnchorStatus.ANCHORED d
  | BatchStatus.FAILED => bo_anchored out = 0%nat ∧ marked items AnchorStatus.FAILED d
  | BatchStatus.PENDING => bo_anchored out = 0%nat ∧ ab_attempts saved < an_maxRetries config
  | BatchStatus.ANCHORING => False
  end.

Lemma failure_settles batch items reason force w out w' :
  recordBatchFailure config batch items reason force w = (Return out, w') →
  ∃ saved, settled items out saved (w_db w') ∧ ab_id saved = ab_id batch
    ∧ ab_status saved ≠ BatchStatus.ANCHORED ∧ ab_attempts saved = ab_attempts batch
    ∧ (ab_status saved = BatchStatus.PENDING →
       force = false ∧ db_events (w_db w') = db_events (w_db w)
       ∧ db_transactions (w_db w') = db_transactions (w_db w)).
Proof.
  intros (saved & -> & Hid & Ha & Hst & _ & H)%recordBatchFailure_return. exists saved.
  unfold settled. destruct force; simpl in H; [|destruct (_ <=? _) eqn:Hle];
    destruct H as [Hs H]; rewrite Hs; try by split_and!.
  apply Z.leb_gt in Hle. split_and!; try done; simpl. by rewrite Ha.
Qed.

Lemma final_settles batch items c w out w' :
  finalizeBatch batch items c w = (Return out, w') →
  settled items out (assign_anchored c batch) (w_db w').
Proof. intros (-> & Hst & _ & Hm)%finalizeBatch_return. by unfold settled. Qed.

(** The evidence there is that the chain holds the batch. *)
Definition held_by_chain (batch : AnchorBatch) (total : nat) (w : World) : Prop :=
  (∃ oc, on_chain batch w = Return (Some oc) ∧ same_on_chain batch oc = true)
  ∨ (on_chain batch w = Return None
     ∧ ∃ root receipt, toLowerCase root = toLowerCase (ab_merkleRoot batch)
         ∧ receipt_of batch root total w = Return receipt).

Lemma recovery_settles batch items oc w out w' :
  finalizeRecoveredBatch config batch items oc w = (Return out, w') →
  ∃ saved, settled items out saved (w_db w') ∧ ab_id saved = ab_id batch
    ∧ ab_status saved ≠ BatchStatus.PENDING
    ∧ (ab_status saved = BatchStatus.ANCHORED → same_on_chain batch oc = true).
Proof.
  unfold finalizeRecoveredBatch. destruct (same_on_chain batch oc) eqn:Hsame; simpl.
  - intros H%final_settles. by eexists.
  - intros (saved & Hset & Hid & Hna & _ & Hp)%failure_settles. exists saved.
    split_and!; [done..|by intros [? _]%Hp|done].
Qed.
End results.

(** An attempt that answers leaves the batch and its items in one state: either the
    batch is [ANCHORED], without an error, together with every item and the case each
    item closes, and then the chain has shown the batch with the same root and count
    or has given a receipt for its publication; or it is [FAILED] together with its
    items; or it stays [PENDING] for another attempt within the budget, and no row of
    the register or of the transactions has changed. *)
Theorem anchoring_outcome {HH : Hashing} {HC : ChainClient} {HT : ErrorText} config batch items w
    out w' :
  anchorBatchItems config batch items w = (Return out, w') →
  ∃ saved, settled config items out saved (w_db w') ∧ ab_id saved = ab_id batch
  ∧ (ab_status saved = BatchStatus.ANCHORED → held_by_chain batch (length items) w)
  ∧ (ab_status saved = BatchStatus.PENDING →
     ab_attempts saved = ab_attempts batch + 1
     ∧ db_events (w_db w') = db_events (w_db w)
     ∧ db_transactions (w_db w') = db_transactions (w_db w)).
Proof.
  destruct (attempt_takes_a_course config batch items w)
    as [reason ->|e ->|reason Hb ->|leaves tree Hb Hl Ht Hr ->]; [|done| |].
  - intros (saved & ? & ? & ? & _ & Hp)%failure_settles. exists saved.
    split_and!; [done..|by intros [? _]%Hp].
  - destruct (on_chain batch w) as [[oc|]|error] eqn:Hc.
    1: intros (saved & ? & ? & ? & Hsame)%recovery_settles.
    2, 3: intros (saved & ? & ? & ? & _ & Hp)%failure_settles.
    + exists saved. split_and!; try done. intros ?. left. eauto.
    + exists saved. split_and!; [done..|by intros [? _]%Hp].
    + exists saved. split_and!; [done..|by intros [? _]%Hp].
  - destruct (attempt_publication_eq config batch items tree w) as [[e ->]| ->]; [done|].
    cbv zeta. destruct (on_chain batch w) as [[oc|]|error] eqn:Hc.
    + intros (saved & ? & ? & ? & Hsame)%recovery_settles. exists saved. split_and!; try done.
      intros ?. left. eauto.
    + destruct (receipt_of _ _ _ _) as [receipt|error] eqn:Hrec.
      * intros H. eexists. split; [exact (final_settles config _ _ _ _ _ _ H)|].
        split_and!; [done| |done]. intros _. right. eauto 6.
      * intros (saved & ? & ? & ? & Ha & Hp)%failure_settles. exists saved. split_and!; try done.
        intros (_ & ? & ?)%Hp. done.
    + intros (saved & ? & ? & ? & Ha & Hp)%failure_settles. exists saved. split_and!; try done.
      intros (_ & ? & ?)%Hp. done.
Qed.

(** ** Anchoring keeps the register *)

Section anchoring_refines.
Context {HH : Hashing} {HX : XsdEngine} {HE : Entropy} {HC : ChainClient} {HT : ErrorText}.
Context (config : AnchorConfig).
Abbreviation refines := (Respects (on_db ledger_refines)).

Lemma toLeaves_refines items : refines (toLeaves items).
Proof. induction items as [|e items IH]; simpl; respects. Qed.

Lemma assign_proofs_refines tree id items k : refines (assign_proofs tree id items k).
Proof. revert k. induction items as [|e items IH]; intros k; simpl; unfold getProof; respects. Qed.

Lemma save_items_refines items : refines (save_items items).
Proof. induction items as [|e items IH]; simpl; respects. Qed.

Lemma buildMerkleTree_refines leaves : refines (buildMerkleTree leaves).
Proof. intros w. rewrite buildMerkleTree_reads. reflexivity. Qed.
#[local] Hint Resolve toLeaves_refines assign_proofs_refines save_items_refines
  buildMerkleTree_refines : effects.

Lemma createBatch_refines locked : refines (createBatch config locked).
Proof. unfold createBatch. respects. Qed.

Lemma markItems_refines items status : refines (markItems items status).
Proof. unfold markItems. respects. Qed.
#[local] Hint Resolve createBatch_refines markItems_refines : effects.

Lemma findOrCreateBatch_refines locked : refines (findOrCreateBatch config locked).
Proof.
  assert (H : ∀ candidates, refines (resume_first candidates)).
  { induction candidates as [|b candidates IH]; simpl; respects. }
  unfold findOrCreateBatch, findResumableBatch. respects.
Qed.

Lemma recordBatchFailure_refines batch items reason force :
  refines (recordBatchFailure config batch items reason force).
Proof. unfold recordBatchFailure. respects. Qed.

Lemma finalizeBatch_refines batch items c : refines (finalizeBatch batch items c).
Proof. unfold finalizeBatch. respects. Qed.
#[local] Hint Resolve findOrCreateBatch_refines recordBatchFailure_refines
  finalizeBatch_refines : effects.

Lemma anchorBatchItems_refines batch items : refines (anchorBatchItems config batch items).
Proof.
  assert (Hordered : refines (orderedLeaves items (ab_leafCount batch))).
  { intros w. rewrite orderedLeaves_reads. reflexivity. }
  unfold anchorBatchItems, anchor_tree, attempt_publication, publish, last_reading,
    finalizeRecoveredBatch. respects.
Qed.
#[local] Hint Resolve anchorBatchItems_refines : effects.

Lemma processPendingBatch_refines running acquired locked :
  refines (processPendingBatch config running acquired locked).
Proof. unfold processPendingBatch. respects. Qed.
End anchoring_refines.

#[export] Hint Resolve processPendingBatch_refines : effects.

(** * Witnesses *)

#[local] Existing Instances Toy.hashing Toy.entropy Toy.xsd.
#[local] Existing Instance sample_texts.

Definition sample_anchor_config : AnchorConfig :=
  mkAnchorConfig true "31337" "0xc0ffee" 100 3.

(** A chain that keeps what it was given. *)
Definition published_as (batchId : string) (history : list ExternalCall) : option OnChainBatch :=
  head (omap (λ c, match c with
    | CallAnchorBatch id root n =>
        if str_eqb id batchId then Some (mkOnChainBatch root n 1769212800000 "0xfeed") else None
    | _ => None end) history).

#[local] Instance ledger_chain : ChainClient := {|
  chain_getBatch history batchId := Return (published_as batchId history);
  chain_verifyInclusion _ _ _ _ := Return true;
  chain_anchorBatch _ _ _ _ := Return (mkAnchorReceipt "0xabc" "12" "21000" "31337" "0xc0ffee")
|}.

Definition nobody (_ : TransactionEvent) : bool := false.

Lemma sample_case_unique : events_unique (w_db sample_case).
Proof.
  assert (Hids : ∃ a b, event_ids (db_events (w_db sample_case)) = [a; b] ∧ str_eqb a b = false)
    by (eexists _, _; split; vm_compute; reflexivity).
  destruct Hids as (a & b & Hids & Hne). unfold events_unique. rewrite Hids.
  apply NoDup_cons. split; [|apply NoDup_singleton].
  clear Hids. intros ->%list_elem_of_singleton. rewrite str_eqb_refl in Hne. discriminate Hne.
Qed.

Lemma sample_batch_created :
  ∃ batch items w', createBatch sample_anchor_config nobody sample_case = (Return (Some (batch, items)), w')
    ∧ length items = 1%nat ∧ ab_id batch = "uuid-4" ∧ ab_attempts batch = 0.
Proof. eexists _, _, _. split; [(vm_compute; reflexivity)|]. split_and!; (vm_compute; reflexivity). Qed.

Lemma created_batch_is_provable_witness :
  ∃ batch items w' e proof, createBatch sample_anchor_config nobody sample_case = (Return (Some (batch, items)), w')
    ∧ items !! 0%nat = Some e ∧ ev_merkleProof e = Some proof
    ∧ verifyProof (keccak256 (ev_fingerprint e)) proof (ab_merkleRoot batch) = true.
Proof.
  destruct sample_batch_created as (batch & items & w' & Hrun & Hlen & _).
  destruct (created_batch_is_provable sample_anchor_config nobody sample_case batch items w'
    sample_case_unique Hrun) as (_ & _ & _ & _ & Hitems & _).
  destruct items as [|e items]; [discriminate Hlen|].
  destruct (Hitems 0%nat e eq_refl) as (_ & _ & _ & _ & proof & Hp & Hv).
  exists batch, (e :: items), w', e, proof. exact (conj Hrun (conj eq_refl (conj Hp Hv))).
Defined.

Lemma interrupted_batch_is_resumed_witness :
  ∃ batch items w', createBatch sample_anchor_config nobody sample_case = (Return (Some (batch, items)), w')
    ∧ findResumableBatch w' = (Return (Some (batch, items)), w').
Proof.
  destruct sample_batch_created as (batch & items & w' & Hrun & _ & Hid & _).
  exists batch, items, w'. split; [exact Hrun|].
  refine (proj1 (interrupted_batch_is_resumed sample_anchor_config nobody sample_case batch items w'
    sample_case_unique _ _ Hrun)); [vm_compute; reflexivity|].
  rewrite Hid. apply (bool_decide_unpack (Forall _ _)). vm_compute. exact I.
Defined.

(** The batch of the sample case, published. *)
Lemma sample_published :
  ∃ batch items w1 out w', createBatch sample_anchor_config nobody sample_case = (Return (Some (batch, items)), w1)
    ∧ anchorBatchItems sample_anchor_config batch items w1 = (Return out, w')
    ∧ bo_anchored out = 1%nat ∧ (length (w_calls w1) + 2 = length (w_calls w'))%nat
    ∧ existsb (λ b, bool_decide (ab_status b = BatchStatus.PENDING)) (db_batches (w_db w')) = false.
Proof.
  eexists _, _, _, _, _. split; [(vm_compute; reflexivity)|].
  split; [(vm_compute; reflexivity)|]. split_and!; (vm_compute; reflexivity).
Qed.

Lemma batch_is_published_once_witness :
  ∃ batch (items : list TransactionEvent) w1 w' root,
    w_calls w' = w_calls w1 ++ [CallGetBatch (ab_id batch);
                                CallAnchorBatch (ab_id batch) root (Z.of_nat (length items))]
    ∧ toLowerCase root = toLowerCase (ab_merkleRoot batch).
Proof.
  destruct sample_published as (batch & items & w1 & out & w' & _ & Hrun & _ & Hcalls & _).
  destruct (batch_is_published_once sample_anchor_config batch items w1 _ w' Hrun)
    as [H|[H|(leaves & tree & H & _ & _ & _ & _ & Hroot)]].
  - rewrite H in Hcalls. lia.
  - rewrite H, length_app in Hcalls. simpl in Hcalls. lia.
  - exists batch, items, w1, w', (mt_root tree). exact (conj H Hroot).
Defined.

Lemma anchoring_outcome_witness :
  ∃ batch items w1 out saved w', anchorBatchItems sample_anchor_config batch items w1 = (Return out, w')
    ∧ ab_status saved = BatchStatus.ANCHORED ∧ stored_batch saved (w_db w')
    ∧ marked items AnchorStatus.ANCHORED (w_db w').
Proof.
  destruct sample_published as (batch & items & w1 & out & w' & _ & Hrun & Hn & _ & _).
  destruct (anchoring_outcome sample_anchor_config batch items w1 out w' Hrun)
    as (saved & (Hb & Hst & Hs) & _).
  exists batch, items, w1, out, saved, w'. split; [exact Hrun|]. rewrite Hn in Hs.
  destruct (ab_status saved).
  - destruct Hs. discriminate.
  - destruct Hs.
  - destruct Hs as (_ & _ & Hm). exact (conj eq_refl (conj Hst Hm)).
  - destruct Hs. discriminate.
Defined.
