(* ===== verification/AnchorLock.v ===== *)
(** The lock of the anchoring job: [AnchorService.processPendingBatch],
    [acquireDistributedLock] and [releaseDistributedLock] of [src/blockchain/anchor.service.ts].

    Several instances run the job, on their timers and on request.  An instance refuses to
    start it twice ([running]); between instances, PostgreSQL's advisory lock is held by the
    session of a connection, which the pool of the instance lends and takes back.  The steps
    of the instances interleave: [Anchoring.processPendingBatch] is what an instance does
    between [Working] and [Releasing]. *)
From stdpp Require Import functions.
From S2P Require Import Prelude.
Open Scope nat_scope.

(** * Sessions and the advisory lock *)

(** A connection of the pool of an instance. *)
Definition Session : Type := nat * nat.

(** The session that holds [ANCHOR_ADVISORY_LOCK_ID], and how many times it took it. *)
Definition AdvisoryLock : Type := option (Session * nat).

(** [pg_try_advisory_lock]: a session that holds the lock takes it once more. *)
Definition pg_try_advisory_lock (session : Session) (lock : AdvisoryLock) : bool * AdvisoryLock :=
  match lock with
  | None => (true, Some (session, 1))
  | Some (holder, n) => if decide (holder = session) then (true, Some (session, S n)) else (false, lock)
  end.

(** [pg_advisory_unlock]: it gives back one of the times the lock was taken. *)
Definition pg_advisory_unlock (session : Session) (lock : AdvisoryLock) : AdvisoryLock :=
  match lock with
  | Some (holder, S (S n)) => if decide (holder = session) then Some (holder, S n) else lock
  | Some (holder, _) => if decide (holder = session) then None else lock
  | None => None
  end.

(** * An instance *)

(** [this.running] is set from [Acquiring] to the end of [Releasing]. *)
Inductive Phase :=
  | Idle
  | Acquiring (connection : nat)
  | Working (connection : nat)
  | Releasing (connection : nat).

Definition running (phase : Phase) : bool := match phase with Idle => false | _ => true end.

Record Cluster := mkCluster {
  cl_lock : AdvisoryLock;
  cl_phase : nat → Phase
}.
#[export] Instance eta_Cluster : Eta Cluster := λ r, mkCluster (cl_lock r) (cl_phase r).

Definition enter (instance : nat) (phase : Phase) (s : Cluster) : Cluster :=
  s <| cl_phase := <[instance := phase]> (cl_phase s) |>.

(** [processPendingBatch], up to the query: it returns [ALREADY_RUNNING] when the job is
    under way, and otherwise borrows a connection. *)
Definition begin (instance connection : nat) (s : Cluster) : Cluster :=
  if running (cl_phase s instance) then s else enter instance (Acquiring connection) s.

(** A query is answered, or throws, before the server runs it or after. *)
Inductive Query := Answered | FailedBefore | FailedAfter.
Definition has_run (query : Query) : bool := match query with FailedBefore => false | _ => true end.
Definition is_answered (query : Query) : bool := match query with Answered => true | _ => false end.

(** [acquireDistributedLock]: when the query throws or answers [false], the connection goes
    back to the pool and the job ends. *)
Definition acquireDistributedLock (instance connection : nat) (query : Query) (s : Cluster) : Cluster :=
  let '(acquired, lock) := pg_try_advisory_lock (instance, connection) (cl_lock s) in
  enter instance (if is_answered query && acquired then Working connection else Idle)
    (if has_run query then s <| cl_lock := lock |> else s).

(** [releaseDistributedLock]: the connection goes back to the pool, whether the query
    throws or not. *)
Definition releaseDistributedLock (instance connection : nat) (query : Query) (s : Cluster) : Cluster :=
  enter instance Idle
    (if has_run query then s <| cl_lock := pg_advisory_unlock (instance, connection) (cl_lock s) |> else s).

(** A session that ends leaves its locks. *)
Definition disconnect (session : Session) (s : Cluster) : Cluster :=
  match cl_lock s with
  | Some (holder, _) => if decide (holder = session) then s <| cl_lock := None |> else s
  | None => s
  end.

Inductive lock_step (s : Cluster) : Cluster → Prop :=
  | step_begin instance connection : lock_step s (begin instance connection s)
  | step_acquire instance connection query :
      cl_phase s instance = Acquiring connection →
      lock_step s (acquireDistributedLock instance connection query s)
  | step_finish instance connection :
      cl_phase s instance = Working connection → lock_step s (enter instance (Releasing connection) s)
  | step_release instance connection query :
      cl_phase s instance = Releasing connection →
      lock_step s (releaseDistributedLock instance connection query s).

Inductive lossy_step (s : Cluster) : Cluster → Prop :=
  | step_sound s' : lock_step s s' → lossy_step s s'
  | step_lost session : lossy_step s (disconnect session s).

Definition at_rest : Cluster := mkCluster None (λ _, Idle).

(** * Lemmas *)

(** An instance that has the lock, until it gives it back. *)
Definition has_lock (phase : Phase) : option nat :=
  match phase with Working connection | Releasing connection => Some connection | _ => None end.

Definition held (s : Cluster) : Prop :=
  ∀ instance connection, has_lock (cl_phase s instance) = Some connection →
    ∃ n, cl_lock s = Some ((instance, connection), S n).

Lemma phase_enter instance phase s other :
  cl_phase (enter instance phase s) other = if decide (instance = other) then phase else cl_phase s other.
Proof.
  unfold enter. cbn. destruct (decide (instance = other)) as [->|Hne]; [by rewrite fn_lookup_insert|by rewrite fn_lookup_insert_ne].
Qed.

Lemma held_enter instance phase s :
  held s → (∀ connection, has_lock phase = Some connection → has_lock (cl_phase s instance) = Some connection) →
  held (enter instance phase s).
Proof.
  intros Hs Hphase other connection. rewrite phase_enter. case_decide as Heq; [subst|apply Hs].
  intros H. apply Hs. by apply Hphase.
Qed.

Lemma held_alone s instance connection session n :
  held s → has_lock (cl_phase s instance) = Some connection → cl_lock s = Some (session, n) → session = (instance, connection).
Proof. intros Hs H Hl. destruct (Hs _ _ H) as [k Hk]. congruence. Qed.

(** A session that holds the lock already, or finds it free, is the only one to have it. *)
Lemma try_lock_held instance connection phase s :
  held s → has_lock (cl_phase s instance) = None →
  (∀ c, has_lock phase = Some c → c = connection ∧ (pg_try_advisory_lock (instance, connection) (cl_lock s)).1 = true) →
  held (enter instance phase (s <| cl_lock := (pg_try_advisory_lock (instance, connection) (cl_lock s)).2 |>)).
Proof.
  intros Hs Hnone Hphase other c. rewrite phase_enter. cbn. unfold pg_try_advisory_lock in *.
  destruct (cl_lock s) as [[holder n]|] eqn:Hl; [destruct (decide (holder = (instance, connection))) as [->|Hne]|];
    cbn in *; case_decide as Heq; try subst other; intros H.
  - destruct (Hphase _ H) as [-> _]. by exists n.
  - by pose proof (held_alone _ _ _ _ _ Hs H Hl) as [= <- <-].
  - by destruct (Hphase _ H) as [_ Hno].
  - destruct (Hs _ _ H) as [k Hk]. exists k. congruence.
  - destruct (Hphase _ H) as [-> _]. by exists 0.
  - destruct (Hs _ _ H) as [k Hk]. congruence.
Qed.

Lemma unlock_held instance connection s :
  held s → has_lock (cl_phase s instance) = Some connection →
  held (enter instance Idle (s <| cl_lock := pg_advisory_unlock (instance, connection) (cl_lock s) |>)).
Proof.
  intros Hs H other c. rewrite phase_enter. case_decide as Heq; [discriminate|]. intros Hother. cbn.
  destruct (Hs _ _ H) as [n Hl]. pose proof (held_alone _ _ _ _ _ Hs Hother Hl) as [= <- <-]. done.
Qed.

Lemma lock_step_held s s' : lock_step s s' → held s → held s'.
Proof.
  intros [instance connection|instance connection query Hp|instance connection Hp|instance connection query Hp] Hs.
  - unfold begin. destruct (running _); [done|]. by apply held_enter.
  - unfold acquireDistributedLock. destruct (pg_try_advisory_lock (instance, connection) (cl_lock s)) as [acquired lock] eqn:Htry.
    destruct query; [|by apply held_enter|]; cbn [is_answered has_run andb];
      replace lock with (pg_try_advisory_lock (instance, connection) (cl_lock s)).2 by (by rewrite Htry);
      apply try_lock_held; rewrite ?Hp, ?Htry; try done.
    by destruct acquired; intros c [= <-].
  - apply held_enter; [done|]. intros c [= <-]. by rewrite Hp.
  - unfold releaseDistributedLock. destruct (has_run query); [|by apply held_enter]. apply unlock_held; by rewrite ?Hp.
Qed.

Lemma at_rest_held : held at_rest.
Proof. intros instance connection H. discriminate H. Qed.

Lemma steps_held s s' : rtc lock_step s s' → held s → held s'.
Proof. induction 1 as [|s1 s2 s3 Hstep _ IH]; [done|]. intros Hs. by eapply IH, lock_step_held. Qed.

(** * One worker at a time *)

(** C37. As long as no connection is lost, whatever the instances begin and whatever queries
    throw, before or after they ran: two instances are never at work together, the one that
    is holds the lock, and an instance that is under way does not begin again. *)
Theorem one_instance_anchors s :
  rtc lock_step at_rest s →
  (∀ p q c d, cl_phase s p = Working c → cl_phase s q = Working d → p = q)
  ∧ (∀ p c, cl_phase s p = Working c → ∃ n, cl_lock s = Some ((p, c), S n))
  ∧ ∀ p c, running (cl_phase s p) = true → begin p c s = s.
Proof.
  intros Hrun. pose proof (steps_held _ _ Hrun at_rest_held) as Hs. split_and!.
  - intros p q c d Hp Hq. assert (Hlp : has_lock (cl_phase s p) = Some c) by by rewrite Hp.
    assert (Hlq : has_lock (cl_phase s q) = Some d) by by rewrite Hq.
    destruct (Hs _ _ Hlp) as [n Hn]. by pose proof (held_alone _ _ _ _ _ Hs Hlq Hn) as [= -> _].
  - intros p c Hp. apply Hs. by rewrite Hp.
  - intros p c Hr. unfold begin. by rewrite Hr.
Qed.

(** ** A lock that is not given back *)

(** The session holds the lock and nobody is at work. *)
Definition leaked (session : Session) (s : Cluster) : Prop :=
  (∃ n, cl_lock s = Some (session, n)) ∧ ∀ p c, has_lock (cl_phase s p) = Some c → False.

(** No step borrows the connection of the session. *)
Definition elsewhere (session : Session) (s s' : Cluster) : Prop :=
  lock_step s s' ∧ cl_phase s' session.1 ≠ Acquiring session.2.

Lemma leaked_enter session instance phase s :
  leaked session s → has_lock phase = None → leaked session (enter instance phase s).
Proof.
  intros [Hl Hnone] Hphase. split; [exact Hl|]. intros p c. rewrite phase_enter.
  case_decide; [by rewrite Hphase|apply Hnone].
Qed.

Lemma leaked_step session s s' :
  leaked session s → cl_phase s session.1 ≠ Acquiring session.2 → lock_step s s' → leaked session s'.
Proof.
  intros Hs Helse [instance connection|instance connection query Hp|instance connection Hp|instance connection query Hp].
  - unfold begin. destruct (running _); [done|]. by apply leaked_enter.
  - destruct Hs as [[n Hl] Hnone]. unfold acquireDistributedLock, pg_try_advisory_lock. rewrite Hl.
    case_decide as Hmine; [subst session; by destruct Helse|].
    rewrite andb_false_r. apply leaked_enter; [|done].
    destruct (has_run query); (split; [exists n; try done|exact Hnone]).
  - destruct Hs as [_ Hnone]. exfalso. apply (Hnone instance connection). by rewrite Hp.
  - destruct Hs as [_ Hnone]. exfalso. apply (Hnone instance connection). by rewrite Hp.
Qed.

(** If the query that releases the lock throws before it runs, the connection goes back to
    the pool with the lock: no instance anchors any more, until that very connection is
    borrowed again or closed. *)
Theorem failed_release_stops_anchoring instance connection s s' :
  rtc lock_step at_rest s → cl_phase s instance = Releasing connection →
  rtc (elsewhere (instance, connection)) (releaseDistributedLock instance connection FailedBefore s) s' →
  ∀ p c, cl_phase s' p ≠ Working c.
Proof.
  intros Hrun Hp Hafter. pose proof (steps_held _ _ Hrun at_rest_held) as Hs.
  assert (Hlock : has_lock (cl_phase s instance) = Some connection) by by rewrite Hp.
  destruct (Hs _ _ Hlock) as [n Hn].
  assert (Hleak : leaked (instance, connection) (releaseDistributedLock instance connection FailedBefore s)).
  { split; [by exists (S n)|]. intros q d. unfold releaseDistributedLock. cbn [has_run]. rewrite phase_enter.
    case_decide as Heq; [done|]. intros H. by pose proof (held_alone _ _ _ _ _ Hs H Hn) as [= -> _]. }
  assert (Hidle : cl_phase (releaseDistributedLock instance connection FailedBefore s) instance ≠ Acquiring connection).
  { unfold releaseDistributedLock. cbn [has_run]. rewrite phase_enter. by rewrite decide_True. }
  clear Hs Hrun Hp Hlock Hn. revert Hleak Hidle.
  induction Hafter as [s1|s1 s2 s3 [Hstep Helse] _ IH]; intros Hleak Hidle.
  - intros p c Hw. apply (proj2 Hleak p c). by rewrite Hw.
  - apply IH; [|exact Helse]. by eapply leaked_step.
Qed.

(** * Witnesses *)

Definition first_working : Cluster := acquireDistributedLock 0 0 Answered (begin 0 0 at_rest).
Definition first_releasing : Cluster := enter 0 (Releasing 0) first_working.

Lemma first_working_reachable : rtc lock_step at_rest first_working.
Proof.
  eapply rtc_l; [exact (step_begin _ 0 0)|]. apply rtc_once. by apply (step_acquire _ 0 0 Answered).
Qed.

Lemma first_releasing_reachable : rtc lock_step at_rest first_releasing.
Proof. eapply rtc_r; [apply first_working_reachable|]. by apply (step_finish _ 0 0). Qed.

Lemma one_instance_anchors_witness : cl_lock first_working = Some ((0, 0), 1) ∧ begin 0 1 first_working = first_working.
Proof.
  destruct (one_instance_anchors first_working first_working_reachable) as (_ & Hlock & Hbegin).
  destruct (Hlock 0 0 eq_refl) as [n Hn]. split; [|by apply Hbegin]. reflexivity.
Defined.

(** Another instance tries, and is refused. *)
Lemma failed_release_stops_anchoring_witness :
  cl_phase (acquireDistributedLock 1 0 Answered (begin 1 0 (releaseDistributedLock 0 0 FailedBefore first_releasing))) 1
  ≠ Working 0.
Proof.
  apply (failed_release_stops_anchoring 0 0 first_releasing); [apply first_releasing_reachable|reflexivity|].
  eapply rtc_l; [split; [exact (step_begin _ 1 0)|discriminate]|].
  apply rtc_once. split; [by apply (step_acquire _ 1 0 Answered)|discriminate].
Defined.

(** When a connection is lost, its lock is free while its instance still works: two are
    then at work, and only the rows that are locked keep them apart. *)
Example lost_connection_frees_the_lock :
  ∃ s, rtc lossy_step at_rest s ∧ cl_phase s 0 = Working 0 ∧ cl_phase s 1 = Working 0.
Proof.
  exists (acquireDistributedLock 1 0 Answered (begin 1 0 (disconnect (0, 0) first_working))).
  split; [|split; reflexivity].
  etrans; [eapply rtc_subrel, first_working_reachable; apply step_sound|].
  eapply rtc_l; [exact (step_lost _ (0, 0))|]. eapply rtc_l; [exact (step_sound _ _ (step_begin _ 1 0))|].
  apply rtc_once, step_sound. by apply (step_acquire _ 1 0 Answered).
Qed.
