(* ===== verification/Transfers.v ===== *)
(** Bank transfers: [src/transactions/transactions.service.ts] and the document of
    [src/xml/transfer-xml.builder.ts].

    [initiateTransfer] checks the request and its canonical document, writes a
    [PENDING] row with its opening fact, then calls the bank: the entity it holds
    goes through [PROCESSING] to [COMPLETED] or [FAILED], and the terminal row, its
    fact and the closing of its chain are one SQL transaction.  A failure is always
    answered by an exception. *)
From S2P Require Import Prelude Domain StateMachine Money External Fingerprint EventXml.
From S2P Require Import Database Ledger EventLedger Ports Services References MobileMoney.
Open Scope Z_scope.

Record CreateTransferDto := mkCreateTransferDto {
  ct_debtorIban : string;
  ct_debtorName : option string;
  ct_creditorIban : string;
  ct_creditorName : string;
  ct_amount : Z;
  ct_currency : string;
  ct_endToEndLabel : option string
}.

#[export] Instance eta_CreateTransferDto : Eta CreateTransferDto :=
  λ r, mkCreateTransferDto (ct_debtorIban r) (ct_debtorName r) (ct_creditorIban r)
    (ct_creditorName r) (ct_amount r) (ct_currency r) (ct_endToEndLabel r).

(** * The canonical request *)

Definition TRANSFER_NAMESPACE : string := "urn:banking:transfer:1.0".

Definition buildTransferRequest (dto : CreateTransferDto) : string :=
  let body := String.concat newline (omap id
    [ Some (element "debtorIban" (ct_debtorIban dto) 1);
      optionalElement "debtorName" (ct_debtorName dto) 1;
      Some (element "creditorIban" (ct_creditorIban dto) 1);
      Some (element "creditorName" (ct_creditorName dto) 1);
      Some (element "amount" (formatAmount (ct_amount dto)) 1);
      Some (element "currency" (ct_currency dto) 1);
      optionalElement "endToEndLabel" (ct_endToEndLabel dto) 1 ]) in
  String.concat newline
    [ "<?xml version=" +:+ quote +:+ "1.0" +:+ quote +:+ " encoding=" +:+ quote +:+ "UTF-8"
        +:+ quote +:+ "?>";
      "<TransferRequest xmlns=" +:+ quote +:+ TRANSFER_NAMESPACE +:+ quote +:+ ">";
      body;
      "</TransferRequest>" ].

Section Transfers.
Context {HH : Hashing} {HX : XsdEngine} {HE : Entropy} {HS : SoapClient}.
Context (business : BusinessConfig).

Definition buildAndValidateRequestDocument (dto : CreateTransferDto) : App string :=
  let xml := buildTransferRequest dto in
  try_catch (assertValid xml SCHEMAS.transferRequest ;; mret xml)
    (λ error, match error with
              | XsdValidationException _ _ => throw (HttpException 422 "XSD_VALIDATION_FAILED")
              | error => throw error
              end).

Definition assertTransferRules (dto : CreateTransferDto) : App unit :=
  throw_unless (bool_decide (ct_currency dto ∈ bc_allowedCurrencies business))
    (HttpException 400 "CURRENCY_NOT_ALLOWED") ;;
  throw_unless (negb (bc_maxAmount business <? ct_amount dto))
    (HttpException 422 "AMOUNT_LIMIT_EXCEEDED") ;;
  throw_unless (negb (str_eqb (ct_debtorIban dto) (ct_creditorIban dto)))
    (HttpException 422 "SAME_ACCOUNT_TRANSFER").

(** * Registration *)

(** [repository.create({...})], with the defaults of the columns it leaves out. *)
Definition new_transfer (dto : CreateTransferDto) (idempotencyKey : option string)
    (reference correlationId : string) : Transaction := {|
  tx_id := "";
  tx_reference := reference;
  tx_idempotencyKey := idempotencyKey;
  tx_status := TransactionStatus.PENDING;
  tx_paymentChannel := PaymentChannel.LEGACY_TRANSFER;
  tx_debtorIban := ct_debtorIban dto;
  tx_debtorName := ct_debtorName dto;
  tx_creditorIban := ct_creditorIban dto;
  tx_creditorName := ct_creditorName dto;
  tx_amount := ct_amount dto;
  tx_currency := ct_currency dto;
  tx_endToEndLabel := ct_endToEndLabel dto;
  tx_amountInWords := None;
  tx_soapOperation := None;
  tx_soapDurationMs := None;
  tx_soapAttempts := None;
  tx_faultCode := None;
  tx_faultString := None;
  tx_failureReason := None;
  tx_correlationId := correlationId;
  tx_processedAt := None;
  tx_mobileMoneyOperator := None;
  tx_payerMsisdn := None;
  tx_aggregatorReference := None;
  tx_providerStatus := None;
  tx_bankStatus := None;
  tx_reconciliationStatus := None;
  tx_aggregatorAmount := None;
  tx_aggregatorCurrency := None;
  tx_feeAmount := 0;
  tx_mobileMoneyConfirmedAt := None;
  tx_reconciledAt := None;
  tx_reconciliationReason := None;
  tx_refundStatus := RefundStatus.NOT_REQUIRED;
  tx_caseStatus := CaseStatus.NONE;
  tx_caseReason := None;
  tx_createdAt := 0;
  tx_anchorStatus := AnchorStatus.NOT_SEALED
|}.

(** The row and its opening fact, in one SQL transaction. *)
Definition open_transfer (t : Transaction) : App Transaction :=
  transaction
    (persisted ← insert_transaction t;
     assertInitialState (stateOf persisted) (tx_reference persisted) ;;
     record true (event_input TransactionEventType.TRANSFER_INITIATED persisted
       (Some "Virement enregistre, avant appel au back-office")) ;;
     mret persisted).

(** The [for] loop; other sessions may commit before each attempt.  Answers the row
    and whether it is new. *)
Fixpoint persist_loop (interfere : nat → Db → Db) (dto : CreateTransferDto)
    (idempotencyKey : option string) (correlationId : string) (fuel : nat) :
    App (Transaction * bool) :=
  match fuel with
  | O => throw (HttpException 500 "REFERENCE_GENERATION_FAILED")
  | S fuel =>
      reference ← generate;
      let t := new_transfer dto idempotencyKey reference correlationId in
      modify_db (interfere (MAX_REFERENCE_ATTEMPTS - fuel)%nat) ;;
      try_catch (saved ← open_transfer t; mret (saved, true)) (λ error,
        let otherwise :=
          if isUniqueViolation error && Nat.ltb 0 fuel
          then persist_loop interfere dto idempotencyKey correlationId fuel
          else throw error in
        match idempotencyKey with
        | Some key =>
            if truthy idempotencyKey && isUniqueViolationOf "idempotency" error then
              winner ← find_transaction (by_idempotency_key key);
              match winner with
              | Some winner => mret (winner, false)
              | None => throw (HttpException 409 "IDEMPOTENCY_CONFLICT")
              end
            else otherwise
        | None => otherwise
        end)
  end.

Definition persistPendingTransaction (interfere : nat → Db → Db) (dto : CreateTransferDto)
    (idempotencyKey : option string) : App (Transaction * bool) :=
  correlationId ← getCorrelationId;
  persist_loop interfere dto idempotencyKey correlationId MAX_REFERENCE_ATTEMPTS.

(** * Processing *)

(** The message [SoapFaultException] gives itself. *)
Definition fault_message (operation faultString : string) : string :=
  "Faute SOAP sur l'operation " +:+ operation +:+ " : " +:+ faultString.

Definition assign_processing (t : Transaction) : Transaction :=
  t <| tx_status := TransactionStatus.PROCESSING |>.

Definition assign_completed (words : string) (exchange : SoapExchange) (date : Z) (t : Transaction) :
    Transaction :=
  t <| tx_status := TransactionStatus.COMPLETED |>
    <| tx_amountInWords := Some words |>
    <| tx_soapOperation := Some (sx_operation exchange) |>
    <| tx_soapDurationMs := Some (sx_durationMs exchange) |>
    <| tx_soapAttempts := Some (sx_attempts exchange) |>
    <| tx_processedAt := Some date |>.

Definition assign_transfer_failed (date : Z) (t : Transaction) : Transaction :=
  t <| tx_status := TransactionStatus.FAILED |> <| tx_processedAt := Some date |>.

(** What the [catch] writes of each kind of error. *)
Definition assign_cause (error : GatewayError) (t : Transaction) : Transaction :=
  match error with
  | SoapFaultException operation faultCode faultString =>
      t <| tx_soapOperation := Some operation |>
        <| tx_faultCode := Some faultCode |>
        <| tx_faultString := Some faultString |>
        <| tx_failureReason := Some (fault_message operation faultString) |>
  | SoapCommunicationException operation message attempts _ =>
      t <| tx_soapOperation := Some operation |>
        <| tx_soapAttempts := Some attempts |>
        <| tx_failureReason := Some message |>
  | SoapParsingException operation message =>
      t <| tx_soapOperation := Some operation |>
        <| tx_failureReason := Some message |>
  | _ => t <| tx_failureReason := Some "Erreur interne pendant le traitement" |>
  end.

(** ... and what it answers. *)
Definition failure_answer (error : GatewayError) : GatewayError :=
  match error with
  | SoapFaultException _ _ _ => HttpException 502 "SOAP_FAULT"
  | SoapCommunicationException _ _ _ timedOut =>
      if timedOut then HttpException 504 "SOAP_TIMEOUT" else HttpException 502 "SOAP_UNAVAILABLE"
  | SoapParsingException _ _ => HttpException 502 "SOAP_INVALID_RESPONSE"
  | _ => HttpException 500 "TRANSFER_PROCESSING_FAILED"
  end.

(** A terminal state: the row, its fact and the closing of its chain. *)
Definition persist_terminal (before : TransactionState) (type : TransactionEventType)
    (detail : Transaction → option string) (closing : string) : Ent Transaction :=
  t ← entity;
  lift (transaction
    (persisted ← save_transaction t;
     assertTransition before (stateOf persisted) (tx_reference persisted) ;;
     record true (event_input type persisted (detail persisted)) ;;
     closeCase true persisted (Some closing) ;;
     mret persisted)).

Definition persistFailedTransaction (before : TransactionState) : Ent Transaction :=
  persist_terminal before TransactionEventType.TRANSFER_FAILED tx_failureReason
    "Dossier clos apres echec du virement".

Definition handleProcessingFailure (before : TransactionState) (error : GatewayError) :
    Ent Transaction :=
  date ← lift now;
  assigns (assign_transfer_failed date) ;;
  assigns (assign_cause error) ;;
  persistFailedTransaction before ;;
  throw (failure_answer error).

(** The [try]: the call to the bank, then the terminal state. *)
Definition complete_transfer (before : TransactionState) : Ent Transaction :=
  t ← entity;
  answer ← lift (convertAmountToWords (tx_amount t));
  date ← lift now;
  assigns (assign_completed answer.1 answer.2 date) ;;
  persist_terminal before TransactionEventType.TRANSFER_COMPLETED
    (λ _, Some ("Back-office traite en " +:+ pretty (sx_durationMs answer.2) +:+ " ms"))
    "Dossier clos apres virement abouti".

Definition processTransaction : Ent Transaction :=
  t ← entity;
  let before := stateOf t in
  assigns assign_processing ;;
  t ← entity;
  lift (save_transaction t) ;;
  try_catch (complete_transfer before) (handleProcessingFailure before).

Definition initiateTransfer_under (interfere : nat → Db → Db) (dto : CreateTransferDto)
    (idempotencyKey : option string) : App Transaction :=
  assertTransferRules dto ;;
  buildAndValidateRequestDocument dto ;;
  existing ← (match idempotencyKey with
              | Some key => if truthy idempotencyKey then find_transaction (by_idempotency_key key)
                            else mret None
              | None => mret None
              end);
  match existing with
  | Some existing => mret existing
  | None =>
      registered ← persistPendingTransaction interfere dto idempotencyKey;
      if negb registered.2 then mret registered.1
      else with_entity registered.1 processTransaction
  end.

Definition initiateTransfer := initiateTransfer_under (λ _ d, d).
End Transfers.

(** * Consultation *)

Definition findTransfer (reference : string) : App Transaction :=
  found ← find_transaction (by_reference reference);
  ret_option found (HttpException 404 "TRANSACTION_NOT_FOUND").

Record QueryTransfersDto := mkQueryTransfersDto {
  qt_status : option TransactionStatus;
  qt_currency : option string;
  qt_page : nat;
  qt_limit : nat
}.

Record PaginatedTransfersDto := mkPaginatedTransfersDto {
  pt_items : list Transaction;
  pt_total : nat;
  pt_page : nat;
  pt_limit : nat;
  pt_pages : nat
}.

Definition matches_query (query : QueryTransfersDto) (t : Transaction) : bool :=
  match qt_status query with Some status => is_eq (tx_status t) status | None => true end
  && (if truthy (qt_currency query) then is_eq (Some (tx_currency t)) (qt_currency query) else true).

(** [ORDER BY created_at DESC]. *)
Definition matching (query : QueryTransfersDto) (d : Db) : list Transaction :=
  sort_by (λ t, - tx_createdAt t) (List.filter (matches_query query) (db_transactions d)).

(** [findAndCount]: [skip (page - 1) * limit] rows, then [take limit]. *)
Definition paginate (query : QueryTransfersDto) : App (list Transaction * nat) :=
  d ← get_db;
  let rows := matching query d in
  mret (take (qt_limit query) (drop ((qt_page query - 1) * qt_limit query) rows), length rows).

(** [limit > 0 ? Math.ceil(total / limit) : 0] *)
Definition page_count (total limit : nat) : nat :=
  if Nat.ltb 0 limit then ((total + limit - 1) / limit)%nat else 0%nat.

(** The rows themselves: their masking is [TransferResponseDto.fromEntity]. *)
Definition list_transfers (query : QueryTransfersDto) : App PaginatedTransfersDto :=
  found ← paginate query;
  mret (mkPaginatedTransfersDto found.1 found.2 (qt_page query) (qt_limit query)
          (page_count found.2 (qt_limit query))).

(** * Lemmas *)

Section transfer_lemmas.
Context {HH : Hashing} {HX : XsdEngine} {HE : Entropy} {HS : SoapClient}.
Context (business : BusinessConfig).

(** ** Refinement *)

Lemma persist_terminal_refines before type detail closing :
  Respects (on_ent ledger_refines) (persist_terminal before type detail closing).
Proof. unfold persist_terminal. respects. Qed.
#[local] Hint Resolve persist_terminal_refines : effects.

Lemma processTransaction_refines : Respects (on_ent ledger_refines) processTransaction.
Proof.
  unfold processTransaction, complete_transfer, handleProcessingFailure, persistFailedTransaction.
  respects.
Qed.
#[local] Hint Resolve processTransaction_refines generate_reads : effects.

Lemma initiateTransfer_under_refines interfere dto key :
  (∀ k d, ledger_refines d (interfere k d)) →
  Respects (on_db ledger_refines) (initiateTransfer_under business interfere dto key).
Proof.
  intros Hint. pose proof (λ k, modify_db_refines (interfere k) (Hint k)).
  assert (Hloop : ∀ c fuel, Respects (on_db ledger_refines) (persist_loop interfere dto key c fuel)).
  { intros c fuel. induction fuel as [|fuel IH]; simpl; unfold open_transfer; respects. }
  unfold initiateTransfer_under, assertTransferRules, buildAndValidateRequestDocument, assertValid,
    persistPendingTransaction. respects.
Qed.

Lemma initiateTransfer_refines dto key :
  Respects (on_db ledger_refines) (initiateTransfer business dto key).
Proof. apply initiateTransfer_under_refines. intros _ d _. apply rtc_refl. Qed.

(** ** Terminal states *)

(** The terminal row was written over [d] with its fact and the end of its chain. *)
Definition terminal_written (before : TransactionState) (type : TransactionEventType) (d : Db)
    (t : Transaction) (d' : Db) : Prop :=
  accepts before (stateOf t) = true
  ∧ ∃ fact rest, recorded (saved t d) (fact :: rest) d'
      ∧ all_of (tx_reference t) (fact :: rest) ∧ event_type fact = type
      ∧ Forall (λ e, is_closing e = true) rest
      ∧ existsb is_closing (rows_of (tx_reference t) d') = true.

Lemma persist_terminal_silent before type detail closing :
  Respects ambient_on (persist_terminal before type detail closing).
Proof.
  unfold persist_terminal. respects.
Qed.

Lemma persist_terminal_run before type detail closing t w o t' w' :
  ledger_ok (w_db w) →
  persist_terminal before type detail closing (t, w) = (o, (t', w')) →
  t' = t ∧ w_calls w' = w_calls w ∧ w_now w' = w_now w
  ∧ match o with
    | Return u => u = t ∧ terminal_written before type (w_db w) t (w_db w')
    | Throw _ => w_db w' = w_db w
    end.
Proof.
  intros Hok Hrun.
  destruct (respects_run _ _ _ _ _ (persist_terminal_silent before type detail closing) Hrun) as [Hc Hn].
  unfold persist_terminal in Hrun. erewrite bind_return in Hrun by reflexivity. simpl in Hc, Hn.
  destruct o as [u|err].
  - apply lift_inv in Hrun as [-> H]. do 3 (split; [done|]). apply transaction_inv in H.
    apply bind_inv in H as (p & w1 & (-> & -> & _)%save_transaction_return & H).
    apply bind_inv in H as (b & w1 & [Ha ->]%assertTransition_return & H).
    assert (H0 : recorded (saved t (w_db w)) [] (w_db (w <| w_db := saved t (w_db w) |>)))
      by by apply recorded_nil, saved_ok.
    apply bind_inv in H as (fact & w1 & (H1 & T1 & R1)%(record_step _ _ _ _ _ _ _ H0) & H).
    apply bind_inv in H as (r & w2 & Hcl & [= <- <-]).
    apply closeCase_recorded in Hcl as (H2 & Hall & Hclosed); [|apply H1]. simpl in H1, R1, T1.
    split; [done|]. split; [done|]. exists fact, (option_facts r).
    assert (Hnil : rows_of (tx_reference t) (w_db w1) ≠ []).
    { rewrite (recorded_rows (tx_reference t) _ [fact] _ H1) by by constructor.
      intros [_ Hnil]%app_nil. discriminate Hnil. }
    split_and!; [| |done| |by apply Hclosed].
    + by apply (recorded_trans _ _ _ [fact] _ H1 H2).
    + constructor; [done|]. eapply Forall_impl; [exact Hall|]. by intros c [? _].
    + eapply Forall_impl; [exact Hall|]. by intros c [_ ?].
  - apply lift_throw_inv in Hrun as [-> H]. split_and!; [done..|]. by eapply transaction_rolls_back.
Qed.

Lemma convertAmountToWords_eq amount w :
  convertAmountToWords amount w =
  (soap_convert (w_calls w ++ [CallConvertAmountToWords amount]) amount,
   w <| w_calls := w_calls w ++ [CallConvertAmountToWords amount] |>).
Proof. apply ask_eq. Qed.

Lemma handleProcessingFailure_run before error t w o t' w' :
  ledger_ok (w_db w) → handleProcessingFailure before error (t, w) = (o, (t', w')) →
  let failed := assign_cause error (assign_transfer_failed (w_now w) t) in
  w_calls w' = w_calls w
  ∧ ∃ err, o = Throw err
      ∧ (w_db w' = w_db w
         ∨ err = failure_answer error
           ∧ terminal_written before TransactionEventType.TRANSFER_FAILED (w_db w) failed (w_db w')).
Proof.
  intros Hok Hrun failed. unfold handleProcessingFailure in Hrun.
  do 3 erewrite bind_return in Hrun by reflexivity. simpl in Hrun. fold failed in Hrun.
  destruct (persistFailedTransaction before (failed, w)) as [[u|err] [t1 w1]] eqn:Hp;
    assert (Hp' := Hp); apply persist_terminal_run in Hp as (_ & Hc & _ & Hw); try done.
  - erewrite bind_return in Hrun by exact Hp'. injection Hrun as <- <- <-.
    split; [done|]. destruct Hw as [_ Hw]. eauto.
  - erewrite bind_throw in Hrun by exact Hp'. injection Hrun as <- <- <-.
    split; [done|]. eauto.
Qed.

(** What a processed transfer has done: the bank was called at most once. *)
Definition processed (t : Transaction) (w : World) (o : Outcome GatewayError Transaction) (w' : World) :
    Prop :=
  let calls := w_calls w ++ [CallConvertAmountToWords (tx_amount t)] in
  let before := stateOf t in
  let started := saved (assign_processing t) (w_db w) in
  match o with
  | Return u =>
      w_calls w' = calls
      ∧ ∃ answer, soap_convert calls (tx_amount t) = Return answer
          ∧ u = assign_completed answer.1 answer.2 (w_now w) (assign_processing t)
          ∧ terminal_written before TransactionEventType.TRANSFER_COMPLETED started u (w_db w')
  | Throw err =>
      (w_calls w' = w_calls w ∧ w_db w' = w_db w)
      ∨ (w_calls w' = calls ∧ w_db w' = started)
      ∨ (w_calls w' = calls ∧ ∃ error held,
           err = failure_answer error
           ∧ match soap_convert calls (tx_amount t) with
             | Throw refusal => error = refusal ∧ held = assign_processing t
             | Return answer => held = assign_completed answer.1 answer.2 (w_now w) (assign_processing t)
             end
           ∧ terminal_written before TransactionEventType.TRANSFER_FAILED started
               (assign_cause error (assign_transfer_failed (w_now w) held)) (w_db w'))
  end.

Lemma process_run t w o t' w' :
  ledger_ok (w_db w) → processTransaction (t, w) = (o, (t', w')) → processed t w o w'.
Proof.
  intros Hok Hrun. unfold processTransaction in Hrun.
  erewrite bind_return in Hrun by reflexivity. cbv zeta in Hrun.
  do 2 erewrite bind_return in Hrun by reflexivity. cbn [fst snd] in Hrun.
  destruct (save_transaction (assign_processing t) w) as [[u|err] w1] eqn:Hsave.
  2: { erewrite bind_throw in Hrun by (unfold lift; simpl; rewrite Hsave; reflexivity).
       injection Hrun as <- <- <-. left. split.
       - by apply (respects_run _ _ _ _ _ (save_transaction_silent _)) in Hsave as [? _].
       - revert Hsave. unfold save_transaction, raise_if, mbind, Eff_bind. simpl.
         destruct (transaction_error _ _); [by intros [= _ <-]|done]. }
  erewrite bind_return in Hrun by (unfold lift; simpl; rewrite Hsave; reflexivity).
  apply save_transaction_return in Hsave as (-> & -> & _).
  set (w1 := w <| w_db := saved (assign_processing t) (w_db w) |>) in *.
  assert (Hok1 : ledger_ok (w_db w1)) by by apply saved_ok.
  unfold try_catch in Hrun.
  destruct (complete_transfer (stateOf t) (assign_processing t, w1)) as [r s1] eqn:Hc.
  assert (Hc' := Hc). unfold complete_transfer in Hc'.
  erewrite bind_return in Hc' by reflexivity. cbn [fst snd] in Hc'.
  set (calls := w_calls w ++ [CallConvertAmountToWords (tx_amount t)]) in *.
  set (w2 := w1 <| w_calls := calls |>) in *.
  assert (Hask : lift (convertAmountToWords (tx_amount (assign_processing t))) (assign_processing t, w1)
    = (soap_convert calls (tx_amount t), (assign_processing t, w2))).
  { unfold lift. cbn [fst snd]. by rewrite convertAmountToWords_eq. }
  destruct (soap_convert calls (tx_amount t)) as [answer|refusal] eqn:Hsoap;
    [erewrite bind_return in Hc' by exact Hask|erewrite bind_throw in Hc' by exact Hask].
  - do 2 erewrite bind_return in Hc' by reflexivity. cbn [fst snd] in Hc'.
    destruct s1 as [t1 w3]. apply persist_terminal_run in Hc' as (-> & Hcalls & Hnow & Hw); [|done].
    destruct r as [u|err].
    + injection Hrun as <- <- <-. unfold processed. fold calls. split; [done|].
      exists answer. destruct Hw as [-> Hw]. by split_and!.
    + apply handleProcessingFailure_run in Hrun as (Hcalls' & e & -> & Hend); [|by rewrite Hw].
      unfold processed. fold calls. rewrite Hcalls', Hcalls, Hsoap. right.
      destruct Hend as [Hend|[-> Hend]]; [left; by rewrite Hend, Hw|right]. split; [done|].
      rewrite Hw, Hnow in Hend. exists err. eexists. split; [done|]. split; [reflexivity|exact Hend].
  - injection Hc' as <- <-.
    apply handleProcessingFailure_run in Hrun as (Hcalls' & e & -> & Hend); [|done].
    unfold processed. fold calls. rewrite Hcalls', Hsoap. right.
    destruct Hend as [Hend|[-> Hend]]; [by left; rewrite Hend|right]. split; [done|].
    exists refusal, (assign_processing t). split_and!; done.
Qed.
End transfer_lemmas.

(** ** Registration *)

Section registration.
Context {HH : Hashing} {HX : XsdEngine} {HE : Entropy} {HS : SoapClient}.
Context (business : BusinessConfig).

Abbreviation quiet := (λ (_ : nat) (d : Db), d).

Lemma open_transfer_silent t : Respects ambient (open_transfer t).
Proof. unfold open_transfer, insert_transaction, assertInitialState. respects. Qed.

(** A new row with its opening fact, or the row that already had the key. *)
Definition registered (dto : CreateTransferDto) (key : option string) (d : Db)
    (r : Transaction * bool) (d' : Db) : Prop :=
  if r.2 then
    (∃ id date reference correlation,
       r.1 = (new_transfer dto key reference correlation) <| tx_id := id |> <| tx_createdAt := date |>)
    ∧ existsb (same_id r.1) (db_transactions d) = false
    ∧ transaction_error (db_transactions d) r.1 = None
    ∧ ∃ fact, recorded (d <| db_transactions := db_transactions d ++ [r.1] |>) [fact] d'
        ∧ event_type fact = TransactionEventType.TRANSFER_INITIATED
        ∧ event_reference fact = tx_reference r.1
  else truthy key = true ∧ d' = d
    ∧ List.find (λ u, is_eq (tx_idempotencyKey u) key) (db_transactions d) = Some r.1.

Lemma persist_loop_return dto key correlation fuel w r w' :
  ledger_ok (w_db w) → persist_loop quiet dto key correlation fuel w = (Return r, w') →
  registered dto key (w_db w) r (w_db w') ∧ w_calls w' = w_calls w.
Proof.
  revert w. induction fuel as [|fuel IH]; intros w Hok; [done|]. cbn [persist_loop].
  destruct (generate_db w) as (g & n1 & Hgen). erewrite bind_return by exact Hgen. cbv zeta.
  erewrite bind_return by reflexivity.
  set (w0 := (w <| w_draws := n1 |>) <| w_db := quiet (MAX_REFERENCE_ATTEMPTS - fuel)%nat (w_db w) |>).
  set (p := new_transfer dto key g correlation). unfold try_catch.
  match goal with |- context [mbind _ (open_transfer p) ?v] => change v with w0 end.
  destruct (open_transfer p w0) as [[u|err] w1] eqn:Hopen;
    assert (Hcalls := respects_run _ _ _ _ _ (open_transfer_silent p) Hopen); destruct Hcalls as [Hcalls _].
  - erewrite bind_return by exact Hopen. intros [= <- <-]. split; [|done].
    apply opening_return in Hopen as (Hu & Hid & Herr & fact & Hrec & Ht & Href & _); [|done].
    split_and!; [by eexists _, _, _, _|done|done|by exists fact].
  - erewrite bind_throw by exact Hopen.
    assert (Hdb : w_db w1 = w_db w) by (change (w_db w) with (w_db w0); by eapply transaction_rolls_back).
    assert (Hother : (if isUniqueViolation err && Nat.ltb 0 fuel
        then persist_loop quiet dto key correlation fuel else throw err) w1 = (Return r, w') →
      registered dto key (w_db w) r (w_db w') ∧ w_calls w' = w_calls w).
    { destruct (isUniqueViolation err && Nat.ltb 0 fuel); [|discriminate].
      rewrite <- Hdb. change (w_calls w) with (w_calls w0). rewrite <- Hcalls. apply IH. by rewrite Hdb. }
    destruct key as [k|]; [|done]. destruct (truthy (Some k) && _) eqn:Hk; [|done].
    apply andb_true_iff in Hk as [Hk _].
    intros (o & w2 & (d & w3 & [= <- <-] & [= <- <-])%bind_inv & Hwin)%bind_inv.
    destruct (List.find _ _) as [v|] eqn:Hfind; [|done]. injection Hwin as <- <-.
    rewrite Hdb in Hfind. split; [|done]. by split_and!.
Qed.

(** Saving over the row just added. *)
Lemma saved_last t u d rows :
  db_transactions d = rows ++ [t] → same_id u t = true → existsb (same_id u) rows = false →
  db_transactions (saved u d) = rows ++ [u].
Proof.
  intros Hd Hid Hno. unfold saved, upsert. simpl. rewrite Hd, existsb_app. simpl. rewrite Hid, orb_true_r.
  rewrite update_where_app. simpl. rewrite Hid. f_equal. apply update_where_none.
  apply existsb_false in Hno. unfold affected. clear Hd.
  induction Hno as [|r rows Hr _ IH]; [done|]. simpl. by rewrite Hr.
Qed.

Lemma no_clash_no_key t key rows :
  transaction_error rows t = None → truthy key = true → tx_idempotencyKey t = key →
  List.find (λ u, is_eq (tx_idempotencyKey u) key) rows = None.
Proof.
  unfold transaction_error. intros Herr Htr Hkey.
  destruct (transaction_fits t); [|done]. destruct (failed_check _); [done|]. simpl in Herr.
  destruct (existsb _ rows) in Herr; [done|].
  destruct (existsb (λ u, opt_clash (tx_idempotencyKey u) _) rows) eqn:He; [done|].
  apply existsb_false in He. clear Herr. destruct (List.find _ rows) as [u|] eqn:Hf; [|done].
  apply find_some in Hf as [Hin Hu%bool_decide_eq_true].
  rewrite Forall_forall in He. specialize (He u). rewrite list_elem_of_In in He.
  specialize (He Hin). cbv beta in He. rewrite Hu, Hkey in He. destruct key as [k|]; [|done].
  simpl in He. by rewrite str_eqb_refl in He.
Qed.

Lemma rules_read dto w w1 : assertTransferRules business dto w = (Return tt, w1) → w1 = w.
Proof.
  unfold assertTransferRules, throw_unless, mbind, Eff_bind.
  destruct (bool_decide _); [|done]. destruct (negb (_ <? _)); [|done].
  destruct (negb _); [|done]. by intros [= ->].
Qed.

Lemma document_return dto w xml w1 :
  buildAndValidateRequestDocument dto w = (Return xml, w1) →
  w1 = w ∧ validate (buildTransferRequest dto) SCHEMAS.transferRequest = [].
Proof.
  unfold buildAndValidateRequestDocument, assertValid, try_catch, mbind, Eff_bind. cbv zeta.
  destruct (validate _ _) as [|v l]; [by intros [= _ <-]|done].
Qed.

Lemma document_valid dto w :
  validate (buildTransferRequest dto) SCHEMAS.transferRequest = [] →
  buildAndValidateRequestDocument dto w = (Return (buildTransferRequest dto), w).
Proof.
  unfold buildAndValidateRequestDocument, assertValid, try_catch, mbind, Eff_bind. cbv zeta.
  by intros ->.
Qed.

(** The row one key leads to. *)
Definition keyed (key : option string) (d : Db) : option Transaction :=
  if truthy key then List.find (λ u, is_eq (tx_idempotencyKey u) key) (db_transactions d) else None.

Lemma keyed_eq key w :
  match key with
  | Some k => if truthy key then find_transaction (by_idempotency_key k) else mret None
  | None => mret None
  end w = (Return (keyed key (w_db w)), w).
Proof. destruct key as [k|]; [|done]. unfold keyed. by destruct (truthy (Some k)). Qed.

(** The row and the chain of a transfer that was added and completed. *)
Definition added (dto : CreateTransferDto) (d : Db) (t : Transaction) (d' : Db) : Prop :=
  db_transactions d' = db_transactions d ++ [t]
  ∧ tx_status t = TransactionStatus.COMPLETED ∧ tx_amount t = ct_amount dto
  ∧ tx_debtorIban t = ct_debtorIban dto ∧ tx_creditorIban t = ct_creditorIban dto
  ∧ ∃ closing, types_of (rows_of (tx_reference t) d') =
      types_of (rows_of (tx_reference t) d)
      ++ TransactionEventType.TRANSFER_INITIATED :: TransactionEventType.TRANSFER_COMPLETED :: closing
    ∧ existsb is_closing (rows_of (tx_reference t) d') = true.

Lemma registered_processed dto key d t w u w' :
  registered dto key d (t, true) (w_db w) → processed t w (Return u) w' →
  added dto d u (w_db w') ∧ (truthy key = true → keyed key (w_db w') = Some u)
  ∧ w_calls w' = w_calls w ++ [CallConvertAmountToWords (ct_amount dto)].
Proof.
  intros ((id & date & reference & corr & Ht) & Hid & Herr & fact & Hrec & Htype & Href)
    (Hcalls & answer & _ & Hu & _ & f & rest & Hrec' & Hall & Htype' & _ & Hclosed).
  simpl in Ht, Hid, Herr, Hrec, Href.
  assert (Hrows : db_transactions (w_db w') = db_transactions d ++ [u]).
  { rewrite (recorded_transactions _ _ _ Hrec').
    apply (saved_last (assign_processing t) u); [|by rewrite Hu; apply str_eqb_refl|by rewrite Hu].
    apply (saved_last t (assign_processing t)); [|apply str_eqb_refl|done]. by rewrite (recorded_transactions _ _ _ Hrec). }
  assert (Hkeys : tx_reference u = tx_reference t ∧ tx_idempotencyKey u = key
    ∧ tx_idempotencyKey t = key) by (by rewrite Hu, Ht).
  destruct Hkeys as (Hur & Huk & Htk). split_and!.
  - split_and!; [done|by rewrite Hu|by rewrite Hu, Ht..|].
    exists (types_of rest). split; [|done]. rewrite (recorded_rows _ _ _ _ Hrec') by done.
    change (rows_of (tx_reference u) (saved u _)) with (rows_of (tx_reference u) (w_db w)).
    rewrite (recorded_rows (tx_reference u) _ _ _ Hrec) by (constructor; [congruence|done]).
    unfold types_of. rewrite !fmap_app. simpl. by rewrite Htype, Htype', <- app_assoc.
  - intros Hk. unfold keyed. rewrite Hk, Hrows. rewrite find_app_r.
    + simpl. by rewrite Huk, bool_decide_true.
    + by apply (no_clash_no_key t).
  - rewrite Hcalls. by rewrite Ht.
Qed.
End registration.

(** C28. A transfer ends in one state, and only then is it answered.  The bank is called
    at most once.  If a transfer comes back, it is [COMPLETED] with what the bank
    answered; if an exception does, either the row and its chain are as before, or
    the row is [PROCESSING] because the failure could not be written, or it is
    [FAILED] with the cause, and the exception is the one that cause calls for.  The
    terminal row, the fact that says so and the closing of the chain are there
    together. *)
Theorem processing_converges {HH : Hashing} {HX : XsdEngine} {HE : Entropy} {HS : SoapClient} t w o w' :
  ledger_ok (w_db w) → with_entity t processTransaction w = (o, w') → processed t w o w'.
Proof.
  intros Hok. unfold with_entity. destruct (processTransaction (t, w)) as [r [t' w1]] eqn:Hrun.
  intros [= <- <-]. by eapply process_run.
Qed.

Lemma char_length_app a b : char_length (a +:+ b) = (char_length a + char_length b)%nat.
Proof.
  induction a as [|c a IH]; [done|].
  change (char_length (String c (a +:+ b)) = (char_length (String c a) + char_length b)%nat).
  simpl. destruct (continues c); [done|]. rewrite IH. done.
Qed.

(** A row that does not fit its columns is not written. *)
Lemma persist_terminal_unfit `{Hashing, XsdEngine, Entropy} before type detail closing t w :
  transaction_fits t = false →
  persist_terminal before type detail closing (t, w) =
  (Throw (QueryFailedError PG_STRING_TRUNCATION ""), (t, w)).
Proof.
  intros Hfit. unfold persist_terminal. erewrite bind_return by reflexivity. cbn [fst snd].
  unfold lift. cbn [fst snd]. unfold transaction. erewrite atomic_throw.
  2: { erewrite bind_return by reflexivity. erewrite bind_throw; [reflexivity|].
       erewrite bind_throw; [reflexivity|]. unfold save_transaction.
       erewrite bind_return by reflexivity. unfold transaction_error. rewrite Hfit. reflexivity. }
  by destruct w.
Qed.

(** A long fault is never recorded.  The columns take 512 characters of reason and
    [handleProcessingFailure] cuts nothing: when the bank refuses with a text longer
    than that, the failure cannot be written, the caller gets PostgreSQL's error and
    the transfer stays [PROCESSING], with no fact of the refusal. *)
Theorem long_fault_leaves_processing {HH : Hashing} {HX : XsdEngine} {HE : Entropy} {HS : SoapClient}
    t w operation faultCode faultString :
  soap_convert (w_calls w ++ [CallConvertAmountToWords (tx_amount t)]) (tx_amount t)
    = Throw (SoapFaultException operation faultCode faultString) →
  (512 < char_length faultString)%nat →
  transaction_error (List.filter (λ u, negb (same_id t u)) (db_transactions (w_db w)))
    (assign_processing t) = None →
  ∃ w', with_entity t processTransaction w = (Throw (QueryFailedError PG_STRING_TRUNCATION ""), w')
    ∧ w_db w' = saved (assign_processing t) (w_db w).
Proof.
  intros Hsoap Hlong Herr. unfold with_entity, processTransaction.
  erewrite bind_return by reflexivity. cbv zeta. do 2 erewrite bind_return by reflexivity.
  cbn [fst snd]. set (w1 := w <| w_db := saved (assign_processing t) (w_db w) |>).
  assert (Hsave : lift (save_transaction (assign_processing t)) (assign_processing t, w)
    = (Return (assign_processing t), (assign_processing t, w1))).
  { unfold lift, save_transaction, mbind, Eff_bind. simpl.
    change (same_id (assign_processing t)) with (same_id t). by rewrite Herr. }
  erewrite bind_return by exact Hsave. unfold try_catch, complete_transfer.
  erewrite bind_return by reflexivity. cbn [fst snd].
  assert (Hask : lift (convertAmountToWords (tx_amount (assign_processing t))) (assign_processing t, w1)
    = (Throw (SoapFaultException operation faultCode faultString),
       (assign_processing t, w1 <| w_calls := w_calls w ++ [CallConvertAmountToWords (tx_amount t)] |>))).
  { unfold lift. cbn [fst snd]. rewrite convertAmountToWords_eq. simpl. by rewrite Hsoap. }
  erewrite bind_throw by exact Hask. unfold handleProcessingFailure.
  do 3 erewrite bind_return by reflexivity. cbn [fst snd].
  unfold persistFailedTransaction. set (failed := assign_cause _ _).
  assert (Hfit : transaction_fits failed = false).
  { eapply long_reason_unfit; [reflexivity|]. unfold fault_message. rewrite !char_length_app. lia. }
  eexists. erewrite bind_throw by (apply persist_terminal_unfit; exact Hfit). by split.
Qed.

(** [initiateTransfer], undisturbed, is an idempotent order.  When it answers a
    transfer, the request respects the business rules and its document the schema.
    Either the key was already used, and that row is answered without a write or a
    call; or one row was added, built from the request, [COMPLETED] by a single call
    to the bank for the amount requested, and its chain holds the opening, the
    completion and the closing.  With a key, asking again answers the same row. *)
Theorem initiateTransfer_is_idempotent {HH : Hashing} {HX : XsdEngine} {HE : Entropy} {HS : SoapClient}
    business dto key w t w' :
  ledger_ok (w_db w) → initiateTransfer business dto key w = (Return t, w') →
  assertTransferRules business dto w = (Return tt, w)
  ∧ validate (buildTransferRequest dto) SCHEMAS.transferRequest = []
  ∧ ((keyed key (w_db w) = Some t ∧ w_db w' = w_db w ∧ w_calls w' = w_calls w)
     ∨ (added dto (w_db w) t (w_db w')
        ∧ w_calls w' = w_calls w ++ [CallConvertAmountToWords (ct_amount dto)]))
  ∧ (truthy key = true → ∀ dto',
      assertTransferRules business dto' w' = (Return tt, w') →
      validate (buildTransferRequest dto') SCHEMAS.transferRequest = [] →
      initiateTransfer business dto' key w' = (Return t, w')).
Proof.
  intros Hok Hrun.
  assert (Hmain : assertTransferRules business dto w = (Return tt, w)
    ∧ validate (buildTransferRequest dto) SCHEMAS.transferRequest = []
    ∧ (truthy key = true → keyed key (w_db w') = Some t)
    ∧ ((keyed key (w_db w) = Some t ∧ w_db w' = w_db w ∧ w_calls w' = w_calls w)
       ∨ (added dto (w_db w) t (w_db w')
          ∧ w_calls w' = w_calls w ++ [CallConvertAmountToWords (ct_amount dto)]))).
  { revert Hrun. unfold initiateTransfer, initiateTransfer_under.
    intros ([] & w1 & Hrules & H)%bind_inv. assert (w1 = w) as -> by by eapply rules_read.
    apply bind_inv in H as (xml & w1 & [-> Hvalid]%document_return & H).
    erewrite bind_return in H by apply keyed_eq. split_and!; [done..| |].
    all: destruct (keyed key (w_db w)) as [v|] eqn:Hk; [injection H as <- <-; by auto|].
    all: apply bind_inv in H as ([r new] & w1 & Hreg & H); unfold persistPendingTransaction in Hreg.
    all: erewrite bind_return in Hreg by reflexivity.
    all: apply persist_loop_return in Hreg as [Hreg Hcalls]; [|done].
    all: destruct new; cbn [fst snd negb] in H.
    1, 3: unfold with_entity in H; destruct (processTransaction (r, w1)) as [o [r' w2]] eqn:Hp;
      injection H as -> <-; apply process_run in Hp;
      [|destruct Hreg as (_ & _ & _ & fact & Hrec & _); apply Hrec];
      destruct (registered_processed _ _ _ _ _ _ _ Hreg Hp) as (? & ? & Hc); rewrite Hcalls in Hc; auto.
    all: injection H as <- <-; destruct Hreg as (Htr & Hdb & Hf); cbn [fst] in Hf.
    all: unfold keyed in *; rewrite Htr in *; congruence. }
  destruct Hmain as (Hr & Hv & Hkey & Hcases). split_and!; [done..|].
  intros Hk dto' Hr' Hv'. unfold initiateTransfer, initiateTransfer_under.
  erewrite bind_return by exact Hr'. erewrite bind_return by by apply document_valid.
  erewrite bind_return by apply keyed_eq. by rewrite (Hkey Hk).
Qed.

(** * Pages *)

Lemma concat_pages {A} (rows : list A) limit n :
  List.concat ((λ p, take limit (drop (p * limit) rows)) <$> seq 0 n) = take (n * limit) rows.
Proof.
  induction n as [|n IH]; [done|].
  rewrite seq_S, fmap_app, List.concat_app, IH. simpl. rewrite app_nil_r.
  rewrite (Nat.add_comm limit), <- (take_drop (n * limit) (take (n * limit + limit) rows)).
  rewrite take_take, Nat.min_l by lia. f_equal.
  by rewrite skipn_firstn_comm, Nat.add_comm, Nat.add_sub.
Qed.

(** The pages are the list.  Whatever the filter, the items of the pages from the
    first to the last announced, one after the other, are all the matching transfers,
    the most recent first, each once; every page announces the same totals. *)
Theorem pages_partition_the_list query w :
  (0 < qt_limit query)%nat →
  ∃ pages, (∀ p, list_transfers (mkQueryTransfersDto (qt_status query) (qt_currency query) (S p) (qt_limit query)) w
               = (Return (pages p), w))
    ∧ (∀ p, pt_total (pages p) = length (matching query (w_db w))
          ∧ pt_pages (pages p) = page_count (length (matching query (w_db w))) (qt_limit query)
          ∧ (length (pt_items (pages p)) <= qt_limit query)%nat)
    ∧ List.concat ((λ p, pt_items (pages p)) <$> seq 0 (pt_pages (pages 0%nat)))
      = matching query (w_db w)
    ∧ StronglySorted (λ t u, - tx_createdAt t <= - tx_createdAt u) (matching query (w_db w)).
Proof.
  intros Hlimit. set (rows := matching query (w_db w)). set (limit := qt_limit query) in *.
  exists (λ p, mkPaginatedTransfersDto (take limit (drop (p * limit) rows)) (length rows) (S p) limit
                 (page_count (length rows) limit)).
  split_and!.
  - intros p. unfold list_transfers, paginate. erewrite bind_return by reflexivity. cbn [fst snd].
    cbn [qt_page qt_limit]. by replace (S p - 1)%nat with p by lia.
  - intros p. split_and!; [done..|apply firstn_le_length].
  - cbn [pt_items pt_pages]. rewrite concat_pages. apply firstn_all2.
    unfold page_count. rewrite (proj2 (Nat.ltb_lt 0 limit) Hlimit).
    pose proof (Nat.div_mod_eq (length rows + limit - 1) limit).
    pose proof (Nat.mod_upper_bound (length rows + limit - 1) limit). lia.
  - apply sort_by_ordered.
Qed.

(** * The document of a request *)

(** An empty optional value is not written: it reads as no value. *)
Definition written (value : option string) : option string := if truthy value then value else None.

(** The elements of the document that are present. *)
Definition request_elements (dto : CreateTransferDto) : list (string * string) :=
  omap id
    [ Some ("debtorIban", ct_debtorIban dto);
      (λ v, ("debtorName", v)) <$> written (ct_debtorName dto);
      Some ("creditorIban", ct_creditorIban dto);
      Some ("creditorName", ct_creditorName dto);
      Some ("amount", formatAmount (ct_amount dto));
      Some ("currency", ct_currency dto);
      (λ v, ("endToEndLabel", v)) <$> written (ct_endToEndLabel dto) ].

Lemma optionalElement_written name value depth :
  optionalElement name value depth = (λ v, element name v depth) <$> written value.
Proof. by destruct value as [[|]|]. Qed.

Lemma request_body dto :
  omap id
    [ Some (element "debtorIban" (ct_debtorIban dto) 1);
      optionalElement "debtorName" (ct_debtorName dto) 1;
      Some (element "creditorIban" (ct_creditorIban dto) 1);
      Some (element "creditorName" (ct_creditorName dto) 1);
      Some (element "amount" (formatAmount (ct_amount dto)) 1);
      Some (element "currency" (ct_currency dto) 1);
      optionalElement "endToEndLabel" (ct_endToEndLabel dto) 1 ]
  = (λ e, element e.1 e.2 1) <$> request_elements dto.
Proof.
  rewrite !optionalElement_written. unfold request_elements.
  by destruct (written (ct_debtorName dto)), (written (ct_endToEndLabel dto)).
Qed.

(** The canonical document binds the order.  Two requests with one document have the
    same accounts, names, amount to the cent, currency and label, an empty optional
    value counting for none: no text in a field can imitate another field. *)
Theorem request_document_binds d1 d2 :
  buildTransferRequest d1 = buildTransferRequest d2 →
  ct_debtorIban d1 = ct_debtorIban d2 ∧ written (ct_debtorName d1) = written (ct_debtorName d2)
  ∧ ct_creditorIban d1 = ct_creditorIban d2 ∧ ct_creditorName d1 = ct_creditorName d2
  ∧ ct_amount d1 = ct_amount d2 ∧ ct_currency d1 = ct_currency d2
  ∧ written (ct_endToEndLabel d1) = written (ct_endToEndLabel d2).
Proof.
  unfold buildTransferRequest. rewrite !request_body. cbv zeta. intros H.
  assert (Hplain : ∀ dto, Forall (λ e, plain_name e.1) (request_elements dto)).
  { intros dto. unfold request_elements.
    destruct (written (ct_debtorName dto)), (written (ct_endToEndLabel dto)); repeat constructor. }
  cbn [String.concat] in H. apply append_cancel, append_cancel, append_cancel, append_cancel in H.
  assert (Helements : request_elements d1 = request_elements d2).
  { eapply elements_inj; [apply Hplain..|]. eapply append_right_cancel. exact H. }
  clear H Hplain. revert Helements. unfold request_elements.
  destruct (written (ct_debtorName d1)), (written (ct_endToEndLabel d1)),
    (written (ct_debtorName d2)), (written (ct_endToEndLabel d2)); simpl; intros H;
    try discriminate H; injection H; intros; subst; split_and!; try done; try congruence;
    by apply toFixed2_inj.
Qed.

(** * Witnesses *)

#[local] Existing Instances Toy.hashing Toy.entropy Toy.xsd.

Definition sample_transfer : CreateTransferDto :=
  mkCreateTransferDto "FR7630006000011234567890189" (Some "Societe Kongo SARL")
    "DE89370400440532013000" "ACME GmbH" 125075 "USD" (Some "Facture 2026-0042").

(** [sample_payment] as a transfer that was registered. *)
Definition sample_pending : Transaction :=
  sample_payment <| tx_paymentChannel := PaymentChannel.LEGACY_TRANSFER |>
    <| tx_status := TransactionStatus.PENDING |> <| tx_providerStatus := None |>
    <| tx_bankStatus := None |> <| tx_reconciliationStatus := None |>
    <| tx_refundStatus := RefundStatus.NOT_REQUIRED |> <| tx_caseStatus := CaseStatus.NONE |>.
Definition sample_registered : World :=
  sample_world <| w_db := (w_db sample_world) <| db_transactions := [sample_pending] |> |>.

Lemma sample_registered_ok : ledger_ok (w_db sample_registered).
Proof. intros reference. split; [exact I|]. simpl. lia. Qed.

Lemma processing_converges_witness (_bank := sample_bank) :
  ∃ u w', with_entity sample_pending processTransaction sample_registered = (Return u, w')
    ∧ w_calls w' = [CallConvertAmountToWords 1000].
Proof.
  assert (Hrun : ∃ u w', with_entity sample_pending processTransaction sample_registered = (Return u, w')).
  { eexists _, _. vm_compute. reflexivity. }
  destruct Hrun as (u & w' & Hrun). exists u, w'. split; [exact Hrun|].
  exact (proj1 (processing_converges (HS := _bank) sample_pending sample_registered (Return u) w'
    sample_registered_ok Hrun)).
Defined.

(** A bank whose refusal fills more than its column. *)
Definition verbose_bank : SoapClient :=
  {| soap_convert _ _ := Throw (SoapFaultException "NumberToDollars" "Client" (repeat_string "a" 600)) |}.

Lemma long_fault_leaves_processing_witness (_bank := verbose_bank) :
  ∃ w', with_entity sample_pending processTransaction sample_registered
          = (Throw (QueryFailedError PG_STRING_TRUNCATION ""), w')
    ∧ w_db w' = saved (assign_processing sample_pending) (w_db sample_registered).
Proof.
  apply (long_fault_leaves_processing (HS := _bank) sample_pending sample_registered
           "NumberToDollars" "Client" (repeat_string "a" 600)); [reflexivity| |vm_compute; reflexivity].
  assert (H : Nat.ltb 512 (char_length (repeat_string "a" 600)) = true) by (vm_compute; reflexivity).
  by apply Nat.ltb_lt.
Defined.

Lemma initiateTransfer_is_idempotent_witness (_bank := sample_bank) :
  ∃ t w', initiateTransfer sample_business sample_transfer (Some "key-1") empty_world = (Return t, w')
    ∧ initiateTransfer sample_business sample_transfer (Some "key-1") w' = (Return t, w').
Proof.
  assert (Hrun : ∃ t w',
    initiateTransfer sample_business sample_transfer (Some "key-1") empty_world = (Return t, w')
    ∧ assertTransferRules sample_business sample_transfer w' = (Return tt, w')).
  { eexists _, _. split; vm_compute; reflexivity. }
  destruct Hrun as (t & w' & Hrun & Hrules). exists t, w'. split; [exact Hrun|].
  destruct (initiateTransfer_is_idempotent (HS := _bank) _ _ _ _ _ _ empty_ok Hrun) as (_ & _ & _ & Hagain).
  apply Hagain; [reflexivity|exact Hrules|reflexivity].
Defined.

Lemma pages_partition_the_list_witness :
  ∃ pages, (∀ p, list_transfers (mkQueryTransfersDto None None (S p) 2) sample_registered
              = (Return (pages p), sample_registered))
    ∧ List.concat ((λ p, pt_items (pages p)) <$> seq 0 (pt_pages (pages 0%nat))) = [sample_pending].
Proof.
  destruct (pages_partition_the_list (mkQueryTransfersDto None None 1 2) sample_registered)
    as (pages & Hrun & _ & Hall & _); [simpl; lia|].
  exists pages. exact (conj Hrun Hall).
Defined.

Lemma request_document_binds_witness :
  let d := sample_transfer <| ct_debtorName := Some "" |> in
  let d' := sample_transfer <| ct_debtorName := None |> in
  buildTransferRequest d = buildTransferRequest d' ∧ ct_amount d = ct_amount d'.
Proof.
  intros d d'. assert (H : buildTransferRequest d = buildTransferRequest d') by (vm_compute; reflexivity).
  exact (conj H (proj1 (proj2 (proj2 (proj2 (proj2 (request_document_binds d d' H))))))).
Defined.
