(* ===== verification/SoapService.v ===== *)
(** The bank's SOAP client: [src/soap/soap-client.service.ts] and
    [src/soap/soap-response.mapper.ts].

    [invoke] repeats a call whose failure concludes nothing (no client, or an error that
    brings no usable word of a fault, timeouts included), and only such a call; the
    mapper refuses dangerous payloads before they are parsed and tells a fault from a
    result.  The transport (node-soap, axios) and the XML parser (xml2js) are the
    class [SoapTransport].  The client implements the port [SoapClient] of [Ports]:
    what it throws is one of the three SOAP exceptions. *)
From S2P Require Import Prelude Domain External EventXml Text Database Ports Transfers.
Open Scope Z_scope.

#[local] Set Warnings "-register-all".

(** * What the libraries give *)

(** A document as xml2js builds it, with [explicitArray: false]. *)
Inductive XmlValue :=
  | XText (text : string)
  | XArray (items : list XmlValue)
  | XNode (fields : list (string * XmlValue)).

Abbreviation XmlNode := (list (string * XmlValue)).

(** What node-soap rejects with. *)
Record SoapErrorLike := mkSoapErrorLike {
  se_message : option string;
  se_code : option string;
  se_body : option string;
  se_status : option Z;
  se_dataText : option string
}.

(** One attempt: the client could not be made, the WSDL lacks the operation, the call
    failed, or a body came back after some time. *)
Inductive RawReply :=
  | ClientUnavailable (message : string)
  | OperationMissing
  | CallFailed (error : SoapErrorLike)
  | Replied (rawResponse : string) (durationMs : Z).

(** A call of the transport: the operation and its argument. *)
Abbreviation SoapCall := (string * Z)%type.

Class SoapTransport := {
  transport : list SoapCall → SoapCall → RawReply;
  parseXml : string → option XmlValue
}.

Record SoapConfig := mkSoapConfig {
  sc_maxRetries : Z;
  sc_maxResponseBytes : Z
}.

Definition numberToDollars : string := "NumberToDollars".
Definition numberToWords : string := "NumberToWords".

(** * The response mapper *)

Definition SOAP_12_NAMESPACE : string := "http://www.w3.org/2003/05/soap-envelope".

(** The text each pattern matches, and its [source]. *)
Definition FORBIDDEN_CONSTRUCTS : list (string * string) :=
  [("<!DOCTYPE", "<!DOCTYPE"); ("<!ENTITY", "<!ENTITY");
   ("<?xml-stylesheet", "<\?xml-stylesheet")].

(** [/pattern/i.test(s)], of a pattern that matches one text. *)
Definition includes_nocase (needle s : string) : bool :=
  includes (toLowerCase needle) (toLowerCase s).

Fixpoint field (name : string) (fields : XmlNode) : option XmlValue :=
  match fields with
  | [] => None
  | (key, value) :: fields => if str_eqb key name then Some value else field name fields
  end.

(** ['name' in node] *)
Definition has_field (name : string) (fields : XmlNode) : bool :=
  bool_decide (field name fields ≠ None).

Fixpoint asText (node : XmlValue) : option string :=
  match node with
  | XText text => let trimmed := trim text in if truthy (Some trimmed) then Some trimmed else None
  | XArray items => match items with [] => None | item :: _ => asText item end
  | XNode fields =>
      (fix text_field (fields : XmlNode) : option string :=
         match fields with
         | [] => None
         | (key, value) :: fields => if str_eqb key "_" then asText value else text_field fields
         end) fields
  end.

Fixpoint asNode (node : XmlValue) : option XmlNode :=
  match node with
  | XText _ => None
  | XArray items => match items with [] => None | item :: _ => asNode item end
  | XNode fields => Some fields
  end.

Record SoapFaultDetails := mkSoapFaultDetails {
  fd_soapVersion : string;
  fd_faultCode : string;
  fd_faultString : string
}.

(** [a ?? b] *)
Definition or_else {A} (a b : option A) : option A := match a with Some v => Some v | None => b end.

Definition text_of (name : string) (fields : XmlNode) : option string :=
  field name fields ≫= asText.
Definition node_of (name : string) (fields : XmlNode) : option XmlNode :=
  field name fields ≫= asNode.

Definition NO_REASON : string := "Faute SOAP sans motif fourni".

Definition extractFault (body : XmlNode) (rawXml : string) : option SoapFaultDetails :=
  if negb (has_field "Fault" body) then None
  else
    let fault := or_default (node_of "Fault" body) [] in
    let isSoap12 := includes SOAP_12_NAMESPACE rawXml || has_field "Code" fault
                    || has_field "Reason" fault in
    Some (if isSoap12 then
      let code := node_of "Code" fault in
      let reason := node_of "Reason" fault in
      let subcode := code ≫= node_of "Subcode" in
      mkSoapFaultDetails "1.2"
        (or_default (or_else (code ≫= text_of "Value") (subcode ≫= text_of "Value")) "soap:Receiver")
        (or_default (or_else (reason ≫= text_of "Text") (text_of "Reason" fault)) NO_REASON)
    else
      mkSoapFaultDetails "1.1" (or_default (text_of "faultcode" fault) "soap:Server")
        (or_default (text_of "faultstring" fault) NO_REASON)).

Section SoapService.
Context {HT : SoapTransport}.
Context (config : SoapConfig).

Abbreviation Soap := (Eff (list SoapCall) GatewayError).

Fixpoint assert_no_construct (patterns : list (string * string)) (xml operation : string) : Soap unit :=
  match patterns with
  | [] => mret tt
  | pattern :: patterns =>
      throw_unless (negb (includes_nocase pattern.1 xml))
        (SoapParsingException operation
           ("Reponse SOAP rejetee : construction XML interdite detectee (" +:+ pattern.2 +:+ ")")) ;;
      assert_no_construct patterns xml operation
  end.

Definition assertSafePayload (xml operation : string) : Soap unit :=
  throw_unless (truthy (Some (trim xml)))
    (SoapParsingException operation ("Reponse SOAP vide pour l'operation " +:+ operation)) ;;
  let size := Z.of_nat (String.length xml) in
  throw_unless (size <=? sc_maxResponseBytes config)
    (SoapParsingException operation ("Reponse SOAP trop volumineuse (" +:+ pretty size
       +:+ " octets > " +:+ pretty (sc_maxResponseBytes config) +:+ ")")) ;;
  assert_no_construct FORBIDDEN_CONSTRUCTS xml operation.

Definition parseEnvelope (xml operation : string) : Soap XmlNode :=
  assertSafePayload xml operation ;;
  parsed ← ret_option (parseXml xml)
    (SoapParsingException operation ("Reponse XML malformee pour l'operation " +:+ operation));
  envelope ← ret_option (asNode parsed ≫= node_of "Envelope")
    (SoapParsingException operation
       ("Enveloppe SOAP absente dans la reponse de l'operation " +:+ operation));
  ret_option (node_of "Body" envelope)
    (SoapParsingException operation
       ("Element <Body> absent dans la reponse de l'operation " +:+ operation)).

Definition fault_exception (fault : SoapFaultDetails) (operation : string) : GatewayError :=
  SoapFaultException operation (fd_faultCode fault) (fd_faultString fault).

Definition extractOperationResult (xml operation : string) : Soap string :=
  body ← parseEnvelope xml operation;
  match extractFault body xml with
  | Some fault => throw (fault_exception fault operation)
  | None =>
      responseNode ← ret_option (node_of (operation +:+ "Response") body)
        (SoapParsingException operation
           ("Element <" +:+ operation +:+ "Response> absent de la reponse SOAP"));
      ret_option (text_of (operation +:+ "Result") responseNode)
        (SoapParsingException operation
           ("Element <" +:+ operation +:+ "Result> absent ou vide dans la reponse SOAP"))
  end.

(** * The client *)

Definition extractResponseBody (err : SoapErrorLike) : option string :=
  match se_body err with Some body => Some body | None => se_dataText err end.

(** What a body that came with the failed call says, if anything. *)
Definition fault_in_body (err : SoapErrorLike) (operation : string) : Soap (option GatewayError) :=
  match extractResponseBody err with
  | Some body =>
      if truthy (Some body) && includes_nocase "Fault" body then
        try_catch
          (parsedBody ← parseEnvelope body operation;
           mret ((λ fault, fault_exception fault operation) <$> extractFault parsedBody body))
          (λ error, match error with
                    | SoapParsingException _ _ => mret (Some error)
                    | _ => mret None
                    end)
      else mret None
  | None => mret None
  end.

Definition timed_out (err : SoapErrorLike) (message : string) : bool :=
  is_eq (se_code err) (Some "ECONNABORTED") || is_eq (se_code err) (Some "ETIMEDOUT")
  || includes_nocase "timeout" message || includes_nocase "timed out" message.

Definition communication_error (err : SoapErrorLike) (operation : string) (attempt : Z) : GatewayError :=
  let message := or_default (se_message err) "Erreur inconnue" in
  let detail := match se_status err with
                | Some status => if status =? 0 then message
                                 else "HTTP " +:+ pretty status +:+ " — " +:+ message
                | None => message
                end in
  SoapCommunicationException operation
    ("Appel SOAP " +:+ operation +:+ " en echec : " +:+ detail) attempt (timed_out err message).

(** [normalizeError], on an error of the library. *)
Definition normalizeError (err : SoapErrorLike) (operation : string) (attempt : Z) : Soap GatewayError :=
  found ← fault_in_body err operation;
  mret (or_default found (communication_error err operation attempt)).

(** The [try] of one turn: the body, or the error it throws, normalized. *)
Definition call_once (operation : string) (argument attempt : Z) :
    Soap ((string * Z) + GatewayError) :=
  calls ← gets id;
  match transport calls (operation, argument) with
  | ClientUnavailable message =>
      mret (inr (SoapCommunicationException "createClient" message 1 false))
  | OperationMissing =>
      mret (inr (SoapParsingException operation
                   ("Operation " +:+ operation +:+ " absente du WSDL charge")))
  | CallFailed err =>
      modify (λ calls, calls ++ [(operation, argument)]) ;;
      error ← normalizeError err operation attempt;
      mret (inr error)
  | Replied rawResponse durationMs =>
      modify (λ calls, calls ++ [(operation, argument)]) ;;
      mret (if truthy (Some rawResponse) then inl (rawResponse, durationMs)
            else inr (SoapParsingException operation
                        ("Reponse SOAP vide pour l'operation " +:+ operation)))
  end.

(** [lastError instanceof SoapFaultException || SoapParsingException] *)
Definition is_final (error : GatewayError) : bool :=
  match error with SoapFaultException _ _ _ | SoapParsingException _ _ => true | _ => false end.

(** The [for] loop, [remaining] turns to go. *)
Fixpoint invoke_loop (operation : string) (argument attempt : Z) (remaining : nat) :
    Soap (string * SoapExchange) :=
  match remaining with
  | O => throw (SoapCommunicationException operation "Echec SOAP inconnu" 1 false)
  | S remaining =>
      answer ← call_once operation argument attempt;
      match answer with
      | inl (rawResponse, durationMs) =>
          mret (rawResponse, mkSoapExchange operation attempt durationMs)
      | inr error =>
          if is_final error then throw error
          else if Nat.eqb remaining 0 then throw error
          else invoke_loop operation argument (attempt + 1) remaining
      end
  end.

Definition maxAttempts : nat := Z.to_nat (Z.max 1 (sc_maxRetries config + 1)).

Definition invoke (operation : string) (argument : Z) : Soap (string * SoapExchange) :=
  invoke_loop operation argument 1 maxAttempts.

Definition convert (operation : string) (argument : Z) : Soap (string * SoapExchange) :=
  answer ← invoke operation argument;
  words ← extractOperationResult answer.1 operation;
  mret (words, answer.2).

Definition convertAmountToWords (amount : Z) : Soap (string * SoapExchange) :=
  convert numberToDollars amount.

(** [Math.trunc(Math.abs(value))], of a value in cents. *)
Definition convertNumberToWords (value : Z) : Soap (string * SoapExchange) :=
  convert numberToWords (Z.abs value / 100).
End SoapService.

(** * The port *)

Section client.
Context {HT : SoapTransport}.
Context (config : SoapConfig).

(** The calls of the transport that a history of conversions has made. *)
Fixpoint transport_history (history : list ExternalCall) (calls : list SoapCall) : list SoapCall :=
  match history with
  | [] => calls
  | CallConvertAmountToWords amount :: history =>
      transport_history history (convertAmountToWords config amount calls).2
  | _ :: history => transport_history history calls
  end.

(** The service behind the port that the transfers and the worker call; the history a
    port is given ends with the call itself. *)
Definition soap_client : SoapClient :=
  {| soap_convert history amount :=
       (convertAmountToWords config amount (transport_history (removelast history) [])).1 |}.
End client.

(** * Lemmas *)

Section soap_lemmas.
Context {HT : SoapTransport}.
Context (config : SoapConfig).

Abbreviation Soap := (Eff (list SoapCall) GatewayError).

(** ** The payload *)

(** What [assertSafePayload] lets through. *)
Definition safe_payload (xml : string) : bool :=
  truthy (Some (trim xml)) && (Z.of_nat (String.length xml) <=? sc_maxResponseBytes config)
  && forallb (λ pattern, negb (includes_nocase pattern.1 xml)) FORBIDDEN_CONSTRUCTS.

(** A check of the mapper: it makes no call, and fails with one kind of error. *)
Definition refuses (operation : string) (e : GatewayError) : Prop :=
  ∃ message, e = SoapParsingException operation message.

Lemma unless_then {A} (b : bool) e (k : Soap A) calls :
  (throw_unless b e ;; k) calls = if b then k calls else (Throw e, calls).
Proof. by destruct b. Qed.

Lemma assertSafePayload_run xml operation calls :
  ∃ o, assertSafePayload config xml operation calls = (o, calls)
    ∧ match o with
      | Return _ => safe_payload xml = true
      | Throw e => safe_payload xml = false ∧ refuses operation e
      end.
Proof.
  unfold assertSafePayload, safe_payload, refuses, FORBIDDEN_CONSTRUCTS. cbv zeta.
  cbn [assert_no_construct forallb fst snd]. rewrite !unless_then.
  destruct (truthy (Some (trim xml))), (_ <=? _), (includes_nocase "<!DOCTYPE" xml),
    (includes_nocase "<!ENTITY" xml), (includes_nocase "<?xml-stylesheet" xml); cbn [andb negb];
    eexists; (split; [reflexivity|]); simpl; by eauto.
Qed.

Lemma parseEnvelope_run xml operation calls :
  ∃ o, parseEnvelope config xml operation calls = (o, calls)
    ∧ match o with
      | Return body => safe_payload xml = true
          ∧ ∃ parsed envelope, parseXml xml = Some parsed
              ∧ asNode parsed ≫= node_of "Envelope" = Some envelope
              ∧ node_of "Body" envelope = Some body
      | Throw e => refuses operation e
      end.
Proof.
  unfold parseEnvelope, refuses.
  destruct (assertSafePayload_run xml operation calls) as ([[]|e] & Hrun & Hsafe).
  2: { erewrite bind_throw by exact Hrun. eexists. split; [reflexivity|]. apply Hsafe. }
  erewrite bind_return by exact Hrun.
  destruct (parseXml xml) as [parsed|]; [|eexists; split; [reflexivity|]; by eexists].
  erewrite bind_return by reflexivity.
  destruct (asNode parsed ≫= node_of "Envelope") as [envelope|] eqn:Henv;
    [|eexists; split; [reflexivity|]; by eexists].
  erewrite bind_return by reflexivity.
  destruct (node_of "Body" envelope) as [body|] eqn:Hbody; eexists; (split; [reflexivity|]);
    [split; [done|by exists parsed, envelope]|by eexists].
Qed.

(** A body is a result, a fault or unusable, and never two of these.  The mapper
    makes no call.  It answers a text only of a payload that is neither blank, nor over
    the size limit, nor carrying a forbidden construct, whose body has no [Fault]
    element and holds that text under the operation's result; it throws a fault only
    when there is one; everything else is a [SoapParsingException]. *)
Theorem body_is_result_fault_or_unusable xml operation calls :
  ∃ o, extractOperationResult config xml operation calls = (o, calls)
    ∧ match o with
      | Return words => safe_payload xml = true
          ∧ ∃ body response, has_field "Fault" body = false
              ∧ node_of (operation +:+ "Response") body = Some response
              ∧ text_of (operation +:+ "Result") response = Some words
      | Throw (SoapFaultException operation' code reason) => safe_payload xml = true
          ∧ operation' = operation
          ∧ ∃ body fault, has_field "Fault" body = true ∧ extractFault body xml = Some fault
              ∧ code = fd_faultCode fault ∧ reason = fd_faultString fault
      | Throw e => refuses operation e
      end.
Proof.
  unfold extractOperationResult.
  destruct (parseEnvelope_run xml operation calls) as ([body|e] & Hrun & H).
  2: { destruct H as (message & ->). erewrite bind_throw by exact Hrun.
       eexists. split; [reflexivity|]. by exists message. }
  destruct H as (Hsafe & _). erewrite bind_return by exact Hrun.
  destruct (extractFault body xml) as [fault|] eqn:Hfault.
  { eexists. split; [reflexivity|]. split_and!; [done..|]. exists body, fault.
    split_and!; [|done..]. unfold extractFault in Hfault. by destruct (has_field "Fault" body). }
  assert (has_field "Fault" body = false).
  { unfold extractFault in Hfault. by destruct (has_field "Fault" body). }
  destruct (node_of _ body) as [response|] eqn:Hnode;
    [|eexists; split; [reflexivity|]; by eexists].
  erewrite bind_return by reflexivity.
  destruct (text_of _ response) as [words|] eqn:Htext;
    (eexists; split; [reflexivity|]); [split; [done|by exists body, response]|by eexists].
Qed.

(** ** The turns *)

(** The exceptions of [soap.exceptions.ts]. *)
Definition soap_exception (e : GatewayError) : bool :=
  match e with
  | SoapFaultException _ _ _ | SoapCommunicationException _ _ _ _ | SoapParsingException _ _ => true
  | _ => false
  end.

(** What a failed call says for good, if anything: the fault stated by the body that came
    with it, or that this body cannot be used.  A call without a body, or whose body does
    not speak of a fault, says nothing: a timeout, a refused connection, a bare HTTP error. *)
Definition conclusion (err : SoapErrorLike) (operation : string) : option GatewayError :=
  match extractResponseBody err with
  | Some body =>
      if truthy (Some body) && includes_nocase "Fault" body then
        match (parseEnvelope config body operation []).1 with
        | Return parsed => (λ fault, fault_exception fault operation) <$> extractFault parsed body
        | Throw e => Some e
        end
      else None
  | None => None
  end.

(** A turn after which the call is made again, with the calls of the transport before and
    after it. *)
Definition retryable (operation : string) (argument : Z) (calls calls' : list SoapCall) : Prop :=
  match transport calls (operation, argument) with
  | ClientUnavailable _ => calls' = calls
  | CallFailed err => conclusion err operation = None ∧ calls' = calls ++ [(operation, argument)]
  | OperationMissing | Replied _ _ => False
  end.

Fixpoint retried (operation : string) (argument : Z) (n : nat) (calls calls' : list SoapCall) : Prop :=
  match n with
  | O => calls' = calls
  | S n => ∃ mid, retryable operation argument calls mid ∧ retried operation argument n mid calls'
  end.

(** The turn that decides, made at the attempt [attempt], which is the [last] one or not:
    what the transport answers, and what the caller gets. *)
Definition settles (operation : string) (argument attempt : Z) (last : Prop)
    (calls calls' : list SoapCall) (o : Outcome GatewayError (string * SoapExchange)) : Prop :=
  match transport calls (operation, argument) with
  | ClientUnavailable message => calls' = calls ∧ last
      ∧ o = Throw (SoapCommunicationException "createClient" message 1 false)
  | OperationMissing => calls' = calls ∧ ∃ e, refuses operation e ∧ o = Throw e
  | CallFailed err => calls' = calls ++ [(operation, argument)]
      ∧ match conclusion err operation with
        | Some e => o = Throw e
            ∧ ((∃ code reason, e = SoapFaultException operation code reason) ∨ refuses operation e)
        | None => last ∧ o = Throw (communication_error err operation attempt)
        end
  | Replied body duration => calls' = calls ++ [(operation, argument)]
      ∧ if truthy (Some body) then o = Return (body, mkSoapExchange operation attempt duration)
        else ∃ e, refuses operation e ∧ o = Throw e
  end.

Lemma parseEnvelope_pure xml operation calls :
  parseEnvelope config xml operation calls = ((parseEnvelope config xml operation []).1, calls).
Proof.
  assert (Hsafe : ∀ calls, assertSafePayload config xml operation calls
    = ((assertSafePayload config xml operation []).1, calls)).
  { intros s. unfold assertSafePayload, FORBIDDEN_CONSTRUCTS. cbv zeta.
    cbn [assert_no_construct fst snd]. rewrite !unless_then. by repeat case_match. }
  unfold parseEnvelope, mbind, Eff_bind. rewrite Hsafe, (Hsafe []). cbn [fst].
  destruct (assertSafePayload config xml operation []).1; [|done].
  destruct (parseXml xml) as [parsed|]; [|done]. unfold ret_option, mret, Eff_ret.
  destruct (option_bind _ _ (node_of "Envelope") _) as [envelope|]; [|done].
  by destruct (node_of "Body" envelope).
Qed.

Lemma conclusion_final err operation e :
  conclusion err operation = Some e →
  (∃ code reason, e = SoapFaultException operation code reason) ∨ refuses operation e.
Proof.
  unfold conclusion. destruct (extractResponseBody err) as [body|]; [|done].
  destruct (truthy (Some body) && includes_nocase "Fault" body); [|done].
  destruct (parseEnvelope_run body operation []) as ([parsed|e'] & -> & H); simpl.
  - intros (fault & _ & ->)%fmap_Some. left. by eexists _, _.
  - intros [= ->]. by right.
Qed.

Lemma fault_in_body_run err operation calls :
  fault_in_body config err operation calls = (Return (conclusion err operation), calls).
Proof.
  unfold fault_in_body, conclusion. destruct (extractResponseBody err) as [body|]; [|done].
  destruct (truthy (Some body) && includes_nocase "Fault" body); [|done].
  unfold try_catch, mbind, Eff_bind. rewrite parseEnvelope_pure.
  destruct (parseEnvelope_run body operation []) as ([parsed|e] & -> & H); simpl; [done|].
  by destruct H as (message & ->).
Qed.

Lemma call_once_run operation argument attempt calls :
  call_once config operation argument attempt calls =
  match transport calls (operation, argument) with
  | ClientUnavailable message =>
      (Return (inr (SoapCommunicationException "createClient" message 1 false)), calls)
  | OperationMissing => (Return (inr (SoapParsingException operation
      ("Operation " +:+ operation +:+ " absente du WSDL charge"))), calls)
  | CallFailed err => (Return (inr (or_default (conclusion err operation)
      (communication_error err operation attempt))), calls ++ [(operation, argument)])
  | Replied body duration => (Return (if truthy (Some body) then inl (body, duration)
      else inr (SoapParsingException operation ("Reponse SOAP vide pour l'operation " +:+ operation))),
      calls ++ [(operation, argument)])
  end.
Proof.
  unfold call_once. erewrite bind_return by reflexivity. cbn [id].
  destruct (transport calls (operation, argument)) as [m| |err|body duration]; try done.
  erewrite bind_return by reflexivity. unfold normalizeError.
  erewrite bind_return; [reflexivity|]. by erewrite bind_return by apply fault_in_body_run.
Qed.

Lemma settles_weaken (P Q : Prop) operation argument attempt calls calls' o :
  (P → Q) → settles operation argument attempt P calls calls' o →
  settles operation argument attempt Q calls calls' o.
Proof.
  intros HPQ. unfold settles. destruct (transport _ _) as [m| |err|]; [| |destruct (conclusion _ _)|];
    intuition auto.
Qed.

Lemma invoke_loop_run operation argument turns : ∀ attempt calls, (0 < turns)%nat →
  ∃ n mid calls' o, invoke_loop config operation argument attempt turns calls = (o, calls')
    ∧ (n < turns)%nat ∧ retried operation argument n calls mid
    ∧ settles operation argument (attempt + Z.of_nat n) (S n = turns) mid calls' o.
Proof.
  induction turns as [|turns IH]; intros attempt calls Hturns; [lia|].
  assert (Hstop : ∀ calls' o, invoke_loop config operation argument attempt (S turns) calls = (o, calls') →
    settles operation argument attempt (1 = S turns)%nat calls calls' o →
    ∃ n mid calls' o, invoke_loop config operation argument attempt (S turns) calls = (o, calls')
      ∧ (n < S turns)%nat ∧ retried operation argument n calls mid
      ∧ settles operation argument (attempt + Z.of_nat n) (S n = S turns) mid calls' o).
  { intros calls' o Hrun H. exists 0%nat, calls, calls', o. rewrite Z.add_0_r. split_and!; [done|lia|done..]. }
  assert (Hretry : ∀ e mid, call_once config operation argument attempt calls = (Return (inr e), mid) →
    is_final e = false → retryable operation argument calls mid → (0 < turns)%nat →
    ∃ n mid calls' o, invoke_loop config operation argument attempt (S turns) calls = (o, calls')
      ∧ (n < S turns)%nat ∧ retried operation argument n calls mid
      ∧ settles operation argument (attempt + Z.of_nat n) (S n = S turns) mid calls' o).
  { intros e mid Hcall Hfinal Hmid Hleft. destruct (IH (attempt + 1) mid Hleft)
      as (n & mid' & calls' & o & Hrun & Hn & Hretried & Hsettles).
    exists (S n), mid', calls', o. split_and!; [|lia|by exists mid|].
    - cbn [invoke_loop]. erewrite bind_return by exact Hcall. cbn beta iota. rewrite Hfinal.
      by destruct turns; [lia|].
    - replace (attempt + Z.of_nat (S n)) with (attempt + 1 + Z.of_nat n) by lia.
      eapply settles_weaken; [|exact Hsettles]. intros <-. done. }
  assert (Hcall := call_once_run operation argument attempt calls).
  destruct (transport calls (operation, argument)) as [m| |err|body duration] eqn:Ht.
  - destruct turns; [|eapply Hretry; [exact Hcall|done|unfold retryable; by rewrite Ht|lia]].
    eapply Hstop; [cbn [invoke_loop]; by erewrite bind_return by exact Hcall|].
    unfold settles. by rewrite Ht.
  - eapply Hstop; [cbn [invoke_loop]; by erewrite bind_return by exact Hcall|].
    unfold settles. rewrite Ht. split; [done|]. eexists. split; [|done]. by eexists.
  - destruct (conclusion err operation) as [e|] eqn:Hconclusion.
    + assert (Hfinal := conclusion_final _ _ _ Hconclusion).
      eapply Hstop; [|unfold settles; rewrite Ht, Hconclusion; done].
      cbn [invoke_loop]. erewrite bind_return by exact Hcall.
      destruct Hfinal as [[code [reason He]]|[message He]]; by rewrite He.
    + destruct turns; [|eapply Hretry; [exact Hcall|done|unfold retryable; by rewrite Ht|lia]].
      eapply Hstop; [cbn [invoke_loop]; by erewrite bind_return by exact Hcall|].
      unfold settles. by rewrite Ht, Hconclusion.
  - destruct (truthy (Some body)) eqn:Hbody;
      (eapply Hstop; [cbn [invoke_loop]; by erewrite bind_return by exact Hcall|]);
      unfold settles; rewrite Ht, Hbody; (split; [done|]); [done|].
    eexists. split; [|done]. by eexists.
Qed.

Lemma settles_outcome operation argument attempt last calls calls' o :
  settles operation argument attempt last calls calls' o →
  match o with
  | Return (_, exchange) => ∃ duration, exchange = mkSoapExchange operation attempt duration
  | Throw e => soap_exception e = true
  end.
Proof.
  unfold settles, refuses. destruct (transport _ _) as [m| |err|body duration]; intros [_ H].
  - by destruct H as [_ ->].
  - by destruct H as (? & [? ->] & ->).
  - destruct (conclusion err operation) as [e|]; [|by destruct H as [_ ->]].
    by destruct H as (-> & [(? & ? & ->)|(? & ->)]).
  - destruct (truthy _); [subst o; by eexists|]. by destruct H as (? & [? ->] & ->).
Qed.

Lemma settles_calls operation argument attempt last calls calls' o :
  settles operation argument attempt last calls calls' o →
  ∃ k, (k <= 1)%nat ∧ calls' = calls ++ replicate k (operation, argument).
Proof.
  intros H. assert (Hc : calls' = calls ∨ calls' = calls ++ [(operation, argument)]).
  { revert H. unfold settles. destruct (transport _ _); intros [? _]; auto. }
  destruct Hc as [->| ->]; [exists 0%nat; rewrite app_nil_r|exists 1%nat]; split; try done; lia.
Qed.

Lemma retried_calls operation argument n : ∀ calls calls',
  retried operation argument n calls calls' →
  ∃ k, (k <= n)%nat ∧ calls' = calls ++ replicate k (operation, argument).
Proof.
  induction n as [|n IH]; intros calls calls' H; simpl in H.
  { exists 0%nat. split; [lia|]. simpl. by rewrite app_nil_r. }
  destruct H as (mid & Hmid & H). apply IH in H as (k & Hk & ->).
  assert (Hc : mid = calls ∨ mid = calls ++ [(operation, argument)]).
  { revert Hmid. unfold retryable. destruct (transport _ _); intros Hmid; try done; [by left|right; apply Hmid]. }
  destruct Hc as [->| ->]; [exists k; split; [lia|done]|exists (S k); split; [lia|]].
  by rewrite <- app_assoc.
Qed.

Lemma maxAttempts_pos : (0 < maxAttempts config)%nat.
Proof. unfold maxAttempts. lia. Qed.

(** C30. Only an inconclusive failure is tried again.  [invoke] ends: it makes turns that
    all fail without concluding (no client, or a failed call that brings no usable word of
    a fault), then one turn that decides, in all at most [maxRetries + 1] of them, with at
    most one call of the transport by turn.  A body is returned with its place; an empty
    body, an operation missing from the contract, a fault and an unusable error body are
    thrown at once, at whatever turn; a failure that concludes nothing is thrown only when
    no turn is left.  Timeouts and HTTP errors without a fault conclude nothing: the call
    is made again even though the bank may have received the first. *)
Theorem only_inconclusive_calls_are_retried operation argument calls :
  ∃ n mid calls' o, invoke config operation argument calls = (o, calls')
    ∧ (n < maxAttempts config)%nat
    ∧ retried operation argument n calls mid
    ∧ settles operation argument (1 + Z.of_nat n) (S n = maxAttempts config) mid calls' o
    ∧ ∃ k, (k <= S n)%nat ∧ calls' = calls ++ replicate k (operation, argument).
Proof.
  destruct (invoke_loop_run operation argument (maxAttempts config) 1 calls maxAttempts_pos)
    as (n & mid & calls' & o & Hrun & Hn & Hretried & Hsettles).
  exists n, mid, calls', o. split_and!; [done..|].
  apply settles_calls in Hsettles as (k & Hk & ->). apply retried_calls in Hretried as (k' & Hk' & ->).
  exists (k' + k)%nat. split; [lia|]. by rewrite replicate_add, <- app_assoc.
Qed.

(** ** The port *)

Lemma asText_truthy : ∀ node words, asText node = Some words → truthy (Some words) = true.
Proof.
  fix IH 1. intros [text|items|fields] words; simpl.
  - destruct (trim text); [done|]. by intros [= <-].
  - destruct items as [|item items]; [done|]. apply IH.
  - induction fields as [|[key value] fields IHf]; [done|].
    destruct (str_eqb key "_"); [apply IH|apply IHf].
Qed.

(** The answers of a transfer whose call to the bank failed. *)
Definition BANK_ANSWERS : list GatewayError :=
  [HttpException 502 "SOAP_FAULT"; HttpException 502 "SOAP_UNAVAILABLE";
   HttpException 504 "SOAP_TIMEOUT"; HttpException 502 "SOAP_INVALID_RESPONSE"].

Lemma soap_exception_answer e : soap_exception e = true → failure_answer e ∈ BANK_ANSWERS.
Proof.
  unfold BANK_ANSWERS. destruct e; simpl; try discriminate; intros _; try case_match; set_solver.
Qed.

Lemma extract_run xml operation calls :
  ∃ o, extractOperationResult config xml operation calls = (o, calls)
    ∧ match o with Return words => truthy (Some words) = true | Throw e => soap_exception e = true end.
Proof.
  unfold extractOperationResult.
  destruct (parseEnvelope_run xml operation calls) as ([body|e] & Hrun & H).
  2: { destruct H as (message & ->). erewrite bind_throw by exact Hrun. by eexists. }
  erewrite bind_return by exact Hrun.
  destruct (extractFault body xml) as [fault|]; [by eexists|].
  destruct (node_of _ body) as [response|]; [|by eexists]. erewrite bind_return by reflexivity.
  destruct (text_of _ response) as [words|] eqn:Htext; (eexists; split; [reflexivity|]); [|done].
  unfold text_of in Htext. apply bind_Some in Htext as (node & _ & Htext). by apply asText_truthy in Htext.
Qed.

(** The client keeps the promise of the port.  Whatever was called before, a
    conversion answers a text that is not blank, under the operation asked, in at most
    [maxRetries + 1] attempts, or throws a SOAP exception: a transfer then answers a
    bad gateway or a gateway timeout, never an internal error. *)
Theorem client_keeps_the_port history amount :
  match soap_convert (SoapClient := soap_client config) history amount with
  | Return (words, exchange) => truthy (Some words) = true
      ∧ sx_operation exchange = numberToDollars
      ∧ 1 <= sx_attempts exchange <= Z.max 1 (sc_maxRetries config + 1)
  | Throw e => soap_exception e = true ∧ failure_answer e ∈ BANK_ANSWERS
  end.
Proof.
  cbn [soap_convert soap_client]. generalize (transport_history config (removelast history) []). intros calls.
  unfold convertAmountToWords, convert.
  destruct (invoke_loop_run numberToDollars amount (maxAttempts config) 1 calls maxAttempts_pos)
    as (n & mid & calls' & o & Hrun & Hn & _ & Hsettles).
  assert (Hmax : Z.of_nat (maxAttempts config) = Z.max 1 (sc_maxRetries config + 1))
    by (unfold maxAttempts; lia).
  apply settles_outcome in Hsettles. destruct o as [[body exchange]|e].
  - destruct Hsettles as [duration ->]. erewrite bind_return by exact Hrun. cbn [fst snd].
    destruct (extract_run body numberToDollars calls') as ([words|e] & Hextract & H).
    + erewrite bind_return by exact Hextract. simpl. split_and!; [done..|lia|lia].
    + erewrite bind_throw by exact Hextract. split; [done|by apply soap_exception_answer].
  - erewrite bind_throw by exact Hrun.
    split; [done|by apply soap_exception_answer].
Qed.
End soap_lemmas.
