(* ===== verification/ApiKeys.v ===== *)
(** Authentication by API key: [src/auth/api-key.service.ts], [src/auth/scopes.ts] and
    [src/auth/guards/api-key.guard.ts].

    The service keeps, for each identifier declared once, the digest of its secret and
    its scopes; the guard refuses by default, and lets a request through on a valid
    key that carries every scope its route asks for. *)
From stdpp Require Import gmap.
From S2P Require Import Prelude Domain External EventXml Text.
Open Scope Z_scope.

(** [createHash('sha256')], in lower-case hexadecimal. *)
Class Sha256 := { sha256 : string → string }.

(** * Scopes *)

Module ApiScope.
Definition transfersRead : string := "transfers:read".
Definition transfersWrite : string := "transfers:write".
Definition refundsWrite : string := "refunds:write".
Definition refundsApprove : string := "refunds:approve".
Definition reconciliationWrite : string := "reconciliation:write".
Definition ledgerRead : string := "ledger:read".
Definition treasuryWrite : string := "treasury:write".
Definition anchorsRead : string := "anchors:read".
Definition anchorsWrite : string := "anchors:write".
Definition simulatorWrite : string := "simulator:write".
End ApiScope.

Definition ALL_SCOPES : list string :=
  [ApiScope.transfersRead; ApiScope.transfersWrite; ApiScope.refundsWrite; ApiScope.refundsApprove;
   ApiScope.reconciliationWrite; ApiScope.ledgerRead; ApiScope.treasuryWrite; ApiScope.anchorsRead;
   ApiScope.anchorsWrite; ApiScope.simulatorWrite].

(** * The service *)

Record ApiKeyIdentity := mkApiKeyIdentity {
  ak_keyId : string;
  ak_label : string;
  ak_scopes : list string
}.

Record RegisteredKey := mkRegisteredKey {
  rk_identity : ApiKeyIdentity;
  rk_secretHash : string
}.

(** [/^[A-Za-z0-9_-]{1,64}$/] *)
Definition API_KEY_ID_PATTERN : string → bool := of_class is_url_char 1 64.

(** [[...new Set(scopes.split(',').map(trim).filter(Boolean))]] *)
Definition granted_scopes (scopes : string) : list string :=
  uniq (List.filter non_empty (trim <$> split ","%char scopes)).

Definition parseEntry (entry : string) : option RegisteredKey :=
  let parts := split "|"%char entry in
  match parts with
  | rawKeyId :: rawHash :: scopes :: rest =>
      let keyId := trim rawKeyId in
      let hash := trim rawHash in
      let label := trim (default EmptyString (head rest)) in
      if Nat.ltb 4 (length parts) || negb (API_KEY_ID_PATTERN keyId)
         || negb (of_class is_hex_char 64 64 hash)
      then None
      else
        let granted := granted_scopes scopes in
        let unknown := List.filter (λ scope, negb (bool_decide (scope ∈ ALL_SCOPES))) granted in
        if Nat.ltb 0 (length unknown) then None
        else Some (mkRegisteredKey
               (mkApiKeyIdentity keyId (if non_empty label then label else keyId) granted)
               (toLowerCase hash))
  | _ => None
  end.

Abbreviation KeyMap := (gmap string RegisteredKey).

Definition key_id (key : RegisteredKey) : string := ak_keyId (rk_identity key).

(** One turn of the loop of [onModuleInit]: the keys, and the identifiers found twice. *)
Definition load_entry (state : KeyMap * gset string) (entry : string) : KeyMap * gset string :=
  let '(keys, duplicateIds) := state in
  match parseEntry entry with
  | None => state
  | Some key =>
      if bool_decide (key_id key ∈ duplicateIds) then state
      else if bool_decide (is_Some (keys !! key_id key))
      then (delete (key_id key) keys, {[key_id key]} ∪ duplicateIds)
      else (<[key_id key := key]> keys, duplicateIds)
  end.

Definition onModuleInit (apiKeys : list string) : KeyMap :=
  (foldl load_entry (∅, ∅) apiKeys).1.

(** [/^Bearer\s+(.+)$/i] on the trimmed header; [.] does not match a line end. *)
Definition extractBearer (header : option string) : option string :=
  if negb (truthy header) then None
  else
    let text := trim (default EmptyString header) in
    let scheme := String.substring 0 6 text in
    let rest := String.substring 6 (String.length text - 6) text in
    if negb (str_eqb (toLowerCase scheme) "bearer") then None
    else match rest with
         | String c _ =>
             let token := trim_start rest in
             if is_space c && non_empty token
                && all_chars (λ d, negb (N.eqb (Ascii.N_of_ascii d) 10 || N.eqb (Ascii.N_of_ascii d) 13)) token
             then Some (trim token) else None
         | EmptyString => None
         end.

Section ApiKeyService.
Context {HS : Sha256}.

Definition authenticate (keys : KeyMap) (authorizationHeader : option string) :
    option ApiKeyIdentity :=
  presented ← extractBearer authorizationHeader;
  match cut_at "."%char presented with
  | None => None
  | Some (keyId, secret) =>
      if negb (non_empty keyId) then None
      else if negb (non_empty secret) then None
      else
        let candidate := sha256 secret in
        registered ← keys !! keyId;
        if negb (Nat.eqb (String.length candidate) (String.length (rk_secretHash registered)))
           || negb (str_eqb candidate (rk_secretHash registered))
        then None
        else Some (rk_identity registered)
  end.

(** * The guard *)

(** What the decorators of a route and of its class say: [@Public()], [@RequireScopes]. *)
Record RouteMetadata := mkRouteMetadata {
  rm_isPublic : option bool;
  rm_requiredScopes : option (list string)
}.

(** The identity left on the request, or the exception. *)
Definition canActivate (enabled : bool) (keys : KeyMap) (isHttp : bool) (route : RouteMetadata)
    (authorizationHeader : option string) : Outcome GatewayError (option ApiKeyIdentity) :=
  if negb isHttp then Return None
  else if default false (rm_isPublic route) then Return None
  else if negb enabled then Return None
  else match authenticate keys authorizationHeader with
       | None => Throw (HttpException 401 "UNAUTHENTICATED")
       | Some identity =>
           let missing := List.filter (λ scope, negb (bool_decide (scope ∈ ak_scopes identity)))
                            (default [] (rm_requiredScopes route)) in
           if Nat.ltb 0 (length missing) then Throw (HttpException 403 "INSUFFICIENT_SCOPE")
           else Return (Some identity)
       end.
End ApiKeyService.

(** * Lemmas *)

(** ** The keys that are kept *)

(** The valid entries that declare an identifier. *)
Definition declared (id : string) (apiKeys : list string) : list RegisteredKey :=
  List.filter (λ key, str_eqb (key_id key) id) (omap parseEntry apiKeys).

Lemma declared_snoc id apiKeys entry :
  declared id (apiKeys ++ [entry])
  = declared id apiKeys
    ++ match parseEntry entry with
       | Some key => if str_eqb (key_id key) id then [key] else []
       | None => []
       end.
Proof.
  unfold declared. rewrite omap_app, List.filter_app. simpl. by destruct (parseEntry entry).
Qed.

(** What the loop keeps: a key for an identifier declared once, a mark for the others. *)
Definition loaded (apiKeys : list string) (state : KeyMap * gset string) : Prop :=
  ∀ id, state.1 !! id = match declared id apiKeys with [key] => Some key | _ => None end
    ∧ (id ∈ state.2 ↔ (2 <= length (declared id apiKeys))%nat).

Lemma load_entry_loaded apiKeys entry state :
  loaded apiKeys state → loaded (apiKeys ++ [entry]) (load_entry state entry).
Proof.
  destruct state as [keys dups]. intros H id. rewrite declared_snoc. unfold load_entry.
  destruct (H id) as [Hkeys Hdups]. cbn [fst snd] in *.
  destruct (parseEntry entry) as [key|]; [|by rewrite app_nil_r].
  destruct (H (key_id key)) as [Hkey Hdup]. cbn [fst snd] in *.
  destruct (str_eqb (key_id key) id) eqn:Hid.
  - apply str_eqb_spec in Hid as <-. rewrite length_app. cbn [length].
    destruct (declared (key_id key) apiKeys) as [|k1 [|k2 ks]]; simpl in *.
    + rewrite bool_decide_eq_false_2, bool_decide_eq_false_2; simpl.
      * rewrite lookup_insert, decide_True by done. split; [done|]. rewrite Hdup. lia.
      * rewrite Hkey. by intros [? ?].
      * rewrite Hdup. lia.
    + rewrite bool_decide_eq_false_2, bool_decide_eq_true_2; simpl.
      * rewrite lookup_delete, decide_True by done. split; [done|]. rewrite elem_of_union, elem_of_singleton.
        split; [lia|by left].
      * by rewrite Hkey.
      * rewrite Hdup. lia.
    + rewrite bool_decide_eq_true_2 by (rewrite Hdup; lia). simpl. rewrite Hkey, Hdup.
      split; [done|lia].
  - assert (Hne : key_id key ≠ id) by (intros E; apply str_eqb_spec in E; congruence).
    rewrite app_nil_r.
    case_bool_decide; [done|]. case_bool_decide; simpl.
    + rewrite lookup_delete, decide_False by done. split; [done|].
      rewrite elem_of_union, elem_of_singleton. rewrite Hdups. split; [intros [?|?]; [congruence|done]|by right].
    + by rewrite lookup_insert, decide_False by done.
Qed.

Lemma onModuleInit_loaded apiKeys : loaded apiKeys (foldl load_entry (∅, ∅) apiKeys).
Proof.
  induction apiKeys as [|entry apiKeys IH] using rev_ind.
  - intros id. simpl. rewrite lookup_empty. split; [done|]. split; [set_solver|lia].
  - rewrite foldl_app. simpl. by apply load_entry_loaded.
Qed.

Lemma declared_permutation id apiKeys apiKeys' :
  Permutation apiKeys apiKeys' → Permutation (declared id apiKeys) (declared id apiKeys').
Proof.
  intros H. unfold declared. induction H as [|e l l' _ IH|e f l|l1 l2 l3 _ IH1 _ IH2]; simpl.
  - done.
  - destruct (parseEntry e) as [k|]; [|done]. simpl. destruct (str_eqb _ _); [by constructor|done].
  - destruct (parseEntry e) as [k|], (parseEntry f) as [k'|]; simpl; try done.
    destruct (str_eqb (key_id k) id), (str_eqb (key_id k') id); try done. apply perm_swap.
  - by transitivity (List.filter (λ key, str_eqb (key_id key) id) (omap parseEntry l2)).
Qed.

Lemma onModuleInit_lookup apiKeys id :
  onModuleInit apiKeys !! id = match declared id apiKeys with [key] => Some key | _ => None end.
Proof. apply onModuleInit_loaded. Qed.

(** C27. The keys in force do not depend on the order of the configuration.  An
    identifier has a key exactly when one valid entry declares it, and it is that
    entry's; two entries with one identifier are both void, whatever stands between
    them, and an entry that does not parse changes nothing. *)
Theorem keys_are_those_declared_once apiKeys :
  (∀ id, onModuleInit apiKeys !! id = match declared id apiKeys with [key] => Some key | _ => None end)
  ∧ (∀ apiKeys', Permutation apiKeys apiKeys' → onModuleInit apiKeys' = onModuleInit apiKeys)
  ∧ (∀ id key, onModuleInit apiKeys !! id = Some key →
       key_id key = id ∧ ak_scopes (rk_identity key) ⊆ ALL_SCOPES).
Proof.
  split_and!.
  - apply onModuleInit_lookup.
  - intros apiKeys' Hperm. apply map_eq. intros id. rewrite !onModuleInit_lookup.
    pose proof (declared_permutation id _ _ Hperm) as H. pose proof (Permutation_length H) as Hlen.
    destruct (declared id apiKeys) as [|k [|]], (declared id apiKeys') as [|k' [|]];
      try discriminate Hlen; try done. by apply Permutation_length_1 in H as ->.
  - intros id key. rewrite onModuleInit_lookup.
    destruct (declared id apiKeys) as [|k [|]] eqn:Hd; try done. intros [= <-].
    assert (Hin : In k (declared id apiKeys)) by (rewrite Hd; by left).
    apply filter_In in Hin as [Hin Hid%str_eqb_spec]. split; [done|].
    apply list_elem_of_In, list_elem_of_omap in Hin as (entry & _ & Hparse). revert Hparse.
    unfold parseEntry. destruct (split "|"%char entry) as [|rawKeyId [|rawHash [|scopes rest]]]; try done.
    destruct (_ || _); [done|]. destruct (Nat.ltb 0 _) eqn:Hunknown; [done|]. intros [= <-]. simpl.
    intros scope Hscope. apply Nat.ltb_ge in Hunknown.
    destruct (decide (scope ∈ ALL_SCOPES)) as [|Hno]; [done|]. exfalso.
    assert (Hbad : In scope (List.filter (λ scope, negb (bool_decide (scope ∈ ALL_SCOPES)))
                               (granted_scopes scopes))).
    { apply filter_In. split; [by apply list_elem_of_In|]. by rewrite bool_decide_eq_false_2. }
    destruct (List.filter _ (granted_scopes scopes)); [done|simpl in Hunknown; lia].
Qed.

(** ** The guard *)

Section guard_lemmas.
Context {HS : Sha256}.

(** The header presents this identifier and this secret. *)
Definition presents (header : option string) (keyId secret : string) : Prop :=
  extractBearer header = Some (keyId +:+ String "." secret)
  ∧ keyId ≠ EmptyString ∧ secret ≠ EmptyString
  ∧ all_chars (λ c, negb (Ascii.eqb c ".")) keyId = true.

(** The identity the configuration gives to an identifier and a secret. *)
Definition proves (apiKeys : list string) (keyId secret : string) (identity : ApiKeyIdentity) : Prop :=
  ∃ key, declared keyId apiKeys = [key] ∧ sha256 secret = rk_secretHash key
    ∧ identity = rk_identity key.

Lemma authenticate_spec apiKeys header identity :
  authenticate (onModuleInit apiKeys) header = Some identity ↔
  ∃ keyId secret, presents header keyId secret ∧ proves apiKeys keyId secret identity.
Proof.
  unfold authenticate, presents, proves. split.
  - intros (presented & Hp & H)%bind_Some. revert H.
    destruct (cut_at "."%char presented) as [[keyId secret]|] eqn:Hcut; [|done].
    apply cut_at_spec in Hcut as [-> Hdots].
    destruct (non_empty keyId) eqn:Hid; [|done]. destruct (non_empty secret) eqn:Hs; [|done]. simpl.
    intros (key & Hkey & H)%bind_Some. rewrite onModuleInit_lookup in Hkey.
    destruct (Nat.eqb _ _); [|done]. destruct (str_eqb (sha256 secret) _) eqn:Hh; [|done].
    injection H as <-. apply str_eqb_spec in Hh. exists keyId, secret.
    split; [split_and!; [done|by destruct keyId|by destruct secret|done]|]. exists key.
    destruct (declared keyId apiKeys) as [|k [|]]; try done. by injection Hkey as <-.
  - intros (keyId & secret & (Hp & Hid & Hs & Hdots) & key & Hd & Hh & ->).
    rewrite Hp. simpl. rewrite (proj2 (cut_at_spec "."%char _ keyId secret)) by done.
    destruct keyId as [|c keyId]; [done|]. destruct secret as [|c' secret]; [done|]. simpl.
    rewrite onModuleInit_lookup, Hd. simpl. rewrite Hh, str_eqb_refl, Nat.eqb_refl. done.
Qed.

(** No scope is missing. *)
Lemma none_missing (required granted : list string) :
  Nat.ltb 0 (length (List.filter (λ scope, negb (bool_decide (scope ∈ granted))) required)) = false
  ↔ required ⊆ granted.
Proof.
  rewrite Nat.ltb_ge. set (missing := List.filter _ required). split.
  - intros Hlen scope Hscope. destruct (decide (scope ∈ granted)) as [|Hno]; [done|].
    assert (Hin : In scope missing).
    { apply filter_In. split; [by apply list_elem_of_In|]. by rewrite bool_decide_eq_false_2. }
    destruct missing; [done|simpl in Hlen; lia].
  - intros Hsub. destruct missing as [|scope l] eqn:Hm; [done|].
    assert (Hin : In scope missing) by (rewrite Hm; by left).
    apply filter_In in Hin as [Hin%list_elem_of_In%Hsub Hno]. by rewrite bool_decide_eq_true_2 in Hno.
Qed.

Lemma canActivate_granted apiKeys route header x :
  default false (rm_isPublic route) = false →
  canActivate true (onModuleInit apiKeys) true route header = Return x ↔
  ∃ identity keyId secret, x = Some identity ∧ presents header keyId secret
    ∧ proves apiKeys keyId secret identity
    ∧ default [] (rm_requiredScopes route) ⊆ ak_scopes identity.
Proof.
  intros Hpublic. unfold canActivate. cbn [negb]. rewrite Hpublic. cbv zeta.
  pose proof (authenticate_spec apiKeys header) as Hauth.
  pose proof (none_missing (default [] (rm_requiredScopes route))) as Hmissing. split.
  - destruct (authenticate (onModuleInit apiKeys) header) as [found|]; [|done].
    destruct (Nat.ltb _ _) eqn:Hm; [done|]. intros [= <-].
    destruct (proj1 (Hauth found) eq_refl) as (keyId & secret & Hp & Hk).
    exists found, keyId, secret. split_and!; [done..|by apply Hmissing].
  - intros (identity & keyId & secret & -> & Hp & Hk & Hsub).
    rewrite (proj2 (Hauth identity)) by eauto. by rewrite (proj2 (Hmissing _)).
Qed.

Lemma canActivate_refused enabled apiKeys route header e :
  canActivate enabled (onModuleInit apiKeys) true route header = Throw e →
  e = HttpException 401 "UNAUTHENTICATED" ∨ e = HttpException 403 "INSUFFICIENT_SCOPE".
Proof.
  unfold canActivate. cbn [negb]. destruct (default false _); [done|]. destruct (negb enabled); [done|].
  destruct (authenticate _ _); [|intros [= <-]; by left].
  cbv zeta. destruct (Nat.ltb _ _); [|done]. intros [= <-]. by right.
Qed.

(** The guard is closed by default.  On a route that is not public, a request goes
    through exactly when its header presents an identifier declared once together with
    the secret of that digest, and the key carries every scope the route asks for; the
    identity left on the request is the one declared.  Without such a key the answer is
    401, and 403 when the key lacks a scope: in no case does the handler run. *)
Theorem guard_is_closed_by_default apiKeys route header :
  default false (rm_isPublic route) = false →
  let decision := canActivate true (onModuleInit apiKeys) true route header in
  (∀ identity, decision = Return (Some identity) ↔
     (∃ keyId secret, presents header keyId secret ∧ proves apiKeys keyId secret identity)
     ∧ default [] (rm_requiredScopes route) ⊆ ak_scopes identity)
  ∧ (decision = Throw (HttpException 401 "UNAUTHENTICATED")
     ∨ decision = Throw (HttpException 403 "INSUFFICIENT_SCOPE")
     ∨ ∃ identity, decision = Return (Some identity)).
Proof.
  intros Hpublic decision. split.
  - intros identity. subst decision. rewrite canActivate_granted by done. split.
    + intros (found & keyId & secret & [= <-] & Hp & Hk & Hsub). eauto.
    + intros ((keyId & secret & Hp & Hk) & Hsub). by exists identity, keyId, secret.
  - destruct decision as [x|e] eqn:Hd.
    + apply canActivate_granted in Hd as (identity & _ & _ & -> & _); [|done]. right; right. by exists identity.
    + apply canActivate_refused in Hd as [->| ->]; [by left|by right; left].
Qed.
End guard_lemmas.

(** * Witness *)

(** A digest for the witness: the length of the secret. *)
Definition sample_sha256 : Sha256 :=
  {| sha256 secret := repeat_string "a" 63 +:+ pretty (Z.of_nat (String.length secret) mod 10) |}.

Definition sample_keys : list string :=
  ["caisse|" +:+ repeat_string "A" 63 +:+ "6|transfers:read, transfers:write|Caisse";
   "double|" +:+ repeat_string "a" 63 +:+ "6|refunds:write";
   "double|" +:+ repeat_string "a" 63 +:+ "7|refunds:write"].

Lemma guard_is_closed_by_default_witness (_sha := sample_sha256) :
  let route := mkRouteMetadata None (Some [ApiScope.transfersWrite]) in
  let decision := canActivate true (onModuleInit sample_keys) true route in
  decision (Some "Bearer double.secret") = Throw (HttpException 401 "UNAUTHENTICATED")
  ∧ ∃ identity, decision (Some " bearer  caisse.secret ") = Return (Some identity)
      ∧ ([ApiScope.transfersWrite] ⊆ ak_scopes identity).
Proof.
  intros route decision. split; [vm_compute; reflexivity|].
  assert (Hrun : ∃ identity, decision (Some " bearer  caisse.secret ") = Return (Some identity)).
  { eexists. vm_compute. reflexivity. }
  destruct Hrun as (identity & Hrun). exists identity. split; [exact Hrun|].
  exact (proj2 (proj1 (proj1 (guard_is_closed_by_default (HS := _sha) sample_keys route
    (Some " bearer  caisse.secret ") eq_refl) identity) Hrun)).
Defined.
