(* ===== verification/Base64.v ===== *)
(** Node's base64: [buffer.toString('base64url')] and [Buffer.from(text, 'base64url')],
    the latter on texts of the alphabet with an optional final padding, which is what
    the callers check first.  A buffer is the list of its bytes. *)
From S2P Require Import Prelude Text.
Open Scope Z_scope.

(** * Alphabet *)

Definition char_of (code : Z) : Ascii.ascii := Ascii.ascii_of_N (Z.to_N code).

(** The character of a group of six bits, in the URL alphabet. *)
Definition sextet_char (n : Z) : Ascii.ascii :=
  if n <? 26 then char_of (65 + n)
  else if n <? 52 then char_of (97 + (n - 26))
  else if n <? 62 then char_of (48 + (n - 52))
  else if n =? 62 then "-"%char else "_"%char.

(** Reading accepts both alphabets; the padding has no value. *)
Definition char_sextet (c : Ascii.ascii) : option Z :=
  if is_upper c then Some (code_of c - 65)
  else if is_lower c then Some (code_of c - 97 + 26)
  else if is_digit c then Some (code_of c - 48 + 52)
  else if Ascii.eqb c "-" || Ascii.eqb c "+" then Some 62
  else if Ascii.eqb c "_" || Ascii.eqb c "/" then Some 63
  else None.

(** * Coding *)

Fixpoint to_sextets (bytes : list Z) : list Z :=
  match bytes with
  | [] => []
  | [a] => [a / 4; a mod 4 * 16]
  | [a; b] => [a / 4; a mod 4 * 16 + b / 16; b mod 16 * 4]
  | a :: b :: c :: bytes =>
      a / 4 :: a mod 4 * 16 + b / 16 :: b mod 16 * 4 + c / 64 :: c mod 64 :: to_sextets bytes
  end.

(** Bits that do not fill a byte are dropped. *)
Fixpoint of_sextets (sextets : list Z) : list Z :=
  match sextets with
  | [] | [_] => []
  | [w; x] => [w * 4 + x / 16]
  | [w; x; y] => [w * 4 + x / 16; x mod 16 * 16 + y / 4]
  | w :: x :: y :: z :: sextets =>
      w * 4 + x / 16 :: x mod 16 * 16 + y / 4 :: y mod 4 * 64 + z :: of_sextets sextets
  end.

(** [buffer.toString('base64url')] *)
Definition toBase64url (bytes : list Z) : string :=
  String.string_of_list_ascii (sextet_char <$> to_sextets bytes).

(** [Buffer.from(text, 'base64url')] *)
Definition fromBase64 (text : string) : list Z :=
  of_sextets (omap char_sextet (String.list_ascii_of_string text)).

(** * Lemmas *)

Definition is_byte (b : Z) : Prop := 0 <= b < 256.

(** Three bytes at a time. *)
Lemma bytes_ind (P : list Z → Prop) :
  P [] → (∀ a, P [a]) → (∀ a b, P [a; b]) → (∀ a b c l, P l → P (a :: b :: c :: l)) → ∀ l, P l.
Proof.
  intros H0 H1 H2 H3 l. cut (P l ∧ (∀ a, P (a :: l)) ∧ (∀ a b, P (a :: b :: l))); [tauto|].
  induction l as [|c l (IH0 & IH1 & IH2)]; [by auto|].
  split; [apply IH1|]. split; [intros; apply IH2|]. intros. by apply H3.
Qed.

Lemma sextet_char_read n : 0 <= n < 64 →
  char_sextet (sextet_char n) = Some n ∧ is_url_char (sextet_char n) = true.
Proof.
  intros Hn. assert (H := all_below_spec 64 (λ n, bool_decide (char_sextet (sextet_char n) = Some n)
    && is_url_char (sextet_char n)) n ltac:(by vm_compute) Hn).
  cbv beta in H. apply andb_true_iff in H as [H ?]. by apply bool_decide_eq_true in H.
Qed.

Lemma to_sextets_range bytes : Forall is_byte bytes → Forall (λ n, 0 <= n < 64) (to_sextets bytes).
Proof.
  unfold is_byte. induction bytes as [|a|a b|a b c l IH] using bytes_ind; simpl; intros H;
    repeat match goal with H : Forall _ (_ :: _) |- _ => inversion H; clear H; subst end;
    repeat constructor; auto; Z.to_euclidean_division_equations; lia.
Qed.

Lemma of_to_sextets bytes : Forall is_byte bytes → of_sextets (to_sextets bytes) = bytes.
Proof.
  unfold is_byte. induction bytes as [|a|a b|a b c l IH] using bytes_ind; simpl; intros H;
    repeat match goal with H : Forall _ (_ :: _) |- _ => inversion H; clear H; subst end;
    repeat f_equal; auto; Z.to_euclidean_division_equations; lia.
Qed.

(** What is written is read back, in characters that need no escape. *)
Lemma fromBase64_to bytes : Forall is_byte bytes → fromBase64 (toBase64url bytes) = bytes.
Proof.
  intros Hb. unfold fromBase64, toBase64url. rewrite String.list_ascii_of_string_of_list_ascii.
  rewrite <- (of_to_sextets bytes Hb) at 2. f_equal.
  pose proof (to_sextets_range bytes Hb) as Hs. induction Hs as [|n l Hn _ IH]; [done|].
  simpl. destruct (sextet_char_read n Hn) as [-> _]. f_equal. exact IH.
Qed.

Lemma toBase64url_chars bytes :
  Forall is_byte bytes → all_chars is_url_char (toBase64url bytes) = true.
Proof.
  intros Hb. unfold toBase64url. pose proof (to_sextets_range bytes Hb) as Hs.
  induction Hs as [|n l Hn _ IH]; [done|]. simpl.
  destruct (sextet_char_read n Hn) as [_ ->]. exact IH.
Qed.

Lemma string_of_list_ascii_length l : String.length (String.string_of_list_ascii l) = length l.
Proof. induction l as [|c l IH]; [done|]. simpl. by rewrite IH. Qed.

(** [ceil(4 n / 3)] characters. *)
Lemma toBase64url_length bytes :
  String.length (toBase64url bytes) = ((4 * length bytes + 2) / 3)%nat.
Proof.
  unfold toBase64url. rewrite string_of_list_ascii_length, length_fmap.
  induction bytes as [|a|a b|a b c l IH] using bytes_ind; [done..|]. cbn [to_sextets length]. rewrite IH.
  replace (4 * S (S (S (length l))) + 2)%nat with (4 * length l + 2 + 4 * 3)%nat by lia.
  rewrite Nat.div_add by lia. lia.
Qed.
