(* ===== verification/FieldCipher.v ===== *)
(** Encryption at rest of the party columns: [src/security/field-cipher.ts],
    [src/security/key-derivation.ts] and the key ring of
    [src/security/env-key-custody.adapter.ts].

    A stored value is [enc.v1.<key id>.<base64url of iv, tag and ciphertext>].  It is
    written under the current key and read under the key it names, so a key can be
    replaced while old values stay readable; a value in any other form, the clear
    included, is refused.  AES-GCM and HKDF are the class [Aead].  The rest of the
    development reads and writes rows in the clear: [encryptedColumn] is transparent
    as long as the round trip below holds. *)
From stdpp Require Import gmap.
From S2P Require Import Prelude Domain External EventXml Text Base64 Database.
Open Scope Z_scope.

(** * The primitives *)

(** [aes-256-gcm] of [node:crypto]: [aead_seal key iv aad text] is the ciphertext and
    its tag; [aead_open] fails when the tag does not authenticate.  [hkdf] is
    [hkdfSync('sha256', ...)]. *)
Class Aead := {
  aead_seal : list Z → list Z → string → string → list Z * list Z;
  aead_open : list Z → list Z → string → list Z → list Z → option string;
  hkdf : list Z → string → string → nat → list Z
}.

(** Documented behaviour: what is sealed opens under the same key, vector and
    additional data; the tag has 16 bytes, the ciphertext has the text's length. *)
Class AeadLaws `{Aead} := {
  aead_open_seal key iv aad text :
    aead_open key iv aad (aead_seal key iv aad text).2 (aead_seal key iv aad text).1 = Some text;
  aead_tag_length key iv aad text : length (aead_seal key iv aad text).2 = 16%nat;
  aead_text_length key iv aad text :
    length (aead_seal key iv aad text).1 = String.length text;
  aead_bytes key iv aad text :
    Forall is_byte (aead_seal key iv aad text).1 ∧ Forall is_byte (aead_seal key iv aad text).2;
  hkdf_length material salt info n : length (hkdf material salt info n) = n
}.

(** * [FieldCipher] *)

Definition PREFIX : string := "enc.v1".
Definition IV_BYTES : nat := 12.
Definition TAG_BYTES : nat := 16.

(** [/^[A-Za-z0-9_-]{1,32}$/] *)
Definition KEY_ID_PATTERN : string → bool := of_class is_url_char 1 32.

(** The static fields. *)
Record FieldCipher := mkFieldCipher {
  fc_currentKeyId : option string;
  fc_keys : gmap string (list Z)
}.

Definition useKeyRing (currentKeyId : string) (keys : gmap string (list Z)) :
    Outcome GatewayError FieldCipher :=
  if negb (KEY_ID_PATTERN currentKeyId) then
    Throw (PlainError ("Identifiant de cle invalide : " +:+ currentKeyId))
  else if negb (bool_decide (is_Some (keys !! currentKeyId))) then
    Throw (PlainError ("Cle courante absente du keyring : " +:+ currentKeyId))
  else match List.find (λ '(keyId, key), negb (KEY_ID_PATTERN keyId)
                          || negb (Nat.eqb (length key) 32)) (map_to_list keys) with
       | Some (keyId, key) =>
           if negb (KEY_ID_PATTERN keyId) then
             Throw (PlainError ("Identifiant de cle invalide : " +:+ keyId))
           else Throw (PlainError ("Cle " +:+ keyId +:+ " invalide : "
                  +:+ pretty (Z.of_nat (length key)) +:+ " octets au lieu de 32"))
       | None => Return (mkFieldCipher (Some currentKeyId) keys)
       end.

Definition forgetKey : FieldCipher := mkFieldCipher None ∅.

(** The parts of [/^enc\.v1\.([A-Za-z0-9_-]{1,32})\.([A-Za-z0-9_-]+)$/]. *)
Fixpoint strip_prefix (prefix s : string) : option string :=
  match prefix, s with
  | EmptyString, s => Some s
  | String c prefix, String d s => if Ascii.eqb c d then strip_prefix prefix s else None
  | String _ _, EmptyString => None
  end.

Definition match_v1 (stored : string) : option (string * string) :=
  rest ← strip_prefix "enc.v1." stored;
  parts ← cut_at "."%char rest;
  if KEY_ID_PATTERN parts.1 && of_class is_url_char 1 (String.length parts.2) parts.2
  then Some parts else None.

(** [/^enc\.v1\.([A-Za-z0-9_-]+)$/] *)
Definition match_legacy (stored : string) : option string :=
  rest ← strip_prefix "enc.v1." stored;
  if of_class is_url_char 1 (String.length rest) rest then Some rest else None.

Section FieldCipher.
Context {HA : Aead}.

Definition NO_KEY : GatewayError :=
  PlainError ("Chiffrement indisponible : aucune cle installee. "
    +:+ "Ecrire en clair reviendrait a croire la base protegee sans qu elle le soit.").
Definition NOT_ENCRYPTED : GatewayError :=
  PlainError "Valeur sensible non chiffree refusee : un retour au clair constituerait un downgrade".

Definition encrypt `{Entropy} (cipher : FieldCipher) (value : option string) (context : string) :
    App (option string) :=
  match value with
  | None => mret None
  | Some value =>
      let key := keyId ← fc_currentKeyId cipher; fc_keys cipher !! keyId in
      match fc_currentKeyId cipher, key with
      | Some keyId, Some key =>
          if negb (truthy (Some keyId)) then throw NO_KEY
          else
            iv ← draw_bytes IV_BYTES;
            let '(ciphertext, tag) := aead_seal key iv context value in
            mret (Some (PREFIX +:+ "." +:+ keyId +:+ "." +:+ toBase64url (iv ++ tag ++ ciphertext)))
      | _, _ => throw NO_KEY
      end
  end.

(** The last steps of [decrypt] and of [decryptLegacyV1]. *)
Definition open_payload (key : list Z) (payload context : string) : Outcome GatewayError string :=
  let raw := fromBase64 payload in
  if Nat.ltb (length raw) (IV_BYTES + TAG_BYTES)
  then Throw (PlainError "Valeur chiffree invalide : charge utile tronquee")
  else
    let iv := take IV_BYTES raw in
    let tag := take TAG_BYTES (drop IV_BYTES raw) in
    let ciphertext := drop (IV_BYTES + TAG_BYTES) raw in
    match aead_open key iv context tag ciphertext with
    | Some text => Return text
    | None => Throw (PlainError "Unsupported state or unable to authenticate data")
    end.

Definition decrypt (cipher : FieldCipher) (stored : option string) (context : string) :
    Outcome GatewayError (option string) :=
  match stored with
  | None => Return None
  | Some stored =>
      match match_v1 stored with
      | None => Throw NOT_ENCRYPTED
      | Some (keyId, payload) =>
          match fc_keys cipher !! keyId with
          | None => Throw (PlainError ("Dechiffrement impossible : cle " +:+ keyId
                             +:+ " absente du keyring"))
          | Some key =>
              match open_payload key payload context with
              | Return text => Return (Some text)
              | Throw e => Throw e
              end
          end
      end
  end.

Definition decryptLegacyV1 (stored context : string) (legacyKey : list Z) :
    Outcome GatewayError string :=
  match match_legacy stored with
  | Some payload =>
      if negb (Nat.eqb (length legacyKey) 32) then Throw (PlainError "Ancien chiffre v1 illisible")
      else open_payload legacyKey payload context
  | None => Throw (PlainError "Ancien chiffre v1 illisible")
  end.

(** * Keys *)

Definition DATA_KEY_BYTES : nat := 32.

Record EncodedKey := mkEncodedKey {
  ek_keyId : string;
  ek_masterKey : string
}.

(** [/^[A-Za-z0-9+/]{43}=$/] *)
Definition is_base64_char (c : Ascii.ascii) : bool :=
  is_upper c || is_lower c || is_digit c || Ascii.eqb c "+" || Ascii.eqb c "/".
Definition MASTER_KEY_PATTERN (encoded : string) : bool :=
  Nat.eqb (String.length encoded) 44
  && all_chars is_base64_char (String.substring 0 43 encoded)
  && str_eqb (String.substring 43 1 encoded) "=".

Definition decodeMasterKey (encoded : string) : Outcome GatewayError (list Z) :=
  if negb (MASTER_KEY_PATTERN encoded)
  then Throw (PlainError "Cle maitresse invalide : format Base64-32-octets attendu")
  else
    let decoded := fromBase64 encoded in
    if negb (Nat.eqb (length decoded) DATA_KEY_BYTES)
    then Throw (PlainError ("Cle maitresse invalide : " +:+ pretty (Z.of_nat (length decoded))
           +:+ " octets decodes au lieu de " +:+ pretty (Z.of_nat DATA_KEY_BYTES)))
    else if Nat.ltb (length (remove_dups decoded)) 4
    then Throw (PlainError "Cle maitresse invalide : entropie manifestement insuffisante")
    else Return decoded.

Definition deriveDataEncryptionKey (masterKey : list Z) (keySalt : string) : list Z :=
  hkdf masterKey keySalt "iban-at-rest" DATA_KEY_BYTES.

(** [parsePreviousKeys], its exception being [None]. *)
Definition parsePreviousKeys (raw : string) : option (list EncodedKey) :=
  mapM (λ entry, parts ← cut_at "|"%char entry;
                 if non_empty parts.1 then Some (mkEncodedKey parts.1 parts.2) else None)
       (List.filter non_empty (trim <$> split ","%char raw)).

Record SecurityConfig := mkSecurityConfig {
  sec_currentKeyId : string;
  sec_masterKey : string;
  sec_keySalt : string;
  sec_previousKeys : list EncodedKey
}.

Fixpoint add_previous (keySalt : string) (previousKeys : list EncodedKey)
    (keys : gmap string (list Z)) : Outcome GatewayError (gmap string (list Z)) :=
  match previousKeys with
  | [] => Return keys
  | previous :: previousKeys =>
      match decodeMasterKey (ek_masterKey previous) with
      | Throw e => Throw e
      | Return master =>
          add_previous keySalt previousKeys
            (<[ek_keyId previous := deriveDataEncryptionKey master keySalt]> keys)
      end
  end.

Definition getDataEncryptionKeyRing (security : SecurityConfig) :
    Outcome GatewayError (string * gmap string (list Z)) :=
  match decodeMasterKey (sec_masterKey security) with
  | Throw e => Throw e
  | Return master =>
      match add_previous (sec_keySalt security) (sec_previousKeys security)
              {[sec_currentKeyId security := deriveDataEncryptionKey master (sec_keySalt security)]} with
      | Throw e => Throw e
      | Return keys => Return (sec_currentKeyId security, keys)
      end
  end.
End FieldCipher.

(** * Lemmas *)

Lemma of_class_chars class lo hi s : of_class class lo hi s = true → all_chars class s = true.
Proof. unfold of_class. by intros [_ ?]%andb_true_iff. Qed.

Lemma strip_prefix_app prefix s : strip_prefix prefix (prefix +:+ s) = Some s.
Proof. induction prefix as [|c prefix IH]; [done|]. simpl. by rewrite Ascii.eqb_refl. Qed.

Lemma strip_prefix_inv prefix s rest : strip_prefix prefix s = Some rest → s = prefix +:+ rest.
Proof.
  revert s. induction prefix as [|c prefix IH]; intros s; [by intros [= ->]|].
  destruct s as [|d s]; [done|]. simpl. destruct (Ascii.eqb c d) eqn:Hc; [|done].
  apply Ascii.eqb_eq in Hc as ->. by intros ->%IH.
Qed.

(** The character that ends the identifier is in none of the two parts. *)
Lemma url_chars_no_dot s :
  all_chars is_url_char s = true → all_chars (λ d, negb (Ascii.eqb d ".")) s = true.
Proof.
  apply all_chars_weaken. intros c. destruct (Ascii.eqb c ".") eqn:Hc; [|done].
  apply Ascii.eqb_eq in Hc as ->. by vm_compute.
Qed.

(** The text of a stored value. *)
Definition stored_value (keyId payload : string) : string :=
  PREFIX +:+ "." +:+ keyId +:+ "." +:+ payload.

Lemma match_v1_spec stored keyId payload :
  match_v1 stored = Some (keyId, payload) ↔
  stored = stored_value keyId payload ∧ KEY_ID_PATTERN keyId = true
  ∧ of_class is_url_char 1 (String.length payload) payload = true.
Proof.
  unfold match_v1, stored_value. split.
  - intros (rest & ->%strip_prefix_inv & (parts & Hcut & H)%bind_Some)%bind_Some.
    destruct (KEY_ID_PATTERN parts.1) eqn:Hk; [|done]. simpl in H.
    destruct (of_class is_url_char 1 _ parts.2) eqn:Hp; [|done]. injection H as ->.
    apply cut_at_spec in Hcut as [-> _]. done.
  - intros (-> & Hk & Hp).
    change (PREFIX +:+ "." +:+ keyId +:+ "." +:+ payload)
      with ("enc.v1." +:+ (keyId +:+ String "." payload)).
    rewrite strip_prefix_app. cbn [mbind option_bind].
    rewrite (proj2 (cut_at_spec "."%char _ keyId payload)).
    + cbn [mbind option_bind fst snd]. by rewrite Hk, Hp.
    + split; [done|]. apply url_chars_no_dot. by apply of_class_chars in Hk.
Qed.

(** The old form has one dot less: neither reader takes the other's values. *)
Lemma legacy_is_not_v1 stored payload : match_legacy stored = Some payload → match_v1 stored = None.
Proof.
  unfold match_legacy. intros (rest & ->%strip_prefix_inv & H)%bind_Some.
  destruct (of_class is_url_char 1 _ rest) eqn:Hrest; [|done]. clear H.
  unfold match_v1. rewrite strip_prefix_app. cbn [mbind option_bind].
  destruct (cut_at "."%char rest) as [[left right]|] eqn:Hcut; [|done]. exfalso.
  apply cut_at_spec in Hcut as [-> _]. apply of_class_chars in Hrest.
  rewrite all_chars_app, andb_true_iff in Hrest. simpl in Hrest. by destruct Hrest as [_ Hrest].
Qed.

Section cipher_lemmas.
Context {HA : Aead} {HL : AeadLaws} {HE : Entropy} {HEL : EntropyLaws}.

Lemma useKeyRing_return currentKeyId keys cipher :
  useKeyRing currentKeyId keys = Return cipher →
  cipher = mkFieldCipher (Some currentKeyId) keys ∧ KEY_ID_PATTERN currentKeyId = true
  ∧ ∃ key, keys !! currentKeyId = Some key ∧ length key = 32%nat.
Proof.
  unfold useKeyRing. destruct (KEY_ID_PATTERN currentKeyId); [|done]. simpl.
  case_bool_decide as Hkey; [|done]. simpl. destruct (List.find _ _) as [[keyId key]|] eqn:Hfind.
  { by destruct (KEY_ID_PATTERN keyId). }
  intros [= <-]. split_and!; [done..|]. destruct Hkey as [key Hkey]. exists key. split; [done|].
  apply elem_of_map_to_list, list_elem_of_In in Hkey.
  pose proof (find_none _ _ Hfind _ Hkey) as H. simpl in H.
  apply orb_false_iff in H as [_ H%negb_false_iff]. by apply Nat.eqb_eq in H.
Qed.

(** What [encrypt] writes: the layout of the payload. *)
Lemma open_payload_sealed key iv context text :
  length iv = IV_BYTES → Forall is_byte iv →
  let '(ciphertext, tag) := aead_seal key iv context text in
  open_payload key (toBase64url (iv ++ tag ++ ciphertext)) context = Return text.
Proof.
  intros Hiv Hbytes. pose proof (aead_open_seal key iv context text) as Hopen.
  pose proof (aead_tag_length key iv context text) as Htag.
  pose proof (aead_bytes key iv context text) as [Hc Ht].
  destruct (aead_seal key iv context text) as [ciphertext tag]. cbn [fst snd] in *.
  unfold open_payload. rewrite fromBase64_to by (apply Forall_app; split; [done|by apply Forall_app]).
  rewrite !length_app, Hiv, Htag.
  rewrite (proj2 (Nat.ltb_ge _ _)) by (unfold IV_BYTES, TAG_BYTES; lia).
  rewrite take_app_length' by done. rewrite <- drop_drop, drop_app_length' by done.
  rewrite take_app_length', drop_app_length' by done. by rewrite Hopen.
Qed.

Lemma encrypt_run cipher keyId key value context w :
  fc_currentKeyId cipher = Some keyId → KEY_ID_PATTERN keyId = true →
  fc_keys cipher !! keyId = Some key →
  ∃ payload w', encrypt cipher (Some value) context w = (Return (Some (stored_value keyId payload)), w')
    ∧ of_class is_url_char 1 (String.length payload) payload = true
    ∧ open_payload key payload context = Return value
    ∧ String.length payload = ((4 * (28 + String.length value) + 2) / 3)%nat.
Proof.
  intros Hid Hpattern Hkey. unfold encrypt. rewrite Hid. cbn [mbind option_bind]. rewrite Hkey.
  destruct (truthy (Some keyId)) eqn:Htruthy; [|by destruct keyId].
  cbn [negb]. unfold draw_bytes, next_draw.
  pose proof (randomBytes_length (w_draws w) IV_BYTES) as Hlen.
  assert (Hbytes : Forall is_byte (randomBytes (w_draws w) IV_BYTES)).
  { apply Forall_forall. intros b. apply randomBytes_range. }
  set (iv := randomBytes (w_draws w) IV_BYTES) in *.
  pose proof (open_payload_sealed key iv context value Hlen Hbytes) as Hopen.
  pose proof (aead_tag_length key iv context value) as Htag.
  pose proof (aead_text_length key iv context value) as Htext.
  pose proof (aead_bytes key iv context value) as [Hc Ht].
  erewrite bind_return by reflexivity. fold iv.
  destruct (aead_seal key iv context value) as [ciphertext tag]. cbn [fst snd] in *.
  assert (Hsize : length (iv ++ tag ++ ciphertext) = (28 + String.length value)%nat).
  { rewrite !length_app, Hlen, Htag, Htext. unfold IV_BYTES. lia. }
  eexists _, _. split; [reflexivity|]. split; [|split; [exact Hopen|by rewrite toBase64url_length, Hsize]].
  unfold of_class. rewrite toBase64url_chars by (apply Forall_app; split; [done|by apply Forall_app]).
  rewrite Nat.leb_refl, andb_true_r, andb_true_r. apply Nat.leb_le.
  rewrite toBase64url_length, Hsize. apply (Nat.div_le_lower_bound _ 3); lia.
Qed.

Lemma decrypt_stored cipher keyId payload context :
  KEY_ID_PATTERN keyId = true → of_class is_url_char 1 (String.length payload) payload = true →
  decrypt cipher (Some (stored_value keyId payload)) context =
  match fc_keys cipher !! keyId with
  | Some key => match open_payload key payload context with
                | Return text => Return (Some text)
                | Throw e => Throw e
                end
  | None => Throw (PlainError ("Dechiffrement impossible : cle " +:+ keyId +:+ " absente du keyring"))
  end.
Proof.
  intros Hk Hp. unfold decrypt. by rewrite (proj2 (match_v1_spec _ keyId payload)).
Qed.

(** C31. A party column is read back, across rotations.  Under a key ring the cipher
    accepted, a value is always written, in the form the CHECK constraint asks for; it is
    read back as it was, by this ring and by every later ring that still holds the key
    it was written under, whichever key is then current; a ring that lost the key fails
    rather than answer anything else. *)
Theorem encrypted_field_is_read_back keyId keys cipher value context w :
  useKeyRing keyId keys = Return cipher →
  ∃ stored w', encrypt cipher (Some value) context w = (Return (Some stored), w')
    ∧ is_Some (match_v1 stored)
    ∧ decrypt cipher (Some stored) context = Return (Some value)
    ∧ (∀ later, fc_keys later !! keyId = keys !! keyId →
         decrypt later (Some stored) context = Return (Some value))
    ∧ (∀ later, fc_keys later !! keyId = None →
         ∃ message, decrypt later (Some stored) context = Throw (PlainError message)).
Proof.
  intros (-> & Hk & key & Hkey & _)%useKeyRing_return.
  destruct (encrypt_run (mkFieldCipher (Some keyId) keys) keyId key value context w
              eq_refl Hk Hkey) as (payload & w' & Hrun & Hp & Hopen & _).
  exists (stored_value keyId payload), w'. split_and!.
  - exact Hrun.
  - exists (keyId, payload). by apply match_v1_spec.
  - rewrite decrypt_stored by done. simpl. by rewrite Hkey, Hopen.
  - intros later Hlater. by rewrite decrypt_stored, Hlater, Hkey, Hopen by done.
  - intros later Hlater. rewrite decrypt_stored, Hlater by done. by eexists.
Qed.

(** C32. No value goes back to the clear.  What [decrypt] answers was authenticated under
    a key of the ring, in the context of its column, out of a value in the current form;
    a clear value, or one of the old form without a key identifier, is refused; and
    without an installed key nothing is written. *)
Theorem no_downgrade cipher stored context :
  (∀ text, decrypt cipher (Some stored) context = Return (Some text) →
     ∃ keyId payload key raw, stored = stored_value keyId payload
       ∧ fc_keys cipher !! keyId = Some key ∧ raw = fromBase64 payload
       ∧ aead_open key (take IV_BYTES raw) context (take TAG_BYTES (drop IV_BYTES raw))
           (drop (IV_BYTES + TAG_BYTES) raw) = Some text)
  ∧ decrypt cipher (Some stored) context ≠ Return None
  ∧ (match_v1 stored = None → decrypt cipher (Some stored) context = Throw NOT_ENCRYPTED)
  ∧ (is_Some (match_legacy stored) → decrypt cipher (Some stored) context = Throw NOT_ENCRYPTED)
  ∧ ∀ value w, encrypt forgetKey (Some value) context w = (Throw NO_KEY, w).
Proof.
  assert (Hnone : match_v1 stored = None → decrypt cipher (Some stored) context = Throw NOT_ENCRYPTED).
  { intros H. unfold decrypt. by rewrite H. }
  split_and!; [| |done| |done].
  - intros text. unfold decrypt. destruct (match_v1 stored) as [[keyId payload]|] eqn:Hm; [|done].
    apply match_v1_spec in Hm as (-> & _). destruct (fc_keys cipher !! keyId) as [key|] eqn:Hkey; [|done].
    unfold open_payload. destruct (Nat.ltb _ _); [done|].
    destruct (aead_open _ _ _ _ _) as [t|] eqn:Hopen; [|done]. intros [= ->].
    by exists keyId, payload, key, (fromBase64 payload).
  - unfold decrypt. destruct (match_v1 stored) as [[keyId payload]|]; [|done].
    destruct (fc_keys cipher !! keyId) as [key|]; [|done]. by destruct (open_payload _ _ _).
  - intros [payload Hl%legacy_is_not_v1]. by apply Hnone.
Qed.

(** ** Widths *)

Lemma char_length_ascii s :
  all_chars (λ c, negb (continues c)) s = true → char_length s = String.length s.
Proof.
  induction s as [|c s IH]; [done|]. simpl. intros [Hc%negb_true_iff Hs]%andb_true_iff.
  by rewrite Hc, IH.
Qed.

Lemma url_chars_ascii s :
  all_chars is_url_char s = true → all_chars (λ c, negb (continues c)) s = true.
Proof. apply all_chars_weaken. intros [[] [] [] [] [] [] [] []]; by vm_compute. Qed.

(** The length of the stored text, and the bound the pattern sets on the identifier. *)
Lemma encrypt_width keyId keys cipher value context w stored w' :
  useKeyRing keyId keys = Return cipher →
  encrypt cipher (Some value) context w = (Return (Some stored), w') →
  char_length stored
    = (8 + String.length keyId + (4 * (28 + String.length value) + 2) / 3)%nat
  ∧ (1 <= String.length keyId <= 32)%nat.
Proof.
  intros (-> & Hk & key & Hkey & _)%useKeyRing_return Hrun.
  destruct (encrypt_run (mkFieldCipher (Some keyId) keys) keyId key value context w
              eq_refl Hk Hkey) as (payload & w1 & Hrun' & Hp & _ & Hlen).
  rewrite Hrun in Hrun'. injection Hrun' as -> _. rewrite <- Hlen. split.
  - unfold stored_value. rewrite char_length_ascii.
    + rewrite !append_length. simpl. lia.
    + rewrite !all_chars_app, !andb_true_iff. split_and!; [done|done| |done|].
      * by apply of_class_chars, url_chars_ascii in Hk.
      * by apply of_class_chars, url_chars_ascii in Hp.
  - unfold KEY_ID_PATTERN, of_class in Hk. rewrite !andb_true_iff, !Nat.leb_le in Hk. lia.
Qed.

(** What the width of a party column allows.  The stored text is ASCII, of a length
    that depends only on the key identifier and on the number of bytes of the value:
    280 bytes (140 characters of two bytes, the longest name of the Latin, Greek and
    Cyrillic alphabets) always fit [varchar(512)], whatever the key; 420 bytes (140
    characters of three bytes, which validation accepts) never do. *)
Theorem encrypted_field_width keyId keys cipher value context w stored w' :
  useKeyRing keyId keys = Return cipher →
  encrypt cipher (Some value) context w = (Return (Some stored), w') →
  char_length stored
    = (8 + String.length keyId + (4 * (28 + String.length value) + 2) / 3)%nat
  ∧ ((String.length value <= 280)%nat → fits 512 stored = true)
  ∧ ((420 <= String.length value)%nat → fits 512 stored = false).
Proof.
  intros Hring Hrun. destruct (encrypt_width _ _ _ _ _ _ _ _ Hring Hrun) as [Hchars Hid].
  split; [exact Hchars|].
  pose proof (Nat.div_mod_eq (4 * (28 + String.length value) + 2) 3).
  pose proof (Nat.mod_upper_bound (4 * (28 + String.length value) + 2) 3).
  unfold fits. rewrite Hchars. split; intros; [apply Nat.leb_le|apply Nat.leb_gt]; lia.
Qed.

(** ** The key ring *)

Lemma of_sextets_length l : length (of_sextets l) = (3 * length l / 4)%nat.
Proof.
  assert (H : ∀ n, (length l <= n)%nat → length (of_sextets l) = (3 * length l / 4)%nat); [|by eapply H].
  intros n. revert l. induction n as [|n IH]; intros l Hl.
  { by destruct l; [|simpl in Hl; lia]. }
  destruct l as [|w [|x [|y [|z l]]]]; [done..|]. cbn [of_sextets length].
  rewrite IH by (simpl in Hl; lia).
  replace (3 * S (S (S (S (length l)))))%nat with (3 * length l + 3 * 4)%nat by lia.
  rewrite Nat.div_add by lia. lia.
Qed.

Lemma base64_char_read c : is_base64_char c = true → is_Some (char_sextet c).
Proof. destruct c as [[] [] [] [] [] [] [] []]; vm_compute; try done; by eexists. Qed.

Lemma master_key_length encoded : MASTER_KEY_PATTERN encoded = true → length (fromBase64 encoded) = 32%nat.
Proof.
  unfold MASTER_KEY_PATTERN. rewrite !andb_true_iff, Nat.eqb_eq, str_eqb_spec. intros [[Hlen Hchars] Hpad].
  unfold fromBase64. rewrite of_sextets_length.
  cut (length (omap char_sextet (String.list_ascii_of_string encoded)) = 43%nat); [by intros ->|].
  assert (Hcut : ∀ n s, String.length s = S n → all_chars is_base64_char (String.substring 0 n s) = true →
            String.substring n 1 s = "=" →
            length (omap char_sextet (String.list_ascii_of_string s)) = n); [|by eapply Hcut].
  clear. induction n as [|n IH]; intros [|c s] Hlen Hchars Hpad; try discriminate Hlen.
  - destruct s; [|discriminate Hlen]. simpl in Hpad. by injection Hpad as ->.
  - simpl in Hlen, Hchars, Hpad. apply andb_true_iff in Hchars as [Hc Hchars]. injection Hlen as Hlen.
    destruct (base64_char_read c Hc) as [v Hv]. simpl. rewrite Hv. simpl. f_equal. by apply IH.
Qed.

Lemma decodeMasterKey_return encoded master :
  decodeMasterKey encoded = Return master → MASTER_KEY_PATTERN encoded = true.
Proof. unfold decodeMasterKey. by destruct (MASTER_KEY_PATTERN encoded). Qed.

Lemma add_previous_return salt previous : ∀ keys ring,
  add_previous salt previous keys = Return ring →
  (∀ id key, keys !! id = Some key → KEY_ID_PATTERN id = true ∧ length key = 32%nat) →
  Forall (λ p, KEY_ID_PATTERN (ek_keyId p) = true) previous →
  (∀ id key, ring !! id = Some key → KEY_ID_PATTERN id = true ∧ length key = 32%nat)
  ∧ (∀ id, is_Some (ring !! id) ↔ is_Some (keys !! id) ∨ id ∈ (ek_keyId <$> previous)).
Proof.
  induction previous as [|p previous IH]; intros keys ring; simpl.
  { intros [= ->] Hkeys _. split; [done|]. intros id. rewrite elem_of_nil. tauto. }
  destruct (decodeMasterKey (ek_masterKey p)) as [master|]; [|done].
  intros Hrun Hkeys Hids. inversion Hids as [|? ? Hp Hids']; subst. clear Hids.
  apply IH in Hrun as [H1 H2]; [|clear IH|done].
  - split; [exact H1|]. intros id. rewrite H2, elem_of_cons. destruct (decide (ek_keyId p = id)) as [<-|Hne].
    + rewrite lookup_insert, decide_True by done. split; [by right; left|by left].
    + rewrite lookup_insert_ne by done. split; [tauto|]. intros [?|[->|?]]; [by left|done|by right].
  - intros id key. destruct (decide (ek_keyId p = id)) as [<-|Hne].
    + rewrite lookup_insert, decide_True by done. intros [= <-]. split; [done|apply hkdf_length].
    + rewrite lookup_insert_ne by done. apply Hkeys.
Qed.

(** The ring of a valid configuration is installed.  When every key identifier is
    well formed, the custody adapter either refuses a master key or builds a ring that
    the cipher accepts: its current key is the configured one, it reads exactly the
    configured keys, and each is 32 bytes.  A master key of the right form always decodes
    to 32 bytes. *)
Theorem configured_ring_is_installed security :
  KEY_ID_PATTERN (sec_currentKeyId security) = true →
  Forall (λ p, KEY_ID_PATTERN (ek_keyId p) = true) (sec_previousKeys security) →
  (∀ encoded, MASTER_KEY_PATTERN encoded = true → length (fromBase64 encoded) = DATA_KEY_BYTES)
  ∧ match getDataEncryptionKeyRing security with
    | Return (currentKeyId, keys) =>
        currentKeyId = sec_currentKeyId security
        ∧ useKeyRing currentKeyId keys = Return (mkFieldCipher (Some currentKeyId) keys)
        ∧ ∀ id, is_Some (keys !! id) ↔
            id = sec_currentKeyId security ∨ id ∈ (ek_keyId <$> sec_previousKeys security)
    | Throw _ => Exists (λ encoded, ∃ e, decodeMasterKey encoded = Throw e)
        (sec_masterKey security :: (ek_masterKey <$> sec_previousKeys security))
    end.
Proof.
  intros Hcurrent Hprevious. split; [exact master_key_length|]. unfold getDataEncryptionKeyRing.
  destruct (decodeMasterKey (sec_masterKey security)) as [master|e] eqn:Hmaster;
    [|left; by exists e].
  destruct (add_previous _ _ _) as [keys|e] eqn:Hadd.
  - apply add_previous_return in Hadd as [Hkeys Hdom]; [| |done].
    2: { intros id key [<- <-]%lookup_singleton_Some. split; [done|apply hkdf_length]. }
    assert (Hdom' : ∀ id, is_Some (keys !! id) ↔
              id = sec_currentKeyId security ∨ id ∈ (ek_keyId <$> sec_previousKeys security)).
    { intros id. rewrite Hdom. f_equiv. destruct (decide (sec_currentKeyId security = id)) as [<-|Hne].
      - rewrite lookup_singleton, decide_True by done. split; [done|by eexists].
      - rewrite lookup_singleton_ne by done. split; [by intros [? ?]|congruence]. }
    split_and!; [done| |exact Hdom']. unfold useKeyRing. rewrite Hcurrent. simpl.
    rewrite bool_decide_eq_true_2 by (apply Hdom'; by left). simpl.
    destruct (List.find _ _) as [[id key]|] eqn:Hfind; [|done]. exfalso.
    apply find_some in Hfind as [Hin Hbad]. apply list_elem_of_In, elem_of_map_to_list, Hkeys in Hin as [Hid Hlen].
    by rewrite Hid, Hlen in Hbad.
  - right. revert Hadd. generalize ({[sec_currentKeyId security :=
      deriveDataEncryptionKey master (sec_keySalt security)]} : gmap string (list Z)).
    clear Hprevious. induction (sec_previousKeys security) as [|p previous IH]; intros keys; simpl; [done|].
    destruct (decodeMasterKey (ek_masterKey p)) as [m|e'] eqn:Hp; [|intros _; left; by exists e'].
    intros H. right. by eapply IH.
Qed.
End cipher_lemmas.

(** * Witnesses *)

(** A cipher that does not hide anything, but authenticates like one. *)
Definition sample_tag (aad text : string) : list Z := Toy.to_bytes 16 (Toy.digest (aad +:+ text) 7).

Fixpoint sample_text (codes : list Z) : string :=
  match codes with
  | [] => EmptyString
  | code :: codes => String (Ascii.ascii_of_N (Z.to_N code)) (sample_text codes)
  end.

Definition sample_aead : Aead := {|
  aead_seal _ _ aad text := (Toy.byte_codes text, sample_tag aad text);
  aead_open _ _ aad tag ciphertext :=
    let text := sample_text ciphertext in
    if bool_decide (tag = sample_tag aad text) then Some text else None;
  hkdf material _ _ n := (λ i, default 0 (material !! i)) <$> seq 0 n
|}.

Lemma sample_text_codes text : sample_text (Toy.byte_codes text) = text.
Proof.
  induction text as [|c text IH]; [done|]. simpl. rewrite IH, N2Z.id. by rewrite Ascii.ascii_N_embedding.
Qed.

Lemma byte_codes_length text : length (Toy.byte_codes text) = String.length text.
Proof. induction text as [|c text IH]; [done|]. simpl. by rewrite IH. Qed.

#[local] Instance sample_aead_laws : @AeadLaws sample_aead.
Proof.
  split; intros; cbn [aead_seal aead_open hkdf sample_aead fst snd].
  - cbv zeta. rewrite sample_text_codes. by rewrite bool_decide_eq_true_2.
  - apply Toy_to_bytes_length.
  - apply byte_codes_length.
  - split; apply Forall_forall; intros b Hb.
    + by apply Toy_byte_codes_range in Hb.
    + by apply Toy_to_bytes_range in Hb.
  - by rewrite length_fmap, length_seq.
Qed.

#[local] Existing Instances sample_aead Toy.entropy.

Definition sample_ring : gmap string (list Z) :=
  {["cle-1" := replicate 32 1; "cle-2" := replicate 32 2]}.
Definition blank_world : World := mkWorld empty_db 0 1769212800000 "corr" [].
Definition sample_cipher : FieldCipher := mkFieldCipher (Some "cle-1") sample_ring.

Lemma sample_cipher_installed : useKeyRing "cle-1" sample_ring = Return sample_cipher.
Proof. vm_compute. reflexivity. Qed.

Lemma encrypted_field_is_read_back_witness :
  ∃ stored w', encrypt sample_cipher (Some "FR76") "transactions.debtor_iban" blank_world
      = (Return (Some stored), w')
    ∧ decrypt (mkFieldCipher (Some "cle-2") sample_ring) (Some stored)
        "transactions.debtor_iban" = Return (Some "FR76").
Proof.
  destruct (encrypted_field_is_read_back "cle-1" sample_ring sample_cipher "FR76"
    "transactions.debtor_iban" blank_world sample_cipher_installed)
    as (stored & w' & Hrun & _ & _ & Hlater & _).
  exists stored, w'. split; [exact Hrun|]. by apply Hlater.
Defined.

Lemma encrypted_field_width_witness :
  ∃ stored w', encrypt sample_cipher (Some "FR76") "transactions.debtor_iban" blank_world
      = (Return (Some stored), w')
    ∧ char_length stored = 56%nat.
Proof.
  assert (Hrun : ∃ stored w', encrypt sample_cipher (Some "FR76") "transactions.debtor_iban" blank_world
      = (Return (Some stored), w')) by (eexists _, _; vm_compute; reflexivity).
  destruct Hrun as (stored & w' & Hrun). exists stored, w'. split; [exact Hrun|].
  exact (proj1 (encrypted_field_width "cle-1" sample_ring sample_cipher _ _ _ _ _
    sample_cipher_installed Hrun)).
Defined.

Definition sample_security : SecurityConfig :=
  mkSecurityConfig "cle-2" "AAECAwQFBgcICQoLDA0ODxAREhMUFRYXGBkaGxwdHh8=" "banking-gateway-hkdf-salt"
    [mkEncodedKey "cle-1" "IB8eHRwbGhkYFxYVFBMSERAPDg0MCwoJCAcGBQQDAgE="].

Lemma configured_ring_is_installed_witness :
  ∃ keys, getDataEncryptionKeyRing sample_security = Return ("cle-2", keys)
    ∧ useKeyRing "cle-2" keys = Return (mkFieldCipher (Some "cle-2") keys).
Proof.
  assert (Hrun : ∃ keys, getDataEncryptionKeyRing sample_security = Return ("cle-2", keys)).
  { eexists. vm_compute. reflexivity. }
  assert (Hids : Forall (λ p, KEY_ID_PATTERN (ek_keyId p) = true) (sec_previousKeys sample_security)).
  { repeat constructor. }
  destruct (configured_ring_is_installed sample_security eq_refl Hids) as [_ H].
  destruct Hrun as [keys Hrun]. rewrite Hrun in H. exists keys. split; [exact Hrun|apply H].
Defined.
