(* ===== verification/Iban.v ===== *)
(** Bank account numbers: [src/common/validators/is-iban.validator.ts].

    [isValidIban] checks the shape, the length of the country and the ISO 7064
    MOD 97-10 key.  The check digit by digit is the remainder of the whole number,
    and it sees every error of one character. *)
From S2P Require Import Prelude Text External.
Open Scope Z_scope.

Definition IBAN_LENGTH_BY_COUNTRY : list (string * nat) :=
  [("AD", 24%nat); ("AE", 23%nat); ("AL", 28%nat); ("AT", 20%nat); ("AZ", 28%nat);
   ("BA", 20%nat); ("BE", 16%nat); ("BG", 22%nat); ("BH", 22%nat); ("BR", 29%nat);
   ("BY", 28%nat); ("CH", 21%nat); ("CR", 22%nat); ("CY", 28%nat); ("CZ", 24%nat);
   ("DE", 22%nat); ("DK", 18%nat); ("DO", 28%nat); ("EE", 20%nat); ("EG", 29%nat);
   ("ES", 24%nat); ("FI", 18%nat); ("FO", 18%nat); ("FR", 27%nat); ("GB", 22%nat);
   ("GE", 22%nat); ("GI", 23%nat); ("GL", 18%nat); ("GR", 27%nat); ("GT", 28%nat);
   ("HR", 21%nat); ("HU", 28%nat); ("IE", 22%nat); ("IL", 23%nat); ("IQ", 23%nat);
   ("IS", 26%nat); ("IT", 27%nat); ("JO", 30%nat); ("KW", 30%nat); ("KZ", 20%nat);
   ("LB", 28%nat); ("LC", 32%nat); ("LI", 21%nat); ("LT", 20%nat); ("LU", 20%nat);
   ("LV", 21%nat); ("LY", 25%nat); ("MC", 27%nat); ("MD", 24%nat); ("ME", 22%nat);
   ("MK", 19%nat); ("MR", 27%nat); ("MT", 31%nat); ("MU", 30%nat); ("NL", 18%nat);
   ("NO", 15%nat); ("PK", 24%nat); ("PL", 28%nat); ("PS", 29%nat); ("PT", 25%nat);
   ("QA", 29%nat); ("RO", 24%nat); ("RS", 22%nat); ("SA", 24%nat); ("SC", 31%nat);
   ("SE", 24%nat); ("SI", 19%nat); ("SK", 24%nat); ("SM", 27%nat); ("ST", 25%nat);
   ("SV", 28%nat); ("TL", 23%nat); ("TN", 24%nat); ("TR", 26%nat); ("UA", 29%nat);
   ("VA", 22%nat); ("VG", 24%nat); ("XK", 20%nat)].

(** [value.replace(/[\s-]/g, '').toUpperCase()] *)
Fixpoint without_separators (value : string) : string :=
  match value with
  | EmptyString => EmptyString
  | String c value =>
      if is_space c || Ascii.eqb c "-" then without_separators value
      else String c (without_separators value)
  end.
Definition normalizeIban (value : string) : string := toUpperCase (without_separators value).

(** [Number.parseInt(char, 10)], of a digit. *)
Definition digit_value (c : Ascii.ascii) : Z := code_of c - 48.

Fixpoint mod97_from (remainder : Z) (input : string) : Z :=
  match input with
  | EmptyString => remainder
  | String c input => mod97_from ((remainder * 10 + digit_value c) mod 97) input
  end.
Definition mod97 (input : string) : Z := mod97_from 0 input.

(** [/^[A-Z]{2}\d{2}[A-Z0-9]{11,30}$/] *)
Definition is_alnum (c : Ascii.ascii) : bool := is_upper c || is_digit c.
Definition IBAN_STRUCTURE (iban : string) : bool :=
  match iban with
  | String a (String b (String c (String d rest))) =>
      is_upper a && is_upper b && is_digit c && is_digit d && of_class is_alnum 11 30 rest
  | _ => false
  end.

Definition expectedLength (country : string) : option nat :=
  snd <$> List.find (λ p, str_eqb p.1 country) IBAN_LENGTH_BY_COUNTRY.

(** [iban.slice(4) + iban.slice(0, 4)] *)
Definition rearrange (iban : string) : string :=
  String.substring 4 (String.length iban - 4) iban +:+ String.substring 0 4 iban.

(** [replace(/[A-Z]/g, (char) => String(char.charCodeAt(0) - 55))] *)
Fixpoint to_numeric (rearranged : string) : string :=
  match rearranged with
  | EmptyString => EmptyString
  | String c rearranged =>
      (if is_upper c then pretty (code_of c - 55) else String c EmptyString)
      +:+ to_numeric rearranged
  end.

Definition isValidIban (value : string) : bool :=
  let iban := normalizeIban value in
  if negb (IBAN_STRUCTURE iban) then false
  else if match expectedLength (String.substring 0 2 iban) with
          | Some expected => negb (Nat.eqb (String.length iban) expected)
          | None => false
          end then false
  else mod97 (to_numeric (rearrange iban)) =? 1.

(** * Lemmas *)

(** The number that a text of digits and letters writes, and the power of ten of its
    width. *)
Definition char_value (c : Ascii.ascii) : Z := if is_upper c then code_of c - 55 else digit_value c.
Definition char_weight (c : Ascii.ascii) : Z := if is_upper c then 100 else 10.

Fixpoint value_from (acc : Z) (s : string) : Z :=
  match s with
  | EmptyString => acc
  | String c s => value_from (acc * char_weight c + char_value c) s
  end.
Definition iban_number (s : string) : Z := value_from 0 s.

Fixpoint weight (s : string) : Z :=
  match s with
  | EmptyString => 1
  | String c s => char_weight c * weight s
  end.

Lemma mod97_from_app r s t : mod97_from r (s +:+ t) = mod97_from (mod97_from r s) t.
Proof. revert r. induction s as [|c s IH]; intros r; [done|]. apply IH. Qed.

(** The two digits of a letter count as its value. *)
Lemma letter_step c r :
  is_upper c = true → mod97_from r (pretty (code_of c - 55)) = (r * 100 + (code_of c - 55)) mod 97.
Proof.
  intros Hc. assert (H : ∃ u v, pretty (code_of c - 55) = String u (String v EmptyString)
    ∧ digit_value u * 10 + digit_value v = code_of c - 55).
  { destruct c as [[] [] [] [] [] [] [] []]; vm_compute in Hc; try discriminate Hc;
      (eexists _, _; split; [vm_compute; reflexivity|vm_compute; reflexivity]). }
  destruct H as (u & v & -> & <-). simpl.
  rewrite Z.add_mod, Z.mul_mod_idemp_l, <- Z.add_mod by lia. f_equal. lia.
Qed.

Lemma mod97_value r s :
  all_chars is_alnum s = true → mod97_from (r mod 97) (to_numeric s) = value_from r s mod 97.
Proof.
  revert r. induction s as [|c s IH]; intros r; [done|]. simpl.
  intros [Hc Hs]%andb_true_iff. unfold char_weight, char_value.
  change (mod97_from (r mod 97) ((if is_upper c then pretty (code_of c - 55) else String c EmptyString)
            +:+ to_numeric s) = value_from (r * (if is_upper c then 100 else 10)
              + (if is_upper c then code_of c - 55 else digit_value c)) s mod 97).
  rewrite <- IH by done. rewrite mod97_from_app. f_equal.
  destruct (is_upper c) eqn:Hu.
  - rewrite letter_step by done. by rewrite Z.add_mod, Z.mul_mod_idemp_l, <- Z.add_mod by lia.
  - simpl. by rewrite Z.add_mod, Z.mul_mod_idemp_l, <- Z.add_mod by lia.
Qed.

Lemma value_from_app acc s t : value_from acc (s +:+ t) = value_from (value_from acc s) t.
Proof. revert acc. induction s as [|c s IH]; intros acc; [done|]. apply IH. Qed.

Lemma value_from_weight acc s : value_from acc s = acc * weight s + value_from 0 s.
Proof.
  revert acc. induction s as [|c s IH]; intros acc; cbn [value_from weight]; [lia|].
  rewrite IH, (IH (0 * _ + _)). lia.
Qed.

(** A power of ten has no factor in common with 97. *)
Lemma div97_weight s x : (97 | weight s * x) → (97 | x).
Proof.
  assert (H10 : ∀ y, (97 | 10 * y) → (97 | y)).
  { intros y [k Hk]. exists (68 * k - 7 * y). lia. }
  revert x. induction s as [|c s IH]; intros x; simpl; [by rewrite Z.mul_1_l|].
  rewrite <- Z.mul_assoc. unfold char_weight. intros H. apply IH.
  destruct (is_upper c); [|by apply H10].
  apply H10, H10. by replace (10 * (10 * (weight s * x))) with (100 * (weight s * x)) by lia.
Qed.

Lemma iban_number_at x c y :
  iban_number (x +:+ String c y)
  = (iban_number x * char_weight c + char_value c) * weight y + iban_number y.
Proof. unfold iban_number. rewrite value_from_app. simpl. by rewrite value_from_weight. Qed.

Lemma substring_all s : String.substring 0 (String.length s) s = s.
Proof. induction s as [|c s IH]; [done|]. simpl. by rewrite IH. Qed.

Lemma rearrange_eq a b c d rest :
  rearrange (String a (String b (String c (String d rest))))
  = rest +:+ String a (String b (String c (String d EmptyString))).
Proof.
  unfold rearrange. simpl. rewrite Nat.sub_0_r, substring_all. by destruct rest.
Qed.

(** The shape of a text of that structure. *)
Lemma structure_inv iban :
  IBAN_STRUCTURE iban = true →
  ∃ a b c d rest, iban = String a (String b (String c (String d rest)))
    ∧ all_chars is_alnum (rearrange iban) = true.
Proof.
  destruct iban as [|a [|b [|c [|d rest]]]]; try done. unfold IBAN_STRUCTURE, of_class, is_alnum.
  rewrite !andb_true_iff. intros ((((Ha & Hb) & Hc) & Hd) & _ & Hrest).
  exists a, b, c, d, rest. split; [done|]. rewrite rearrange_eq, all_chars_app, Hrest. simpl.
  by rewrite Ha, Hb, Hc, Hd, !orb_true_r.
Qed.

(** A character keeps its neighbours, up to a rotation. *)
Lemma rearrange_at left right :
  (4 <= String.length left + S (String.length right))%nat →
  ∃ x y, ∀ d, rearrange (left +:+ String d right) = x +:+ String d y.
Proof.
  intros Hlen. destruct left as [|l1 [|l2 [|l3 [|l4 left]]]];
    [destruct right as [|r1 [|r2 [|r3 right]]]|destruct right as [|r1 [|r2 right]]
    |destruct right as [|r1 right]| |]; try (simpl in Hlen; lia).
  - exists right, (String r1 (String r2 (String r3 EmptyString))). intros d. apply rearrange_eq.
  - exists (right +:+ String l1 EmptyString), (String r1 (String r2 EmptyString)). intros d.
    etrans; [apply rearrange_eq|]. symmetry. apply append_assoc.
  - exists (right +:+ String l1 (String l2 EmptyString)), (String r1 EmptyString). intros d.
    etrans; [apply rearrange_eq|]. symmetry. apply append_assoc.
  - exists (right +:+ String l1 (String l2 (String l3 EmptyString))), EmptyString. intros d.
    etrans; [apply rearrange_eq|]. symmetry. apply append_assoc.
  - exists left, (right +:+ String l1 (String l2 (String l3 (String l4 EmptyString)))). intros d.
    etrans; [apply rearrange_eq|]. apply (append_assoc left (String d right)).
Qed.

Lemma normalizeIban_app s t : normalizeIban (s +:+ t) = normalizeIban s +:+ normalizeIban t.
Proof.
  unfold normalizeIban. induction s as [|c s IH]; [done|].
  change (toUpperCase (without_separators (String c (s +:+ t)))
          = toUpperCase (without_separators (String c s)) +:+ toUpperCase (without_separators t)).
  simpl. destruct (is_space c || Ascii.eqb c "-"); [exact IH|]. simpl. rewrite IH. done.
Qed.

Lemma normalizeIban_cons c s :
  normalizeIban (String c s)
  = if is_space c || Ascii.eqb c "-" then normalizeIban s else String (to_upper c) (normalizeIban s).
Proof. unfold normalizeIban. simpl. by destruct (_ || _). Qed.

Lemma to_upper_hyphen c : Ascii.eqb (to_upper c) "-" = Ascii.eqb c "-".
Proof. destruct c as [[] [] [] [] [] [] [] []]; reflexivity. Qed.

Lemma normalizeIban_twice s : normalizeIban (normalizeIban s) = normalizeIban s.
Proof.
  induction s as [|c s IH]; [done|]. rewrite normalizeIban_cons.
  destruct (is_space c || Ascii.eqb c "-") eqn:Hc; [done|].
  by rewrite normalizeIban_cons, to_upper_space, to_upper_hyphen, Hc, to_upper_twice, IH.
Qed.

Lemma normalizeIban_alnum c : is_alnum c = true → normalizeIban (String c EmptyString) = String c EmptyString.
Proof. destruct c as [[] [] [] [] [] [] [] []]; vm_compute; congruence. Qed.

(** What the validator accepts: the structure, and a number that leaves one. *)
Lemma isValidIban_inv value :
  isValidIban value = true →
  IBAN_STRUCTURE (normalizeIban value) = true
  ∧ iban_number (rearrange (normalizeIban value)) mod 97 = 1.
Proof.
  unfold isValidIban. destruct (IBAN_STRUCTURE (normalizeIban value)) eqn:Hs; [|done]. simpl.
  case_match; [done|]. intros Hone%Z.eqb_eq. split; [done|].
  apply structure_inv in Hs as (_ & _ & _ & _ & _ & _ & Hall).
  unfold iban_number. by rewrite <- mod97_value.
Qed.

(** Two characters of one class: both letters, or both digits. *)
Definition same_class (c d : Ascii.ascii) : bool :=
  (is_upper c && is_upper d) || (is_digit c && is_digit d).

Lemma same_class_spec c d :
  same_class c d = true →
  is_alnum c = true ∧ is_alnum d = true ∧ char_weight c = char_weight d
  ∧ -25 <= char_value c - char_value d <= 25
  ∧ (char_value c = char_value d → c = d).
Proof.
  assert (Hu : ∀ c, is_upper c = true → 10 <= char_value c <= 35 ∧ char_weight c = 100
                 ∧ Ascii.ascii_of_N (Z.to_N (char_value c + 55)) = c).
  { intros [[] [] [] [] [] [] [] []]; vm_compute; intros Hclass; try discriminate Hclass; intuition congruence. }
  assert (Hd : ∀ c, is_digit c = true → 0 <= char_value c <= 9 ∧ char_weight c = 10
                 ∧ Ascii.ascii_of_N (Z.to_N (char_value c + 48)) = c).
  { intros [[] [] [] [] [] [] [] []]; vm_compute; intros Hclass; try discriminate Hclass; intuition congruence. }
  unfold same_class, is_alnum. rewrite orb_true_iff, !andb_true_iff.
  intros [[Hc Hc']|[Hc Hc']]; rewrite Hc, Hc', ?orb_true_r.
  - destruct (Hu c Hc) as (? & ? & Ec), (Hu d Hc') as (? & ? & Ed).
    split_and!; try done; try congruence; lia.
  - destruct (Hd c Hc) as (? & ? & Ec), (Hd d Hc') as (? & ? & Ed).
    split_and!; try done; try congruence; lia.
Qed.

Lemma same_remainder x c d y :
  same_class c d = true →
  iban_number (x +:+ String c y) mod 97 = iban_number (x +:+ String d y) mod 97 → c = d.
Proof.
  intros Hclass Hmod. apply same_class_spec in Hclass as (_ & _ & Hw & Hrange & Heq). apply Heq.
  rewrite !iban_number_at, <- Hw in Hmod.
  assert (Hdiv : (97 | weight y * (char_value c - char_value d))).
  { apply Z.mod_divide; [lia|].
    replace (weight y * (char_value c - char_value d)) with
      ((iban_number x * char_weight c + char_value c) * weight y + iban_number y
       - ((iban_number x * char_weight c + char_value d) * weight y + iban_number y)) by lia.
    rewrite Zminus_mod, Hmod, Z.sub_diag. done. }
  apply div97_weight in Hdiv as [k Hk]. lia.
Qed.

(** C34. The account key sees every error of one character.  Of two account numbers that
    differ in one letter replaced by a letter, or one digit by a digit, wherever it
    stands and whatever spaces, hyphens or lower case surround it, at most one is
    accepted.  The remainder computed digit by digit is that of the whole number. *)
Theorem one_wrong_character_is_refused left c d right :
  same_class c d = true → c ≠ d →
  isValidIban (left +:+ String c right) = true →
  isValidIban (left +:+ String d right) = false
  ∧ iban_number (rearrange (normalizeIban (left +:+ String c right))) mod 97 = 1.
Proof.
  intros Hclass Hne Hc. split; [|apply (isValidIban_inv _ Hc)].
  apply not_true_is_false. intros Hd. apply Hne.
  destruct (same_class_spec c d Hclass) as (Hac & Had & _).
  assert (Hnorm : ∀ e, is_alnum e = true → normalizeIban (left +:+ String e right)
            = normalizeIban left +:+ String e (normalizeIban right)).
  { intros e He. rewrite normalizeIban_app. f_equal.
    exact (eq_trans (normalizeIban_app (String e EmptyString) right)
             (f_equal (λ s, s +:+ normalizeIban right) (normalizeIban_alnum e He))). }
  apply isValidIban_inv in Hc as [Hs Hc]. apply isValidIban_inv in Hd as [_ Hd].
  rewrite Hnorm in Hs, Hc by done. rewrite Hnorm in Hd by done.
  destruct (rearrange_at (normalizeIban left) (normalizeIban right)) as (x & y & Hxy).
  { apply structure_inv in Hs as (a & b & e & f & rest & Heq & _).
    apply (f_equal String.length) in Heq. rewrite append_length in Heq. simpl in Heq. lia. }
  rewrite Hxy in Hc, Hd. apply (same_remainder x c d y); [done|].
  exact (eq_trans Hc (eq_sym Hd)).
Qed.

Lemma one_wrong_character_is_refused_witness :
  isValidIban "fr76 3000 6000 0112 3456 7890 189" = true
  ∧ isValidIban "fr76 3000 6000 0112 3456 7890 199" = false.
Proof.
  assert (H : isValidIban "fr76 3000 6000 0112 3456 7890 189" = true) by (vm_compute; reflexivity).
  split; [exact H|].
  assert (Hne : "8"%char ≠ "9"%char) by discriminate.
  exact (proj1 (one_wrong_character_is_refused "fr76 3000 6000 0112 3456 7890 1" "8" "9" "9"
    eq_refl Hne H)).
Defined.
