(* ===== verification/Simulator.v ===== *)
(** The aggregator simulator: [src/mobile-money/aggregator-simulator.service.ts], its
    controller, and [src/refunds/simulator-refund.adapter.ts].

    It plays the other side of two ports: it signs real notifications and hands them to
    the webhook service, and it answers refund requests, once per idempotency key.
    [simulator_provider] is the adapter as the [RefundProvider] of [Ports]: its memory is
    what the requests made so far have left. *)
From stdpp Require Import gmap.
From S2P Require Import Prelude Text Domain StateMachine Money External Fingerprint EventXml.
From S2P Require Import Database Ledger EventLedger Ports Services References MobileMoney Webhook.
Open Scope Z_scope.

(** * Notifications *)

Record SimulateMobileMoneyDto := mkSimulateMobileMoneyDto {
  sm_status : option MobileMoneyWebhookStatus;
  sm_amount : option Z;
  sm_currency : option string
}.

Section AggregatorSimulator.
Context {HH : Hashing} {HX : XsdEngine} {HE : Entropy} {HD : DateParser} {HM : Hmac} {HT : ErrorText}.
Context (config : MobileMoneyConfig).

Definition buildWebhook (t : Transaction) (input : SimulateMobileMoneyDto) : App MobileMoneyWebhookDto :=
  date ← now;
  bytes ← draw_bytes 6;
  let status := or_default (sm_status input) MobileMoneyWebhookStatus.CONFIRMED in
  mret {|
    dto_eventId := "EVT-" +:+ References.formatDate date +:+ "-" +:+ toUpperCase (toHex bytes);
    dto_aggregatorReference := or_default (tx_aggregatorReference t) "";
    dto_status := status;
    dto_amount := or_default (sm_amount input) (tx_amount t);
    dto_currency := toUpperCase (trim (or_default (sm_currency input) (tx_currency t)));
    dto_occurredAt := toISOString date;
    dto_failureReason := if is_eq status MobileMoneyWebhookStatus.FAILED
                         then Some "Paiement refuse par le simulateur" else None
  |}.

Definition assertEnabled (simulatorEnabled : bool) : App unit :=
  throw_unless simulatorEnabled (HttpException 404 "SIMULATOR_DISABLED").

(** [AggregatorSimulatorController.findOne] *)
Definition simulator_findOne (simulatorEnabled : bool) (aggregatorReference : string) : App Transaction :=
  assertEnabled simulatorEnabled ;;
  findByAggregatorReference aggregatorReference.

(** [AggregatorSimulatorController.confirm] *)
Definition confirm (simulatorEnabled : bool) (aggregatorReference : string)
    (input : SimulateMobileMoneyDto) : App Transaction :=
  assertEnabled simulatorEnabled ;;
  t ← findByAggregatorReference aggregatorReference;
  payload ← buildWebhook t input;
  handle config payload (Some (sign config payload)).
End AggregatorSimulator.

(** * Refunds *)

Record RefundRequest := mkRefundRequest {
  rq_idempotencyKey : string;
  rq_providerReference : option string;
  rq_amount : Z;
  rq_currency : string
}.

(** The [Map] of the requests that were accepted, and the draws made. *)
Record SimulatorState := mkSimulatorState {
  ss_processed : gmap string string;
  ss_draws : nat
}.

Section SimulatorRefundAdapter.
Context {HE : Entropy}.

Definition simulator_reference (draw : nat) : string :=
  "RFN-" +:+ toUpperCase (toHex (randomBytes draw 6)).

(** [SimulatorRefundAdapter.refund] *)
Definition simulator_refund (request : RefundRequest) : Eff SimulatorState GatewayError ProviderRefund :=
  processed ← gets ss_processed;
  match processed !! rq_idempotencyKey request with
  | Some alreadyDone => mret (mkProviderRefund alreadyDone true)
  | None =>
      let cents := Z.rem (rq_amount request) 100 in
      throw_unless (negb (cents =? 13)) (ProviderRefundRejectedException "Solde marchand insuffisant") ;;
      throw_unless (negb (cents =? 99)) (ProviderRefundUnavailableException "Delai d attente depasse") ;;
      draw ← gets ss_draws;
      let reference := simulator_reference draw in
      modify (λ s, mkSimulatorState (<[rq_idempotencyKey request := reference]> (ss_processed s))
                     (S (ss_draws s))) ;;
      mret (mkProviderRefund reference false)
  end.

(** What a history of calls leaves in the adapter's memory. *)
Fixpoint simulator_replay (history : list ExternalCall) (s : SimulatorState) : SimulatorState :=
  match history with
  | [] => s
  | CallRefund key reference amount currency :: history =>
      simulator_replay history (simulator_refund (mkRefundRequest key reference amount currency) s).2
  | _ :: history => simulator_replay history s
  end.

Definition simulator_provider : RefundProvider :=
  {| provider_refund history key reference amount currency :=
       (simulator_refund (mkRefundRequest key reference amount currency)
          (simulator_replay (removelast history) (mkSimulatorState ∅ 0))).1 |}.
End SimulatorRefundAdapter.

(** * Lemmas *)

Section simulator_lemmas.
Context {HE : Entropy}.

(** What a request does to the memory: at most one new key, and never a change. *)
Lemma simulator_refund_memory request s :
  let '(o, s') := simulator_refund request s in
  (∀ key reference, ss_processed s !! key = Some reference → ss_processed s' !! key = Some reference)
  ∧ match o with
    | Return r => ss_processed s' !! rq_idempotencyKey request = Some (pf_providerRefundReference r)
        ∧ (pf_deduplicated r = true ↔ is_Some (ss_processed s !! rq_idempotencyKey request))
    | Throw _ => s' = s ∧ ss_processed s !! rq_idempotencyKey request = None
    end.
Proof.
  unfold simulator_refund, gets, modify, mbind, Eff_bind. simpl.
  destruct (ss_processed s !! rq_idempotencyKey request) as [done|] eqn:Hdone; simpl.
  { split_and!; [done|done|]. split; [by eexists|done]. }
  destruct (_ =? 13); simpl; [done|]. destruct (_ =? 99); simpl; [done|].
  split_and!.
  - intros key reference Hkey. rewrite lookup_insert_ne by congruence. done.
  - by rewrite lookup_insert, decide_True by done.
  - split; [done|by intros [? ?]].
Qed.

Lemma simulator_replay_memory history : ∀ s key reference,
  ss_processed s !! key = Some reference →
  ss_processed (simulator_replay history s) !! key = Some reference.
Proof.
  induction history as [|c history IH]; intros s key reference H; [done|].
  destruct c; simpl; try by apply IH. apply IH.
  pose proof (simulator_refund_memory (mkRefundRequest idempotencyKey providerReference amount currency) s) as Hm.
  destruct (simulator_refund _ s) as [o s']. by apply Hm.
Qed.

Lemma simulator_replay_app h1 h2 s :
  simulator_replay (h1 ++ h2) s = simulator_replay h2 (simulator_replay h1 s).
Proof. revert s. induction h1 as [|c h1 IH]; intros s; [done|]. destruct c; simpl; apply IH. Qed.

(** One idempotency key, one payout.  Once a request was answered with a reference,
    every later request under its key, whatever it asks for and whatever happened in
    between, is answered with that reference and marked as a duplicate: only the first
    one pays.  A refusal leaves the key free. *)
Theorem simulator_pays_once history between key p1 a1 c1 p2 a2 c2 r :
  let first := history ++ [CallRefund key p1 a1 c1] in
  provider_refund (RefundProvider := simulator_provider) first key p1 a1 c1 = Return r →
  provider_refund (RefundProvider := simulator_provider)
    (first ++ between ++ [CallRefund key p2 a2 c2]) key p2 a2 c2
  = Return (mkProviderRefund (pf_providerRefundReference r) true).
Proof.
  cbv zeta. cbn [provider_refund simulator_provider].
  rewrite removelast_last, app_assoc, removelast_last. intros Hfirst.
  rewrite !simulator_replay_app. set (s := simulator_replay history _) in *.
  pose proof (simulator_refund_memory (mkRefundRequest key p1 a1 c1) s) as Hm.
  change (simulator_replay [CallRefund key p1 a1 c1] s) with (simulator_refund (mkRefundRequest key p1 a1 c1) s).2.
  destruct (simulator_refund (mkRefundRequest key p1 a1 c1) s) as [o s']. cbn [fst snd] in *. subst o.
  destruct Hm as (_ & Hkey & _). apply (simulator_replay_memory between) in Hkey.
  unfold simulator_refund, gets, mbind, Eff_bind. cbn [rq_idempotencyKey] in *. by rewrite Hkey.
Qed.
End simulator_lemmas.

Section confirm_lemmas.
Context {HH : Hashing} {HX : XsdEngine} {HE : Entropy} {HD : DateParser} {HM : Hmac} {HT : ErrorText}.
Context (config : MobileMoneyConfig).

Lemma simulator_confirm_refines enabled reference input :
  Respects (on_db ledger_refines) (confirm config enabled reference input).
Proof. unfold confirm, assertEnabled, buildWebhook. respects. Qed.
End confirm_lemmas.

#[export] Hint Resolve simulator_confirm_refines : effects.

#[local] Existing Instances Toy.entropy.

Lemma simulator_pays_once_witness :
  let first := [CallRefund "cle-1" (Some "AGG-1") 1000 "USD"] in
  let refund history := provider_refund (RefundProvider := simulator_provider) history "cle-1" (Some "AGG-1") in
  ∃ r, refund first 1000 "USD" = Return r
    ∧ pf_deduplicated r = false
    ∧ refund (first ++ [CallRefund "cle-1" (Some "AGG-1") 1013 "USD"]) 1013 "USD"
      = Return (mkProviderRefund (pf_providerRefundReference r) true).
Proof.
  intros first refund. exists (mkProviderRefund "RFN-00070E151C23" false).
  assert (Hrun : refund first 1000 "USD" = Return (mkProviderRefund "RFN-00070E151C23" false))
    by (vm_compute; reflexivity).
  split; [exact Hrun|]. split; [reflexivity|].
  exact (simulator_pays_once [] [] "cle-1" (Some "AGG-1") 1000 "USD" (Some "AGG-1") 1013 "USD" _ Hrun).
Defined.
