(* ===== verification/Masking.v ===== *)
(** Masking of sensitive data before it is logged: [src/common/utils/masking.util.ts].

    A free text is masked word by word: both patterns of the source begin and end at a word
    boundary and match word characters only, so a match is a whole maximal word.  Lengths
    and slices are those of ASCII texts, one byte per unit; the words of the patterns are
    ASCII in any text.  [maskXml] is in [AuditTrail]. *)
From S2P Require Import Prelude External EventXml Text.
Open Scope Z_scope.

(** * Values *)

Definition REDACTED : string := "[REDACTED]".

(** [value.replace(/\s+/g, '')] and [replace(/[-_\s]/g, '')]. *)
Fixpoint remove_chars (p : Ascii.ascii → bool) (s : string) : string :=
  match s with
  | EmptyString => EmptyString
  | String c s => if p c then remove_chars p s else String c (remove_chars p s)
  end.

(** [s.slice(0, n)] and [s.slice(-n)], [n] positive. *)
Definition slice_start (n : nat) (s : string) : string := String.substring 0 n s.
Definition slice_end (n : nat) (s : string) : string :=
  String.substring (String.length s - n) n s.

Definition maskIban (value : string) : string :=
  let normalized := remove_chars is_space value in
  if Nat.ltb (String.length normalized) 8 then REDACTED
  else slice_start 4 normalized +:+ "****" +:+ slice_end 4 normalized.

Definition maskPartial (value : string) (keepStart keepEnd : nat) : string :=
  if Nat.leb (String.length value) (keepStart + keepEnd) then REDACTED
  else slice_start keepStart value +:+ "****" +:+ slice_end keepEnd value.

(** * Keys *)

Definition REDACTED_KEYS : list string :=
  ["password"; "passwd"; "secret"; "token"; "accesstoken"; "refreshtoken"; "authorization";
   "apikey"; "api_key"; "clientsecret"; "privatekey"; "cvv"; "cvc"; "pin"].
Definition IBAN_KEYS : list string :=
  ["iban"; "debtoriban"; "creditoriban"; "debtoraccount"; "creditoraccount"; "accountnumber";
   "account_number"; "compte"].
Definition PARTIAL_KEYS : list string :=
  ["bic"; "swift"; "pan"; "cardnumber"; "card_number"; "phone"; "msisdn"; "payermsisdn"; "email"].

Definition normalizeKey (key : string) : string :=
  remove_chars (λ c, Ascii.eqb c "-" || Ascii.eqb c "_" || is_space c) (toLowerCase key).

Definition maskByKey (key value : string) : string :=
  let normalized := normalizeKey key in
  if bool_decide (normalized ∈ REDACTED_KEYS) then REDACTED
  else if bool_decide (normalized ∈ IBAN_KEYS) then maskIban value
  else if bool_decide (normalized ∈ PARTIAL_KEYS) then maskPartial value 2 2
  else value.

(** * Free texts *)

(** [\w] *)
Definition is_word (c : Ascii.ascii) : bool :=
  is_upper c || is_lower c || is_digit c || Ascii.eqb c "_".

(** A whole word of [/\b[A-Z]{2}\d{2}[A-Z0-9]{10,30}\b/]. *)
Definition iban_word (w : string) : bool :=
  Nat.leb 14 (String.length w) && Nat.leb (String.length w) 34
  && all_chars is_upper (String.substring 0 2 w)
  && all_chars is_digit (String.substring 2 2 w)
  && all_chars (λ c, is_upper c || is_digit c) (String.substring 4 (String.length w - 4) w).

(** A whole word of [/\b\d{13,}\b/]. *)
Definition long_digits (w : string) : bool :=
  Nat.leb 13 (String.length w) && all_chars is_digit w.

(** [text.replace(pattern, f)], for a pattern that matches whole words: [word] is the word
    being read. *)
Fixpoint replace_words (f : string → string) (word text : string) : string :=
  match text with
  | EmptyString => f word
  | String c text =>
      if is_word c then replace_words f (word +:+ String c EmptyString) text
      else f word +:+ String c (replace_words f EmptyString text)
  end.

Definition mask_iban_word (w : string) : string := if iban_word w then maskIban w else w.
Definition mask_digits_word (w : string) : string := if long_digits w then maskPartial w 4 2 else w.

Definition maskFreeText (text : string) : string :=
  replace_words mask_digits_word EmptyString (replace_words mask_iban_word EmptyString text).

(** * Objects *)

(** The value of a request body, as [JSON.parse] makes them; [undefined] is a value too. *)
#[local] Unset Elimination Schemes.
Inductive Json :=
  | JUndefined
  | JNull
  | JBoolean (b : bool)
  | JNumber (text : string)
  | JString (s : string)
  | JArray (items : list Json)
  | JObject (entries : list (string * Json)).
#[local] Set Elimination Schemes.

Definition MAX_DEPTH : nat := 6.
Definition MAX_ARRAY_ITEMS : nat := 25.

Fixpoint maskDeep (depth : nat) (input : Json) : Json :=
  match input with
  | JUndefined => JUndefined
  | JNull => JNull
  | _ =>
      if Nat.ltb MAX_DEPTH depth then JString "[TRUNCATED]"
      else
        match input with
        | JString s => JString (maskFreeText s)
        | JArray input =>
            let items := take MAX_ARRAY_ITEMS (List.map (maskDeep (S depth)) input) in
            JArray (items
              ++ (if Nat.ltb MAX_ARRAY_ITEMS (length input)
                  then [JString ("[... " +:+ pretty (Z.of_nat (length input - MAX_ARRAY_ITEMS))
                                 +:+ " elements supplementaires]")]
                  else []))
        | JObject entries =>
            JObject (List.map (λ entry,
              let '(key, value) := entry in
              (key,
               match value with
               | JString value =>
                   let masked := maskByKey key value in
                   JString (if str_eqb masked value then maskFreeText value else masked)
               | value =>
                   if bool_decide (normalizeKey key ∈ REDACTED_KEYS) then JString REDACTED
                   else maskDeep (S depth) value
               end)) entries)
        | input => input
        end
  end.

(** [truncate] *)
Definition truncate (value : string) (maxChars : nat) : string :=
  if Nat.eqb maxChars 0 then EmptyString
  else if Nat.leb (String.length value) maxChars then value
  else slice_start maxChars value +:+ "... [tronque, " +:+ pretty (Z.of_nat (String.length value))
       +:+ " caracteres au total]".

Example mask_examples :
  maskIban "FR76 3000 6000 0112 3456 7890 189" = "FR76****0189"
  ∧ maskFreeText "virement de FR7630006000011234567890189, carte 4111111111111111."
    = "virement de FR76****0189, carte 4111****11."
  ∧ maskFreeText "code xFR7630006000011234567890189" = "code xFR7630006000011234567890189".
Proof. vm_compute. repeat split. Qed.

(** * Lemmas *)

(** ** Words *)

(** The maximal words of a text, [word] being the one that is read. *)
Fixpoint words_from (word text : string) : list string :=
  match text with
  | EmptyString => if non_empty word then [word] else []
  | String c text =>
      if is_word c then words_from (word +:+ String c EmptyString) text
      else (if non_empty word then [word] else []) ++ words_from EmptyString text
  end.
Definition words (text : string) : list string := words_from EmptyString text.

Lemma append_empty (s : string) : s +:+ "" = s.
Proof. induction s as [|c s IH]; [done|]. exact (f_equal (String c) IH). Qed.

Lemma append_non_empty (a b : string) : non_empty b = true → non_empty (a +:+ b) = true.
Proof. by destruct a. Qed.

(** A separator cuts the words. *)
Lemma words_from_cut c a b word :
  is_word c = false → words_from word (a +:+ String c b) = words_from word a ++ words b.
Proof.
  intros Hc. revert word. induction a as [|d a IH]; intros word.
  - simpl. by rewrite Hc.
  - change (String d a +:+ String c b) with (String d (a +:+ String c b)). cbn [words_from].
    destruct (is_word d); rewrite IH; [done|]. by rewrite app_assoc.
Qed.

Lemma words_cut c a b : is_word c = false → words (a +:+ String c b) = words a ++ words b.
Proof. apply words_from_cut. Qed.

Lemma words_from_word word text :
  all_chars is_word text = true →
  words_from word text = if non_empty (word +:+ text) then [word +:+ text] else [].
Proof.
  revert word. induction text as [|c text IH]; intros word; simpl; [by rewrite append_empty|].
  intros [Hc Htext]%andb_true_iff. rewrite Hc, IH by done. by rewrite append_assoc.
Qed.

(** Replacing words replaces the list of words, each by the words of its image. *)
Lemma words_replace f word text :
  f EmptyString = EmptyString → 
  words (replace_words f word text) = List.concat ((words ∘ f) <$> words_from word text).
Proof.
  intros Hf. revert word. induction text as [|c text IH]; intros word; simpl.
  - destruct word as [|d word]; simpl; [by rewrite Hf|]. by rewrite app_nil_r.
  - destruct (is_word c) eqn:Hc; [apply IH|]. rewrite words_cut by done. rewrite IH.
    destruct word as [|d word]; simpl; [by rewrite Hf|done].
Qed.

(** ** No account number *)

(** Neither an IBAN nor a long number. *)
Definition harmless (w : string) : bool := negb (iban_word w) && negb (long_digits w).
Definition clean (text : string) : Prop := Forall (λ w, harmless w = true) (words text).

Lemma words_from_short n word text :
  (String.length word + String.length text <= n)%nat →
  Forall (λ w, (String.length w <= n)%nat) (words_from word text).
Proof.
  revert word. induction text as [|c text IH]; intros word Hlen; simpl in *.
  - destruct (non_empty word); constructor; [lia|constructor].
  - destruct (is_word c); [apply IH; rewrite append_length; simpl; lia|].
    apply Forall_app. split; [destruct (non_empty word); constructor; [lia|constructor]|].
    apply IH. simpl. lia.
Qed.

Lemma short_harmless w : (String.length w <= 12)%nat → harmless w = true.
Proof.
  intros Hlen. unfold harmless, iban_word, long_digits.
  rewrite (proj2 (Nat.leb_gt 14 (String.length w))), (proj2 (Nat.leb_gt 13 (String.length w))) by lia. done.
Qed.

Lemma short_clean text : (String.length text <= 12)%nat → clean text.
Proof.
  intros Hlen. unfold clean, words. eapply Forall_impl; [apply (words_from_short 12); simpl; lia|].
  intros w. apply short_harmless.
Qed.

Lemma substring_length n m s : (String.length (String.substring n m s) <= m)%nat.
Proof.
  revert n m. induction s as [|c s IH]; intros [|n] [|m]; simpl; try lia.
  - specialize (IH 0%nat m). lia.
  - apply IH.
  - apply IH.
Qed.

(** The masked form has no word longer than what it keeps. *)
Lemma kept_ends_clean a b s t :
  (a <= 12)%nat → (b <= 12)%nat →
  clean (slice_start a s +:+ "****" +:+ slice_end b t).
Proof.
  intros Ha Hb. unfold clean. change ("****" +:+ slice_end b t) with
    (String "*" (String "*" (String "*" (String "*" (slice_end b t))))).
  rewrite words_cut by done. apply Forall_app. split.
  - apply short_clean. pose proof (substring_length 0 a s). unfold slice_start. lia.
  - assert (Hstar : ∀ u, words (String "*" u) = words u) by done. rewrite !Hstar.
    apply short_clean. pose proof (substring_length (String.length t - b) b t). unfold slice_end. lia.
Qed.

Lemma redacted_clean : clean REDACTED.
Proof. apply short_clean. simpl. lia. Qed.

Lemma maskIban_clean value : clean (maskIban value).
Proof. unfold maskIban. destruct (Nat.ltb _ _); [apply redacted_clean|]. apply kept_ends_clean; lia. Qed.

Lemma maskPartial_clean value a b : (a <= 12)%nat → (b <= 12)%nat → clean (maskPartial value a b).
Proof. unfold maskPartial. destruct (Nat.leb _ _); [intros; apply redacted_clean|apply kept_ends_clean]. Qed.

(** A word the first pass lets through is no IBAN. *)
Lemma mask_iban_word_pass w :
  all_chars is_word w = true → Forall (λ v, iban_word v = false) (words (mask_iban_word w)).
Proof.
  intros Hw. unfold mask_iban_word. destruct (iban_word w) eqn:Hi.
  - eapply Forall_impl; [apply maskIban_clean|]. intros v. unfold harmless.
    by intros [?%negb_true_iff _]%andb_true_iff.
  - unfold words. rewrite words_from_word by done. change ("" +:+ w) with w. destruct (non_empty w); constructor; [done|constructor].
Qed.

Lemma mask_digits_word_pass w :
  all_chars is_word w = true → iban_word w = false → clean (mask_digits_word w).
Proof.
  intros Hw Hi. unfold mask_digits_word. destruct (long_digits w) eqn:Hl; [apply maskPartial_clean; lia|].
  unfold clean, words. rewrite words_from_word by done. change ("" +:+ w) with w.
  destruct (non_empty w); constructor; [|constructor]. unfold harmless. by rewrite Hi, Hl.
Qed.

Lemma words_from_chars word text :
  all_chars is_word word = true → Forall (λ w, all_chars is_word w = true) (words_from word text).
Proof.
  revert word. induction text as [|c text IH]; intros word Hword; simpl.
  - destruct (non_empty word); constructor; [done|constructor].
  - destruct (is_word c) eqn:Hc.
    + apply IH. rewrite all_chars_app, Hword. simpl. by rewrite Hc.
    + apply Forall_app. split; [destruct (non_empty word); constructor; [done|constructor]|by apply IH].
Qed.

Lemma Forall_words_replace (P Q : string → Prop) f text :
  f EmptyString = EmptyString → Forall P (words text) →
  (∀ w, P w → Forall Q (words (f w))) → Forall Q (words (replace_words f EmptyString text)).
Proof.
  intros Hf Hall Hstep. rewrite words_replace by done. fold (words text).
  induction Hall as [|w ws Hw Hall IH]; simpl; [constructor|]. apply Forall_app. split; [by apply Hstep|done].
Qed.

Lemma maskFreeText_clean text : clean (maskFreeText text).
Proof.
  unfold maskFreeText, clean.
  apply (Forall_words_replace (λ w, all_chars is_word w = true ∧ iban_word w = false)); [done| |].
  - assert (Hchars := words_from_chars "" (replace_words mask_iban_word "" text) eq_refl).
    fold (words (replace_words mask_iban_word "" text)) in Hchars.
    assert (Hno : Forall (λ w, iban_word w = false) (words (replace_words mask_iban_word "" text))).
    { apply (Forall_words_replace (λ w, all_chars is_word w = true)); [done|by apply words_from_chars|].
      apply mask_iban_word_pass. }
    by apply Forall_and.
  - intros w [Hw Hi]. by apply mask_digits_word_pass.
Qed.

Lemma replace_words_id f word text :
  f EmptyString = EmptyString → Forall (λ w, f w = w) (words_from word text) →
  replace_words f word text = word +:+ text.
Proof.
  intros Hf. revert word. induction text as [|c text IH]; intros word Hall; simpl in *.
  - rewrite append_empty. destruct word; [done|]. by inversion_clear Hall.
  - destruct (is_word c).
    + rewrite IH by done. by rewrite append_assoc.
    + apply Forall_app in Hall as [Hw Hall]. rewrite (IH EmptyString Hall).
      assert (Hword : f word = word) by (destruct word; [done|by inversion_clear Hw]).
      by rewrite Hword.
Qed.

Lemma maskFreeText_id text : clean text → maskFreeText text = text.
Proof.
  intros Hclean.
  assert (Hone : ∀ f : string → string, f EmptyString = EmptyString →
            (∀ w, harmless w = true → f w = w) → replace_words f EmptyString text = text).
  { intros f Hf Hid. apply replace_words_id; [done|]. eapply Forall_impl; [exact Hclean|]. exact Hid. }
  unfold maskFreeText. rewrite (Hone mask_iban_word), (Hone mask_digits_word); [done|done| |done|];
    intros w [?%negb_true_iff ?%negb_true_iff]%andb_true_iff.
  - unfold mask_digits_word. by destruct (long_digits w).
  - unfold mask_iban_word. by destruct (iban_word w).
Qed.

(** ** Objects *)

(** Induction through the lists of items and of entries. *)
Section Json_induction.
Context (P : Json → Prop).
Hypotheses (Hundefined : P JUndefined) (Hnull : P JNull) (Hboolean : ∀ b, P (JBoolean b))
  (Hnumber : ∀ text, P (JNumber text)) (Hstring : ∀ s, P (JString s))
  (Harray : ∀ items, Forall P items → P (JArray items))
  (Hobject : ∀ entries, Forall (λ entry, P entry.2) entries → P (JObject entries)).

Fixpoint Json_induction (j : Json) : P j :=
  match j with
  | JUndefined => Hundefined
  | JNull => Hnull
  | JBoolean b => Hboolean b
  | JNumber text => Hnumber text
  | JString s => Hstring s
  | JArray items =>
      Harray items ((fix all (l : list Json) : Forall P l :=
        match l with
        | [] => @Forall_nil_2 _ P
        | j :: l => @Forall_cons_2 _ P j l (Json_induction j) (all l)
        end) items)
  | JObject entries =>
      Hobject entries ((fix all (l : list (string * Json)) : Forall (λ entry, P entry.2) l :=
        match l with
        | [] => @Forall_nil_2 _ (λ entry, P entry.2)
        | (k, j) :: l => @Forall_cons_2 _ (λ entry, P entry.2) (k, j) l (Json_induction j) (all l)
        end) entries)
  end.
End Json_induction.

(** The texts of a value, and the length of its arrays, which JavaScript bounds. *)
Fixpoint texts (j : Json) : list string :=
  match j with
  | JString s => [s]
  | JArray items => flat_map texts items
  | JObject entries => flat_map (λ entry, let '(_, j) := entry in texts j) entries
  | _ => []
  end.

Fixpoint array_lengths (j : Json) : list nat :=
  match j with
  | JArray items => length items :: flat_map array_lengths items
  | JObject entries => flat_map (λ entry, let '(_, j) := entry in array_lengths j) entries
  | _ => []
  end.

Lemma pretty_N_length k x s : (x < 10 ^ N.of_nat k)%N →
  (String.length (pretty_N_go x s) <= k + String.length s)%nat.
Proof.
  revert x s. induction k as [|k IH]; intros x s Hx.
  - assert (x = 0%N) as -> by (simpl in Hx; lia). by rewrite pretty_N_go_0.
  - destruct (decide (x = 0%N)) as [->|Hne]; [rewrite pretty_N_go_0; lia|].
    rewrite pretty_N_go_step by lia. etrans; [apply IH|simpl; lia].
    apply N.Div0.div_lt_upper_bound. rewrite Nat2N.inj_succ, N.pow_succ_r' in Hx. exact Hx.
Qed.

Lemma pretty_Z_length z : 0 <= z < 10 ^ 12 → (String.length (pretty z) <= 12)%nat.
Proof.
  intros Hz. destruct z as [|q|q]; [simpl; lia| |lia].
  change (String.length (pretty (N.pos q)) <= 12)%nat. unfold pretty, pretty_N.
  destruct (decide _); [simpl; lia|]. etrans; [apply (pretty_N_length 12)|simpl; lia].
  apply N2Z.inj_lt. rewrite N2Z.inj_pow. exact (proj2 Hz).
Qed.

Lemma marker_clean n :
  Z.of_nat n < 10 ^ 12 → clean ("[... " +:+ pretty (Z.of_nat n) +:+ " elements supplementaires]").
Proof.
  intros Hn. unfold clean.
  change ("[... " +:+ pretty (Z.of_nat n) +:+ " elements supplementaires]") with
    ("[..." +:+ String " " (pretty (Z.of_nat n) +:+ String " " "elements supplementaires]")).
  rewrite !words_cut by done. apply Forall_app. split; [constructor|]. apply Forall_app. split.
  - apply short_clean, pretty_Z_length. lia.
  - by apply (bool_decide_unpack _).
Qed.

Lemma maskByKey_clean key value : maskByKey key value ≠ value → clean (maskByKey key value).
Proof.
  unfold maskByKey. repeat case_bool_decide; intros Hne;
    [apply redacted_clean|apply maskIban_clean|apply maskPartial_clean; lia|done].
Qed.

Lemma Forall_flat_map {A B} (P : B → Prop) (f : A → list B) l :
  Forall P (flat_map f l) ↔ Forall (λ x, Forall P (f x)) l.
Proof.
  induction l as [|x l IH]; simpl; [split; constructor|]. by rewrite Forall_app, Forall_cons, IH.
Qed.

(** What may appear in place of a value never holds an account number. *)
Definition shows_no_account (j : Json) : Prop := Forall clean (texts j).
Definition js_arrays (j : Json) : Prop := Forall (λ n, Z.of_nat n < 10 ^ 12) (array_lengths j).

Lemma entry_masked key value depth :
  (js_arrays value → ∀ depth, shows_no_account (maskDeep depth value)) → js_arrays value →
  shows_no_account
    (match value with
     | JString value =>
         let masked := maskByKey key value in
         JString (if str_eqb masked value then maskFreeText value else masked)
     | value =>
         if bool_decide (normalizeKey key ∈ REDACTED_KEYS) then JString REDACTED
         else maskDeep depth value
     end).
Proof.
  intros IH Hsized. assert (Hred : shows_no_account (JString REDACTED)).
  { constructor; [apply redacted_clean|constructor]. }
  destruct value; try (case_bool_decide; [exact Hred|by apply IH]).
  constructor; [|constructor]. destruct (str_eqb _ _) eqn:Heq; [apply maskFreeText_clean|].
  apply maskByKey_clean. intros H. by rewrite H, str_eqb_refl in Heq.
Qed.

Lemma maskDeep_clean j : js_arrays j → ∀ depth, shows_no_account (maskDeep depth j).
Proof.
  unfold shows_no_account, js_arrays.
  induction j as [| |b|text|s|items IH|entries IH] using Json_induction; intros Hsized depth;
    cbn [maskDeep]; try (destruct (Nat.ltb MAX_DEPTH depth); [constructor; [apply short_clean; simpl; lia|constructor]|]);
    try (by constructor).
  - constructor; [apply maskFreeText_clean|constructor].
  - cbn [array_lengths] in Hsized. apply Forall_cons in Hsized as [Hlen Hsized].
    apply Forall_flat_map in Hsized. cbn [texts]. apply Forall_flat_map, Forall_app. split.
    + apply Forall_take, Forall_map. rewrite Forall_forall in *. intros j Hj. by apply IH, Hsized.
    + destruct (Nat.ltb _ _); constructor; [|constructor]. constructor; [|constructor].
      apply marker_clean. lia.
  - cbn [array_lengths] in Hsized. apply Forall_flat_map in Hsized. cbn [texts].
    apply Forall_flat_map, Forall_map. rewrite Forall_forall in *. intros [key value] Hin.
    specialize (IH _ Hin). specialize (Hsized _ Hin). by apply entry_masked.
Qed.

(** * Properties *)

(** What is logged of a request has no word that reads as an account.  In the masked body, at any
    depth, no text has a word that reads as an IBAN or as a number of 13 digits or more;
    the value of a secret key is the redaction mark, whatever it was.  A free text is
    changed only where it has such a word. *)
Theorem masked_body_shows_no_account body :
  js_arrays body →
  shows_no_account (maskDeep 0 body)
  ∧ (∀ key value, normalizeKey key ∈ REDACTED_KEYS →
       maskDeep 0 (JObject [(key, value)]) = JObject [(key, JString REDACTED)])
  ∧ ∀ text, clean (maskFreeText text) ∧ (clean text → maskFreeText text = text).
Proof.
  intros Hsized. split_and!; [by apply maskDeep_clean| |intros text; split; [apply maskFreeText_clean|apply maskFreeText_id]].
  intros key value Hkey.
  assert (Hmask : ∀ s, maskByKey key s = REDACTED) by (intros s; unfold maskByKey; by rewrite bool_decide_eq_true_2).
  destruct value; cbn [maskDeep List.map Nat.ltb MAX_DEPTH]; try by rewrite bool_decide_eq_true_2.
  rewrite Hmask. destruct (str_eqb REDACTED s) eqn:Heq; [|done].
  apply str_eqb_spec in Heq as <-. by rewrite maskFreeText_id by apply redacted_clean.
Qed.

(** * Witness *)

Definition sample_body : Json :=
  JObject [("creditorIban", JString "FR7630006000011234567890189");
           ("label", JString "loyer FR7630006000011234567890189");
           ("auth", JObject [("token", JNumber "42")]);
           ("tags", JArray (replicate 30 (JString "4111111111111111")))].

Lemma masked_body_shows_no_account_witness : shows_no_account (maskDeep 0 sample_body).
Proof.
  apply (masked_body_shows_no_account sample_body).
  apply (bool_decide_unpack _). vm_compute. exact I.
Defined.

Example sample_body_masked :
  take 3 (match maskDeep 0 sample_body with JObject entries => entries | _ => [] end)
  = [("creditorIban", JString "FR76****0189"); ("label", JString "loyer FR76****0189");
     ("auth", JObject [("token", JString REDACTED)])].
Proof. vm_compute. reflexivity. Qed.
