(* ===== verification/Responses.v ===== *)
(** What the API shows of a payment and of a fact:
    [src/transactions/dto/transfer-response.dto.ts],
    [src/mobile-money/dto/mobile-money-response.dto.ts],
    [src/events/dto/transaction-event-response.dto.ts] and
    [src/refunds/dto/refund-response.dto.ts].

    Storage keeps the account numbers; a response carries their masked form.  A response
    is a record of the fields the source assigns; [updatedAt], which the entities of this
    development do not carry, is left out. *)
From S2P Require Import Prelude Text Domain EventXml Ledger EventLedger Masking Transfers.
Open Scope Z_scope.

(** * Transfers *)

Record SoapExchangeSummaryDto := mkSoapExchangeSummaryDto {
  ss_operation : option string;
  ss_durationMs : option Z;
  ss_attempts : option Z;
  ss_faultCode : option string;
  ss_faultString : option string
}.

Record TransferResponseDto := mkTransferResponseDto {
  tr_reference : string;
  tr_status : TransactionStatus;
  tr_debtorIbanMasked : string;
  tr_debtorName : option string;
  tr_creditorIbanMasked : string;
  tr_creditorName : string;
  tr_amount : Z;
  tr_currency : string;
  tr_endToEndLabel : option string;
  tr_amountInWords : option string;
  tr_failureReason : option string;
  tr_soap : SoapExchangeSummaryDto;
  tr_correlationId : string;
  tr_processedAt : option string;
  tr_createdAt : string
}.

Definition transfer_response (t : Transaction) : TransferResponseDto := {|
  tr_reference := tx_reference t;
  tr_status := tx_status t;
  tr_debtorIbanMasked := maskIban (tx_debtorIban t);
  tr_debtorName := tx_debtorName t;
  tr_creditorIbanMasked := maskIban (tx_creditorIban t);
  tr_creditorName := tx_creditorName t;
  tr_amount := tx_amount t;
  tr_currency := tx_currency t;
  tr_endToEndLabel := tx_endToEndLabel t;
  tr_amountInWords := tx_amountInWords t;
  tr_failureReason := tx_failureReason t;
  tr_soap := mkSoapExchangeSummaryDto (tx_soapOperation t) (tx_soapDurationMs t)
    (tx_soapAttempts t) (tx_faultCode t) (tx_faultString t);
  tr_correlationId := tx_correlationId t;
  tr_processedAt := toISOString <$> tx_processedAt t;
  tr_createdAt := toISOString (tx_createdAt t)
|}.

(** [PaginatedTransfersDto], once its items are masked. *)
Record TransfersPage := mkTransfersPage {
  tp_items : list TransferResponseDto;
  tp_total : nat;
  tp_page : nat;
  tp_limit : nat;
  tp_pages : nat
}.

Definition page_response (page : PaginatedTransfersDto) : TransfersPage :=
  mkTransfersPage (transfer_response <$> pt_items page) (pt_total page) (pt_page page)
    (pt_limit page) (pt_pages page).

(** * Mobile Money *)

Record MobileMoneyResponseDto := mkMobileMoneyResponseDto {
  mr_reference : string;
  mr_aggregatorReference : option string;
  mr_status : TransactionStatus;
  mr_operator : option MobileMoneyOperator;
  mr_payerMsisdnMasked : string;
  mr_providerStatus : option ProviderStatus;
  mr_bankStatus : option BankProcessingStatus;
  mr_reconciliationStatus : option ReconciliationStatus;
  mr_refundStatus : RefundStatus;
  mr_caseStatus : CaseStatus;
  mr_caseReason : option string;
  mr_creditorIbanMasked : string;
  mr_creditorName : string;
  mr_amount : Z;
  mr_currency : string;
  mr_amountInWords : option string;
  mr_reconciliationReason : option string;
  mr_failureReason : option string;
  mr_anchored : bool;
  mr_createdAt : string
}.

(** [maskPartial] of no number reads the length of [null]: a [TypeError]. *)
Definition mobile_money_response (t : Transaction) : Outcome GatewayError MobileMoneyResponseDto :=
  match tx_payerMsisdn t with
  | None => Throw (PlainError "Cannot read properties of null (reading 'length')")
  | Some payerMsisdn => Return {|
      mr_reference := tx_reference t;
      mr_aggregatorReference := tx_aggregatorReference t;
      mr_status := tx_status t;
      mr_operator := tx_mobileMoneyOperator t;
      mr_payerMsisdnMasked := maskPartial payerMsisdn 3 2;
      mr_providerStatus := tx_providerStatus t;
      mr_bankStatus := tx_bankStatus t;
      mr_reconciliationStatus := tx_reconciliationStatus t;
      mr_refundStatus := tx_refundStatus t;
      mr_caseStatus := tx_caseStatus t;
      mr_caseReason := tx_caseReason t;
      mr_creditorIbanMasked := maskIban (tx_creditorIban t);
      mr_creditorName := tx_creditorName t;
      mr_amount := tx_amount t;
      mr_currency := tx_currency t;
      mr_amountInWords := tx_amountInWords t;
      mr_reconciliationReason := tx_reconciliationReason t;
      mr_failureReason := tx_failureReason t;
      mr_anchored := is_eq (tx_anchorStatus t) AnchorStatus.ANCHORED;
      mr_createdAt := toISOString (tx_createdAt t)
    |}
  end.

(** * Facts *)

(** [er_safe] is the fact without the three omitted fields. *)
Record TransactionEventResponseDto := mkTransactionEventResponseDto {
  er_safe : SerializableEvent;
  er_fingerprint : string;
  er_anchorStatus : AnchorStatus;
  er_batchId : option string;
  er_leafIndex : option Z;
  er_merkleProof : option (list string);
  er_createdAt : Z;
  er_debtorIbanMasked : option string;
  er_creditorIbanMasked : option string
}.

Definition event_response (e : TransactionEvent) : TransactionEventResponseDto := {|
  er_safe := (ev_data e) <| se_debtorIban := None |> <| se_creditorIban := None |>;
  er_fingerprint := ev_fingerprint e;
  er_anchorStatus := ev_anchorStatus e;
  er_batchId := ev_batchId e;
  er_leafIndex := ev_leafIndex e;
  er_merkleProof := ev_merkleProof e;
  er_createdAt := ev_createdAt e;
  er_debtorIbanMasked := maskIban <$> se_debtorIban (ev_data e);
  er_creditorIbanMasked := maskIban <$> se_creditorIban (ev_data e)
|}.

(** * Refunds *)

(** The key sent to the provider stays inside; [id] and [createdAt], which the entity of
    this development does not carry, are left out. *)
Record RefundResponseDto := mkRefundResponseDto {
  rr_transactionReference : string;
  rr_status : RefundStatus;
  rr_amount : Z;
  rr_currency : string;
  rr_reason : option string;
  rr_providerRefundReference : option string;
  rr_attempts : Z;
  rr_lastError : option string;
  rr_requestedAt : option Z;
  rr_completedAt : option Z;
  rr_createdBy : option string;
  rr_lastRequestedBy : option string;
  rr_lastApprovedBy : option string;
  rr_correlationId : string;
  rr_updatedAt : Z
}.

Definition refund_response (refund : Refund) : RefundResponseDto := {|
  rr_transactionReference := rf_transactionReference refund;
  rr_status := rf_status refund;
  rr_amount := rf_amount refund;
  rr_currency := rf_currency refund;
  rr_reason := rf_reason refund;
  rr_providerRefundReference := rf_providerRefundReference refund;
  rr_attempts := rf_attempts refund;
  rr_lastError := rf_lastError refund;
  rr_requestedAt := rf_requestedAt refund;
  rr_completedAt := rf_completedAt refund;
  rr_createdBy := rf_createdBy refund;
  rr_lastRequestedBy := rf_lastRequestedBy refund;
  rr_lastApprovedBy := rf_lastApprovedBy refund;
  rr_correlationId := rf_correlationId refund;
  rr_updatedAt := rf_updatedAt refund
|}.

(** * What a response tells *)

(** Two account numbers the mask does not tell apart: spaces aside, at least eight
    characters, the same four first and the same four last. *)
Definition same_ends (a b : string) : Prop :=
  let a := remove_chars is_space a in
  let b := remove_chars is_space b in
  (8 <= String.length a)%nat ∧ (8 <= String.length b)%nat
  ∧ slice_start 4 a = slice_start 4 b ∧ slice_end 4 a = slice_end 4 b.

(** Two phone numbers: more than five characters, the same three first and two last. *)
Definition same_phone_ends (a b : string) : Prop :=
  (5 < String.length a)%nat ∧ (5 < String.length b)%nat
  ∧ slice_start 3 a = slice_start 3 b ∧ slice_end 2 a = slice_end 2 b.

#[export] Instance same_ends_dec a b : Decision (same_ends a b).
Proof. unfold same_ends. apply _. Defined.
#[export] Instance same_phone_ends_dec a b : Decision (same_phone_ends a b).
Proof. unfold same_phone_ends. apply _. Defined.

Lemma maskIban_ends a b : same_ends a b → maskIban a = maskIban b.
Proof.
  intros (Ha & Hb & Hs & He). unfold maskIban.
  rewrite !(proj2 (Nat.ltb_ge _ _)) by done. by rewrite Hs, He.
Qed.

Lemma maskPartial_ends a b : same_phone_ends a b → maskPartial a 3 2 = maskPartial b 3 2.
Proof.
  intros (Ha & Hb & Hs & He). unfold maskPartial.
  rewrite !(proj2 (Nat.leb_gt _ _)) by (simpl; lia). by rewrite Hs, He.
Qed.

(** A payment between these accounts, paid from this phone; a fact that seals them. *)
Definition payment_between (debtor creditor payer : string) (t : Transaction) : Transaction :=
  t <| tx_debtorIban := debtor |> <| tx_creditorIban := creditor |> <| tx_payerMsisdn := Some payer |>.
Definition fact_between (debtor creditor salt : string) (e : TransactionEvent) : TransactionEvent :=
  e <| ev_data := (ev_data e) <| se_debtorIban := Some debtor |> <| se_creditorIban := Some creditor |> |>
    <| ev_fingerprintSalt := salt |>.

(** The API tells of the accounts only their ends.  Two payments that differ by their
    account numbers and by the number of the payer, with the same visible ends, have the
    same responses, on both routes; two facts that differ by the account numbers they
    seal, with the same ends, and by their salt have the same response; two refunds that
    differ by the key given to the provider have the same response: neither the middle of
    an account number, nor a salt, nor a key can be learnt from an answer. *)
Theorem responses_hide_parties t e r debtor debtor' creditor creditor' payer payer' salt salt' key key' :
  same_ends debtor debtor' → same_ends creditor creditor' → same_phone_ends payer payer' →
  transfer_response (payment_between debtor creditor payer t)
    = transfer_response (payment_between debtor' creditor' payer' t)
  ∧ mobile_money_response (payment_between debtor creditor payer t)
    = mobile_money_response (payment_between debtor' creditor' payer' t)
  ∧ event_response (fact_between debtor creditor salt e)
    = event_response (fact_between debtor' creditor' salt' e)
  ∧ refund_response (r <| rf_providerIdempotencyKey := key |>)
    = refund_response (r <| rf_providerIdempotencyKey := key' |>).
Proof.
  intros Hd%maskIban_ends Hc%maskIban_ends Hp%maskPartial_ends.
  unfold transfer_response, mobile_money_response, event_response, payment_between, fact_between.
  simpl. by rewrite Hd, Hc, Hp.
Qed.

(** * Witness *)

Lemma responses_hide_parties_witness :
  transfer_response (payment_between "FR7600000000000000000000189" "CG39 1234 5678" "243810000042" sample_payment)
  = transfer_response (payment_between "FR76 3000 6000 0112 3456 7890 189" "CG39555678" "243899999942" sample_payment).
Proof.
  apply (responses_hide_parties sample_payment (sealed_row sample_confirmation "" "" 0)
    (mkRefund "" RefundStatus.REQUIRED 0 "" None "" None 0 None true None None None None None "" 0)
    _ _ _ _ _ _ "" "" "" "").
  - unfold same_ends. vm_compute. split_and!; try done; lia.
  - unfold same_ends. vm_compute. split_and!; try done; lia.
  - unfold same_phone_ends. vm_compute. split_and!; try done; lia.
Defined.
