(* ===== verification/Doubles.v ===== *)
(** Rounding to doubles: lemmas on [double_of] of [Numbers].

    A positive number is between two powers of two, and its double is the nearest multiple
    of the unit of that binade; a number close enough to a double is rounded to it; texts of
    17 digits tell doubles apart. *)
From S2P Require Import Prelude Money Numbers.
From Stdlib Require Import Qpower.
Open Scope Z_scope.

(** * Powers *)

Lemma pos_inverse z : 0 < z → (1 # Z.to_pos z == / inject_Z z)%Q.
Proof. destruct z; done. Qed.

Lemma power_spec (b p : Z) :
  0 < b →
  ((if 0 <=? p then inject_Z (b ^ p) else 1 # Z.to_pos (b ^ (- p))) == inject_Z b ^ p)%Q.
Proof.
  intros Hb. destruct (Z.leb_spec 0 p); [by apply Zpower_Qpower|].
  rewrite pos_inverse by (apply Z.pow_pos_nonneg; lia). rewrite Zpower_Qpower by lia.
  rewrite <- Qpower_opp. by rewrite Z.opp_involutive.
Qed.

Lemma pow2_spec p : (pow2 p == 2 ^ p)%Q.
Proof. exact (power_spec 2 p ltac:(lia)). Qed.
Lemma pow10_spec p : (pow10 p == 10 ^ p)%Q.
Proof. exact (power_spec 10 p ltac:(lia)). Qed.

Lemma pow2_pos p : (0 < pow2 p)%Q.
Proof. rewrite pow2_spec. by apply Qpower_0_lt. Qed.
Lemma pow10_pos p : (0 < pow10 p)%Q.
Proof. rewrite pow10_spec. by apply Qpower_0_lt. Qed.

Lemma pow2_add p r : (pow2 (p + r) == pow2 p * pow2 r)%Q.
Proof. rewrite !pow2_spec. by apply Qpower_plus. Qed.
Lemma pow10_add p r : (pow10 (p + r) == pow10 p * pow10 r)%Q.
Proof. rewrite !pow10_spec. by apply Qpower_plus. Qed.

Lemma pow2_le p r : p <= r → (pow2 p <= pow2 r)%Q.
Proof. intros H. rewrite !pow2_spec. by apply Qpower_le_compat_l. Qed.
Lemma pow10_le p r : p <= r → (pow10 p <= pow10 r)%Q.
Proof. intros H. rewrite !pow10_spec. by apply Qpower_le_compat_l. Qed.
Lemma pow2_lt_inv p r : (pow2 p < pow2 r)%Q → p < r.
Proof. rewrite !pow2_spec. intros H. by apply (Qpower_lt_compat_l_inv 2 p r). Qed.
Lemma pow10_lt_inv p r : (pow10 p < pow10 r)%Q → p < r.
Proof. rewrite !pow10_spec. intros H. by apply (Qpower_lt_compat_l_inv 10 p r). Qed.

Lemma pow2_inverse p : (pow2 p * pow2 (- p) == 1)%Q.
Proof. rewrite <- pow2_add. by rewrite Z.add_opp_diag_r. Qed.
Lemma pow10_inverse p : (pow10 p * pow10 (- p) == 1)%Q.
Proof. rewrite <- pow10_add. by rewrite Z.add_opp_diag_r. Qed.

Lemma pow2_Z p : 0 <= p → pow2 p = inject_Z (2 ^ p).
Proof. intros H. unfold pow2. by rewrite (proj2 (Z.leb_le 0 p)). Qed.

(** * The binade of a number *)

Lemma exponent_spec q : (0 < q)%Q → (pow2 (exponent q) <= q ∧ q < pow2 (exponent q + 1))%Q.
Proof.
  destruct q as [a d]. intros Hq. assert (Ha : 0 < a) by (unfold Qlt in Hq; simpl in Hq; lia).
  unfold exponent. cbn [Qnum Qden].
  destruct (Z.log2_spec a Ha) as [Ha1 Ha2], (Z.log2_spec (Zpos d) ltac:(lia)) as [Hd1 Hd2].
  pose proof (Z.log2_nonneg a). pose proof (Z.log2_nonneg (Zpos d)).
  set (la := Z.log2 a) in *. set (ld := Z.log2 (Zpos d)) in *.
  assert (Hqd : (a # d) * inject_Z (Zpos d) == inject_Z a).
  { unfold Qeq, Qmult, inject_Z. simpl. lia. }
  rewrite Zle_Qle in Ha1, Hd1. rewrite Zlt_Qlt in Ha2, Hd2.
  rewrite <- Z.add_1_r in Ha2, Hd2. rewrite <- !pow2_Z in Ha1, Ha2, Hd1, Hd2 by lia.
  assert (Hlow : (pow2 (la - ld - 1) <= a # d)%Q).
  { apply (Qmult_le_r _ _ (inject_Z (Zpos d))); [done|]. rewrite Hqd.
    apply Qle_trans with (pow2 la); [|done]. replace la with ((la - ld - 1) + (ld + 1)) at 2 by lia.
    rewrite pow2_add. apply Qmult_le_l; [apply pow2_pos|by apply Qlt_le_weak]. }
  assert (Hhigh : ((a # d) < pow2 (la - ld + 1))%Q).
  { apply (Qmult_lt_r _ _ (inject_Z (Zpos d))); [done|]. rewrite Hqd.
    apply Qlt_le_trans with (pow2 (la + 1)); [done|]. replace (la + 1) with ((la - ld + 1) + ld) by lia.
    rewrite pow2_add. apply Qmult_le_l; [apply pow2_pos|done]. }
  destruct (Qle_bool (pow2 (la - ld)) (a # d)) eqn:E.
  - by apply Qle_bool_iff in E.
  - split; [done|]. apply not_true_iff_false in E. rewrite Qle_bool_iff in E.
    replace (la - ld - 1 + 1) with (la - ld) by lia. by apply Qnot_le_lt.
Qed.

Lemma exponent_unique q e : (pow2 e <= q)%Q → (q < pow2 (e + 1))%Q → exponent q = e.
Proof.
  intros Hl Hh. assert (Hq : (0 < q)%Q) by (eapply Qlt_le_trans; [apply pow2_pos|exact Hl]).
  destruct (exponent_spec q Hq) as [Hl' Hh'].
  assert (exponent q < e + 1) by (apply pow2_lt_inv; eapply Qle_lt_trans; done).
  assert (e < exponent q + 1) by (apply pow2_lt_inv; eapply Qle_lt_trans; done). lia.
Qed.

(** * Rounding *)

Lemma Qfloor_bounds q : (inject_Z (Qfloor q) <= q ∧ q < inject_Z (Qfloor q) + 1)%Q.
Proof. split; [apply Qfloor_le|]. pose proof (Qlt_floor q) as H. by rewrite inject_Z_plus in H. Qed.

Lemma round_even_error q :
  (inject_Z (round_even q) - (1 # 2) <= q ∧ q <= inject_Z (round_even q) + (1 # 2))%Q.
Proof.
  destruct (Qfloor_bounds q) as [Hl Hh]. unfold round_even.
  destruct (Qcompare_spec (q - inject_Z (Qfloor q)) (1 # 2)); [destruct (Z.even _)|..];
    rewrite ?inject_Z_plus; change (inject_Z 1) with 1%Q; split; lra.
Qed.

Lemma below_next a b : (inject_Z a < inject_Z b + 1)%Q → a <= b.
Proof.
  intros H. apply Z.lt_succ_r. rewrite Zlt_Qlt. unfold Z.succ. by rewrite inject_Z_plus.
Qed.

Lemma next_below a b : a < b → (inject_Z a + 1 <= inject_Z b)%Q.
Proof. intros H. assert (Ha : a + 1 <= b) by lia. rewrite Zle_Qle in Ha. by rewrite inject_Z_plus in Ha. Qed.

(** Two integers less than one apart are equal. *)
Lemma integers_apart a b :
  (inject_Z a - inject_Z b < 1)%Q → (inject_Z b - inject_Z a < 1)%Q → a = b.
Proof.
  intros H1 H2. assert (a <= b) by (apply below_next; lra). assert (b <= a) by (apply below_next; lra). lia.
Qed.

Lemma round_even_near q z :
  (inject_Z z - (1 # 2) < q)%Q → (q < inject_Z z + (1 # 2))%Q → round_even q = z.
Proof.
  intros H1 H2. destruct (round_even_error q) as [Hl Hh]. apply integers_apart; lra.
Qed.

Lemma round_even_range q (a b : Z) :
  (inject_Z a <= q)%Q → (q <= inject_Z b)%Q → a <= round_even q <= b.
Proof.
  intros Ha Hb. destruct (round_even_error q) as [Hl Hh].
  split; apply below_next; lra.
Qed.

(** The unit in the last place of the binade of a number. *)
Definition unit_of (q : Q) : Z := Z.max (exponent q - 52) (-1074).

(** A positive number that is not too large is rounded to a multiple of its unit. *)
Lemma double_of_positive q :
  (0 < q)%Q →
  (inject_Z (round_even (q * pow2 (- unit_of q))) * pow2 (unit_of q) < pow2 1024)%Q →
  ∃ d, double_of q = Num (Qred d)
    ∧ d = (inject_Z (round_even (q * pow2 (- unit_of q))) * pow2 (unit_of q))%Q.
Proof.
  intros Hq Hsmall. destruct q as [a d]. assert (Ha : 0 < a) by (unfold Qlt in Hq; simpl in Hq; lia).
  eexists. split; [|reflexivity]. unfold double_of. cbn [Qnum Qden].
  rewrite (proj2 (Z.eqb_neq a 0)), (proj2 (Z.ltb_ge a 0)), Z.abs_eq by lia. cbv zeta.
  fold (unit_of (a # d)).
  destruct (Qle_bool (pow2 1024) _) eqn:E; [|done].
  apply Qle_bool_iff in E. exfalso. by apply (Qlt_not_le _ _ Hsmall).
Qed.

Lemma unscale x u : (x * pow2 (- u) * pow2 u == x)%Q.
Proof. by rewrite <- Qmult_assoc, (Qmult_comm (pow2 (- u))), pow2_inverse, Qmult_1_r. Qed.

Lemma scaled_above x u a : (a * pow2 u < x)%Q → (a < x * pow2 (- u))%Q.
Proof. intros H. apply (Qmult_lt_r _ _ (pow2 u)); [apply pow2_pos|]. by rewrite unscale. Qed.
Lemma scaled_below x u a : (x < a * pow2 u)%Q → (x * pow2 (- u) < a)%Q.
Proof. intros H. apply (Qmult_lt_r _ _ (pow2 u)); [apply pow2_pos|]. by rewrite unscale. Qed.

Lemma scaled_least x u a : (a * pow2 u <= x)%Q → (a <= x * pow2 (- u))%Q.
Proof. intros H. apply (Qmult_le_r _ _ (pow2 u)); [apply pow2_pos|]. by rewrite unscale. Qed.
Lemma scaled_most x u a : (x <= a * pow2 u)%Q → (x * pow2 (- u) <= a)%Q.
Proof. intros H. apply (Qmult_le_r _ _ (pow2 u)); [apply pow2_pos|]. by rewrite unscale. Qed.

(** A number near a double, in its binade, is rounded to it. *)
Lemma double_near m u x :
  2 ^ 52 <= m < 2 ^ 53 → - 1074 <= u <= 971 →
  (pow2 (u + 52) <= x)%Q → (x < pow2 (u + 53))%Q →
  ((inject_Z m - (1 # 2)) * pow2 u < x)%Q → (x < (inject_Z m + (1 # 2)) * pow2 u)%Q →
  double_of x = Num (Qred (inject_Z m * pow2 u)).
Proof.
  intros Hm Hu Hl Hh Hnear1 Hnear2.
  assert (He : exponent x = u + 52).
  { apply exponent_unique; [done|]. by replace (u + 52 + 1) with (u + 53) by lia. }
  assert (Hunit : unit_of x = u) by (unfold unit_of; rewrite He; lia).
  assert (Hround : round_even (x * pow2 (- u)) = m)
    by (apply round_even_near; [by apply scaled_above|by apply scaled_below]).
  destruct (double_of_positive x) as (d & Hd & ->).
  - eapply Qlt_le_trans; [apply pow2_pos|exact Hl].
  - rewrite Hunit, Hround. apply Qlt_le_trans with (pow2 53 * pow2 u)%Q.
    + apply Qmult_lt_r; [apply pow2_pos|]. rewrite pow2_Z by lia. rewrite <- Zlt_Qlt. lia.
    + rewrite <- pow2_add. apply pow2_le. lia.
  - by rewrite Hd, Hunit, Hround.
Qed.

(** The double of a normal number is [m * 2^u] with 53 bits of [m]. *)
Lemma double_of_normal q v :
  (0 < q)%Q → - 1022 <= exponent q → double_of q = Num v →
  ∃ m u, 2 ^ 52 <= m < 2 ^ 53 ∧ - 1074 <= u <= 971 ∧ (v == inject_Z m * pow2 u)%Q.
Proof.
  intros Hq He Hv. destruct (exponent_spec q Hq) as [Hl Hh].
  assert (Hunit : unit_of q = exponent q - 52) by (unfold unit_of; lia).
  set (u := exponent q - 52) in *. set (m := round_even (q * pow2 (- u))).
  assert (Hm : 2 ^ 52 <= m <= 2 ^ 53).
  { apply round_even_range.
    - apply scaled_least. rewrite <- pow2_Z, <- pow2_add by lia.
      by replace (52 + u) with (exponent q) by (unfold u; lia).
    - apply scaled_most. rewrite <- pow2_Z, <- pow2_add by lia. apply Qlt_le_weak.
      by replace (53 + u) with (exponent q + 1) by (unfold u; lia). }
  assert (Hsmall : (inject_Z m * pow2 u < pow2 1024)%Q).
  { destruct (Qlt_le_dec (inject_Z m * pow2 u) (pow2 1024)) as [?|Hbig]; [done|]. exfalso.
    revert Hv. unfold double_of. destruct q as [a d]. assert (Ha : 0 < a) by (unfold Qlt in Hq; simpl in Hq; lia).
    cbn [Qnum Qden]. rewrite (proj2 (Z.eqb_neq a 0)), (proj2 (Z.ltb_ge a 0)), Z.abs_eq by lia. cbv zeta.
    fold (unit_of (a # d)). rewrite Hunit. fold u m. by rewrite (proj2 (Qle_bool_iff _ _) Hbig). }
  assert (Hv' : (v == inject_Z m * pow2 u)%Q).
  { destruct (double_of_positive q Hq) as (d & Hd & ->); [by rewrite Hunit|].
    rewrite Hunit in Hd. fold m in Hd. rewrite Hv in Hd. injection Hd as ->. apply Qred_correct. }
  destruct (Z.eq_dec m (2 ^ 53)) as [Heq|Hne].
  - exists (2 ^ 52), (u + 1). split; [lia|]. split.
    + split; [unfold u; lia|]. rewrite Heq, <- pow2_Z, <- pow2_add in Hsmall by lia.
      apply pow2_lt_inv in Hsmall. lia.
    + rewrite Hv', Heq, <- !pow2_Z, <- !pow2_add by lia. by replace (53 + u) with (52 + (u + 1)) by lia.
  - exists m, u. split; [lia|]. split; [|done]. split; [unfold u; lia|].
    assert (Hlt : (pow2 (52 + u) < pow2 1024)%Q).
    { eapply Qle_lt_trans; [|exact Hsmall]. rewrite pow2_add. apply Qmult_le_r; [apply pow2_pos|].
      rewrite pow2_Z, <- Zle_Qle by lia. lia. }
    apply pow2_lt_inv in Hlt. lia.
Qed.

(** A double above the subnormals is the rounding of a normal number. *)
Lemma double_of_large q v :
  double_of q = Num v → (pow2 (- 1022) < v)%Q → (0 < q)%Q ∧ - 1022 <= exponent q.
Proof.
  intros Hv Hlarge. assert (Hpos : (0 < v)%Q) by (eapply Qlt_trans; [apply pow2_pos|exact Hlarge]).
  assert (Hq : (0 < q)%Q).
  { destruct (Qlt_le_dec 0 q) as [?|Hneg]; [done|]. exfalso. destruct q as [a d].
    unfold Qle in Hneg. simpl in Hneg. revert Hv. unfold double_of. cbn [Qnum Qden].
    destruct (Z.eqb_spec a 0) as [|Hne]; [by intros [= <-]|]. rewrite (proj2 (Z.ltb_lt a 0)) by lia. cbv zeta.
    destruct (Qle_bool _ _); [done|]. intros Hv. injection Hv as Hv. rewrite <- Hv, Qred_correct in Hpos.
    apply (Qlt_not_le _ _ Hpos). refine (Qopp_le_compat 0 _ _).
    apply Qmult_le_0_compat; [|apply Qlt_le_weak, pow2_pos]. change 0%Q with (inject_Z 0). rewrite <- Zle_Qle.
    assert (H0 : (inject_Z 0 <= (Z.abs a # d) * pow2 (- Z.max (exponent (Z.abs a # d) - 52) (-1074)))%Q)
      by (apply Qmult_le_0_compat; [unfold Qle; simpl; lia|apply Qlt_le_weak, pow2_pos]).
    destruct (round_even_error ((Z.abs a # d) * pow2 (- Z.max (exponent (Z.abs a # d) - 52) (-1074)))) as [_ Hr].
    apply below_next. change (inject_Z 0) with 0%Q in *. lra. }
  split; [done|]. destruct (Z.le_gt_cases (-1022) (exponent q)) as [?|He]; [done|]. exfalso.
  destruct (exponent_spec q Hq) as [_ Hh].
  assert (Hunit : unit_of q = -1074) by (unfold unit_of; lia).
  assert (Hm : round_even (q * pow2 1074) <= 2 ^ 52).
  { apply (round_even_range _ 0).
    - apply Qmult_le_0_compat; apply Qlt_le_weak; [done|apply pow2_pos].
    - rewrite <- pow2_Z by lia. change 1074 with (- (-1074)). apply scaled_most. rewrite <- pow2_add.
      apply Qlt_le_weak. eapply Qlt_le_trans; [exact Hh|]. apply pow2_le. lia. }
  assert (Hsmall : (inject_Z (round_even (q * pow2 1074)) * pow2 (-1074) <= pow2 (-1022))%Q).
  { replace (-1022) with (52 + -1074) by lia. rewrite pow2_add.
    apply Qmult_le_r; [apply pow2_pos|]. rewrite (pow2_Z 52) by lia. rewrite <- Zle_Qle. exact Hm. }
  destruct (double_of_positive q Hq) as (d & Hd & ->).
  - rewrite Hunit. eapply Qle_lt_trans; [exact Hsmall|]. rewrite !pow2_spec. by apply Qpower_lt_compat_l.
  - rewrite Hv, Hunit in Hd. injection Hd as ->. rewrite Qred_correct in Hlarge.
    by apply (Qlt_not_le _ _ Hlarge).
Qed.

(** * Equal rationals have the same double *)

#[export] Instance round_even_proper : Proper (Qeq ==> eq) round_even.
Proof.
  intros q r H. unfold round_even. assert (Hf : Qfloor q = Qfloor r) by by rewrite H.
  rewrite Hf.
  assert (Hfrac : (q - inject_Z (Qfloor r) == r - inject_Z (Qfloor r))%Q) by by rewrite H.
  by rewrite (Qcompare_comp _ _ Hfrac _ _ (Qeq_refl (1 # 2))).
Qed.

Lemma exponent_proper q r : (0 < q)%Q → (q == r)%Q → exponent q = exponent r.
Proof.
  intros Hq H. destruct (exponent_spec q Hq). symmetry. apply exponent_unique; by rewrite <- H.
Qed.

Lemma Qabs_nonzero q : Qnum q ≠ 0 → (0 < Z.abs (Qnum q) # Qden q)%Q.
Proof. intros H. unfold Qlt. simpl. lia. Qed.

#[export] Instance double_of_proper : Proper (Qeq ==> eq) double_of.
Proof.
  intros q r H.
  assert (Hzero : (Qnum q =? 0) = (Qnum r =? 0)) by (unfold Qeq in H; apply Bool.eq_iff_eq_true; rewrite !Z.eqb_eq; nia).
  assert (Hsign : (Qnum q <? 0) = (Qnum r <? 0)) by (unfold Qeq in H; apply Bool.eq_iff_eq_true; rewrite !Z.ltb_lt; nia).
  assert (Habs : ((Z.abs (Qnum q) # Qden q) == (Z.abs (Qnum r) # Qden r))%Q)
    by (unfold Qeq in *; cbn [Qnum Qden]; nia).
  unfold double_of. rewrite <- Hzero, <- Hsign. destruct (Z.eqb_spec (Qnum q) 0) as [|Hne]; [done|]. cbv zeta.
  rewrite <- (exponent_proper _ _ (Qabs_nonzero q Hne) Habs).
  rewrite <- (round_even_proper _ _ (Qmult_comp _ _ Habs _ _ (Qeq_refl _))). done.
Qed.

Lemma double_of_canonical q v : double_of q = Num v → Qred v = v.
Proof.
  unfold double_of. destruct (_ =? 0); [by intros [= <-]|]. cbv zeta.
  destruct (Qle_bool _ _); [done|]. intros H. injection H as <-. apply Qred_complete, Qred_correct.
Qed.

(** * How far a double is from the number *)

(** A number below [2^e] is at most half a unit of the binade below from its double. *)
Lemma double_error_below e q :
  0 <= e <= 1000 → (0 < q)%Q → (q < pow2 e)%Q →
  ∃ v, double_of q = Num v ∧ (0 <= v)%Q ∧ (q - pow2 (e - 54) <= v)%Q ∧ (v <= q + pow2 (e - 54))%Q.
Proof.
  intros He Hq Hlarge. destruct (exponent_spec q Hq) as [Hl _].
  assert (Hexp : exponent q < e) by (apply pow2_lt_inv; eapply Qle_lt_trans; done).
  assert (Hunit : (pow2 (unit_of q) <= 2 * pow2 (e - 54))%Q).
  { change 2%Q with (pow2 1). rewrite <- pow2_add. apply pow2_le. unfold unit_of. lia. }
  pose proof (pow2_pos (unit_of q)) as Hpos.
  destruct (round_even_error (q * pow2 (- unit_of q))) as [H1 H2].
  assert (Hu : (q * pow2 (- unit_of q) * pow2 (unit_of q) == q)%Q) by apply unscale.
  set (m := round_even _) in *. set (x := (q * pow2 (- unit_of q))%Q) in *.
  set (u := pow2 (unit_of q)) in *.
  set (error := pow2 (e - 54)) in *.
  assert (Hlow : (q - error <= inject_Z m * u)%Q) by nra.
  assert (Hhigh : (inject_Z m * u <= q + error)%Q) by nra.
  destruct (double_of_positive q Hq) as (d & Hd & Hval); fold x; fold m; fold u.
  - eapply Qle_lt_trans; [exact Hhigh|]. apply Qlt_le_trans with (pow2 (e + 1)); [|apply pow2_le; lia].
    assert (Hsplit : (pow2 (e + 1) == pow2 e + pow2 e)%Q).
    { rewrite pow2_add. change (pow2 1) with 2%Q. ring. }
    assert (error <= pow2 e)%Q by (apply pow2_le; lia). rewrite Hsplit. lra.
  - exists (Qred d). split; [done|]. rewrite Qred_correct, Hval. split_and!; [|done..].
    apply Qmult_le_0_compat; [|by apply Qlt_le_weak, pow2_pos]. change 0%Q with (inject_Z 0).
    rewrite <- Zle_Qle. apply below_next. fold x. fold m. change (inject_Z 0) with 0%Q.
    assert (0 < x)%Q by (by apply Qmult_lt_0_compat, pow2_pos). lra.
Qed.

(** Below [2^46] there are at least seven bits after the point. *)
Lemma double_error q :
  (0 < q)%Q → (q < pow2 46)%Q →
  ∃ v, double_of q = Num v ∧ (q - (1 # 256) <= v)%Q ∧ (v <= q + (1 # 256))%Q.
Proof.
  intros Hq Hlarge. destruct (double_error_below 46 q ltac:(lia) Hq Hlarge) as (v & Hv & _ & H). by exists v.
Qed.

(** ** The commission *)

(** The double of a number that may be zero. *)
Lemma double_close e q :
  0 <= e <= 1000 → (0 <= q)%Q → (q < pow2 e)%Q →
  (0 <= double q)%Q ∧ (q - pow2 (e - 54) <= double q)%Q ∧ (double q <= q + pow2 (e - 54))%Q.
Proof.
  intros He Hq Hlarge. pose proof (pow2_pos (e - 54)) as Hpos. unfold double.
  destruct (Qlt_le_dec 0 q) as [Hlt|Hle].
  - destruct (double_error_below e q He Hlt Hlarge) as (v & Hv & H). by rewrite Hv.
  - assert (Hz : (q == 0)%Q) by lra. rewrite (double_of_proper _ _ Hz). cbn. rewrite Hz. lra.
Qed.

(** The commission on less than ten billion is at most the amount, not negative, and within a
    half cent and a thousandth of the product. *)
Lemma roundToCent_bounds amount rate :
  0 <= amount < 2 ^ 40 → (0 <= rate)%Q → (rate <= 1)%Q →
  0 <= roundToCent amount rate <= amount
  ∧ ((amount # 1) * rate - (501 # 1000) <= inject_Z (roundToCent amount rate))%Q
  ∧ (inject_Z (roundToCent amount rate) <= (amount # 1) * rate + (501 # 1000))%Q.
Proof.
  intros [Ha1 Ha2] H0 H1. unfold roundToCent. cbv zeta.
  set (q := (amount # 100)%Q). assert (Hq : ((amount # 1) == q * 100)%Q) by (unfold q, Qeq; simpl; lia).
  assert (Hq0 : (0 <= q)%Q) by (unfold q, Qle; simpl; lia).
  assert (Hq1 : (q < pow2 34)%Q) by (unfold q, Qlt; simpl; lia).
  destruct (double_close 34 q ltac:(lia) Hq0 Hq1) as (Hx0 & Hx1 & Hx2). set (x := double q) in *.
  change (pow2 34) with (17179869184 # 1)%Q in *. change (pow2 (34 - 54)) with (1 # 1048576)%Q in *.
  destruct (double_close 35 (x * rate) ltac:(lia)) as (Hy0 & Hy1 & Hy2).
  { by apply Qmult_le_0_compat. }
  { change (pow2 35) with (34359738368 # 1)%Q. nra. }
  set (y := double (x * rate)) in *. change (pow2 (35 - 54)) with (1 # 524288)%Q in *.
  destruct (double_close 42 (y * 100) ltac:(lia)) as (Hz0 & Hz1 & Hz2).
  { lra. }
  { change (pow2 42) with (4398046511104 # 1)%Q. nra. }
  set (z := double (y * 100)) in *. change (pow2 (42 - 54)) with (1 # 4096)%Q in *.
  assert (Hlow : ((amount # 1) * rate - (1 # 1000) <= z)%Q) by (rewrite Hq; nra).
  assert (Hhigh : (z <= (amount # 1) * rate + (1 # 1000))%Q) by (rewrite Hq; nra).
  destruct (math_round_bounds z) as [Hr1 Hr2].
  assert (Hamount : ((amount # 1) * rate <= inject_Z amount)%Q).
  { change (inject_Z amount) with (amount # 1)%Q. nra. }
  split_and!; [| |lra..]; apply below_next; [change (inject_Z 0) with 0%Q|]; lra.
Qed.
