(* ===== verification/MonetaryAmount.v ===== *)
(** The validator of amounts: [src/common/validators/is-monetary-amount.validator.ts].

    A number of a request is a double; the validator reads the decimals of its text.  The
    text of a double, [Number.prototype.toString], has the fewest significant digits that
    read back as the double: the digits are searched for here as the language defines them,
    17 being always enough. *)
From S2P Require Import Prelude External EventXml Money Text Numbers Doubles.
Open Scope Z_scope.

(** * The text of a double *)

Fixpoint count_digits (fuel : nat) (z : Z) : Z :=
  match fuel with
  | O => 1
  | S fuel => if z <? 10 then 1 else 1 + count_digits fuel (z / 10)
  end.

(** The decimal digits of a positive integer. *)
Definition digit_count (z : Z) : Z := count_digits (Z.to_nat (Z.log2 z)) z.

(** The [n] with [10^(n-1) <= v < 10^n]; every positive double is above [10^-330]. *)
Definition decimal_exponent (v : Q) : Z :=
  if Qle_bool 1 v then digit_count (Qfloor v) else digit_count (Qfloor (v * pow10 330)) - 330.

(** [s * 10^p] is the double [v]. *)
Definition reads_as (s p : Z) (v : Q) : bool :=
  match double_of (inject_Z s * pow10 p) with Num d => Qeq_bool d v | _ => false end.

(** [k] digits are enough: one of the two integers around [v * 10^(k-n)] reads as [v]. *)
Definition enough_digits (v : Q) (n k : Z) : option Z :=
  let low := Qfloor (v * pow10 (k - n)) in
  if reads_as low (n - k) v then Some low
  else if reads_as (low + 1) (n - k) v then Some (low + 1)
  else None.

(** The least [k] from the given one that is enough. *)
Fixpoint shortest (fuel : nat) (v : Q) (n k : Z) : Z :=
  match fuel with
  | O => k
  | S fuel => match enough_digits v n k with Some _ => k | None => shortest fuel v n (k + 1) end
  end.

Definition significant_digits (v : Q) : Z := shortest 16 v (decimal_exponent v) 1.

(** What follows the point in the text of [k] digits with exponent [n]: decimals between
    [10^-6] and [10^21], and beyond, in [d.dde+21], what follows the point up to the end. *)
Definition after_point (k n : Z) : Z :=
  if (- 6 <? n) && (n <=? 21) then Z.max 0 (k - n)
  else if k =? 1 then 0
  else (k - 1) + 2 + digit_count (Z.abs (n - 1)).

(** The sign is not among the decimals. *)
Definition magnitude (v : Q) : Q := if Qle_bool 0 v then v else (- v)%Q.

(** [value.toString().split('.')[1]?.length ?? 0] *)
Definition decimals (value : Q) : Z :=
  let v := magnitude value in after_point (significant_digits v) (decimal_exponent v).

(** * The validator *)

Record MonetaryAmountOptions := mkMonetaryAmountOptions { mo_maxDecimals : Z; mo_min : Q }.

(** [{ maxDecimals: 2, min: 0.01 }], the defaults, which are also what every DTO asks for. *)
Definition default_options : MonetaryAmountOptions := mkMonetaryAmountOptions 2 (double (1 # 100)).

(** [isMonetaryAmount]; [None] is a value that is no number. *)
Definition isMonetaryAmount (value : option Number) (options : MonetaryAmountOptions) : bool :=
  match value with
  | Some (Num v) =>
      if negb (Qle_bool (mo_min options) v) then false
      else decimals v <=? mo_maxDecimals options
  | _ => false
  end.

(** The cents of an accepted amount: the number its text writes. *)
Definition cents_of (v : Q) : Z :=
  let n := decimal_exponent v in
  let k := significant_digits v in
  match enough_digits v n k with
  | Some s => s * 10 ^ (n - k + 2)
  | None => 0
  end.

(** The amount of [c] cents, as a request carries it. *)
Definition amount_of (c : Z) : Number := double_of (c # 100).

Example sample_amounts :
  (λ v, isMonetaryAmount (Some (double_of v)) default_options) <$>
    [125075 # 100; 1 # 100; 1; 99999999999 # 100; 1005 # 10; 0; -10; 9 # 1000; 10123 # 1000; 5 # 1000]%Q
  = [true; true; true; true; true; false; false; false; false; false].
Proof. vm_compute. reflexivity. Qed.

Example sample_options :
  isMonetaryAmount (Some (double_of (1012345 # 100000))) (mkMonetaryAmountOptions 5 (double (1 # 100))) = true
  ∧ isMonetaryAmount (Some (double_of (10123456 # 1000000))) (mkMonetaryAmountOptions 5 (double (1 # 100))) = false
  ∧ isMonetaryAmount (Some (double_of 5)) (mkMonetaryAmountOptions 2 10) = false
  ∧ decimals (double (1 # 10)) = 1 ∧ decimals (double (10 ^ 21 # 1)) = 0
  ∧ decimals (double (15 * 10 ^ 20 # 1)) = 5 ∧ decimals (double (1 # 3)) = 16
  ∧ decimals (double (-5 # 4)) = 2 ∧ decimals 0 = 0.
Proof. vm_compute. repeat split. Qed.

(** * The number of digits *)

Lemma count_digits_spec fuel z :
  1 <= z → z < 2 ^ (Z.of_nat fuel + 1) →
  1 <= count_digits fuel z ∧ 10 ^ (count_digits fuel z - 1) <= z ∧ z < 10 ^ count_digits fuel z.
Proof.
  revert z. induction fuel as [|fuel IH]; intros z Hz Hf; cbn [count_digits]; [simpl in *; lia|].
  destruct (Z.ltb_spec z 10); [simpl; lia|].
  assert (Hd : 1 <= z / 10) by (apply Z.div_le_lower_bound; lia).
  assert (Hdiv : z = 10 * (z / 10) + z mod 10) by (apply Z.div_mod; lia).
  pose proof (Z.mod_pos_bound z 10 ltac:(lia)) as Hmod.
  destruct (IH (z / 10) Hd) as (H1 & H2 & H3).
  { replace (Z.of_nat (S fuel) + 1) with (Z.succ (Z.of_nat fuel + 1)) in Hf by lia.
    rewrite Z.pow_succ_r in Hf by lia. lia. }
  split; [lia|]. replace (1 + count_digits fuel (z / 10) - 1) with (Z.succ (count_digits fuel (z / 10) - 1)) by lia.
  rewrite Z.add_1_l, !Z.pow_succ_r by lia. lia.
Qed.

Lemma digit_count_spec z :
  1 <= z → 1 <= digit_count z ∧ 10 ^ (digit_count z - 1) <= z ∧ z < 10 ^ digit_count z.
Proof.
  intros Hz. apply count_digits_spec; [done|]. rewrite Z2Nat.id by apply Z.log2_nonneg.
  apply Z.log2_spec. lia.
Qed.

Lemma digit_count_unique z d : 1 <= d → 10 ^ (d - 1) <= z → z < 10 ^ d → digit_count z = d.
Proof.
  intros Hd Hl Hh. assert (Hz : 1 <= z) by (pose proof (Z.pow_pos_nonneg 10 (d - 1)); lia).
  destruct (digit_count_spec z Hz) as (H1 & H2 & H3).
  assert (digit_count z - 1 < d) by (apply (Z.pow_lt_mono_r_iff 10); lia).
  assert (d - 1 < digit_count z) by (apply (Z.pow_lt_mono_r_iff 10); lia). lia.
Qed.

Lemma pow10_Z p : 0 <= p → pow10 p = inject_Z (10 ^ p).
Proof. intros H. unfold pow10. by rewrite (proj2 (Z.leb_le 0 p)). Qed.

Lemma digits_of_floor x :
  (1 <= x)%Q → (pow10 (digit_count (Qfloor x) - 1) <= x ∧ x < pow10 (digit_count (Qfloor x)))%Q.
Proof.
  intros Hx. destruct (Qfloor_bounds x) as [Hl Hh]. set (z := Qfloor x) in *.
  assert (Hz : 1 <= z) by (apply below_next; eapply Qle_lt_trans; [exact Hx|exact Hh]).
  destruct (digit_count_spec z Hz) as (H1 & H2 & H3). split.
  - rewrite pow10_Z by lia. eapply Qle_trans; [|exact Hl]. by rewrite <- Zle_Qle.
  - rewrite pow10_Z by lia. eapply Qlt_le_trans; [exact Hh|]. by apply next_below.
Qed.

Lemma decimal_exponent_spec v :
  (pow10 (- 330) <= v)%Q →
  (pow10 (decimal_exponent v - 1) <= v ∧ v < pow10 (decimal_exponent v))%Q.
Proof.
  intros Hv. unfold decimal_exponent. destruct (Qle_bool 1 v) eqn:Hone.
  { apply digits_of_floor. by apply Qle_bool_iff. }
  pose proof (pow10_pos 330) as Hpos.
  destruct (digits_of_floor (v * pow10 330)) as [Hl Hh].
  { assert (Hunit : (pow10 (-330) * pow10 330 == 1)%Q) by (rewrite <- pow10_add; done).
    rewrite <- Hunit. by apply Qmult_le_compat_r; [|apply Qlt_le_weak]. }
  set (d := digit_count _) in *. split.
  - apply (Qmult_le_r _ _ (pow10 330)); [done|]. rewrite <- pow10_add.
    by replace (d - 330 - 1 + 330) with (d - 1) by lia.
  - apply (Qmult_lt_r _ _ (pow10 330)); [done|]. rewrite <- pow10_add.
    by replace (d - 330 + 330) with d by lia.
Qed.

Lemma decimal_exponent_unique v n :
  - 329 <= n → (pow10 (n - 1) <= v)%Q → (v < pow10 n)%Q → decimal_exponent v = n.
Proof.
  intros Hn Hl Hh. destruct (decimal_exponent_spec v) as [H1 H2].
  { eapply Qle_trans; [|exact Hl]. apply pow10_le. lia. }
  assert (decimal_exponent v - 1 < n) by (apply pow10_lt_inv; eapply Qle_lt_trans; done).
  assert (n - 1 < decimal_exponent v) by (apply pow10_lt_inv; eapply Qle_lt_trans; done). lia.
Qed.

(** * Seventeen digits are enough *)

Lemma reads_as_iff s p v : reads_as s p v = true ↔ ∃ d, double_of (inject_Z s * pow10 p) = Num d ∧ (d == v)%Q.
Proof.
  unfold reads_as. destruct (double_of _); split; [by intros ?|by intros (? & ? & _)|by intros ?|by intros (? & ? & _)|..].
  - intros H. exists q. split; [done|]. by apply Qeq_bool_iff.
  - intros (d & [= <-] & H). by apply Qeq_bool_iff.
Qed.

Lemma enough_reads v n k s : enough_digits v n k = Some s → reads_as s (n - k) v = true.
Proof.
  unfold enough_digits. cbv zeta. destruct (reads_as (Qfloor _) _ _) eqn:E; [by intros [= <-]|].
  destruct (reads_as (_ + 1) _ _) eqn:E'; [by intros [= <-]|done].
Qed.

Lemma enough_here v n k s :
  s = Qfloor (v * pow10 (k - n)) ∨ s = Qfloor (v * pow10 (k - n)) + 1 →
  reads_as s (n - k) v = true → is_Some (enough_digits v n k).
Proof.
  unfold enough_digits. cbv zeta. intros [->| ->] H; [by rewrite H|].
  rewrite H. by destruct (reads_as (Qfloor _) _ _).
Qed.

(** Between two steps of [g], one is nearer to [w] than half a unit, and not below its
    binade; a step is less than a unit, and less than half of it at the bottom. *)
Lemma one_step_is_near (U g w x : Q) :
  (0 < U)%Q → (0 < g)%Q → (10 ^ 16 * g <= w)%Q → (x <= w)%Q → (w < x + g)%Q →
  (w == inject_Z (2 ^ 52) * U ∨ (inject_Z (2 ^ 52 + 1) * U <= w ∧ w <= inject_Z (2 ^ 53 - 1) * U))%Q →
  ∃ y, (y = x ∨ y = x + g)%Q
    ∧ (inject_Z (2 ^ 52) * U <= y ∧ y < inject_Z (2 ^ 53) * U ∧ w - (1 # 2) * U < y ∧ y < w + (1 # 2) * U)%Q.
Proof.
  intros HU Hg Hscale Hl Hh. change (10 ^ 16)%Q with (10000000000000000 # 1)%Q in Hscale.
  change (2 ^ 52 + 1) with 4503599627370497. change (2 ^ 53 - 1) with 9007199254740991.
  change (2 ^ 52) with 4503599627370496. change (2 ^ 53) with 9007199254740992. unfold inject_Z. intros [Hw|[Hw1 Hw2]].
  - exists (x + g)%Q. split; [by right|]. repeat split; lra.
  - destruct (Qlt_le_dec (w - x) ((1 # 2) * g)).
    + exists x. split; [by left|]. repeat split; lra.
    + exists (x + g)%Q. split; [by right|]. repeat split; lra.
Qed.

(** The double [m * 2^u] is read from one of its two texts of 17 digits. *)
Lemma seventeen_digits_read v m u :
  2 ^ 52 <= m < 2 ^ 53 → - 1074 <= u <= 971 → (v == inject_Z m * pow2 u)%Q → (pow10 (- 330) <= v)%Q →
  is_Some (enough_digits v (decimal_exponent v) 17).
Proof.
  intros Hm Hu Hval Hv. destruct (decimal_exponent_spec v Hv) as [Hlow _].
  set (n := decimal_exponent v) in *. set (g := pow10 (n - 17)).
  assert (Hinv : (v * pow10 (17 - n) * g == v)%Q).
  { unfold g. replace (n - 17) with (- (17 - n)) by lia. by rewrite <- Qmult_assoc, pow10_inverse, Qmult_1_r. }
  assert (Hg : (0 < g)%Q) by apply pow10_pos. pose proof (pow2_pos u) as HU.
  destruct (Qfloor_bounds (v * pow10 (17 - n))) as [Hf1 Hf2].
  set (low := Qfloor (v * pow10 (17 - n))) in *.
  destruct (one_step_is_near (pow2 u) g v (inject_Z low * g)) as (y & Hy & Hnear).
  - done.
  - done.
  - change (10 ^ 16)%Q with (pow10 16). unfold g. rewrite <- pow10_add. by replace (16 + (n - 17)) with (n - 1) by lia.
  - rewrite <- Hinv. by apply Qmult_le_compat_r; [|apply Qlt_le_weak].
  - assert (Hstep : (inject_Z low * g + g == (inject_Z low + 1) * g)%Q) by ring.
    rewrite Hstep, <- Hinv. by apply Qmult_lt_r.
  - destruct (Z.eq_dec m (2 ^ 52)) as [->|Hne]; [by left|]. right. rewrite Hval.
    by split; apply Qmult_le_compat_r; rewrite <- ?Zle_Qle; try lia; apply Qlt_le_weak.
  - assert (Hs : ∃ s, (s = low ∨ s = low + 1) ∧ (inject_Z s * g == y)%Q).
    { destruct Hy as [->| ->]; [exists low; split; [by left|done]|]. exists (low + 1). split; [by right|].
      rewrite inject_Z_plus. change (inject_Z 1) with 1%Q. ring. }
    destruct Hs as (s & Hs & Hsy). apply (enough_here _ _ _ s Hs). apply reads_as_iff. fold g.
    rewrite <- Hsy in Hnear. destruct Hnear as (N1 & N2 & N3 & N4). rewrite Hval in N3, N4.
    rewrite <- !pow2_Z, <- !pow2_add in N1, N2 by lia.
    eexists. split; [apply (double_near m u)|by rewrite Qred_correct, Hval]; try done.
    + by rewrite Z.add_comm.
    + by rewrite Z.add_comm.
    + lra.
    + lra.
Qed.

Lemma seventeen_digits_suffice q v :
  double_of q = Num v → (pow2 (- 1022) < v)%Q →
  is_Some (enough_digits v (decimal_exponent v) 17).
Proof.
  intros Hv Hlarge. destruct (double_of_large _ _ Hv Hlarge) as [Hq He].
  destruct (double_of_normal _ _ Hq He Hv) as (m & u & Hm & Hu & Hval).
  apply (seventeen_digits_read _ m u); [done..|].
  apply Qle_trans with (pow2 (-1022)); [by apply Qle_bool_iff|by apply Qlt_le_weak].
Qed.

(** * The text of a double *)

Lemma shortest_spec fuel v n : ∀ k j,
  k <= j <= k + Z.of_nat fuel → is_Some (enough_digits v n j) →
  k <= shortest fuel v n k <= j
  ∧ is_Some (enough_digits v n (shortest fuel v n k))
  ∧ ∀ i, k <= i < shortest fuel v n k → enough_digits v n i = None.
Proof.
  induction fuel as [|fuel IH]; intros k j Hj Henough; cbn [shortest].
  - assert (j = k) as -> by lia. split_and!; [lia..|done|lia].
  - destruct (enough_digits v n k) eqn:E.
    + rewrite E. split_and!; [lia..|done|lia].
    + assert (j ≠ k) by (intros ->; rewrite E in Henough; by destruct Henough).
      destruct (IH (k + 1) j) as (H1 & H2 & H3); [lia|done|]. split_and!; [lia..|done|].
      intros i Hi. destruct (Z.eq_dec i k) as [->|]; [done|]. apply H3. lia.
Qed.

(** The text of a double has at most 17 digits, they read back as the double, and fewer
    would not. *)
Lemma significant_digits_spec q v :
  double_of q = Num v → (pow2 (- 1022) < v)%Q →
  1 <= significant_digits v <= 17
  ∧ is_Some (enough_digits v (decimal_exponent v) (significant_digits v))
  ∧ ∀ i, 1 <= i < significant_digits v → enough_digits v (decimal_exponent v) i = None.
Proof.
  intros Hv Hlarge.
  destruct (shortest_spec 16 v (decimal_exponent v) 1 17) as (H1 & [s Hs] & H3);
    [lia|by eapply seventeen_digits_suffice|].
  unfold significant_digits. split; [exact H1|]. split; [by exists s|exact H3].
Qed.

Lemma no_more_than i v n k : is_Some (enough_digits v n k) → 1 <= k <= 17 → i = shortest 16 v n 1 → i <= k.
Proof. intros Hs Hk ->. destruct (shortest_spec 16 v n 1 k) as (H & _); [lia|done|lia]. Qed.

(** * Amounts are cents *)

Lemma magnitude_positive v : (0 <= v)%Q → magnitude v = v.
Proof. intros H. unfold magnitude. by rewrite (proj2 (Qle_bool_iff 0 v) H). Qed.

Lemma cents_scale c : ((c # 100) == inject_Z c * pow10 (- 2))%Q.
Proof. unfold Qeq, Qmult, inject_Z, pow10. simpl. lia. Qed.

Lemma reads_as_double s p q v :
  double_of q = Num v → reads_as s p v = true → double_of (inject_Z s * pow10 p) = Num v.
Proof.
  intros Hv (d & Hd & Heq)%reads_as_iff. rewrite Hd. f_equal.
  rewrite <- (double_of_canonical _ _ Hd), <- (double_of_canonical _ _ Hv). by apply Qred_complete.
Qed.

(** The digits of a text are within one unit of their last place, which is at most the
    first. *)
Lemma enough_below v n k s :
  (9 # 1000 <= v)%Q → 1 <= k → n = decimal_exponent v → enough_digits v n k = Some s →
  (inject_Z s * pow10 (n - k) <= 2 * v)%Q.
Proof.
  intros Hv Hk -> Hs. set (n := decimal_exponent v) in *. destruct (decimal_exponent_spec v) as [Hlow _].
  { apply Qle_trans with (9 # 1000)%Q; [by apply Qle_bool_iff|done]. }
  fold n in Hlow. set (g := pow10 (n - k)). assert (Hg : (0 < g)%Q) by apply pow10_pos.
  assert (Hstep : (g <= v)%Q) by (eapply Qle_trans; [|exact Hlow]; apply pow10_le; lia).
  assert (Hinv : (v * pow10 (k - n) * g == v)%Q).
  { unfold g. replace (n - k) with (- (k - n)) by lia. by rewrite <- Qmult_assoc, pow10_inverse, Qmult_1_r. }
  destruct (Qfloor_bounds (v * pow10 (k - n))) as [Hf _].
  assert (Hnear : (inject_Z s <= v * pow10 (k - n) + 1)%Q).
  { unfold enough_digits in Hs. cbv zeta in Hs. remember (Qfloor (v * pow10 (k - n))) as low eqn:Elow. clear Elow.
    destruct (reads_as low _ _); [injection Hs as <-; lra|].
    destruct (reads_as (low + 1) _ _); [|discriminate]. injection Hs as <-. rewrite inject_Z_plus. change (inject_Z 1) with 1%Q. lra. }
  apply Qle_trans with ((v * pow10 (k - n) + 1) * g)%Q; [by apply Qmult_le_compat_r; [|apply Qlt_le_weak]|].
  assert (Hsum : ((v * pow10 (k - n) + 1) * g == v + g)%Q) by (rewrite Qmult_plus_distr_l, Hinv; ring). rewrite Hsum. lra.
Qed.

(** An accepted text ends at the hundredths or before. *)
Lemma accepted_text v :
  (9 # 1000 <= v)%Q → 1 <= significant_digits v → decimals v <= 2 →
  - 2 <= decimal_exponent v - significant_digits v.
Proof.
  intros Hv Hk Hdecimals.
  assert (Hn : -3 < decimal_exponent v).
  { apply pow10_lt_inv. apply Qlt_le_trans with (9 # 1000)%Q; [done|].
    eapply Qle_trans; [exact Hv|]. apply Qlt_le_weak, decimal_exponent_spec.
    apply Qle_trans with (9 # 1000)%Q; [by apply Qle_bool_iff|done]. }
  unfold decimals in Hdecimals. rewrite magnitude_positive in Hdecimals by lra.
  unfold after_point in Hdecimals.
  destruct ((-6 <? decimal_exponent v) && (decimal_exponent v <=? 21)) eqn:E; [lia|].
  apply andb_false_iff in E as [E%Z.ltb_ge|E%Z.leb_gt]; [lia|].
  destruct (Z.eqb_spec (significant_digits v) 1); [lia|].
  destruct (digit_count_spec (Z.abs (decimal_exponent v - 1))) as [Hcount _]; lia.
Qed.

Lemma accepted_is_cents q v :
  double_of q = Num v → isMonetaryAmount (Some (Num v)) default_options = true →
  1 <= cents_of v ∧ amount_of (cents_of v) = Num v ∧ (cents_of v # 100 <= 2 * v)%Q.
Proof.
  intros Hv Haccepted. cbn [isMonetaryAmount] in Haccepted.
  destruct (Qle_bool (mo_min default_options) v) eqn:Hmin; [|discriminate]. cbn [negb] in Haccepted.
  apply Z.leb_le in Haccepted. apply Qle_bool_iff in Hmin.
  assert (Hlarge : (9 # 1000 <= v)%Q) by (eapply Qle_trans; [|exact Hmin]; by apply Qle_bool_iff).
  assert (Hnormal : (pow2 (- 1022) < v)%Q) by (eapply Qlt_le_trans; [|exact Hlarge]; done).
  destruct (significant_digits_spec _ _ Hv Hnormal) as (Hk & [s Hs] & _).
  pose proof (accepted_text v Hlarge ltac:(lia) Haccepted) as Hend.
  unfold cents_of. rewrite Hs. set (p := decimal_exponent v - significant_digits v) in *.
  assert (Hscale : ((s * 10 ^ (p + 2) # 100) == inject_Z s * pow10 p)%Q).
  { rewrite cents_scale, inject_Z_mult, <- pow10_Z, <- Qmult_assoc, <- pow10_add by lia.
    by replace (p + 2 + -2) with p by lia. }
  assert (Hc : double_of (s * 10 ^ (p + 2) # 100) = Num v).
  { rewrite Hscale. eapply reads_as_double; [exact Hv|]. exact (enough_reads _ _ _ _ Hs). }
  split_and!.
  - destruct (double_of_large _ _ Hc Hnormal) as [Hpos _]. unfold Qlt in Hpos. simpl in Hpos. lia.
  - exact Hc.
  - rewrite Hscale. exact (enough_below v _ _ s Hlarge (proj1 Hk) eq_refl Hs).
Qed.

Definition accepts (c : Z) : bool := isMonetaryAmount (Some (amount_of c)) default_options.

(** At the powers of ten, where the exponent of the text could differ from that of the
    amount, the validator is run. *)
Lemma powers_of_ten_accepted d : 0 <= d < 15 → accepts (10 ^ d) = true.
Proof.
  intros Hd. assert (H : forallb (λ n, accepts (10 ^ Z.of_nat n)) (seq 0 15) = true) by (vm_compute; reflexivity).
  rewrite forallb_forall in H. specialize (H (Z.to_nat d)). rewrite Z2Nat.id in H by lia.
  apply H. apply in_seq. lia.
Qed.

Lemma amount_near c :
  1 <= c → (c # 100 < pow2 46)%Q →
  ∃ v, amount_of c = Num v ∧ ((c # 100) - (1 # 256) <= v ∧ v <= (c # 100) + (1 # 256))%Q.
Proof.
  intros Hc Hlarge. destruct (double_error (c # 100)) as (v & Hv & H1 & H2); [|done|by exists v].
  unfold Qlt. simpl. lia.
Qed.

Lemma small_amount c : c < 10 ^ 15 → (c # 100 <= 10000000000000 # 1)%Q.
Proof. intros Hc. unfold Qle. simpl. lia. Qed.

Lemma amount_in_range c : c < 10 ^ 15 → (c # 100 < pow2 46)%Q.
Proof. intros Hc. eapply Qle_lt_trans; [by apply small_amount|done]. Qed.

(** Between two powers of ten, the exponent of the text is that of the amount. *)
Lemma exponent_of_amount c v :
  10 ^ (digit_count c - 1) < c → c < 10 ^ digit_count c → 1 <= digit_count c →
  ((c # 100) - (1 # 256) <= v)%Q → (v <= (c # 100) + (1 # 256))%Q →
  decimal_exponent v = digit_count c - 2.
Proof.
  intros Hl Hh Hd H1 H2. set (d := digit_count c) in *.
  assert (Hlow : (inject_Z (10 ^ (d - 1)) + 1 <= inject_Z c)%Q) by by apply next_below.
  assert (Hhigh : (inject_Z c + 1 <= inject_Z (10 ^ d))%Q) by by apply next_below.
  rewrite <- pow10_Z in Hlow, Hhigh by lia.
  assert (Hc : ((c # 100) == inject_Z c * (1 # 100))%Q) by (unfold Qeq; simpl; lia).
  assert (Hten : ∀ p, (pow10 (p - 2) == pow10 p * (1 # 100))%Q) by (intros p; unfold Z.sub; by rewrite pow10_add).
  pose proof (Hten (d - 1)) as Hten1. pose proof (Hten d) as Hten2.
  apply decimal_exponent_unique; [lia|..].
  - replace (d - 2 - 1) with (d - 1 - 2) by lia. rewrite Hten1. lra.
  - rewrite Hten2. lra.
Qed.

(** The hundredths of the double are those of the amount. *)
Lemma hundredths_of_amount c v :
  ((c # 100) - (1 # 256) <= v)%Q → (v <= (c # 100) + (1 # 256))%Q →
  c = Qfloor (v * pow10 2) ∨ c = Qfloor (v * pow10 2) + 1.
Proof.
  intros H1 H2. destruct (Qfloor_bounds (v * pow10 2)) as [Hl Hh]. set (low := Qfloor _) in *.
  assert (Hc : ((c # 100) == inject_Z c * (1 # 100))%Q) by (unfold Qeq; simpl; lia).
  change (pow10 2) with (100 # 1)%Q in *.
  assert (low <= c) by (apply below_next; lra).
  assert (c <= low + 1) by (apply below_next; rewrite inject_Z_plus; change (inject_Z 1) with 1%Q; lra). lia.
Qed.

Lemma amounts_accepted c : 1 <= c < 10 ^ 15 → accepts c = true.
Proof.
  intros Hc. destruct (digit_count_spec c) as (Hd & Hl & Hh); [lia|].
  assert (Hd15 : digit_count c <= 15) by (apply Z.lt_succ_r, Z.le_lt_trans with (digit_count c - 1 + 1); [lia|]; assert (digit_count c - 1 < 15) by (apply (Z.pow_lt_mono_r_iff 10); lia); lia).
  destruct (Z.eq_dec c (10 ^ (digit_count c - 1))) as [->|Hne]; [apply powers_of_ten_accepted; lia|].
  destruct (amount_near c) as (v & Hv & H1 & H2); [lia|apply amount_in_range; lia|].
  pose proof (exponent_of_amount c v ltac:(lia) Hh Hd H1 H2) as Hn.
  assert (Hread : is_Some (enough_digits v (decimal_exponent v) (digit_count c))).
  { apply (enough_here _ _ _ c); rewrite Hn.
    - replace (digit_count c - (digit_count c - 2)) with 2 by lia. by apply hundredths_of_amount.
    - apply reads_as_iff. exists v. split; [|done].
      replace (digit_count c - 2 - digit_count c) with (-2) by lia. by rewrite <- cents_scale. }
  pose proof (no_more_than _ _ _ _ Hread ltac:(lia) eq_refl) as Hk. fold (significant_digits v) in Hk.
  assert (Hc2 : 2 <= c) by (pose proof (Z.pow_pos_nonneg 10 (digit_count c - 1)); lia).
  assert (Hpos : ((2 # 100) <= (c # 100))%Q) by (unfold Qle; simpl; lia).
  unfold accepts. rewrite Hv. cbn [isMonetaryAmount].
  assert (Hmin : Qle_bool (mo_min default_options) v = true).
  { apply Qle_bool_iff. apply Qle_trans with (15 # 1000)%Q; [by apply Qle_bool_iff|].
    lra. }
  rewrite Hmin. apply Z.leb_le. cbn [mo_maxDecimals default_options].
  unfold decimals. rewrite (magnitude_positive v) by lra.
  unfold after_point. rewrite Hn.
  rewrite (proj2 (Z.ltb_lt (-6) _)), (proj2 (Z.leb_le _ 21)) by lia. cbn [andb]. lia.
Qed.

Lemma amounts_apart c c' :
  1 <= c → 1 <= c' → (c # 100 < pow2 46)%Q → (c' # 100 < pow2 46)%Q → amount_of c = amount_of c' → c = c'.
Proof.
  intros Hc Hc' Hl Hl' Heq.
  destruct (amount_near c Hc Hl) as (v & Hv & H1 & H2), (amount_near c' Hc' Hl') as (w & Hw & H3 & H4).
  assert (w = v) as -> by congruence.
  assert (Hs : ∀ z, ((z # 100) == inject_Z z * (1 # 100))%Q) by (intros z; unfold Qeq; simpl; lia).
  rewrite Hs in H1, H2, H3, H4. apply integers_apart; lra.
Qed.

(** What is counted is the text after the point: an exponent counts as decimals where there
    is a point, and hides them where there is none. *)
Example exponent_is_not_understood :
  decimals (double (15 * 10 ^ 20)) = 5
  ∧ isMonetaryAmount (Some (double_of (15 * 10 ^ 20))) default_options = false
  ∧ isMonetaryAmount (Some (double_of (1 # 10 ^ 7))) (mkMonetaryAmountOptions 2 (double (1 # 10 ^ 8))) = true
  ∧ isMonetaryAmount (Some (double_of (10 ^ 21))) default_options = true.
Proof. vm_compute. repeat split. Qed.

(** The text of a double tells the cents it was read from. *)
Lemma cents_of_amount c v : 1 <= c < 10 ^ 15 → amount_of c = Num v → cents_of v = c.
Proof.
  intros Hc Hv. pose proof (amounts_accepted c Hc) as Haccepted. unfold accepts in Haccepted. rewrite Hv in Haccepted.
  destruct (accepted_is_cents _ _ Hv Haccepted) as (H1 & H2 & H3).
  pose proof (small_amount c ltac:(lia)) as Hsmall.
  assert (H46 : (30000000000000 # 1 <= pow2 46)%Q) by by apply Qle_bool_iff.
  pose proof (amount_in_range c ltac:(lia)) as Hl.
  destruct (amount_near c ltac:(lia) Hl) as (w & Hw & _ & Hnear). assert (w = v) as -> by congruence.
  apply amounts_apart; [done|lia|lra|done|congruence].
Qed.

(** C33. With its default options, the validator decides whether a number is an amount of cents:
    a double is accepted only if it is the one a whole number of cents, at least one, is
    read as, and its text tells them; every amount below ten thousand billion is accepted,
    and read back from its text to the cent.  What is no number, and no finite one, is
    refused. *)
Theorem accepted_amounts_are_cents :
  (∀ q v, double_of q = Num v → isMonetaryAmount (Some (Num v)) default_options = true →
     1 <= cents_of v ∧ amount_of (cents_of v) = Num v)
  ∧ (∀ c, 1 <= c < 10 ^ 15 →
       ∃ v, amount_of c = Num v ∧ isMonetaryAmount (Some (Num v)) default_options = true ∧ cents_of v = c)
  ∧ ∀ options negative,
      isMonetaryAmount None options = false ∧ isMonetaryAmount (Some NaN) options = false
      ∧ isMonetaryAmount (Some (Infinite negative)) options = false.
Proof.
  split_and!; [|intros c Hc|done].
  - intros q v Hv Haccepted. destruct (accepted_is_cents q v Hv Haccepted) as (Hc & Ha & _). exact (conj Hc Ha).
  - pose proof (amounts_accepted c Hc) as Haccepted. unfold accepts in Haccepted.
    destruct (amount_of c) as [| |v] eqn:Hv; [done..|]. exists v. split_and!; [done..|]. by apply cents_of_amount.
Qed.

Lemma accepted_amounts_are_cents_witness :
  (∃ v, amount_of 125075 = Num v ∧ isMonetaryAmount (Some (Num v)) default_options = true ∧ cents_of v = 125075)
  ∧ 1 <= cents_of (double (125075 # 100)).
Proof.
  destruct accepted_amounts_are_cents as (Hsound & Hcomplete & _).
  destruct (Hcomplete 125075) as (v & Hv & Haccepted & Hcents); [lia|]. split; [exact (ex_intro _ v (conj Hv (conj Haccepted Hcents)))|].
  unfold double. change (double_of (125075 # 100)) with (amount_of 125075). rewrite Hv.
  by apply (Hsound (125075 # 100)%Q).
Defined.
