(* ===== verification/Gateway.v ===== *)
(** The gateway as a whole: the controllers under [src/], the guard in front of them
    and the background workers.

    A [Request] is a call of one endpoint; [handle_request] is the guard, then the
    controller.  A [Job] is one round of a worker.  [gateway_step] is one request, one
    round or the passing of time: the theorems are about every sequence of them.  A request
    carries a validated body, which [Requests] makes from the one received; a response is
    the masked form of the entities.  The endpoint of the audit trail is apart, in
    [AuditTrail.getAuditTrail], with the table it reads. *)
From S2P Require Import Prelude Text Domain StateMachine Money External Fingerprint EventXml Merkle.
From S2P Require Import Database Ledger EventLedger Ports ChainVerification Services Reconciliation.
From S2P Require Import References MobileMoney BankWorker Webhook Refunds Treasury Anchoring Transfers.
From S2P Require Import ApiKeys Simulator Masking Responses Numbers.
Open Scope Z_scope.

(** * Requests *)

Inductive Request :=
  | PostTransfer (dto : CreateTransferDto) (idempotencyKey : option string)
  | GetTransfers (query : QueryTransfersDto)
  | GetTransfer (reference : string)
  | GetTransferVerification (reference : string)
  | GetEvents (reference : string)
  | GetEventsVerification (reference : string)
  | PostRefund (reference : string)
  | PostRefundReopen (reference : string)
  | GetRefund (reference : string)
  | PostMobileMoney (dto : CreateMobileMoneyTransactionDto) (idempotencyKey : option string)
  | GetMobileMoney (reference : string)
  | PostReconciliation
  | PostWebhook (payload : MobileMoneyWebhookDto) (signature : option string)
  | GetBalance (reference currency : option string)
  | GetEntries (reference : string)
  | PostSweep (limit : option nat)
  | PostAnchorBatch
  | GetAnchorBatches (limit : option string)
  | GetAnchorBatch (id : string)
  | GetAnchorStatistics (status : AnchorStatus)
  | GetSimulatorPayment (aggregatorReference : string)
  | PostSimulatorConfirm (aggregatorReference : string) (input : SimulateMobileMoneyDto).

Inductive Response :=
  | RTransfer (t : TransferResponseDto)
  | RMobileMoney (t : MobileMoneyResponseDto)
  | RTransfers (page : TransfersPage)
  | RReport (report : EventChainReport)
  | REvents (events : list TransactionEventResponseDto)
  | RRefund (refund : RefundResponseDto)
  | RReconciliation (outcome : PendingOutcome)
  | RBalance (balance : TrialBalance)
  | REntries (entries : list JournalEntry)
  | RSweep (outcome : SweepOutcome)
  | RAnchored (anchored : nat) (batchId reason : option string)
  | RBatches (batches : list AnchorBatch)
  | RCount (count : nat).

(** The scope of each endpoint: the [@RequireScopes] and [@Public] of the controllers. *)
Definition required_scope (request : Request) : option string :=
  match request with
  | PostTransfer _ _ | PostMobileMoney _ _ => Some ApiScope.transfersWrite
  | GetTransfers _ | GetTransfer _ | GetTransferVerification _ | GetEvents _
  | GetEventsVerification _ | GetRefund _ | GetMobileMoney _ => Some ApiScope.transfersRead
  | PostRefund _ => Some ApiScope.refundsWrite
  | PostRefundReopen _ => Some ApiScope.refundsApprove
  | PostReconciliation => Some ApiScope.reconciliationWrite
  | PostWebhook _ _ => None
  | GetBalance _ _ | GetEntries _ => Some ApiScope.ledgerRead
  | PostSweep _ => Some ApiScope.treasuryWrite
  | PostAnchorBatch => Some ApiScope.anchorsWrite
  | GetAnchorBatches _ | GetAnchorBatch _ | GetAnchorStatistics _ => Some ApiScope.anchorsRead
  | GetSimulatorPayment _ | PostSimulatorConfirm _ _ => Some ApiScope.simulatorWrite
  end.

Definition route_metadata (request : Request) : RouteMetadata :=
  match required_scope request with
  | Some scope => mkRouteMetadata None (Some [scope])
  | None => mkRouteMetadata (Some true) None
  end.

(** * Readings that no other part needs *)

(** [LedgerPostingService.findByTransaction]; rows are in creation order. *)
Definition journal_of (reference : string) : App (list JournalEntry) :=
  d ← get_db;
  mret (sort_by je_occurredAt
          (List.filter (λ e, str_eqb (je_transactionReference e) reference) (db_entries d))).

(** * Controllers *)

Record GatewayConfig := mkGatewayConfig {
  gc_business : BusinessConfig;
  gc_mobileMoney : MobileMoneyConfig;
  gc_anchor : AnchorConfig;
  gc_explorerTxUrl : option string;
  gc_simulatorEnabled : bool;
  gc_authEnabled : bool;
  gc_apiKeys : list string
}.

(** [value?.trim() || undefined] *)
Definition trimmed_key (idempotencyKey : option string) : option string :=
  match trim <$> idempotencyKey with
  | None | Some EmptyString => None
  | key => key
  end.

Section Gateway.
Context {HH : Hashing} {HX : XsdEngine} {HE : Entropy} {HD : DateParser} {HM : Hmac} {HT : ErrorText}.
Context {HS : SoapClient} {HC : ChainClient} {HR : RefundProvider} {HA : Sha256}.
Context (config : GatewayConfig).

(** What the process and the other instances hold while the request runs: this process
    is already anchoring, the advisory lock is free, the facts other transactions lock. *)
Record Locks := mkLocks {
  lk_anchoring : bool;
  lk_acquired : bool;
  lk_event : TransactionEvent → bool
}.

(** ** [TransactionsController], [TransactionEventsController] *)

Definition transfers_create (dto : CreateTransferDto) (idempotencyKey : option string) : App Response :=
  t ← Transfers.initiateTransfer (gc_business config) dto (trimmed_key idempotencyKey);
  mret (RTransfer (transfer_response t)).
Definition transfers_findAll (query : QueryTransfersDto) : App Response :=
  page ← list_transfers query; mret (RTransfers (page_response page)).
Definition transfers_findOne (reference : string) : App Response :=
  t ← findTransfer reference; mret (RTransfer (transfer_response t)).
Definition transfers_verifyIntegrity (reference : string) : App Response :=
  findTransfer reference ;;
  report ← verify (gc_explorerTxUrl config) reference; mret (RReport report).
Definition events_findChain (reference : string) : App Response :=
  events ← findChain reference; mret (REvents (event_response <$> events)).
Definition events_verifyChain (reference : string) : App Response :=
  report ← verify (gc_explorerTxUrl config) reference; mret (RReport report).

(** ** [RefundsController]; the actor is the key of the request. *)

Definition refunds_request (identity : option ApiKeyIdentity) (reference : string) : App Response :=
  refund ← requestRefund reference (ak_keyId <$> identity); mret (RRefund (refund_response refund)).
Definition refunds_reopen (identity : option ApiKeyIdentity) (reference : string) : App Response :=
  refund ← reopenRefund reference (ak_keyId <$> identity); mret (RRefund (refund_response refund)).
Definition refunds_findOne (reference : string) : App Response :=
  refund ← findByTransaction reference; mret (RRefund (refund_response refund)).

(** ** [MobileMoneyController], [MobileMoneyWebhookController] *)

(** [MobileMoneyResponseDto.fromEntity(t)] *)
Definition masked (t : Transaction) : App Response :=
  match mobile_money_response t with
  | Return dto => mret (RMobileMoney dto)
  | Throw e => throw e
  end.

Definition mobileMoney_initiate (dto : CreateMobileMoneyTransactionDto)
    (idempotencyKey : option string) : App Response :=
  t ← initiate (gc_mobileMoney config) (gc_business config) dto (trimmed_key idempotencyKey);
  masked t.
Definition mobileMoney_findOne (reference : string) : App Response :=
  t ← MobileMoney.findByReference reference; masked t.
Definition runReconciliation : App Response :=
  outcome ← runPending; mret (RReconciliation outcome).
Definition webhook_receive (payload : MobileMoneyWebhookDto) (signature : option string) : App Response :=
  t ← handle (gc_mobileMoney config) payload signature; masked t.

(** ** [LedgerController], [TreasuryController], [AnchorsController] *)

Definition ledger_balance (reference currency : option string) : App Response :=
  balance ← trialBalance reference currency; mret (RBalance balance).
Definition ledger_entries (reference : string) : App Response :=
  entries ← journal_of reference; mret (REntries entries).
Definition treasury_sweep (limit : option nat) : App Response :=
  outcome ← sweep (default 100%nat limit); mret (RSweep outcome).
(** [Number.parseInt(limit ?? '20', 10)], at most 100, 20 when it is no number. *)
Definition batches_limit (limit : option string) : Z :=
  match parseInt (or_default limit "20") with
  | Num parsed => Z.min (Qfloor parsed) 100
  | _ => 20
  end.
Definition anchors_listBatches (limit : option string) : App Response :=
  batches ← listBatches (batches_limit limit); mret (RBatches batches).
Definition anchors_findBatch (id : string) : App Response :=
  found ← findBatch id;
  batch ← ret_option found (HttpException 404 "BATCH_NOT_FOUND");
  mret (RBatches [batch]).
Definition anchorNow (locks : Locks) : App Response :=
  outcome ← processPendingBatch (gc_anchor config) (lk_anchoring locks) (lk_acquired locks)
              (lk_event locks);
  mret (RAnchored (bo_anchored outcome) (ab_id <$> bo_batch outcome) (bo_reason outcome)).
Definition anchors_statistics (status : AnchorStatus) : App Response :=
  count ← getStatistics status; mret (RCount count).

(** ** [AggregatorSimulatorController] *)

Definition simulator_payment (reference : string) : App Response :=
  t ← simulator_findOne (gc_simulatorEnabled config) reference; masked t.
Definition simulator_confirm (reference : string) (input : SimulateMobileMoneyDto) : App Response :=
  t ← confirm (gc_mobileMoney config) (gc_simulatorEnabled config) reference input;
  masked t.

Definition controller (locks : Locks) (identity : option ApiKeyIdentity) (request : Request) :
    App Response :=
  match request with
  | PostTransfer dto key => transfers_create dto key
  | GetTransfers query => transfers_findAll query
  | GetTransfer reference => transfers_findOne reference
  | GetTransferVerification reference => transfers_verifyIntegrity reference
  | GetEvents reference => events_findChain reference
  | GetEventsVerification reference => events_verifyChain reference
  | PostRefund reference => refunds_request identity reference
  | PostRefundReopen reference => refunds_reopen identity reference
  | GetRefund reference => refunds_findOne reference
  | PostMobileMoney dto key => mobileMoney_initiate dto key
  | GetMobileMoney reference => mobileMoney_findOne reference
  | PostReconciliation => runReconciliation
  | PostWebhook payload signature => webhook_receive payload signature
  | GetBalance reference currency => ledger_balance reference currency
  | GetEntries reference => ledger_entries reference
  | PostSweep limit => treasury_sweep limit
  | PostAnchorBatch => anchorNow locks
  | GetAnchorBatches limit => anchors_listBatches limit
  | GetAnchorBatch id => anchors_findBatch id
  | GetAnchorStatistics status => anchors_statistics status
  | GetSimulatorPayment reference => simulator_payment reference
  | PostSimulatorConfirm reference input => simulator_confirm reference input
  end.

(** The guard, then the controller; [gc_authEnabled] is [AUTH_ENABLED]. *)
Definition handle_request (locks : Locks) (authorization : option string) (request : Request) :
    App Response :=
  match canActivate (gc_authEnabled config) (onModuleInit (gc_apiKeys config)) true (route_metadata request) authorization with
  | Throw e => throw e
  | Return identity => controller locks identity request
  end.

(** * Workers *)

Inductive Job :=
  | DrainBankInstructions (running : bool) (locked : BankInstruction → bool) (limit : nat)
  | RetryRefunds (running : bool)
  | AnchorPendingBatch (locks : Locks).

Definition run_job (job : Job) : App unit :=
  match job with
  | DrainBankInstructions running locked limit =>
      drain (gc_mobileMoney config) running locked (Some executor) limit ;; mret tt
  | RetryRefunds running => runOnce running ;; mret tt
  | AnchorPendingBatch locks =>
      processPendingBatch (gc_anchor config) (lk_anchoring locks) (lk_acquired locks)
        (lk_event locks) ;; mret tt
  end.

(** * Executions *)

Inductive gateway_step (w w' : World) : Prop :=
  | step_request locks authorization request :
      w' = (handle_request locks authorization request w).2 → gateway_step w w'
  | step_job job : w' = (run_job job w).2 → gateway_step w w'
  | step_time date correlationId :
      w' = w <| w_now := date |> <| w_correlation := correlationId |> → gateway_step w w'.

Definition execution : World → World → Prop := rtc gateway_step.
End Gateway.

(** * Lemmas *)

Section gateway_lemmas.
Context {HH : Hashing} {HX : XsdEngine} {HE : Entropy} {HD : DateParser} {HM : Hmac} {HT : ErrorText}.
Context {HS : SoapClient} {HC : ChainClient} {HR : RefundProvider} {HA : Sha256}.
Context (config : GatewayConfig).
Abbreviation refines := (Respects (on_db ledger_refines)).

#[local] Hint Resolve Transfers.initiateTransfer_refines initiate_refines handle_refines
  requestRefund_refines reopenRefund_refines runPending_refines sweep_refines
  processPendingBatch_refines runOnce_refines executor_refines : effects.

Lemma reads_refines {A} (m : App A) : Respects (on_db eq) m → refines m.
Proof. intros Hm w. specialize (Hm w). unfold on_db in *. rewrite Hm. reflexivity. Qed.

Lemma verify_refines explorer reference : refines (verify explorer reference).
Proof. apply reads_refines, verify_reads. Qed.

Lemma drain_job_refines running locked limit :
  refines (drain (gc_mobileMoney config) running locked (Some executor) limit).
Proof. apply drain_refines. intros e [= <-]. apply executor_refines. Qed.
#[local] Hint Resolve verify_refines drain_job_refines : effects.

Lemma controller_refines locks identity request : refines (controller config locks identity request).
Proof.
  destruct request; cbn [controller]; unfold transfers_create, transfers_findAll, transfers_findOne,
      transfers_verifyIntegrity, events_findChain, events_verifyChain, refunds_request,
      refunds_reopen, refunds_findOne, mobileMoney_initiate, mobileMoney_findOne, runReconciliation,
      webhook_receive, ledger_balance, ledger_entries, treasury_sweep, anchors_listBatches,
      anchors_findBatch, anchorNow, anchors_statistics, simulator_payment, simulator_confirm,
      list_transfers, paginate, findTransfer, findByTransaction, MobileMoney.findByReference,
      trialBalance, journal_of, listBatches, findBatch, getStatistics, simulator_findOne, assertEnabled, masked,
      MobileMoney.findByAggregatorReference, or_not_found; respects.
Qed.

Lemma handle_request_refines locks authorization request :
  refines (handle_request config locks authorization request).
Proof.
  unfold handle_request. destruct (canActivate _ _ _ _ _); [apply controller_refines|].
  apply respects_throw. apply _.
Qed.

Lemma run_job_refines job : refines (run_job config job).
Proof. destruct job; cbn [run_job]; respects. Qed.

Lemma gateway_step_refines w w' : gateway_step config w w' → on_db ledger_refines w w'.
Proof.
  intros [locks authorization request ->|job ->|date correlationId ->].
  - apply handle_request_refines.
  - apply run_job_refines.
  - intros _. apply rtc_refl.
Qed.

Lemma execution_refines w w' : execution config w w' → on_db ledger_refines w w'.
Proof.
  induction 1 as [w|w1 w2 w3 Hstep _ IH]; [intros _; apply rtc_refl|].
  apply gateway_step_refines in Hstep. by etrans.
Qed.

(** ** What every execution keeps *)

(** Each entry is the posting of a recorded fact, and no fact is posted twice. *)
Definition posted_from (d : Db) (entry : JournalEntry) : Prop :=
  ∃ e t posting, e ∈ db_events d ∧ entry_for (ev_data e) t = Some posting
    ∧ je_lines entry = je_lines posting ∧ je_eventId entry = se_id (ev_data e)
    ∧ je_transactionReference entry = event_reference e.
Definition journal_ok (d : Db) : Prop :=
  NoDup (je_eventId <$> db_entries d) ∧ Forall (posted_from d) (db_entries d).

Lemma posted_from_weaken d d' entry :
  (∀ e, e ∈ db_events d → ∃ e', e' ∈ db_events d' ∧ ev_data e' = ev_data e) →
  posted_from d entry → posted_from d' entry.
Proof.
  intros Hsub (e & t & posting & He & H). destruct (Hsub e He) as (e' & He' & Hdata).
  exists e', t, posting. unfold event_reference. by rewrite Hdata.
Qed.

Lemma ledger_step_journal d d' : ledger_step d d' → journal_ok d → journal_ok d'.
Proof.
  intros Hstep [Hdup Hposted]. destruct Hstep as [e Hev Hen _ _ _|entry Hen Hev Hfrom Hnew|Hfacts Hen];
    unfold journal_ok; rewrite Hen.
  - split; [done|]. eapply Forall_impl; [exact Hposted|]. intros entry. apply posted_from_weaken.
    intros f Hf. exists f. split; [rewrite Hev; apply elem_of_app; by left|done].
  - split.
    + rewrite fmap_app. apply NoDup_app. split_and!; [done| |apply NoDup_singleton].
      intros id Hid ->%list_elem_of_singleton. apply list_elem_of_fmap in Hid as (f & Heq & Hf).
      rewrite Forall_forall in Hnew. by apply (Hnew f Hf).
    + assert (Hsub : ∀ f, posted_from d f → posted_from d' f).
      { intros f. apply posted_from_weaken. intros g Hg. exists g. by rewrite Hev. }
      apply Forall_app. split; [by eapply Forall_impl|]. constructor; [|constructor]. by apply Hsub.
  - split; [done|]. eapply Forall_impl; [exact Hposted|]. intros entry. apply posted_from_weaken.
    intros f Hf. assert (Hin : facts_of f ∈ facts_of <$> db_events d').
    { rewrite Hfacts. by apply list_elem_of_fmap_2. }
    apply list_elem_of_fmap in Hin as (f' & Heq & Hf'). exists f'. split; [done|].
    unfold facts_of in Heq. by injection Heq.
Qed.

Lemma ledger_run_journal d d' : ledger_run d d' → journal_ok d → journal_ok d'.
Proof. induction 1; eauto using ledger_step_journal. Qed.

Lemma empty_ledger : ledger_ok empty_db ∧ journal_ok empty_db.
Proof.
  split; [|by split; constructor]. intros reference. split; [exact I|]. simpl. lia.
Qed.

(** C3. The register and the journal, whatever the gateway is asked.  After any sequence
    of requests, by anyone, of rounds of the workers and of time passing, every chain is
    linked from its first fact, each fact sealed and ranked after the one before, and
    closed at most once; each entry of the journal is the posting of one fact, and no
    fact is posted twice; and nothing that was recorded at an earlier moment has
    changed or gone: what came since was added after it. *)
Theorem every_execution_keeps_the_books w0 w1 w2 :
  w_db w0 = empty_db → execution config w0 w1 → execution config w1 w2 →
  ledger_ok (w_db w2) ∧ journal_ok (w_db w2)
  ∧ (∃ added, same_facts (db_events (w_db w2)) (db_events (w_db w1) ++ added))
  ∧ (∃ added, db_entries (w_db w2) = db_entries (w_db w1) ++ added).
Proof.
  intros Hempty H01 H12. apply execution_refines in H01, H12. unfold on_db in *. rewrite Hempty in H01.
  destruct empty_ledger as [Hok Hjournal]. specialize (H01 Hok).
  assert (Hok1 := ledger_run_ok _ _ H01 Hok). specialize (H12 Hok1).
  split_and!; [by eapply ledger_run_ok| |by apply ledger_run_extends..].
  eapply ledger_run_journal; [exact H12|]. by eapply ledger_run_journal.
Qed.

(** A notification without the signature of its content is refused at once. *)
Lemma unsigned_notification_refused payload signature w :
  str_eqb (or_default signature "") (sign (gc_mobileMoney config) payload) = false →
  ∃ e, webhook_receive config payload signature w = (Throw e, w).
Proof.
  intros Hsig. eexists. unfold webhook_receive. erewrite bind_throw; [reflexivity|].
  unfold handle, handle_under, verifySignature. rewrite Hsig. by erewrite bind_throw by reflexivity.
Qed.

(** C7. With authentication on, nothing moves without a right: a request either comes with a
    key declared once, its secret, and the scope of its endpoint; or it is a notification
    signed with the aggregator's secret; or it leaves the world exactly as it was, database,
    calls to the bank and to the chain included, and fails.  With [AUTH_ENABLED=false] the
    guard lets every request through to its controller, without an identity, and only
    notifications are still checked: without the signature of their content they change
    nothing. *)
Theorem no_right_no_effect locks authorization request w o w' :
  handle_request config locks authorization request w = (o, w') →
  (gc_authEnabled config = true →
     (∃ scope keyId secret identity, required_scope request = Some scope
        ∧ presents authorization keyId secret ∧ proves (gc_apiKeys config) keyId secret identity
        ∧ scope ∈ ak_scopes identity)
     ∨ (∃ payload signature, request = PostWebhook payload signature
          ∧ or_default signature "" = sign (gc_mobileMoney config) payload)
     ∨ (w' = w ∧ ∃ e, o = Throw e))
  ∧ (gc_authEnabled config = false →
     controller config locks None request w = (o, w')
     ∧ ∀ payload signature, request = PostWebhook payload signature →
         or_default signature "" = sign (gc_mobileMoney config) payload ∨ (w' = w ∧ ∃ e, o = Throw e)).
Proof.
  intros Hrun.
  assert (Hopen : required_scope request = None ∨ gc_authEnabled config = false →
    controller config locks None request w = (o, w')).
  { intros Hopen. rewrite <- Hrun. unfold handle_request, route_metadata, canActivate.
    destruct Hopen as [-> | ->]; [done|]. by destruct (required_scope request). }
  assert (Hhook : ∀ payload signature, request = PostWebhook payload signature →
    controller config locks None request w = (o, w') →
    or_default signature "" = sign (gc_mobileMoney config) payload ∨ (w' = w ∧ ∃ e, o = Throw e)).
  { intros payload signature -> Hctl. cbn [controller] in Hctl.
    destruct (str_eqb (or_default signature "") (sign (gc_mobileMoney config) payload)) eqn:Hsig.
    - left. by apply str_eqb_spec.
    - right. destruct (unsigned_notification_refused payload signature w Hsig) as [e He].
      rewrite He in Hctl. injection Hctl as <- <-. by eauto. }
  split; [|intros Hoff; assert (Hctl := Hopen (or_intror Hoff)); split; [done|];
    intros payload signature Heq; by apply (Hhook payload signature Heq)].
  intros Hauth. destruct (required_scope request) as [scope|] eqn:Hscope.
  - revert Hrun. unfold handle_request. rewrite Hauth. destruct (canActivate _ _ _ _ _) as [x|e] eqn:Hdecision.
    + intros _. left. unfold route_metadata in Hdecision. rewrite Hscope in Hdecision.
      apply canActivate_granted in Hdecision as (identity & keyId & secret & -> & Hp & Hk & Hsub); [|done].
      exists scope, keyId, secret, identity. split_and!; try done. apply Hsub. simpl. by left.
    + intros [= <- <-]. right; right. split; [done|]. by eexists.
  - right. destruct request; try discriminate Hscope.
    destruct (Hhook _ _ eq_refl (Hopen (or_introl eq_refl))) as [H|H]; [left; by eexists _, _|by right].
Qed.
End gateway_lemmas.

(** * Witnesses *)

#[local] Existing Instances Toy.hashing Toy.entropy Toy.xsd sample_dates sample_texts sample_hmac
  sample_bank Anchoring.ledger_chain simulator_provider sample_sha256.

Definition sample_gateway : GatewayConfig :=
  mkGatewayConfig sample_business sample_config sample_anchor_config None true true sample_keys.
Definition sample_locks : Locks := mkLocks false true (λ _, false).
Definition sample_header : option string := Some "Bearer caisse.secret".
Definition sample_request : Request := PostTransfer sample_transfer (Some "key-1").

Definition sample_served : World :=
  (handle_request sample_gateway sample_locks sample_header sample_request empty_world).2.

Lemma every_execution_keeps_the_books_witness :
  length (db_events (w_db sample_served)) = 3%nat
  ∧ ledger_ok (w_db sample_served) ∧ journal_ok (w_db sample_served).
Proof.
  split; [vm_compute; reflexivity|].
  assert (Hrun : execution sample_gateway empty_world sample_served).
  { apply rtc_once. exact (step_request _ _ _ sample_locks sample_header sample_request eq_refl). }
  destruct (every_execution_keeps_the_books sample_gateway empty_world sample_served sample_served
    eq_refl Hrun (rtc_refl _ _)) as (Hok & Hjournal & _).
  exact (conj Hok Hjournal).
Defined.

Lemma no_right_no_effect_witness :
  let answer := handle_request sample_gateway sample_locks None (PostRefund "TRF-1") empty_world in
  answer.2 = empty_world ∧ ∃ e, answer.1 = Throw e.
Proof.
  intros answer. destruct answer as [o w'] eqn:Hrun. cbn [fst snd].
  destruct (proj1 (no_right_no_effect _ _ _ _ _ _ _ Hrun) eq_refl) as [H|[H|H]]; [| |exact H]; exfalso.
  - destruct H as (? & ? & ? & ? & _ & (Hbearer & _) & _). discriminate Hbearer.
  - destruct H as (? & ? & H & _). discriminate H.
Defined.
