(* ===== verification/Books.v ===== *)
(** The journal always balances, whatever the gateway does.

    The balance of an entry is a trigger deferred to the commit: inside a transaction the
    journal may hold anything, after it only balanced entries were added.  [books] is that
    relation between the databases before and after an operation; every operation of the
    services is shown to respect it, and so does every execution of the [Gateway]: each
    balance sheet a client can ask for closes. *)
From S2P Require Import Prelude Text Domain StateMachine Money External Fingerprint EventXml Merkle.
From S2P Require Import Database Ledger EventLedger Ports ChainVerification Services Reconciliation.
From S2P Require Import References MobileMoney BankWorker Webhook Refunds Treasury Anchoring Transfers.
From S2P Require Import ApiKeys Simulator Gateway.
Open Scope Z_scope.

(** * The relation *)

Definition posts_balanced (d d' : Db) : Prop :=
  ∃ added, db_entries d' = db_entries d ++ added ∧ Forall (λ e, entry_balanced e = true) added.

#[export] Instance posts_balanced_preorder : PreOrder posts_balanced.
Proof.
  split.
  - intros d. exists []. by rewrite app_nil_r.
  - intros d1 d2 d3 (a & Ha & Hba) (b & Hb & Hbb). exists (a ++ b).
    rewrite Hb, Ha, app_assoc. split; [done|]. by apply Forall_app.
Qed.

Section books.
Context {HH : Hashing}.

Definition books (d d' : Db) : Prop := ledger_ok d → ledger_ok d' ∧ posts_balanced d d'.

#[export] Instance books_preorder : PreOrder books.
Proof.
  split.
  - intros d Hok. split; [done|reflexivity].
  - intros d1 d2 d3 H12 H23 Hok. destruct (H12 Hok) as [Hok2 Hp12], (H23 Hok2) as [Hok3 Hp23].
    split; [done|]. by etrans.
Qed.
End books.

Definition keeps_entries (d d' : Db) : Prop := db_entries d' = db_entries d.
#[export] Instance keeps_entries_preorder : PreOrder keeps_entries.
Proof. split; unfold keeps_entries; [done|congruence]. Qed.

Section rules.
Context {HH : Hashing} {HX : XsdEngine} {HE : Entropy}.
Abbreviation refines := (Respects (on_db ledger_refines)).
Abbreviation balances := (Respects (on_db books)).

(** What does not touch the journal balances it. *)
Lemma balances_frame {A} (m : App A) : refines m → Respects (on_db keeps_entries) m → balances m.
Proof.
  intros Hm Hk w Hok. specialize (Hm w Hok). unfold on_db in *. split; [by eapply ledger_run_ok|].
  exists []. rewrite app_nil_r. split; [apply Hk|constructor].
Qed.

(** The commit looks at the entries that were added. *)
Lemma commit_balanced {A} (m : App A) w :
  (∃ added, db_entries (w_db (m w).2) = db_entries (w_db w) ++ added) →
  posts_balanced (w_db w) (w_db (transaction m w).2).
Proof.
  intros [added Hadded]. unfold transaction, atomic, mbind, Eff_bind, gets.
  destruct (m w) as [[a|e] w1]; cbn [fst snd] in *; [|reflexivity].
  unfold throw_unless. destruct (forallb entry_balanced _) eqn:Hall; cbn [fst snd mret Eff_ret];
    [|reflexivity].
  exists added. split; [exact Hadded|]. rewrite Hadded, drop_app_length, forallb_forall in Hall.
  apply Forall_forall. intros e He. by apply Hall, list_elem_of_In.
Qed.

Lemma balances_transaction {A} (m : App A) : refines m → balances (transaction m).
Proof.
  intros Hm w Hok. assert (Hrun := transaction_respects ledger_refines m Hm w Hok).
  unfold on_db in Hrun. split; [by eapply ledger_run_ok|]. apply commit_balanced.
  by apply ledger_run_extends, Hm.
Qed.
End rules.

Lemma balances_transaction_on {O A} `{Hashing} (m : Obj O A) :
  Respects (on_ent ledger_refines) m → Respects (on_ent books) (transaction_on m).
Proof.
  intros Hm [o w]. unfold on_ent, transaction_on. cbn [fst snd].
  assert (Hb := balances_transaction (with_entity o m) (with_entity_respects _ o m Hm) w).
  by destruct (transaction _ w).
Qed.

Ltac respects_more ::=
  lazymatch goal with
  | |- Respects (on_db books) (transaction _) => apply balances_transaction
  | |- Respects (on_ent books) (transaction_on _) => apply balances_transaction_on
  | |- Respects _ (transaction _) => respects_apply @transaction_respects
  | |- Respects _ (transaction_on _) => respects_apply @transaction_on_respects
  | |- Respects _ (lift _) => respects_apply @lift_respects
  | |- Respects _ (with_entity _ _) => respects_apply @with_entity_respects
  end.

(** * Operations *)

Section operations.
Context {HH : Hashing} {HX : XsdEngine} {HE : Entropy}.
Abbreviation balances := (Respects (on_db books)).
Abbreviation held_balances := (Respects (on_ent books)).

(** ** Tables other than the journal *)

Ltac other_table operation :=
  apply balances_frame;
  [eauto with effects
  |intros w; unfold operation, draw_uuid, next_draw, get_db, now, gets, throw_unless, raise_if, mbind, Eff_bind;
   simpl;
   repeat match goal with
   | |- context [if ?b then _ else _] => destruct b; simpl
   | |- context [match ?o with Some _ => _ | None => _ end] => destruct o; simpl
   end; reflexivity].

Lemma save_transaction_books t : balances (save_transaction t).
Proof. other_table @save_transaction. Qed.
Lemma insert_transaction_books t : balances (insert_transaction t).
Proof. other_table @insert_transaction. Qed.
Lemma update_transactions_books p f : balances (update_transactions p f).
Proof. other_table @update_transactions. Qed.
Lemma insert_refund_books r : balances (insert_refund r).
Proof. other_table @insert_refund. Qed.
Lemma save_refund_books r : balances (save_refund r).
Proof. other_table @save_refund. Qed.
Lemma insert_instruction_books i : balances (insert_instruction i).
Proof. other_table @insert_instruction. Qed.
Lemma save_instruction_books i : balances (save_instruction i).
Proof. other_table @save_instruction. Qed.
Lemma insert_webhook_books e : balances (insert_webhook e).
Proof. other_table @insert_webhook. Qed.
Lemma save_webhook_books e : balances (save_webhook e).
Proof. other_table @save_webhook. Qed.
Lemma update_webhooks_books p f : balances (update_webhooks p f).
Proof. other_table @update_webhooks. Qed.
Lemma save_batch_books b : balances (save_batch b).
Proof. other_table @save_batch. Qed.
Lemma insert_batch_books b : balances (insert_batch b).
Proof. other_table @insert_batch. Qed.
Lemma update_events_books p f : balances (update_events p f).
Proof. other_table @update_events. Qed.
#[local] Hint Resolve save_transaction_books insert_transaction_books update_transactions_books
  insert_refund_books save_refund_books insert_instruction_books save_instruction_books
  insert_webhook_books save_webhook_books update_webhooks_books save_batch_books insert_batch_books
  update_events_books : effects.

Lemma find_transaction_books p : balances (find_transaction p).
Proof. unfold find_transaction. respects. Qed.
Lemma find_refund_books r : balances (find_refund r).
Proof. unfold find_refund. respects. Qed.
Lemma find_batch_books id : balances (find_batch id).
Proof. unfold find_batch. respects. Qed.
Lemma find_webhook_or_fail_books id : balances (find_webhook_or_fail id).
Proof. unfold find_webhook_or_fail. respects. Qed.
#[local] Hint Resolve find_transaction_books find_refund_books find_batch_books
  find_webhook_or_fail_books : effects.
Lemma find_transaction_or_fail_books p : balances (find_transaction_or_fail p).
Proof. unfold find_transaction_or_fail. respects. Qed.
#[local] Hint Resolve find_transaction_or_fail_books : effects.

(** ** The register: a fact outside a transaction is posted in one of its own *)

Lemma post_grows e t w : ∃ added, db_entries (w_db (post e t w).2) = db_entries (w_db w) ++ added.
Proof.
  unfold post. destruct (entry_for (ev_data e) t) as [entry|]; [|exists []; by rewrite app_nil_r].
  unfold insert_entry, draw_uuid, next_draw, mbind, Eff_bind, get_db, gets. simpl.
  destruct (entry_error _ _); [exists []; by rewrite app_nil_r|]. by eexists.
Qed.

Lemma insert_fact_posts e t : Respects (on_db posts_balanced) (insert_fact false e t).
Proof.
  unfold insert_fact, savepoint, insert_body. apply respects_bind; [apply _| |intros saved].
  - intros w. unfold insert_event, mbind, Eff_bind, on_db. simpl.
    destruct (event_error _ _); simpl; [reflexivity|]. exists []. by rewrite app_nil_r.
  - apply respects_bind; [apply _| |intros _; apply respects_ret; apply _]. intros w. apply commit_balanced, post_grows.
Qed.

Lemma record_loop_posts input fuel :
  Respects (on_db posts_balanced) (record_loop false (λ _ d, d) input fuel).
Proof.
  induction fuel as [|fuel IH]; [apply respects_throw; apply _|]. cbn [record_loop].
  apply respects_bind; [apply _| |intros event].
  - intros w. unfold on_db. rewrite prepare_fact_db. reflexivity.
  - apply respects_bind; [apply _|intros w; unfold on_db; simpl; reflexivity|intros _].
    apply respects_try_catch; [apply _|apply insert_fact_posts|intros error].
    destruct (_ && _); [exact IH|apply respects_throw; apply _].
Qed.

Lemma record_books input : balances (record false input).
Proof.
  intros w Hok. assert (Hrun := record_refines false input w Hok). unfold on_db in Hrun.
  split; [by eapply ledger_run_ok|]. exact (record_loop_posts input MAX_SEQUENCE_ATTEMPTS w).
Qed.
#[local] Hint Resolve record_books : effects.

Lemma findChain_books reference : balances (findChain reference).
Proof. unfold findChain. respects. Qed.
#[local] Hint Resolve findChain_books : effects.

Lemma closeCase_books t detail : balances (closeCase false t detail).
Proof.
  unfold closeCase, closeCase_under. pose proof record_books as H. unfold record in H. respects.
Qed.
#[local] Hint Resolve closeCase_books : effects.
End operations.

#[export] Hint Resolve save_transaction_books insert_transaction_books update_transactions_books
  insert_refund_books save_refund_books insert_instruction_books save_instruction_books
  insert_webhook_books save_webhook_books update_webhooks_books save_batch_books insert_batch_books
  update_events_books find_transaction_books find_refund_books find_batch_books
  find_webhook_or_fail_books find_transaction_or_fail_books record_books findChain_books
  closeCase_books : effects.

(** * The services *)

Section services.
Context {HH : Hashing} {HX : XsdEngine} {HE : Entropy} {HD : DateParser} {HM : Hmac} {HT : ErrorText}.
Context {HS : SoapClient} {HC : ChainClient} {HR : RefundProvider} {HA : Sha256}.
Context (config : GatewayConfig).
Abbreviation balances := (Respects (on_db books)).
Abbreviation held_balances := (Respects (on_ent books)).

(** ** Reconciliation and treasury *)

Lemma persist_verdict_books before t : balances (persist_verdict before t).
Proof. unfold persist_verdict. respects. Qed.
#[local] Hint Resolve persist_verdict_books : effects.

Lemma reconcile_books : held_balances reconcile.
Proof. unfold reconcile. respects. Qed.
#[local] Hint Resolve reconcile_books : effects.

Lemma reconcile_all_books pending m n : balances (reconcile_all pending m n).
Proof. revert m n. induction pending as [|t pending IH]; intros m n; simpl; respects. Qed.
#[local] Hint Resolve reconcile_all_books : effects.

Lemma runPending_books : balances runPending.
Proof. unfold runPending. respects. Qed.

Lemma sweep_one_books t : balances (sweep_one t).
Proof. unfold sweep_one. respects. Qed.
#[local] Hint Resolve sweep_one_books : effects.

Lemma sweep_books limit : balances (sweep limit).
Proof.
  assert (Hall : ∀ rows n a, balances (sweep_all (λ _ d, d) rows n a)).
  { intros rows. induction rows as [|t rows IH]; intros n a; simpl; respects.
    intros w. unfold on_db. simpl. reflexivity. }
  unfold sweep, sweep_under. respects.
Qed.

(** ** Mobile Money, its worker and its callbacks *)

Lemma no_interference_books (f : Db → Db) : (∀ d, f d = d) → balances (modify_db f).
Proof. intros Hf w. unfold on_db. simpl. by rewrite Hf. Qed.

Lemma generate_books : balances generate.
Proof. unfold generate, randomSuffix. respects. Qed.
Lemma generateReference_books : balances generateReference.
Proof. unfold generateReference. respects. Qed.
#[local] Hint Resolve generate_books generateReference_books : effects.

Lemma open_payment_books t : balances (open_payment t).
Proof. unfold open_payment. respects. Qed.
#[local] Hint Resolve open_payment_books : effects.

Lemma initiate_books dto key : balances (initiate (gc_mobileMoney config) (gc_business config) dto key).
Proof.
  assert (Hnone : ∀ k, balances (modify_db ((λ (_ : nat) d, d) k))) by (intros k; by apply no_interference_books).
  assert (Hloop : ∀ fuel, balances (initiate_loop (gc_mobileMoney config) (λ _ d, d) dto key fuel)).
  { induction fuel as [|fuel IH]; simpl; unfold correlation_or_uuid, idempotent_winner,
      idempotency_key_reused; respects. }
  unfold initiate, initiate_under, assertBusinessRules, idempotency_key_reused. respects.
Qed.

Lemma findByAggregatorReference_books r : balances (findByAggregatorReference r).
Proof. unfold findByAggregatorReference, or_not_found. respects. Qed.
Lemma markAmountMismatch_books t webhook : balances (markAmountMismatch t webhook).
Proof. unfold markAmountMismatch. respects. Qed.
Lemma markProviderFailed_books t webhook : balances (markProviderFailed t webhook).
Proof. unfold markProviderFailed. respects. Qed.
#[local] Hint Resolve findByAggregatorReference_books markAmountMismatch_books
  markProviderFailed_books : effects.

(** The queueing of the instruction is in the transaction of the claim. *)
Lemma confirm_books t webhook onClaimed :
  (∀ u, Respects (on_db ledger_refines) (onClaimed u)) →
  balances (confirmAndClaimBankProcessing (gc_mobileMoney config) t webhook onClaimed).
Proof. intros H. unfold confirmAndClaimBankProcessing. respects. Qed.

Lemma claimNext_books locked : balances (claimNext locked).
Proof. unfold claimNext. respects. Qed.
Lemma deadLetter_books i reason : held_balances (deadLetter i reason).
Proof. unfold deadLetter. respects. Qed.
#[local] Hint Resolve claimNext_books deadLetter_books : effects.

Lemma attempt_books execute i :
  held_balances execute → held_balances (BankWorker.attempt (gc_mobileMoney config) execute i).
Proof. intros He. unfold BankWorker.attempt. respects. Qed.

Lemma drain_books running locked execute limit :
  held_balances execute →
  balances (drain (gc_mobileMoney config) running locked (Some execute) limit).
Proof.
  intros He. unfold drain. destruct running; [respects|].
  pose proof (λ i, attempt_books execute i He).
  generalize (mkDrainOutcome 0 0 0). induction limit as [|limit IH]; intros o; simpl; respects.
Qed.

Lemma register_books payload : balances (register payload).
Proof. unfold register. respects. Qed.
#[local] Hint Resolve register_books : effects.

Lemma registerAndClaim_books payload : balances (registerAndClaim (λ d, d) payload).
Proof.
  assert (H : balances (modify_db (λ d, d))) by by apply no_interference_books.
  unfold registerAndClaim. respects.
Qed.

Lemma apply_notification_books payload : balances (apply_notification (gc_mobileMoney config) payload).
Proof. unfold apply_notification, handleConfirmation. respects. apply confirm_books. intros u. respects. Qed.
#[local] Hint Resolve registerAndClaim_books apply_notification_books : effects.

Lemma handle_books payload signature : balances (handle (gc_mobileMoney config) payload signature).
Proof. unfold handle, handle_under, verifySignature. respects. Qed.

Lemma persist_execution_books before exchange t : balances (persist_execution before exchange t).
Proof. unfold persist_execution. respects. Qed.
Lemma persist_bank_failure_books before t : balances (persist_bank_failure before t).
Proof. unfold persist_bank_failure. respects. Qed.
#[local] Hint Resolve persist_execution_books persist_bank_failure_books : effects.

Lemma executeBankInstruction_books : held_balances executeBankInstruction.
Proof. unfold executeBankInstruction, call_bank, applyBankSuccess, handleBankFailure. respects. Qed.
#[local] Hint Resolve executeBankInstruction_books : effects.

Lemma executor_books : held_balances executor.
Proof. unfold executor. respects. Qed.

(** ** Refunds *)

Lemma held_refund_books : held_balances held_refund.
Proof. unfold held_refund. respects. Qed.
Lemma held_payment_books : held_balances held_payment.
Proof. unfold held_payment. respects. Qed.
Lemma assign_refund_books f : held_balances (assign_refund f).
Proof. apply assigns_respects. apply _. Qed.
Lemma assign_payment_books f : held_balances (assign_payment f).
Proof. apply assigns_respects. apply _. Qed.
#[local] Hint Resolve held_refund_books held_payment_books assign_refund_books
  assign_payment_books : effects.
Lemma save_held_books : held_balances save_held.
Proof. unfold save_held. respects. Qed.
#[local] Hint Resolve save_held_books : effects.
Lemma syncTransaction_books status case : held_balances (syncTransaction status case).
Proof. unfold syncTransaction. respects. Qed.
#[local] Hint Resolve syncTransaction_books : effects.

#[local] Hint Resolve held_refund_frames held_payment_frames assign_refund_frames
  assign_payment_frames save_held_frames syncTransaction_frames : effects.

Lemma refund_attempt_books actor : held_balances (Refunds.attempt actor).
Proof.
  unfold Refunds.attempt, persist_request, call_provider, recordSuccess, persist_success, recordFailure.
  respects.
Qed.
#[local] Hint Resolve refund_attempt_books : effects.

Lemma requestRefund_books reference requestedBy : balances (requestRefund reference requestedBy).
Proof.
  assert (H : balances (modify_db (λ d, d))) by by apply no_interference_books.
  unfold requestRefund, requestRefund_under, loadRefundable, findOrCreate. respects.
Qed.

Lemma reopenRefund_books reference reopenedBy : balances (reopenRefund reference reopenedBy).
Proof. unfold reopenRefund. respects. Qed.

Lemma retry_all_books pending completed : balances (retry_all pending completed).
Proof. revert completed. induction pending; intros completed; simpl; respects. Qed.
#[local] Hint Resolve retry_all_books : effects.

Lemma runOnce_books running : balances (runOnce running).
Proof. unfold runOnce, retryPending. respects. Qed.

(** ** Bank transfers *)

Lemma persist_terminal_books before type detail closing :
  held_balances (persist_terminal before type detail closing).
Proof. unfold persist_terminal. respects. Qed.
#[local] Hint Resolve persist_terminal_books : effects.

Lemma processTransaction_books : held_balances processTransaction.
Proof.
  unfold processTransaction, complete_transfer, handleProcessingFailure, persistFailedTransaction.
  respects.
Qed.
#[local] Hint Resolve processTransaction_books : effects.

Lemma initiateTransfer_books dto key : balances (initiateTransfer (gc_business config) dto key).
Proof.
  assert (Hnone : ∀ k, balances (modify_db ((λ (_ : nat) d, d) k))) by (intros k; by apply no_interference_books).
  assert (Hloop : ∀ c fuel, balances (persist_loop (λ _ d, d) dto key c fuel)).
  { intros c fuel. induction fuel as [|fuel IH]; simpl; unfold open_transfer; respects. }
  unfold initiateTransfer, initiateTransfer_under, assertTransferRules, buildAndValidateRequestDocument,
    assertValid, persistPendingTransaction. respects.
Qed.

(** ** Anchoring *)

Lemma toLeaves_books items : balances (toLeaves items).
Proof. induction items as [|e items IH]; simpl; respects. Qed.
Lemma assign_proofs_books tree id items k : balances (assign_proofs tree id items k).
Proof. revert k. induction items as [|e items IH]; intros k; simpl; unfold getProof; respects. Qed.
Lemma save_items_books items : balances (save_items items).
Proof. induction items as [|e items IH]; simpl; respects. Qed.
Lemma buildMerkleTree_books leaves : balances (buildMerkleTree leaves).
Proof. intros w. rewrite buildMerkleTree_reads. reflexivity. Qed.
#[local] Hint Resolve toLeaves_books assign_proofs_books save_items_books buildMerkleTree_books : effects.
#[local] Hint Resolve toLeaves_refines assign_proofs_refines save_items_refines
  buildMerkleTree_refines markItems_refines : effects.

Lemma createBatch_books locked : balances (createBatch (gc_anchor config) locked).
Proof. unfold createBatch. respects. Qed.
Lemma markItems_books items status : balances (markItems items status).
Proof. unfold markItems. respects. Qed.
#[local] Hint Resolve createBatch_books markItems_books : effects.

Lemma findOrCreateBatch_books locked : balances (findOrCreateBatch (gc_anchor config) locked).
Proof.
  assert (H : ∀ candidates, balances (resume_first candidates)).
  { induction candidates as [|b candidates IH]; simpl; respects. }
  unfold findOrCreateBatch, findResumableBatch. respects.
Qed.
Lemma recordBatchFailure_books batch items reason force :
  balances (recordBatchFailure (gc_anchor config) batch items reason force).
Proof. unfold recordBatchFailure. respects. Qed.
Lemma finalizeBatch_books batch items c : balances (finalizeBatch batch items c).
Proof. unfold finalizeBatch. respects. Qed.
#[local] Hint Resolve findOrCreateBatch_books recordBatchFailure_books finalizeBatch_books : effects.

Lemma anchorBatchItems_books batch items : balances (anchorBatchItems (gc_anchor config) batch items).
Proof.
  assert (Hordered : balances (orderedLeaves items (ab_leafCount batch))).
  { intros w. rewrite orderedLeaves_reads. reflexivity. }
  unfold anchorBatchItems, anchor_tree, attempt_publication, publish, last_reading,
    finalizeRecoveredBatch. respects.
Qed.
#[local] Hint Resolve anchorBatchItems_books : effects.

Lemma processPendingBatch_books running acquired locked :
  balances (processPendingBatch (gc_anchor config) running acquired locked).
Proof. unfold processPendingBatch. respects. Qed.

(** * The gateway *)

#[local] Hint Resolve runPending_books sweep_books initiate_books handle_books executor_books
  requestRefund_books reopenRefund_books runOnce_books initiateTransfer_books
  processPendingBatch_books drain_books : effects.

Lemma verify_books explorer reference : balances (verify explorer reference).
Proof. intros w. assert (H := verify_reads explorer reference w). unfold on_db in *. rewrite H. reflexivity. Qed.
Lemma simulator_confirm_books enabled reference input :
  balances (confirm (gc_mobileMoney config) enabled reference input).
Proof. unfold confirm, assertEnabled, buildWebhook. respects. Qed.
#[local] Hint Resolve verify_books simulator_confirm_books : effects.

Lemma controller_books locks identity request : balances (controller config locks identity request).
Proof.
  destruct request; cbn [controller]; unfold transfers_create, transfers_findAll, transfers_findOne,
      transfers_verifyIntegrity, events_findChain, events_verifyChain, refunds_request,
      refunds_reopen, refunds_findOne, mobileMoney_initiate, mobileMoney_findOne, runReconciliation,
      webhook_receive, ledger_balance, ledger_entries, treasury_sweep, anchors_listBatches,
      anchors_findBatch, anchorNow, anchors_statistics, simulator_payment, simulator_confirm,
      list_transfers, paginate, findTransfer, findByTransaction, MobileMoney.findByReference,
      trialBalance, journal_of, listBatches, findBatch, getStatistics, simulator_findOne, assertEnabled, masked,
      MobileMoney.findByAggregatorReference, or_not_found; respects.
Qed.

Lemma gateway_step_books w w' : gateway_step config w w' → on_db books w w'.
Proof.
  intros [locks authorization request ->|job ->|date correlationId ->].
  - unfold handle_request. destruct (canActivate _ _ _ _ _); [apply controller_books|].
    apply respects_throw. apply _.
  - destruct job; cbn [run_job]; apply respects_bind; try apply _; respects.
  - unfold on_db. simpl. reflexivity.
Qed.

Lemma execution_books w w' : execution config w w' → on_db books w w'.
Proof.
  induction 1 as [w|w1 w2 w3 Hstep _ IH]; [unfold on_db; reflexivity|].
  apply gateway_step_books in Hstep. by etrans.
Qed.
End services.

(** * Properties *)

Section properties.
Context {HH : Hashing} {HX : XsdEngine} {HE : Entropy} {HD : DateParser} {HM : Hmac} {HT : ErrorText}.
Context {HS : SoapClient} {HC : ChainClient} {HR : RefundProvider} {HA : Sha256}.
Context (config : GatewayConfig).

(** The books close at any moment.  After any sequence of requests, by anyone, of
    rounds of the workers and of time passing, every entry of the journal debits what it
    credits; the balance sheet a client asks for, of a payment, of a currency or of all,
    shows a difference of zero and the totals of the lines it selects, and reading it
    changes nothing; it is refused only when it would add several currencies up. *)
Theorem every_sheet_closes w0 w reference currency :
  w_db w0 = empty_db → execution config w0 w →
  let entries := List.filter (selected reference (Ledger.requested currency)) (db_entries (w_db w)) in
  Forall (λ e, entry_balanced e = true) (db_entries (w_db w))
  ∧ match trialBalance reference currency w with
    | (Return tb, w') =>
        w' = w ∧ tb_difference tb = 0 ∧ tb_entryCount tb = length entries
        ∧ tb_totalDebits tb = total EntryDirection.DEBIT (mjoin (je_lines <$> entries))
        ∧ tb_totalCredits tb = total EntryDirection.CREDIT (mjoin (je_lines <$> entries))
    | (Throw e, w') =>
        w' = w ∧ e = HttpException 400 "Bad Request" ∧ Ledger.requested currency = None
        ∧ has_reference reference = false ∧ (1 < length (distinct_currencies entries))%nat
    end.
Proof.
  intros Hempty Hrun entries. apply execution_books in Hrun. unfold on_db in Hrun. rewrite Hempty in Hrun.
  destruct (Hrun (proj1 empty_ledger)) as (_ & added & Hentries & Hbalanced). cbn in Hentries.
  rewrite <- Hentries in Hbalanced. split; [done|]. by apply trial_balance_closes.
Qed.
End properties.

(** * Witness *)

#[local] Existing Instances Toy.hashing Toy.entropy Toy.xsd sample_dates sample_texts sample_hmac
  sample_bank Anchoring.ledger_chain simulator_provider sample_sha256.

(** A payment is opened, then its collection notified under the aggregator's signature. *)
Definition sample_ordered : World :=
  (handle_request sample_gateway sample_locks sample_header (PostMobileMoney sample_order None) empty_world).2.
Definition sample_collection : MobileMoneyWebhookDto :=
  sample_notification "evt-1" (match db_transactions (w_db sample_ordered) with
                               | t :: _ => or_default (tx_aggregatorReference t) ""
                               | [] => ""
                               end) MobileMoneyWebhookStatus.CONFIRMED 125075.
Definition sample_confirmed : World :=
  (handle_request sample_gateway sample_locks None
     (PostWebhook sample_collection (Some (sign (gc_mobileMoney sample_gateway) sample_collection)))
     sample_ordered).2.

Lemma every_sheet_closes_witness :
  ∃ tb, trialBalance None (Some "USD") sample_confirmed = (Return tb, sample_confirmed)
    ∧ (0 < tb_entryCount tb)%nat ∧ tb_difference tb = 0.
Proof.
  assert (Hrun : execution sample_gateway empty_world sample_confirmed).
  { eapply rtc_l; [|apply rtc_once; exact (step_request _ _ _ sample_locks None _ eq_refl)].
    exact (step_request _ _ _ sample_locks sample_header _ eq_refl). }
  destruct (every_sheet_closes sample_gateway empty_world sample_confirmed None (Some "USD") eq_refl Hrun)
    as [_ Hsheet].
  destruct (trialBalance None (Some "USD") sample_confirmed) as [[tb|e] w'] eqn:Hsheet'.
  - destruct Hsheet as (-> & Hdiff & Hcount & _). exists tb. split; [reflexivity|].
    split; [rewrite Hcount; vm_compute; lia|exact Hdiff].
  - destruct Hsheet as (_ & _ & Hcurrency & _). vm_compute in Hcurrency. discriminate Hcurrency.
Defined.
