(* ===== verification/Metrics.v ===== *)
(** The gauges of the supervision: [src/observability/metrics.service.ts].

    The gauges are read from the base when they are scraped, and a failed query leaves the
    exposition up.  Counters and histograms, which the services only increment, are not
    modelled.  A value is in cents: the [float8] of the query, exact up to 2^53. *)
From S2P Require Import Prelude Text Domain StateMachine Money External Fingerprint EventXml Merkle.
From S2P Require Import Database Ledger EventLedger Ports ChainVerification Services Reconciliation.
From S2P Require Import References MobileMoney BankWorker Webhook Refunds Treasury Anchoring Transfers.
From S2P Require Import ApiKeys Simulator Gateway Books.
Open Scope Z_scope.

(** * State and operations *)

(** The labelled gauges map a currency to a value. *)
Record Gauges := mkGauges {
  g_debtOutstanding : list (string * Z);
  g_eventsUnanchored : Z;
  g_ledgerImbalance : list (string * Z);
  g_casesOpen : Z
}.
#[export] Instance eta_Gauges : Eta Gauges :=
  λ r, mkGauges (g_debtOutstanding r) (g_eventsUnanchored r) (g_ledgerImbalance r) (g_casesOpen r).

Definition initial_gauges : Gauges := mkGauges [] 0 [] 0.

(** [COALESCE(SUM(CASE WHEN direction = plus THEN amount ELSE -amount END), 0)] *)
Definition signed_sum (plus : EntryDirection) (lines : list PostingLine) : Z :=
  foldr (λ l acc, (if bool_decide (pl_direction l = plus) then pl_amount l else - pl_amount l) + acc)
    0 lines.

(** The lines that [keep] selects, joined to their entry, grouped by its currency. *)
Definition grouped (keep : PostingLine → bool) (plus : EntryDirection) (entries : list JournalEntry) :
    list (string * Z) :=
  let lines currency :=
    List.filter keep (mjoin (je_lines <$> List.filter (λ e, str_eqb (je_currency e) currency) entries)) in
  (λ currency, (currency, signed_sum plus (lines currency)))
    <$> distinct_currencies (List.filter (λ e, existsb keep (je_lines e)) entries).

Definition debts (d : Db) : list (string * Z) :=
  grouped (λ l, bool_decide (pl_account l = LedgerAccount.PAYER_PAYABLE)) EntryDirection.CREDIT
    (db_entries d).
Definition imbalances (d : Db) : list (string * Z) :=
  grouped (λ _, true) EntryDirection.DEBIT (db_entries d).
Definition unanchored_count (d : Db) : Z :=
  Z.of_nat (length (List.filter (λ e, is_eq (ev_anchorStatus e) AnchorStatus.PENDING) (db_events d))).
Definition open_cases (d : Db) : Z :=
  Z.of_nat (length (List.filter (λ t, is_eq (tx_caseStatus t) CaseStatus.MANUAL_REVIEW)
    (db_transactions d))).

(** A query of the scrape, the [n]-th; [answered] says whether the base answers it. *)
Definition query {A} (answered : nat → bool) (n : nat) (value : A) : Eff Gauges string A :=
  throw_unless (answered n) "query failed" ;; mret value.

(** [refreshGauges] *)
Definition refreshGauges (answered : nat → bool) (d : Db) : Eff Gauges string unit :=
  modify (λ g, g <| g_debtOutstanding := [] |> <| g_ledgerImbalance := [] |>) ;;
  rows ← query answered 0 (debts d);
  modify (λ g, g <| g_debtOutstanding := rows |>) ;;
  rows ← query answered 1 (imbalances d);
  modify (λ g, g <| g_ledgerImbalance := rows |>) ;;
  pending ← query answered 2 (unanchored_count d);
  modify (λ g, g <| g_eventsUnanchored := pending |>) ;;
  opened ← query answered 3 (open_cases d);
  modify (λ g, g <| g_casesOpen := opened |>).

(** [scrape]: a failure is logged, and what the registry then has is exposed. *)
Definition scrape (answered : nat → bool) (d : Db) : Eff Gauges string Gauges :=
  try_catch (refreshGauges answered d) (λ _, mret tt) ;;
  gets (λ g, g).

(** * Lemmas *)

Lemma signed_sum_totals lines :
  signed_sum EntryDirection.DEBIT lines
    = total EntryDirection.DEBIT lines - total EntryDirection.CREDIT lines
  ∧ signed_sum EntryDirection.CREDIT lines
    = total EntryDirection.CREDIT lines - total EntryDirection.DEBIT lines.
Proof.
  unfold signed_sum. induction lines as [|l lines [IHd IHc]]; [done|]. simpl. rewrite IHd, IHc.
  destruct (pl_direction l); simpl; repeat case_bool_decide; simplify_eq; lia.
Qed.

Lemma elem_of_grouped keep plus entries currency v :
  (currency, v) ∈ grouped keep plus entries →
  v = signed_sum plus (List.filter keep
        (mjoin (je_lines <$> List.filter (selected None (Some currency)) entries))).
Proof. unfold grouped. intros (c & [= -> ->] & _)%list_elem_of_fmap. done. Qed.

Lemma filter_all {A} (l : list A) : List.filter (λ _, true) l = l.
Proof. induction l as [|a l IH]; simpl; [done|]. by rewrite IH. Qed.

(** Over a journal whose entries are balanced no imbalance is reported. *)
Lemma imbalances_zero d :
  Forall (λ e, entry_balanced e = true) (db_entries d) →
  Forall (λ row, row.2 = 0) (imbalances d).
Proof.
  intros Hall. apply Forall_forall. intros [currency v] ->%elem_of_grouped. cbn [snd].
  rewrite filter_all, (proj1 (signed_sum_totals _)), total_entries; [lia|].
  by apply Forall_list_filter.
Qed.

(** The debt reported for a currency is the balance of the payers' account on its sheet. *)
Lemma debts_on_sheet d currency v :
  (currency, v) ∈ debts d →
  let entries := List.filter (selected None (Some currency)) (db_entries d) in
  match account_balance (mjoin (je_lines <$> entries)) LedgerAccount.PAYER_PAYABLE with
  | Some b => v = acc_balance b
  | None => v = 0
  end.
Proof.
  intros Hv%elem_of_grouped entries. fold entries in Hv. unfold account_balance.
  change (List.filter _ (mjoin (je_lines <$> entries)))
    with (on_account LedgerAccount.PAYER_PAYABLE (mjoin (je_lines <$> entries))) in Hv.
  destruct (on_account LedgerAccount.PAYER_PAYABLE (mjoin (je_lines <$> entries))) as [|l lines] eqn:Hl.
  - done.
  - cbn [acc_balance]. rewrite round_id. rewrite Hv. exact (proj2 (signed_sum_totals (l :: lines))).
Qed.

(** What a scrape leaves, query by query. *)
Lemma scrape_eq answered d g :
  scrape answered d g =
    let g0 := g <| g_debtOutstanding := [] |> <| g_ledgerImbalance := [] |> in
    let g1 := if answered 0%nat then g0 <| g_debtOutstanding := debts d |> else g0 in
    let g2 := if answered 0%nat && answered 1%nat then g1 <| g_ledgerImbalance := imbalances d |> else g1 in
    let g3 := if answered 0%nat && answered 1%nat && answered 2%nat
              then g2 <| g_eventsUnanchored := unanchored_count d |> else g2 in
    let g4 := if answered 0%nat && answered 1%nat && answered 2%nat && answered 3%nat
              then g3 <| g_casesOpen := open_cases d |> else g3 in
    (Return g4, g4).
Proof.
  unfold scrape, refreshGauges, query, try_catch, throw_unless, mbind, Eff_bind, modify.
  destruct (answered 0%nat), (answered 1%nat), (answered 2%nat), (answered 3%nat); reflexivity.
Qed.

(** * Properties *)

(** Supervision tells the books.  After any execution of the gateway, and whatever
    queries of the scrape the base answers: the scrape exposes its gauges; it shows no
    imbalance; a debt it shows is the current balance of the payers' account on the sheet
    of its currency, never a stale one; and when the base answers, every currency with a
    movement on that account has its debt shown, and the counts are those of the base. *)
Theorem supervision_tells_the_books {HH : Hashing} {HX : XsdEngine} {HE : Entropy} {HD : DateParser}
    {HM : Hmac} {HT : ErrorText} {HS : SoapClient} {HC : ChainClient} {HR : RefundProvider} {HA : Sha256}
    config w0 w answered g :
  w_db w0 = empty_db → execution config w0 w →
  ∃ g', scrape answered (w_db w) g = (Return g', g')
    ∧ Forall (λ row, row.2 = 0) (g_ledgerImbalance g')
    ∧ (∀ currency v, (currency, v) ∈ g_debtOutstanding g' →
         let entries := List.filter (selected None (Some currency)) (db_entries (w_db w)) in
         match account_balance (mjoin (je_lines <$> entries)) LedgerAccount.PAYER_PAYABLE with
         | Some b => v = acc_balance b
         | None => v = 0
         end)
    ∧ ((∀ n, answered n = true) →
         g_debtOutstanding g' = debts (w_db w) ∧ g_ledgerImbalance g' = imbalances (w_db w)
         ∧ g_eventsUnanchored g' = unanchored_count (w_db w) ∧ g_casesOpen g' = open_cases (w_db w)).
Proof.
  intros Hempty Hrun. apply execution_books in Hrun. unfold on_db in Hrun. rewrite Hempty in Hrun.
  destruct (Hrun (proj1 empty_ledger)) as (_ & added & Hentries & Hbalanced). cbn in Hentries.
  rewrite <- Hentries in Hbalanced. apply imbalances_zero in Hbalanced.
  rewrite scrape_eq. eexists. split; [reflexivity|]. split; [|split].
  - destruct (answered 0%nat), (answered 1%nat), (answered 2%nat), (answered 3%nat);
      cbn; try constructor; exact Hbalanced.
  - intros currency v Hin. apply debts_on_sheet.
    destruct (answered 0%nat), (answered 1%nat), (answered 2%nat), (answered 3%nat);
      cbn in Hin; try exact Hin; by apply not_elem_of_nil in Hin.
  - intros Hans. rewrite !Hans. done.
Qed.

(** * Witness *)

#[local] Existing Instances Toy.hashing Toy.entropy Toy.xsd sample_dates sample_texts sample_hmac
  sample_bank Anchoring.ledger_chain simulator_provider sample_sha256.

Lemma supervision_tells_the_books_witness :
  (scrape (λ _, true) (w_db sample_confirmed) initial_gauges).2
    = mkGauges (debts (w_db sample_confirmed)) (unanchored_count (w_db sample_confirmed))
        (imbalances (w_db sample_confirmed)) (open_cases (w_db sample_confirmed))
  ∧ imbalances (w_db sample_confirmed) = [("USD", 0)].
Proof.
  assert (Hrun : execution sample_gateway empty_world sample_confirmed).
  { eapply rtc_l; [|apply rtc_once; exact (step_request _ _ _ sample_locks None _ eq_refl)].
    exact (step_request _ _ _ sample_locks sample_header _ eq_refl). }
  destruct (supervision_tells_the_books sample_gateway empty_world sample_confirmed (λ _, true)
    initial_gauges eq_refl Hrun) as (g' & Hscrape & _ & _ & Hall).
  destruct (Hall (λ _, eq_refl)) as (Hd & Hi & Hu & Hc). rewrite Hscrape. cbn [snd].
  split; [|vm_compute; reflexivity]. destruct g' as [a b c d]. cbn in Hd, Hi, Hu, Hc. by subst.
Defined.

(** Once the closure of the sample case is published nothing waits for publication, and the
    gauge of the facts in wait for it still counts its opening. *)
Example published_case_is_counted :
  let w := (processPendingBatch sample_anchor_config false true nobody sample_case).2 in
  let w' := (processPendingBatch sample_anchor_config false true nobody w).2 in
  db_batches (w_db w') = db_batches (w_db w)
  ∧ ab_status <$> db_batches (w_db w) = [BatchStatus.ANCHORED]
  ∧ unanchored_count (w_db w') = 1.
Proof. cbv zeta. split_and!; vm_compute; reflexivity. Qed.
