(* ===== verification/HttpLayer.v ===== *)
(** What surrounds the controllers: [src/common/middleware/correlation-id.middleware.ts],
    [src/common/context/request-context.ts], [src/common/filters/all-exceptions.filter.ts]
    and the probes of [src/health/health.controller.ts].

    [serve] is a request from its headers to its answer: the middleware, then the guard and
    the controller of the [Gateway], then the filter when they throw.  The names of the HTTP
    statuses are NestJS's; the texts and details an exception carries beside its code, which
    the errors of this development leave out, are a parameter. *)
From S2P Require Import Prelude Text Domain External EventXml Database Services Ports.
From S2P Require Import MobileMoney Webhook Refunds Anchoring SoapService.
From S2P Require Import ApiKeys Transfers Simulator Masking Responses Gateway.
Open Scope Z_scope.

(** * Correlation *)

Definition CORRELATION_ID_HEADER : string := "x-correlation-id".

(** [/^[A-Za-z0-9._:-]{8,128}$/] *)
Definition is_correlation_char (c : Ascii.ascii) : bool :=
  is_upper c || is_lower c || is_digit c || Ascii.eqb c "." || Ascii.eqb c "_"
  || Ascii.eqb c ":" || Ascii.eqb c "-".
Definition SAFE_CORRELATION_ID (s : string) : bool :=
  Nat.leb 8 (String.length s) && Nat.leb (String.length s) 128 && all_chars is_correlation_char s.

(** The identifier [CorrelationIdMiddleware.use] gives the request: the one received when it
    is safe, a drawn one otherwise. *)
Definition correlation_of `{Entropy} (incoming : option string) (w : World) : string * World :=
  if truthy incoming && SAFE_CORRELATION_ID (or_default incoming "")
  then (or_default incoming "", w)
  else (randomUUID (w_draws w), w <| w_draws := S (w_draws w) |>).

(** [storage.run]: the callback and what it calls see this identifier, nothing else does. *)
Definition runWithRequestContext {A} (correlationId : string) (callback : App A) : App A :=
  λ w, let '(o, w') := callback (w <| w_correlation := correlationId |>) in
       (o, w' <| w_correlation := w_correlation w |>).

(** [randomUUID]: 36 hexadecimal digits and hyphens, as RFC 4122 writes them. *)
Class UuidLaws `{Entropy} := { randomUUID_safe n : SAFE_CORRELATION_ID (randomUUID n) = true }.

(** * The filter *)

(** [HttpStatus[statusCode]], the reverse side of NestJS's enumeration. *)
Class HttpStatuses := { status_name : Z → option string }.

(** What may be thrown, with the fields the filter reads. *)
Inductive Thrown :=
  | ThrownHttp (status : Z) (payload : Json) (message : string)
  | ThrownSoapFault (operation : string) (fault : SoapFaultDetails)
  | ThrownSoapCommunication (operation message : string) (timedOut : bool) (attempts : Z)
  | ThrownSoapParsing (operation message : string)
  | ThrownQueryFailed (code : option string) (message : string)
  | ThrownOther (message : string).

Record NormalizedError := mkNormalizedError {
  ne_statusCode : Z;
  ne_error : string;
  ne_message : Json;
  ne_reference : option string;
  ne_details : option Json;
  ne_internal : option string
}.

Section Filter.
Context {HN : HttpStatuses}.

(** [/\s/.test(value) || /^[A-Z][a-z]/.test(value)] *)
Definition looksLikeStatusText (value : string) : bool :=
  negb (all_chars (λ c, negb (is_space c)) value)
  || match value with String a (String b _) => is_upper a && is_lower b | _ => false end.

Definition codeFromStatus (statusCode : Z) : string :=
  match status_name statusCode with
  | Some name => name
  | None => if 500 <=? statusCode then "INTERNAL_SERVER_ERROR" else "REQUEST_ERROR"
  end.

(** [record.key] *)
Definition field (key : string) (payload : Json) : Json :=
  match payload with
  | JObject entries =>
      match List.find (λ entry, str_eqb entry.1 key) entries with
      | Some entry => entry.2
      | None => JUndefined
      end
  | _ => JUndefined
  end.

Definition error_code (statusCode : Z) (error message : Json) : string :=
  let fallback :=
    match message with JArray _ => "VALIDATION_ERROR" | _ => codeFromStatus statusCode end in
  match error with
  | JString error => if looksLikeStatusText error then fallback else error
  | _ => fallback
  end.

Definition fromHttpException (statusCode : Z) (payload : Json) (exception_message : string) :
    NormalizedError :=
  match payload with
  | JString payload =>
      mkNormalizedError statusCode (codeFromStatus statusCode) (JString payload) None None None
  | record =>
      let message := match field "message" record with
                     | JUndefined | JNull => JString exception_message
                     | message => message
                     end in
      mkNormalizedError statusCode (error_code statusCode (field "error" record) message) message
        (match field "reference" record with JString reference => Some reference | _ => None end)
        (match field "details" record with
         | JObject _ | JArray _ => Some (field "details" record)
         | _ => None
         end)
        None
  end.

Definition fromSoapFault (operation : string) (fault : SoapFaultDetails) : NormalizedError :=
  mkNormalizedError 502 "SOAP_FAULT"
    (JString ("Le service externe a retourne une faute : " +:+ fd_faultString fault)) None
    (Some (JObject [("faultCode", JString (fd_faultCode fault));
                    ("faultString", JString (fd_faultString fault));
                    ("soapVersion", JString (fd_soapVersion fault));
                    ("operation", JString operation)]))
    None.

Definition fromSoapCommunication (operation message : string) (timedOut : bool) (attempts : Z) :
    NormalizedError :=
  mkNormalizedError (if timedOut then 504 else 502)
    (if timedOut then "SOAP_TIMEOUT" else "SOAP_UNAVAILABLE")
    (JString (if timedOut then "Le service externe n a pas repondu dans le delai imparti"
              else "Le service externe est injoignable"))
    None
    (Some (JObject [("operation", JString operation); ("attempts", JNumber (pretty attempts))]))
    (Some message).

Definition fromQueryFailed (code : option string) (message : string) : NormalizedError :=
  if bool_decide (code = Some PG_UNIQUE_VIOLATION) then
    mkNormalizedError 409 "RESOURCE_CONFLICT" (JString "La ressource existe deja") None None
      (Some message)
  else
    mkNormalizedError 500 "DATABASE_ERROR" (JString "Une erreur de persistance est survenue") None
      None (Some message).

Definition normalize (exception : Thrown) : NormalizedError :=
  match exception with
  | ThrownHttp statusCode payload message => fromHttpException statusCode payload message
  | ThrownSoapFault operation fault => fromSoapFault operation fault
  | ThrownSoapCommunication operation message timedOut attempts =>
      fromSoapCommunication operation message timedOut attempts
  | ThrownSoapParsing operation message =>
      mkNormalizedError 502 "SOAP_INVALID_RESPONSE"
        (JString "La reponse du service externe est inexploitable") None
        (Some (JObject [("operation", JString operation)])) (Some message)
  | ThrownQueryFailed code message => fromQueryFailed code message
  | ThrownOther message =>
      mkNormalizedError 500 "INTERNAL_SERVER_ERROR" (JString "Une erreur interne est survenue")
        None None (Some message)
  end.

(** ** The answer and the log line *)

Record ErrorResponseDto := mkErrorResponseDto {
  ed_statusCode : Z;
  ed_error : string;
  ed_message : Json;
  ed_correlationId : string;
  ed_timestamp : string;
  ed_path : string;
  ed_reference : option string;
  ed_details : option Json
}.

Record ErrorLog := mkErrorLog {
  el_server : bool;
  el_correlationId : string;
  el_path : string;
  el_statusCode : Z;
  el_error : string;
  el_message : Json;
  el_internal : option string
}.

Definition SERVER_ERROR_THRESHOLD : Z := 500.

(** [normalized.reference ? ... : {}]: an empty reference is left out. *)
Definition catch_body (correlationId path : string) (date : Z) (exception : Thrown) :
    ErrorResponseDto :=
  let normalized := normalize exception in {|
    ed_statusCode := ne_statusCode normalized;
    ed_error := ne_error normalized;
    ed_message := ne_message normalized;
    ed_correlationId := correlationId;
    ed_timestamp := toISOString date;
    ed_path := path;
    ed_reference := if truthy (ne_reference normalized) then ne_reference normalized else None;
    ed_details := ne_details normalized
  |}.

Definition catch_log (correlationId path : string) (exception : Thrown) : ErrorLog :=
  let normalized := normalize exception in {|
    el_server := SERVER_ERROR_THRESHOLD <=? ne_statusCode normalized;
    el_correlationId := correlationId;
    el_path := path;
    el_statusCode := ne_statusCode normalized;
    el_error := ne_error normalized;
    el_message := maskDeep 0 (ne_message normalized);
    el_internal := if truthy (ne_internal normalized) then ne_internal normalized else None
  |}.
End Filter.

(** * A request, from its headers to its answer *)

Section Serving.
Context {HH : Hashing} {HX : XsdEngine} {HE : Entropy} {HD : DateParser} {HM : Hmac} {HT : ErrorText}.
Context {HS : SoapClient} {HC : ChainClient} {HR : RefundProvider} {HA : Sha256} {HN : HttpStatuses}.
Context (config : GatewayConfig).

(** The fields of an [HttpException] beside its code, the version of the envelope a fault
    came in. *)
Context (http_fields : GatewayError → list (string * Json)) (fault_version : string).

Definition thrown_of (e : GatewayError) : Thrown :=
  match e with
  | HttpException status error =>
      ThrownHttp status (JObject (("error", JString error) :: http_fields e)) (error_message e)
  | SoapFaultException operation faultCode faultString =>
      ThrownSoapFault operation (mkSoapFaultDetails fault_version faultCode faultString)
  | SoapCommunicationException operation message attempts timedOut =>
      ThrownSoapCommunication operation message timedOut attempts
  | SoapParsingException operation message => ThrownSoapParsing operation message
  | QueryFailedError code _ => ThrownQueryFailed (Some code) (error_message e)
  | e => ThrownOther (error_message e)
  end.

(** [@HttpCode]: 201 for what creates a payment. *)
Definition success_status (request : Request) : Z :=
  match request with PostTransfer _ _ | PostMobileMoney _ _ => 201 | _ => 200 end.

(** The [x-correlation-id] header of the answer, with its body. *)
Inductive Answer :=
  | Answered (correlationId : string) (status : Z) (body : Response)
  | Refused (correlationId : string) (body : ErrorResponseDto).

Definition answer_correlation (answer : Answer) : string :=
  match answer with Answered correlationId _ _ | Refused correlationId _ => correlationId end.

Definition serve (locks : Locks) (incoming authorization : option string) (path : string)
    (request : Request) (w : World) : Answer * World :=
  let '(correlationId, w) := correlation_of incoming w in
  let '(o, w) :=
    runWithRequestContext correlationId (handle_request config locks authorization request) w in
  (match o with
   | Return body => Answered correlationId (success_status request) body
   | Throw e => Refused correlationId (catch_body correlationId path (w_now w) (thrown_of e))
   end, w).
End Serving.

(** * Probes *)

(** [components]: the database answers, the SOAP client and the schemas are ready, and the
    chain when anchoring is enabled. *)
Record Components := mkComponents {
  co_database : Outcome string unit;
  co_soapClient : bool;
  co_xsdSchemas : bool;
  co_anchoring : bool;
  co_chain : bool
}.

Definition component_status (b : bool) : string := if b then "up" else "down".
Definition database_up (c : Components) : bool :=
  match co_database c with Return _ => true | Throw _ => false end.

(** The status of the answer and the word of the report. *)
Definition probe (healthy : bool) : Z * string :=
  if healthy then (200, "ok") else (503, "degraded").

Definition live : Z * string := probe true.

Definition ready (c : Components) : (Z * string) * list (string * string) :=
  (probe (database_up c && co_soapClient c && co_xsdSchemas c),
   [("database", component_status (database_up c)); ("soapClient", component_status (co_soapClient c));
    ("xsdSchemas", component_status (co_xsdSchemas c))]).

Definition checkBlockchain (c : Components) : bool * bool :=
  if co_anchoring c then (co_chain c, true) else (true, false).

Definition health_check (c : Components) : (Z * string) * list (string * string) :=
  let '(status, enabled) := checkBlockchain c in
  (probe (database_up c && co_soapClient c && co_xsdSchemas c && (negb enabled || status)),
   [("database", component_status (database_up c)); ("soapClient", component_status (co_soapClient c));
    ("xsdSchemas", component_status (co_xsdSchemas c)); ("blockchain", component_status status)]).

(** * Lemmas *)

Lemma correlation_of_safe `{UuidLaws} incoming w :
  let '(correlationId, w') := correlation_of incoming w in
  SAFE_CORRELATION_ID correlationId = true
  ∧ (∀ sent, incoming = Some sent → SAFE_CORRELATION_ID sent = true → correlationId = sent)
  ∧ ∃ draws, w' = w <| w_draws := draws |>.
Proof.
  unfold correlation_of. destruct (truthy incoming && _) eqn:Hsent.
  - apply andb_true_iff in Hsent as [_ Hsafe]. split_and!; [done|by intros sent -> _|].
    exists (w_draws w). by destruct w.
  - split_and!; [apply randomUUID_safe| |by eexists]. intros sent -> Hsafe.
    assert (Htruthy : truthy (Some sent) = true) by (by destruct sent).
    rewrite Htruthy in Hsent. cbn [or_default default andb] in Hsent. exfalso. unfold or_default in Hsent. simpl in Hsent. congruence.
Qed.

Section answers.
Context {HH : Hashing} {HX : XsdEngine} {HE : Entropy} {HL : UuidLaws} {HD : DateParser} {HM : Hmac}.
Context {HT : ErrorText} {HS : SoapClient} {HC : ChainClient} {HR : RefundProvider} {HA : Sha256}.
Context {HN : HttpStatuses} (config : GatewayConfig).
Context (http_fields : GatewayError → list (string * Json)) (fault_version : string).

(** ** What a client may know of an error *)

(** The error without what only the logs may hold: the text of a driver, the constraint it
    names, the entity or the state the code speaks of. *)
Definition public_part (e : GatewayError) : GatewayError :=
  match e with
  | HttpException _ _ | SoapFaultException _ _ _ => e
  | SoapCommunicationException operation _ attempts timedOut =>
      SoapCommunicationException operation "" attempts timedOut
  | SoapParsingException operation _ => SoapParsingException operation ""
  | QueryFailedError code _ =>
      QueryFailedError (if bool_decide (code = PG_UNIQUE_VIOLATION) then code else "") ""
  | _ => PlainError ""
  end.

(** The status and the code that answer it; a code that reads as the text of a status, as
    those NestJS gives by default, is replaced by the name of the status. *)
Definition public_error (e : GatewayError) : Z * string :=
  match e with
  | HttpException status error =>
      (status, if looksLikeStatusText error then codeFromStatus status else error)
  | SoapFaultException _ _ _ => (502, "SOAP_FAULT")
  | SoapCommunicationException _ _ _ true => (504, "SOAP_TIMEOUT")
  | SoapCommunicationException _ _ _ false => (502, "SOAP_UNAVAILABLE")
  | SoapParsingException _ _ => (502, "SOAP_INVALID_RESPONSE")
  | QueryFailedError code _ =>
      if bool_decide (code = PG_UNIQUE_VIOLATION) then (409, "RESOURCE_CONFLICT")
      else (500, "DATABASE_ERROR")
  | _ => (500, "INTERNAL_SERVER_ERROR")
  end.

Abbreviation body_of := (λ correlationId path date e,
  catch_body correlationId path date (thrown_of http_fields fault_version e)).

Lemma body_tells_public_part correlationId path date e :
  body_of correlationId path date e = body_of correlationId path date (public_part e).
Proof.
  destruct e; try reflexivity. unfold catch_body, thrown_of, public_part, normalize, fromQueryFailed.
  destruct (decide (code = PG_UNIQUE_VIOLATION)) as [->|Hne]; [reflexivity|].
  rewrite (bool_decide_eq_false_2 (code = _)) by done.
  rewrite (bool_decide_eq_false_2 (Some code = _)) by congruence. reflexivity.
Qed.

(** The messages of the services are single texts, never lists. *)
Definition single_message : Prop :=
  ∀ e items, field "message" (JObject (http_fields e)) ≠ JArray items.

Lemma body_public_error correlationId path date e :
  single_message →
  (ed_statusCode (body_of correlationId path date e), ed_error (body_of correlationId path date e))
  = public_error e.
Proof.
  intros Hsingle.
  destruct e as [status error|?|code ?|?|?|?|? ? ? []|?|?|?|?]; try reflexivity;
    unfold catch_body, thrown_of, normalize, public_error.
  - specialize (Hsingle (HttpException status error)). unfold fromHttpException.
    change (field "message" (JObject (("error", JString error) :: http_fields (HttpException status error))))
      with (field "message" (JObject (http_fields (HttpException status error)))).
    change (field "error" _) with (JString error). cbn [ed_statusCode ed_error ne_statusCode ne_error].
    unfold error_code. destruct (field "message" _) eqn:Hm; try (by destruct (looksLikeStatusText error)).
    by destruct (Hsingle items).
  - unfold fromQueryFailed. destruct (decide (code = PG_UNIQUE_VIOLATION)) as [->|Hne]; [reflexivity|].
    rewrite (bool_decide_eq_false_2 (code = _)) by done.
    by rewrite (bool_decide_eq_false_2 (Some code = _)) by congruence.
Qed.

(** A refusal of the guard reaches neither the database nor the outside. *)
Lemma refused_by_guard locks authorization request e w :
  canActivate (gc_authEnabled config) (onModuleInit (gc_apiKeys config)) true (route_metadata request) authorization = Throw e →
  handle_request config locks authorization request w = (Throw e, w)
  ∧ (public_error e = (401, "UNAUTHENTICATED") ∨ public_error e = (403, "INSUFFICIENT_SCOPE")).
Proof.
  intros Hguard. unfold handle_request. rewrite Hguard. split; [done|].
  apply canActivate_refused in Hguard as [->| ->]; [left|right]; reflexivity.
Qed.

(** ** The run behind an answer *)

Lemma serve_runs locks incoming authorization path request w answer w' :
  serve config http_fields fault_version locks incoming authorization path request w = (answer, w') →
  ∃ correlationId draws, correlation_of incoming w = (correlationId, w <| w_draws := draws |>) ∧
    let run := handle_request config locks authorization request
      (w <| w_draws := draws |> <| w_correlation := correlationId |>) in
    w' = run.2 <| w_correlation := w_correlation w |>
    ∧ answer = match run.1 with
               | Return body => Answered correlationId (success_status request) body
               | Throw e => Refused correlationId (body_of correlationId path (w_now run.2) e)
               end.
Proof.
  unfold serve. pose proof (correlation_of_safe incoming w) as Hc.
  destruct (correlation_of incoming w) as [correlationId w1] eqn:Hof. destruct Hc as (_ & _ & draws & ->).
  unfold runWithRequestContext.
  destruct (handle_request _ _ _ _ _) as [o w2] eqn:Hrun. intros [= <- <-].
  exists correlationId, draws. split; [done|]. rewrite Hrun. by destruct o.
Qed.

(** * Properties *)

(** C24. Every request is answered, and an error tells only its kind.  The answer bears an
    identifier that is safe to log and to store, the one received when it was; what the
    gateway did is the run of the guard and the controller under that identifier, and the
    context of the caller is untouched.  A success carries the status of its endpoint; an
    error carries the status and the code of its kind, under the same identifier, and its
    body is that of the error without the text of the driver, the constraint or the state
    it speaks of.  A request the guard refuses is answered 401 or 403 with the database
    and the outside untouched. *)
Theorem every_request_is_answered locks incoming authorization path request w answer w' :
  single_message →
  serve config http_fields fault_version locks incoming authorization path request w = (answer, w') →
  let correlationId := answer_correlation answer in
  SAFE_CORRELATION_ID correlationId = true
  ∧ (∀ sent, incoming = Some sent → SAFE_CORRELATION_ID sent = true → correlationId = sent)
  ∧ w_correlation w' = w_correlation w
  ∧ (∃ draws,
       let run := handle_request config locks authorization request
         (w <| w_draws := draws |> <| w_correlation := correlationId |>) in
       w_db w' = w_db run.2 ∧ w_calls w' = w_calls run.2
       ∧ match answer with
         | Answered _ status body => run.1 = Return body ∧ status = success_status request
         | Refused _ body => ∃ e, run.1 = Throw e
             ∧ (ed_statusCode body, ed_error body) = public_error e
             ∧ ed_correlationId body = correlationId
             ∧ body = body_of correlationId path (w_now run.2) (public_part e)
         end)
  ∧ ∀ e, canActivate (gc_authEnabled config) (onModuleInit (gc_apiKeys config)) true (route_metadata request) authorization
           = Throw e →
       w_db w' = w_db w ∧ w_calls w' = w_calls w
       ∧ ∃ body, answer = Refused correlationId body
           ∧ ((ed_statusCode body, ed_error body) = (401, "UNAUTHENTICATED")
              ∨ (ed_statusCode body, ed_error body) = (403, "INSUFFICIENT_SCOPE")).
Proof.
  intros Hsingle Hserve correlationId. subst correlationId.
  apply serve_runs in Hserve as (id & draws & Hid & -> & Hanswer).
  pose proof (correlation_of_safe incoming w) as Hsafe. rewrite Hid in Hsafe.
  destruct Hsafe as (Hsafe & Hkept & _).
  assert (Hcorr : answer_correlation answer = id) by (rewrite Hanswer; by destruct (_.1)).
  rewrite Hcorr. split_and!; [done|done|done| |].
  - exists draws. split_and!; [done|done|]. rewrite Hanswer. destruct (_.1) as [body|e]; [done|].
    exists e. split_and!; [done|by apply body_public_error|done|apply body_tells_public_part].
  - intros e Hguard. destruct (refused_by_guard locks _ _ _
      (w <| w_draws := draws |> <| w_correlation := id |>) Hguard) as [Hrun Hpublic].
    rewrite Hrun in Hanswer |- *. split_and!; [done|done|]. eexists. split; [exact Hanswer|].
    by rewrite body_public_error.
Qed.
End answers.

(** ** Probes *)

(** The probes of an orchestrator do not confuse a failed dependency with a failed process:
    the process answers that it lives whatever the components do; it takes traffic exactly
    when the database, the SOAP client and the schemas answer, whatever the chain does; the
    supervision report asks for the chain too, unless anchoring is off. *)
Theorem probes_keep_traffic c :
  live = (200, "ok")
  ∧ ((ready c).1 = (200, "ok")
     ↔ co_database c = Return tt ∧ co_soapClient c = true ∧ co_xsdSchemas c = true)
  ∧ ((health_check c).1 = (200, "ok")
     ↔ (ready c).1 = (200, "ok") ∧ (co_anchoring c = true → co_chain c = true)).
Proof.
  destruct c as [[[]|message] [] [] [] []]; vm_compute; intuition discriminate.
Qed.

(** * Witness *)

#[local] Existing Instances Toy.hashing Toy.xsd sample_dates sample_texts sample_hmac
  sample_bank Anchoring.ledger_chain simulator_provider sample_sha256.

(** A generator of well-formed identifiers. *)
#[local] Instance sample_entropy : Entropy := {|
  randomBytes := @randomBytes Toy.entropy;
  randomUUID n := "00000000-0000-4000-8000-" +:+ toHex (Toy.to_bytes 6 (Z.of_nat n))
|}.
#[local] Instance sample_uuids : UuidLaws.
Proof.
  split. intros n. unfold SAFE_CORRELATION_ID, randomUUID, sample_entropy.
  rewrite append_length, all_chars_app, toHex_length, Toy_to_bytes_length. cbn -[all_chars toHex Toy.to_bytes].
  change (all_chars is_correlation_char "00000000-0000-4000-8000-") with true. cbn [andb].
  destruct (toHex_digits (Toy.to_bytes 6 (Z.of_nat n))) as [Hhex _]; [apply Toy_to_bytes_range|].
  revert Hhex. generalize (toHex (Toy.to_bytes 6 (Z.of_nat n))). intros s.
  induction s as [|c s IH]; [done|]. simpl. intros [Hc Hs]%andb_true_iff. rewrite IH by done.
  by destruct c as [[] [] [] [] [] [] [] []].
Qed.
#[local] Instance sample_statuses : HttpStatuses :=
  {| status_name status := if status =? 400 then Some "BAD_REQUEST" else None |}.
Definition sample_fields (e : GatewayError) : list (string * Json) := [("message", JString "refus")].

Lemma every_request_is_answered_witness :
  let answer := serve sample_gateway sample_fields "1.1" sample_locks (Some "requete-0001") None
                  "/transfers" sample_request empty_world in
  answer_correlation answer.1 = "requete-0001" ∧ w_db answer.2 = empty_db
  ∧ ∃ body, answer.1 = Refused "requete-0001" body.
Proof.
  intros answer. destruct answer as [reply w'] eqn:Hserve. cbn [fst snd].
  destruct (every_request_is_answered sample_gateway sample_fields "1.1" sample_locks
    (Some "requete-0001") None "/transfers" sample_request empty_world reply w') as (_ & Hid & _ & _ & Hguard);
    [discriminate|exact Hserve|].
  assert (Hkept : answer_correlation reply = "requete-0001") by (apply Hid; reflexivity).
  destruct (Hguard (HttpException 401 "UNAUTHENTICATED") eq_refl) as (Hdb & _ & body & Hreply & _).
  rewrite Hkept in Hreply. split_and!; [exact Hkept|exact Hdb|]. exists body. exact Hreply.
Defined.

(** What NestJS throws by default is answered under a stable code. *)
Example default_codes :
  ne_error (normalize (ThrownHttp 400 (JObject [("message", JArray [JString "amount"]); ("error", JString "Bad Request")]) ""))
    = "VALIDATION_ERROR"
  ∧ ne_error (normalize (ThrownHttp 400 (JObject [("message", JString "devise"); ("error", JString "Bad Request")]) ""))
    = "BAD_REQUEST"
  ∧ ne_error (normalize (ThrownHttp 418 (JString "non") "")) = "REQUEST_ERROR".
Proof. vm_compute. repeat split. Qed.
