(* ===== verification/AccessLog.v ===== *)
(** The access log: [src/common/interceptors/logging.interceptor.ts].

    Every request that reaches a controller leaves two lines, the second on its success or
    its failure; the body is masked before it is written. *)
From S2P Require Import Prelude Domain Masking HttpLayer.
Open Scope Z_scope.

(** * Lines *)

Record Line := mkLine { li_correlationId : string; li_method : string; li_path : string }.

Inductive AccessEvent :=
  | RequestReceived (body : option Json)
  | RequestCompleted (statusCode durationMs : Z)
  | RequestFailed (statusCode durationMs : Z) (error : string).

(** What a handler gives: the status of the response, or a thrown value, of which the
    interceptor reads [status] and the message of an [Error]. *)
Inductive Handled :=
  | Emitted (statusCode : Z)
  | Failed (status : option Z) (message : option string).

(** [describeBody]; [None] is [undefined]. *)
Definition describeBody (body : option Json) : option Json :=
  match body with
  | None | Some JUndefined | Some JNull | Some (JObject []) | Some (JArray []) => None
  | Some body => Some (maskDeep 0 body)
  end.

(** [intercept]: the lines written, of an [http] context only. *)
Definition intercept (http : bool) (line : Line) (body : option Json) (startedAt endedAt : Z)
    (handled : Handled) : list (Line * AccessEvent) :=
  if negb http then []
  else
    [(line, RequestReceived (describeBody body));
     (line, match handled with
            | Emitted statusCode => RequestCompleted statusCode (endedAt - startedAt)
            | Failed status message =>
                RequestFailed (or_default status 500) (endedAt - startedAt)
                  (or_default message "Erreur inconnue")
            end)].

(** * What the lines show *)

Lemma describeBody_clean body described :
  from_option js_arrays True body → describeBody body = Some described → shows_no_account described.
Proof.
  destruct body as [body|]; [|discriminate]. intros Hsized Hdescribed.
  assert (described = maskDeep 0 body) as ->
    by (destruct body as [| | | | |[]|[]]; try discriminate; by injection Hdescribed as <-).
  by apply maskDeep_clean.
Qed.

(** An exchange over HTTP leaves two lines under its identifier, one when it is received
    and one when it ends, with its duration; the body that is written has no word that reads
    as an account number and no secret of the masked keys, an empty body is not written, and what a
    handler throws without a status is a 500.  Another context leaves none. *)
Theorem exchange_leaves_two_lines line body startedAt endedAt handled :
  from_option js_arrays True body →
  intercept false line body startedAt endedAt handled = []
  ∧ ∃ received ended,
      intercept true line body startedAt endedAt handled = [(line, received); (line, ended)]
      ∧ (∃ written, received = RequestReceived written ∧ from_option shows_no_account True written)
      ∧ match handled with
        | Emitted statusCode => ended = RequestCompleted statusCode (endedAt - startedAt)
        | Failed status message =>
            ended = RequestFailed (or_default status 500) (endedAt - startedAt)
                      (or_default message "Erreur inconnue")
        end.
Proof.
  intros Hsized. split; [done|]. eexists _, _. split; [reflexivity|]. split; [|by destruct handled].
  eexists. split; [done|]. destruct (describeBody body) eqn:Hbody; [|done].
  exact (describeBody_clean _ _ Hsized Hbody).
Qed.

(** The path and the message of an error are written as they are: a full account number
    may reach the log by either. *)
Definition account_in_path : Line :=
  mkLine "c-1" "GET" "/api/v1/transactions?q=FR7630006000011234567890189".

Example path_is_not_masked :
  let lines := intercept true account_in_path None 0 5
    (Failed (Some 400) (Some "compte FR7630006000011234567890189 inconnu")) in
  List.map (λ l, forallb harmless (words (li_path l.1))) lines = [false; false]
  ∧ (lines !! 1%nat) ≫= (λ l, match l.2 with RequestFailed _ _ error => Some (forallb harmless (words error)) | _ => None end)
    = Some false.
Proof. vm_compute. split; reflexivity. Qed.

Lemma exchange_leaves_two_lines_witness :
  from_option js_arrays True (Some sample_body)
  ∧ length (intercept true account_in_path (Some sample_body) 0 5 (Emitted 201)) = 2%nat.
Proof.
  assert (H : from_option js_arrays True (Some sample_body)) by (repeat constructor).
  split; [exact H|].
  destruct (exchange_leaves_two_lines account_in_path (Some sample_body) 0 5 (Emitted 201) H)
    as [_ (received & ended & -> & _)].
  reflexivity.
Defined.
