(* ===== verification/Requests.v ===== *)
(** The bodies of the requests: the DTO classes ([**/dto/], [treasury.controller.ts]) and the
    [ValidationPipe] of [src/main.ts].

    A body is an object of JSON.  Each class lists its properties with the transformation
    and the rules of its decorators; the pipe transforms, refuses what no class declares,
    and checks the rules.  The decorators of class-validator are an interface with their
    documented behaviour; those of the gateway ([IsIban], [IsMonetaryAmount]) are its
    validators.  [handle_wire] is the guard, the pipe, then the controller. *)
From S2P Require Import Prelude Text Domain Database Services References MobileMoney Webhook.
From S2P Require Import External EventXml Money Numbers Doubles MonetaryAmount Iban Masking.
From S2P Require Import StateMachine Fingerprint Merkle Ledger EventLedger Ports ChainVerification.
From S2P Require Import Reconciliation BankWorker Refunds Treasury Anchoring Transfers.
From S2P Require Import ApiKeys FieldCipher Simulator Responses Gateway HttpLayer.
Open Scope Z_scope.

(** * What the classes rely on *)

Class ClassValidator := {
  isString : Json → bool;
  lengthWithin : nat → nat → Json → bool;
  maxLength : nat → Json → bool;
  matchesPattern : (string → bool) → Json → bool;
  isEnum : list string → Json → bool;
  isISO8601 : Json → bool;
  isInt : Json → bool;
  isMin : Z → Json → bool;
  isMax : Z → Json → bool
}.

(** The length of a text is in characters; how characters that are modified by the next one
    count is left open, beyond ASCII. *)
Class ClassValidatorLaws `{ClassValidator} := {
  text_length : string → nat;
  text_length_ascii s : all_chars (λ c, N.ltb (Ascii.N_of_ascii c) 128) s = true → text_length s = String.length s;
  isString_spec j : isString j = true ↔ ∃ s, j = JString s;
  lengthWithin_spec lo hi j :
    lengthWithin lo hi j = true ↔ ∃ s, j = JString s ∧ (lo <= text_length s <= hi)%nat;
  maxLength_spec hi j : maxLength hi j = true ↔ ∃ s, j = JString s ∧ (text_length s <= hi)%nat;
  matchesPattern_spec pattern j : matchesPattern pattern j = true ↔ ∃ s, j = JString s ∧ pattern s = true;
  isEnum_spec values j : isEnum values j = true ↔ ∃ s, j = JString s ∧ s ∈ values;
  isISO8601_text j : isISO8601 j = true → ∃ s, j = JString s;
  isInt_spec j : isInt j = true ↔ ∃ text z, j = JNumber text ∧ parseFloat text = Num (inject_Z z);
  isMin_spec least j : isMin least j = true ↔ ∃ text, j = JNumber text ∧ number_ge (parseFloat text) least = true;
  isMax_spec most j : isMax most j = true ↔ ∃ text, j = JNumber text ∧ number_gt (parseFloat text) most = false
                                                ∧ parseFloat text ≠ NaN
}.

(** * The pipe *)

Record Property := mkProperty {
  pr_name : string;
  pr_optional : bool;
  pr_transform : Json → Json;
  pr_rules : list (Json → bool)
}.

Definition on_text (f : string → string) (value : Json) : Json :=
  match value with JString s => JString (f s) | value => value end.

(** [NormalizeIban], [Trim], and the transformation of the codes. *)
Definition NormalizeIban : Json → Json := on_text normalizeIban.
Definition Trim : Json → Json := on_text trim.
Definition TrimUpper : Json → Json := on_text (λ s, toUpperCase (trim s)).

(** [Type(() => Number)], of the text of a query. *)
Definition TypeNumber (value : Json) : Json :=
  match value with JString s => JNumber (number_text s) | value => value end.

Definition is_nullish (value : Json) : bool :=
  match value with JUndefined | JNull => true | _ => false end.

(** [IsOptional] spares the rules of a value that is [undefined] or [null]. *)
Definition property_holds (p : Property) (value : Json) : bool :=
  pr_optional p && is_nullish value || forallb (λ rule, rule value) (pr_rules p).

Definition received (entries : list (string * Json)) (p : Property) : Json :=
  pr_transform p (field (pr_name p) (JObject entries)).

(** [forbidNonWhitelisted] *)
Definition declared (properties : list Property) (entries : list (string * Json)) : bool :=
  forallb (λ entry, existsb (λ p, str_eqb (pr_name p) entry.1) properties) entries.

(** The transformed body, or [None] for a 400. *)
Definition validate (properties : list Property) (entries : list (string * Json)) : option Json :=
  if declared properties entries && forallb (λ p, property_holds p (received entries p)) properties
  then Some (JObject ((λ p, (pr_name p, received entries p)) <$> properties))
  else None.

(** ** Reading a property of the transformed body *)

Definition text_of (value : Json) : string := match value with JString s => s | _ => "" end.
Definition opt_text_of (value : Json) : option string := match value with JString s => Some s | _ => None end.
Definition number_of (value : Json) : option Number :=
  match value with JNumber text => Some (parseFloat text) | _ => None end.
Definition cents_in (value : Json) : Z :=
  match number_of value with Some (Num v) => cents_of v | _ => 0 end.
Definition opt_cents_in (value : Json) : option Z := if is_nullish value then None else Some (cents_in value).
Definition enum_of {A} (show : A → string) (values : list A) (value : Json) : option A :=
  List.find (λ v, str_eqb (show v) (text_of value)) values.

(** ** The decorators of the gateway *)

Definition IsIban (value : Json) : bool := match value with JString s => isValidIban s | _ => false end.
Definition IsMonetaryAmount (value : Json) : bool := isMonetaryAmount (number_of value) default_options.

(** [/^[A-Za-z0-9/\-?:().,'+ ]+$/] *)
Definition is_sepa_char (c : Ascii.ascii) : bool :=
  is_upper c || is_lower c || is_digit c
  || List.existsb (Ascii.eqb c) ["/"; "-"; "?"; ":"; "("; ")"; "."; ","; "'"; "+"; " "]%char.
Definition SEPA_LABEL (s : string) : bool := non_empty s && all_chars is_sepa_char s.
(** [/^[A-Z]{3}$/] *)
Definition CURRENCY_CODE (s : string) : bool := of_class is_upper 3 3 s.
(** [/^\+[1-9]\d{7,14}$/] *)
Definition E164 (s : string) : bool :=
  match s with
  | String plus (String c rest) => Ascii.eqb plus "+" && in_range "1" "9" c && of_class is_digit 7 14 rest
  | _ => false
  end.

(** * The classes *)

Section Classes.
Context {HV : ClassValidator}.

Definition currency_property (optional : bool) : Property :=
  mkProperty "currency" optional TrimUpper [matchesPattern CURRENCY_CODE].
Definition amount_property (optional : bool) : Property :=
  mkProperty "amount" optional id [IsMonetaryAmount].

(** ** [CreateTransferDto] *)

Definition CreateTransferDto_class : list Property :=
  [mkProperty "debtorIban" false NormalizeIban [IsIban];
   mkProperty "debtorName" true Trim [isString; lengthWithin 1 140; matchesPattern SEPA_LABEL];
   mkProperty "creditorIban" false NormalizeIban [IsIban];
   mkProperty "creditorName" false Trim [isString; lengthWithin 1 140; matchesPattern SEPA_LABEL];
   amount_property false;
   mkProperty "currency" false TrimUpper [isString; matchesPattern CURRENCY_CODE];
   mkProperty "endToEndLabel" true Trim [isString; maxLength 140; matchesPattern SEPA_LABEL]].

Definition transfer_dto (body : Json) : CreateTransferDto :=
  mkCreateTransferDto (text_of (field "debtorIban" body)) (opt_text_of (field "debtorName" body))
    (text_of (field "creditorIban" body)) (text_of (field "creditorName" body))
    (cents_in (field "amount" body)) (text_of (field "currency" body))
    (opt_text_of (field "endToEndLabel" body)).

(** ** [CreateMobileMoneyTransactionDto] *)

Definition OPERATORS : list MobileMoneyOperator :=
  [MobileMoneyOperator.MPESA; MobileMoneyOperator.AIRTEL_MONEY; MobileMoneyOperator.ORANGE_MONEY].

Definition CreateMobileMoneyTransactionDto_class : list Property :=
  [mkProperty "operator" false id [isEnum (MobileMoneyOperator.show <$> OPERATORS)];
   mkProperty "payerMsisdn" false Trim [matchesPattern E164];
   mkProperty "creditorIban" false NormalizeIban [IsIban];
   mkProperty "creditorName" false Trim [isString; lengthWithin 1 140];
   amount_property false;
   currency_property false;
   mkProperty "externalReference" true Trim [isString; maxLength 140]].

Definition mobile_money_dto (body : Json) : option CreateMobileMoneyTransactionDto :=
  operator ← enum_of MobileMoneyOperator.show OPERATORS (field "operator" body);
  mret (mkCreateMobileMoneyTransactionDto operator (text_of (field "payerMsisdn" body))
    (text_of (field "creditorIban" body)) (text_of (field "creditorName" body))
    (cents_in (field "amount" body)) (text_of (field "currency" body))
    (opt_text_of (field "externalReference" body))).

(** ** [MobileMoneyWebhookDto], [SimulateMobileMoneyDto] *)

Definition WEBHOOK_STATUSES : list MobileMoneyWebhookStatus :=
  [MobileMoneyWebhookStatus.CONFIRMED; MobileMoneyWebhookStatus.FAILED].

Definition MobileMoneyWebhookDto_class : list Property :=
  [mkProperty "eventId" false id [isString; lengthWithin 1 128];
   mkProperty "aggregatorReference" false id [isString; lengthWithin 1 64];
   mkProperty "status" false id [isEnum (MobileMoneyWebhookStatus.show <$> WEBHOOK_STATUSES)];
   amount_property false;
   currency_property false;
   mkProperty "occurredAt" false id [isISO8601];
   mkProperty "failureReason" true id [isString; lengthWithin 1 512]].

Definition webhook_dto (body : Json) : option MobileMoneyWebhookDto :=
  status ← enum_of MobileMoneyWebhookStatus.show WEBHOOK_STATUSES (field "status" body);
  mret (mkMobileMoneyWebhookDto (text_of (field "eventId" body)) (text_of (field "aggregatorReference" body))
    status (cents_in (field "amount" body)) (text_of (field "currency" body))
    (text_of (field "occurredAt" body)) (opt_text_of (field "failureReason" body))).

Definition SimulateMobileMoneyDto_class : list Property :=
  [mkProperty "status" true id [isEnum (MobileMoneyWebhookStatus.show <$> WEBHOOK_STATUSES)];
   amount_property true;
   currency_property true].

Definition simulate_dto (body : Json) : SimulateMobileMoneyDto :=
  mkSimulateMobileMoneyDto
    (enum_of MobileMoneyWebhookStatus.show WEBHOOK_STATUSES (field "status" body))
    (opt_cents_in (field "amount" body)) (opt_text_of (field "currency" body)).

(** ** [SweepRequestDto] *)

Definition SweepRequestDto_class : list Property :=
  [mkProperty "limit" true id [isInt; isMin 1; isMax 500]].

Definition count_in (value : Json) : option nat :=
  match number_of value with
  | Some (Num q) => Some (Z.to_nat (Qfloor q))
  | _ => None
  end.
Definition sweep_limit (body : Json) : option nat := count_in (field "limit" body).

(** ** [QueryTransfersDto], with the initial values of its properties *)

Definition STATUSES : list TransactionStatus :=
  [TransactionStatus.PENDING; TransactionStatus.PROCESSING; TransactionStatus.COMPLETED; TransactionStatus.FAILED].

Definition QueryTransfersDto_class : list Property :=
  [mkProperty "status" true TrimUpper [isEnum (TransactionStatus.show <$> STATUSES)];
   currency_property true;
   mkProperty "page" true TypeNumber [isInt; isMin 1];
   mkProperty "limit" true TypeNumber [isInt; isMin 1; isMax 100]].

Definition query_dto (query : Json) : QueryTransfersDto :=
  mkQueryTransfersDto (enum_of TransactionStatus.show STATUSES (field "status" query))
    (opt_text_of (field "currency" query)) (default 1%nat (count_in (field "page" query)))
    (default 20%nat (count_in (field "limit" query))).

(** ** [TransferParamsDto] *)

Definition TransferParamsDto_class : list Property :=
  [mkProperty "reference" false TrimUpper [matchesPattern REFERENCE_PATTERN]].

Definition validated_reference (reference : string) : option string :=
  (λ params, text_of (field "reference" params))
    <$> validate TransferParamsDto_class [("reference", JString reference)].

(** * Requests as they are received *)

(** The endpoints whose path names a payment, by [TransferParamsDto]. *)
Inductive PaymentRoute :=
  | OneTransfer | TransferVerification | Events | EventsVerification
  | RefundRequest | RefundReopen | OneRefund | Entries.

Definition payment_request (route : PaymentRoute) : string → Request :=
  match route with
  | OneTransfer => GetTransfer
  | TransferVerification => GetTransferVerification
  | Events => GetEvents
  | EventsVerification => GetEventsVerification
  | RefundRequest => PostRefund
  | RefundReopen => PostRefundReopen
  | OneRefund => GetRefund
  | Entries => GetEntries
  end.

(** The endpoints that have no class of their own to validate. *)
Inductive PlainRoute :=
  | MobileMoney (reference : string)
  | RunReconciliation
  | Balance (reference currency : option string)
  | AnchorBatch
  | Batches (limit : option string)
  | Batch (id : string)
  | Statistics (status : AnchorStatus)
  | SimulatorPayment (aggregatorReference : string).

Definition plain_request (route : PlainRoute) : Request :=
  match route with
  | MobileMoney reference => GetMobileMoney reference
  | RunReconciliation => PostReconciliation
  | Balance reference currency => GetBalance reference currency
  | AnchorBatch => PostAnchorBatch
  | Batches limit => GetAnchorBatches limit
  | Batch id => GetAnchorBatch id
  | Statistics status => GetAnchorStatistics status
  | SimulatorPayment reference => GetSimulatorPayment reference
  end.

Definition Body : Type := list (string * Json).

Inductive WireRequest :=
  | WireTransfer (body : Body) (idempotencyKey : option string)
  | WireMobileMoney (body : Body) (idempotencyKey : option string)
  | WireWebhook (body : Body) (signature : option string)
  | WireConfirm (aggregatorReference : string) (body : Body)
  | WireSweep (body : Body)
  | WireTransfers (query : Body)
  | WirePayment (route : PaymentRoute) (reference : string)
  | WirePlain (route : PlainRoute).

(** What the pipe gives the controller. *)
Definition validated (wire : WireRequest) : option Request :=
  match wire with
  | WireTransfer body key =>
      (λ dto, PostTransfer (transfer_dto dto) key) <$> validate CreateTransferDto_class body
  | WireMobileMoney body key =>
      dto ← validate CreateMobileMoneyTransactionDto_class body;
      (λ dto, PostMobileMoney dto key) <$> mobile_money_dto dto
  | WireWebhook body signature =>
      dto ← validate MobileMoneyWebhookDto_class body;
      (λ dto, PostWebhook dto signature) <$> webhook_dto dto
  | WireConfirm reference body =>
      (λ dto, PostSimulatorConfirm reference (simulate_dto dto)) <$> validate SimulateMobileMoneyDto_class body
  | WireSweep body => (λ dto, PostSweep (sweep_limit dto)) <$> validate SweepRequestDto_class body
  | WireTransfers query => (λ dto, GetTransfers (query_dto dto)) <$> validate QueryTransfersDto_class query
  | WirePayment route reference => payment_request route <$> validated_reference reference
  | WirePlain route => Some (plain_request route)
  end.

(** The scope is on the method, whatever the body. *)
Definition wire_scope (wire : WireRequest) : option string :=
  match wire with
  | WireTransfer _ _ | WireMobileMoney _ _ => Some ApiScope.transfersWrite
  | WireWebhook _ _ => None
  | WireConfirm _ _ => Some ApiScope.simulatorWrite
  | WireSweep _ => Some ApiScope.treasuryWrite
  | WireTransfers _ => Some ApiScope.transfersRead
  | WirePayment route _ => required_scope (payment_request route "")
  | WirePlain route => required_scope (plain_request route)
  end.
Definition wire_metadata (wire : WireRequest) : RouteMetadata :=
  match wire_scope wire with
  | Some scope => mkRouteMetadata None (Some [scope])
  | None => mkRouteMetadata (Some true) None
  end.
End Classes.

Section Wire.
Context {HV : ClassValidator}.
Context {HH : Hashing} {HX : XsdEngine} {HE : Entropy} {HD : DateParser} {HM : Hmac} {HT : ErrorText}.
Context {HS : SoapClient} {HC : ChainClient} {HR : RefundProvider} {HA : Sha256}.
Context (config : GatewayConfig).

(** The guard, the pipe, then the controller. *)
Definition handle_wire (locks : Locks) (authorization : option string) (wire : WireRequest) : App Response :=
  match canActivate (gc_authEnabled config) (onModuleInit (gc_apiKeys config)) true (wire_metadata wire) authorization with
  | Throw e => throw e
  | Return identity =>
      match validated wire with
      | None => throw (HttpException 400 "Bad Request")
      | Some request => controller config locks identity request
      end
  end.
End Wire.

(** * Lemmas on the pipe *)

Lemma find_map_name properties entries name :
  List.find (λ entry : string * Json, str_eqb entry.1 name)
    ((λ p, (pr_name p, received entries p)) <$> properties)
  = (λ p, (pr_name p, received entries p)) <$> List.find (λ p, str_eqb (pr_name p) name) properties.
Proof.
  induction properties as [|p properties IH]; [done|]. cbn [fmap list_fmap List.find fst].
  destruct (str_eqb (pr_name p) name); [done|exact IH].
Qed.

(** A property of the transformed body is what was received, and its rules hold. *)
Lemma validated_property properties entries body p :
  validate properties entries = Some body →
  List.find (λ q, str_eqb (pr_name q) (pr_name p)) properties = Some p →
  field (pr_name p) body = received entries p ∧ property_holds p (received entries p) = true.
Proof.
  unfold validate. destruct (_ && _) eqn:Hchecks; [|discriminate]. intros [= <-] Hfind.
  apply andb_true_iff in Hchecks as [_ Hholds]. rewrite forallb_forall in Hholds.
  split; [|exact (Hholds _ (proj1 (List.find_some _ _ Hfind)))]. unfold field. by rewrite find_map_name, Hfind.
Qed.

Lemma rules_hold rules value : forallb (λ rule, rule value) rules = true → Forall (λ rule : Json → bool, rule value = true) rules.
Proof. rewrite forallb_forall, Forall_forall. intros H rule Hin. by apply H, list_elem_of_In. Qed.

Lemma required_property properties entries body name transform rules :
  validate properties entries = Some body →
  List.find (λ q, str_eqb (pr_name q) name) properties = Some (mkProperty name false transform rules) →
  ∃ raw, field name body = transform raw ∧ Forall (λ rule : Json → bool, rule (transform raw) = true) rules.
Proof.
  intros Hvalid Hfind. destruct (validated_property _ _ _ (mkProperty name false transform rules) Hvalid Hfind) as [Hf H].
  exists (field name (JObject entries)). split; [exact Hf|]. by apply rules_hold.
Qed.

Lemma optional_property properties entries body name transform rules :
  validate properties entries = Some body →
  List.find (λ q, str_eqb (pr_name q) name) properties = Some (mkProperty name true transform rules) →
  is_nullish (field name body) = true
  ∨ ∃ raw, field name body = transform raw ∧ Forall (λ rule : Json → bool, rule (transform raw) = true) rules.
Proof.
  intros Hvalid Hfind. destruct (validated_property _ _ _ (mkProperty name true transform rules) Hvalid Hfind) as [Hf H].
  cbn [pr_name] in Hf. apply orb_true_iff in H as [Hnull|Hrules]; [left; by rewrite Hf|right].
  exists (field name (JObject entries)). split; [exact Hf|]. by apply rules_hold.
Qed.

(** ** Sent again as it was transformed, a body gives the same object. *)

Definition stable (p : Property) : Prop := ∀ value, pr_transform p (pr_transform p value) = pr_transform p value.

Lemma on_text_stable f value : (∀ s, f (f s) = f s) → on_text f (on_text f value) = on_text f value.
Proof. intros Hf. destruct value; try done. cbn. by rewrite Hf. Qed.

Lemma NormalizeIban_stable value : NormalizeIban (NormalizeIban value) = NormalizeIban value.
Proof. apply on_text_stable, normalizeIban_twice. Qed.
Lemma Trim_stable value : Trim (Trim value) = Trim value.
Proof. apply on_text_stable, trim_twice. Qed.
Lemma TypeNumber_stable value : TypeNumber (TypeNumber value) = TypeNumber value.
Proof. by destruct value. Qed.
Lemma TrimUpper_stable value : TrimUpper (TrimUpper value) = TrimUpper value.
Proof. apply on_text_stable. intros s. by rewrite trim_upper, toUpperCase_twice, trim_twice. Qed.
Create HintDb stable.
#[local] Hint Resolve NormalizeIban_stable Trim_stable TrimUpper_stable TypeNumber_stable : stable.

Lemma find_own_name properties p :
  NoDup (pr_name <$> properties) → p ∈ properties →
  List.find (λ q, str_eqb (pr_name q) (pr_name p)) properties = Some p.
Proof.
  intros Hnd Hin. induction properties as [|q properties IH]; [by apply not_elem_of_nil in Hin|].
  apply NoDup_cons in Hnd as [Hq Hnd]. cbn [List.find].
  destruct (str_eqb (pr_name q) (pr_name p)) eqn:E.
  - apply str_eqb_spec in E. apply elem_of_cons in Hin as [->|Hin]; [done|].
    exfalso. apply Hq. rewrite E. by apply list_elem_of_fmap_2.
  - apply elem_of_cons in Hin as [->|Hin]; [by rewrite str_eqb_refl in E|by apply IH].
Qed.

Lemma validate_again properties entries body :
  NoDup (pr_name <$> properties) → Forall stable properties →
  validate properties entries = Some (JObject body) → validate properties body = Some (JObject body).
Proof.
  intros Hnd Hstable Hvalid.
  assert (Hsame : ∀ p, p ∈ properties → received body p = received entries p).
  { intros p Hin. pose proof (find_own_name _ _ Hnd Hin) as Hfind.
    destruct (validated_property _ _ _ _ Hvalid Hfind) as [Hfield _].
    unfold received at 1. rewrite Hfield. unfold received. rewrite Forall_forall in Hstable. by apply Hstable. }
  unfold validate in Hvalid. destruct (_ && _) eqn:Hchecks; [|discriminate]. injection Hvalid as Hbody.
  apply andb_true_iff in Hchecks as [_ Hholds]. unfold validate.
  assert (Hdeclared : declared properties body = true).
  { unfold declared. rewrite forallb_forall. intros entry Hin%list_elem_of_In. rewrite <- Hbody in Hin.
    apply list_elem_of_fmap in Hin as (p & -> & Hp). apply existsb_exists. exists p.
    split; [by apply list_elem_of_In|]. apply str_eqb_refl. }
  assert (Hagain : forallb (λ p, property_holds p (received body p)) properties = true).
  { rewrite forallb_forall in Hholds |- *. intros p Hin. rewrite Hsame by by apply list_elem_of_In. by apply Hholds. }
  rewrite Hdeclared, Hagain. cbn [andb]. do 2 f_equal. etrans; [|exact Hbody].
  apply list_fmap_ext. intros i p Hi. cbn. by rewrite Hsame by by eapply list_elem_of_lookup_2.
Qed.

Section ClassLemmas.
Context {HV : ClassValidator}.

Definition classes : list (list Property) :=
  [CreateTransferDto_class; CreateMobileMoneyTransactionDto_class; MobileMoneyWebhookDto_class;
   SimulateMobileMoneyDto_class; SweepRequestDto_class; QueryTransfersDto_class; TransferParamsDto_class].

Lemma classes_are_stable :
  Forall (λ properties, NoDup (pr_name <$> properties) ∧ Forall stable properties) classes.
Proof.
  repeat constructor; try (intros value; cbn; auto with stable; fail);
    cbn; rewrite ?list_elem_of_In; cbn; intuition discriminate.
Qed.
End ClassLemmas.

(** * What the pipe guarantees the controllers *)

Lemma parseFloat_double text v : parseFloat text = Num v → ∃ q, double_of q = Num v.
Proof.
  unfold parseFloat. destruct (read_sign _) as [negative s]. destruct (str_eqb _ _); [discriminate|].
  destruct (span is_digit s) as [whole s']. destruct (match s' with EmptyString => _ | String _ _ => _ end) as [fraction s''].
  destruct (_ || _); [|discriminate]. by eexists.
Qed.

(** A number of the body tells an amount of cents. *)
Definition tells (value : Json) (c : Z) : Prop :=
  1 <= c ∧ ∃ text v, value = JNumber text ∧ parseFloat text = Num v ∧ amount_of c = Num v ∧ cents_of v = c.

(** A number that may be left out. *)
Definition tells_optional (value : Json) (c : option Z) : Prop :=
  match c with Some c => tells value c | None => is_nullish value = true end.

Lemma monetary_tells value : IsMonetaryAmount value = true → tells value (cents_in value).
Proof.
  unfold IsMonetaryAmount, cents_in. destruct value; try discriminate. cbn [number_of].
  destruct (parseFloat text) as [| |v] eqn:Hv; intros Haccepted; [discriminate Haccepted..|].
  destruct (parseFloat_double _ _ Hv) as [q Hq]. destruct (accepted_is_cents _ _ Hq Haccepted) as (H1 & H2 & _).
  exact (conj H1 (ex_intro _ text (ex_intro _ v (conj eq_refl (conj Hv (conj H2 eq_refl)))))).
Qed.

(** A normal account number. *)
Definition account (iban : string) : Prop := isValidIban iban = true ∧ normalizeIban iban = iban.

Lemma iban_account value : IsIban (NormalizeIban value) = true → account (text_of (NormalizeIban value)).
Proof. destruct value; try discriminate. intros H. split; [exact H|]. apply normalizeIban_twice. Qed.

Definition sepa_label (s : string) : Prop := SEPA_LABEL s = true ∧ (String.length s <= 140)%nat.

Section WellFormed.
Context {HV : ClassValidator} {HL : ClassValidatorLaws}.

Lemma sepa_ascii s : SEPA_LABEL s = true → all_chars (λ c, N.ltb (Ascii.N_of_ascii c) 128) s = true.
Proof.
  intros [_ H]%andb_true_iff. revert H. apply all_chars_weaken.
  intros [[] [] [] [] [] [] [] []]; by vm_compute.
Qed.

Lemma matches_text pattern value :
  matchesPattern pattern value = true → value = JString (text_of value) ∧ pattern (text_of value) = true.
Proof. by intros (s & -> & H)%matchesPattern_spec. Qed.

Lemma within_sepa lo hi value :
  lengthWithin lo hi value = true → matchesPattern SEPA_LABEL value = true →
  value = JString (text_of value) ∧ SEPA_LABEL (text_of value) = true ∧ (String.length (text_of value) <= hi)%nat.
Proof.
  intros (s & -> & _ & Hlen)%lengthWithin_spec [_ Hsepa]%matches_text. cbn [text_of] in *.
  rewrite text_length_ascii in Hlen by by apply sepa_ascii. done.
Qed.

Lemma max_sepa hi value :
  maxLength hi value = true → matchesPattern SEPA_LABEL value = true →
  value = JString (text_of value) ∧ SEPA_LABEL (text_of value) = true ∧ (String.length (text_of value) <= hi)%nat.
Proof.
  intros (s & -> & Hlen)%maxLength_spec [_ Hsepa]%matches_text. cbn [text_of] in *.
  rewrite text_length_ascii in Hlen by by apply sepa_ascii. done.
Qed.

(** An optional text is absent, or its rules hold. *)
Lemma optional_text properties entries body name transform rules (P : string → Prop) :
  validate properties entries = Some body →
  List.find (λ q, str_eqb (pr_name q) name) properties = Some (mkProperty name true transform rules) →
  (∀ value, Forall (λ rule : Json → bool, rule value = true) rules → value = JString (text_of value) ∧ P (text_of value)) →
  ∀ s, opt_text_of (field name body) = Some s → P s.
Proof.
  intros Hvalid Hfind Hspec s Hs.
  destruct (optional_property _ _ _ _ _ _ Hvalid Hfind) as [Hnull|(raw & Hraw & Hrules)].
  - by destruct (field name body).
  - rewrite Hraw in Hs. destruct (Hspec _ Hrules) as [Hv HP]. rewrite Hv in Hs. by injection Hs as <-.
Qed.

(** ** A transfer *)

Definition well_formed_transfer (dto : CreateTransferDto) : Prop :=
  account (ct_debtorIban dto) ∧ account (ct_creditorIban dto)
  ∧ (∀ name, ct_debtorName dto = Some name → sepa_label name) ∧ sepa_label (ct_creditorName dto)
  ∧ 1 <= ct_amount dto ∧ CURRENCY_CODE (ct_currency dto) = true
  ∧ ∀ label, ct_endToEndLabel dto = Some label → sepa_label label.

Lemma sepa_140 value :
  Forall (λ rule : Json → bool, rule value = true) [isString; lengthWithin 1 140; matchesPattern SEPA_LABEL] →
  value = JString (text_of value) ∧ sepa_label (text_of value).
Proof.
  rewrite !Forall_cons. intros (_ & Hlen & Hsepa & _). destruct (within_sepa _ _ _ Hlen Hsepa) as (H1 & H2 & H3).
  split; [exact H1|]. split; [exact H2|exact H3].
Qed.

Lemma sepa_max_140 value :
  Forall (λ rule : Json → bool, rule value = true) [isString; maxLength 140; matchesPattern SEPA_LABEL] →
  value = JString (text_of value) ∧ sepa_label (text_of value).
Proof.
  rewrite !Forall_cons. intros (_ & Hlen & Hsepa & _). destruct (max_sepa _ _ Hlen Hsepa) as (H1 & H2 & H3).
  split; [exact H1|]. split; [exact H2|exact H3].
Qed.

Lemma iban_property properties entries body name :
  validate properties entries = Some body →
  List.find (λ q, str_eqb (pr_name q) name) properties = Some (mkProperty name false NormalizeIban [IsIban]) →
  account (text_of (field name body)).
Proof.
  intros Hvalid Hfind. destruct (required_property _ _ _ _ _ _ Hvalid Hfind) as (raw & -> & [H _]%Forall_cons).
  by apply iban_account.
Qed.

Lemma amount_told properties entries body :
  validate properties entries = Some body →
  List.find (λ q, str_eqb (pr_name q) "amount") properties = Some (amount_property false) →
  tells (field "amount" (JObject entries)) (cents_in (field "amount" body)).
Proof.
  intros Hvalid Hfind. destruct (validated_property _ _ _ (amount_property false) Hvalid Hfind) as [Hfield Hholds].
  change (field "amount" body = field "amount" (JObject entries)) in Hfield. rewrite Hfield.
  apply andb_true_iff in Hholds as [H _]. by apply monetary_tells.
Qed.

Lemma currency_told properties entries body :
  validate properties entries = Some body →
  List.find (λ q, str_eqb (pr_name q) "currency") properties = Some (currency_property false) →
  CURRENCY_CODE (text_of (field "currency" body)) = true.
Proof.
  intros Hvalid Hfind. destruct (required_property _ _ _ _ _ _ Hvalid Hfind) as (raw & -> & [H _]%Forall_cons).
  by apply matches_text in H as [_ H].
Qed.

Lemma transfer_is_well_formed entries body :
  validate CreateTransferDto_class entries = Some body →
  well_formed_transfer (transfer_dto body) ∧ tells (field "amount" (JObject entries)) (ct_amount (transfer_dto body)).
Proof.
  intros Hvalid. pose proof (amount_told _ _ _ Hvalid eq_refl) as Hamount.
  split; [|exact Hamount]. unfold well_formed_transfer, transfer_dto. cbn [ct_debtorIban ct_creditorIban ct_debtorName
    ct_creditorName ct_amount ct_currency ct_endToEndLabel]. split_and!.
  - exact (iban_property _ _ _ "debtorIban" Hvalid eq_refl).
  - exact (iban_property _ _ _ "creditorIban" Hvalid eq_refl).
  - exact (optional_text _ _ _ "debtorName" _ _ _ Hvalid eq_refl sepa_140).
  - destruct (required_property _ _ _ "creditorName" _ _ Hvalid eq_refl) as (raw & -> & Hrules).
    by destruct (sepa_140 _ Hrules).
  - exact (proj1 Hamount).
  - destruct (required_property _ _ _ "currency" _ _ Hvalid eq_refl) as (raw & -> & Hrules).
    rewrite !Forall_cons in Hrules. destruct Hrules as (_ & H & _). by apply matches_text in H as [_ H].
  - exact (optional_text _ _ _ "endToEndLabel" _ _ _ Hvalid eq_refl sepa_max_140).
Qed.

(** ** A Mobile Money payment, a notification, a simulation *)

Definition well_formed_payment (dto : CreateMobileMoneyTransactionDto) : Prop :=
  E164 (cd_payerMsisdn dto) = true ∧ account (cd_creditorIban dto)
  ∧ (1 <= text_length (cd_creditorName dto) <= 140)%nat ∧ 1 <= cd_amount dto
  ∧ CURRENCY_CODE (cd_currency dto) = true
  ∧ ∀ label, cd_externalReference dto = Some label → (text_length label <= 140)%nat.

Definition well_formed_notification (dto : MobileMoneyWebhookDto) : Prop :=
  (1 <= text_length (dto_eventId dto) <= 128)%nat ∧ (1 <= text_length (dto_aggregatorReference dto) <= 64)%nat
  ∧ 1 <= dto_amount dto ∧ CURRENCY_CODE (dto_currency dto) = true
  ∧ isISO8601 (JString (dto_occurredAt dto)) = true
  ∧ ∀ reason, dto_failureReason dto = Some reason → (1 <= text_length reason <= 512)%nat.

Lemma sized lo hi value :
  Forall (λ rule : Json → bool, rule value = true) [isString; lengthWithin lo hi] →
  value = JString (text_of value) ∧ (lo <= text_length (text_of value) <= hi)%nat.
Proof. rewrite !Forall_cons. intros (_ & H & _). by apply lengthWithin_spec in H as (s & -> & H). Qed.

Lemma sized_at_most hi value :
  Forall (λ rule : Json → bool, rule value = true) [isString; maxLength hi] →
  value = JString (text_of value) ∧ (text_length (text_of value) <= hi)%nat.
Proof. rewrite !Forall_cons. intros (_ & H & _). by apply maxLength_spec in H as (s & -> & H). Qed.

Lemma sized_property properties entries body name transform lo hi :
  validate properties entries = Some body →
  List.find (λ q, str_eqb (pr_name q) name) properties
    = Some (mkProperty name false transform [isString; lengthWithin lo hi]) →
  (lo <= text_length (text_of (field name body)) <= hi)%nat.
Proof.
  intros Hvalid Hfind. destruct (required_property _ _ _ _ _ _ Hvalid Hfind) as (raw & -> & Hrules).
  by destruct (sized _ _ _ Hrules).
Qed.

(** A member of an enumeration is read. *)
Lemma enum_read {A} (show : A → string) values value :
  isEnum (show <$> values) value = true → ∃ v, enum_of show values value = Some v.
Proof.
  intros (s & -> & Hin)%isEnum_spec. unfold enum_of. cbn [text_of].
  destruct (List.find _ values) as [v|] eqn:Hfind; [by exists v|]. exfalso.
  apply list_elem_of_fmap in Hin as (v & -> & Hv%list_elem_of_In).
  pose proof (List.find_none _ _ Hfind v Hv) as Hne. cbn in Hne. by rewrite str_eqb_refl in Hne.
Qed.

Lemma payment_is_well_formed entries body :
  validate CreateMobileMoneyTransactionDto_class entries = Some body →
  ∃ dto, mobile_money_dto body = Some dto ∧ well_formed_payment dto ∧ tells (field "amount" (JObject entries)) (cd_amount dto).
Proof.
  intros Hvalid. pose proof (amount_told _ _ _ Hvalid eq_refl) as Hamount.
  destruct (required_property _ _ _ "operator" _ _ Hvalid eq_refl) as (raw & Hraw & [Hop _]%Forall_cons).
  destruct (enum_read _ _ _ Hop) as [operator Hoperator]. unfold mobile_money_dto. rewrite Hraw, Hoperator.
  eexists. split; [reflexivity|]. split; [|exact Hamount]. unfold well_formed_payment.
  cbn [cd_payerMsisdn cd_creditorIban cd_creditorName cd_amount cd_currency cd_externalReference]. split_and!.
  - destruct (required_property _ _ _ "payerMsisdn" _ _ Hvalid eq_refl) as (m & -> & [H _]%Forall_cons).
    by apply matches_text in H as [_ H].
  - exact (iban_property _ _ _ "creditorIban" Hvalid eq_refl).
  - exact (proj1 (sized_property _ _ _ "creditorName" _ _ _ Hvalid eq_refl)).
  - exact (proj2 (sized_property _ _ _ "creditorName" _ _ _ Hvalid eq_refl)).
  - exact (proj1 Hamount).
  - exact (currency_told _ _ _ Hvalid eq_refl).
  - exact (optional_text _ _ _ "externalReference" _ _ _ Hvalid eq_refl (sized_at_most 140)).
Qed.

Lemma notification_is_well_formed entries body :
  validate MobileMoneyWebhookDto_class entries = Some body →
  ∃ dto, webhook_dto body = Some dto ∧ well_formed_notification dto ∧ tells (field "amount" (JObject entries)) (dto_amount dto).
Proof.
  intros Hvalid. pose proof (amount_told _ _ _ Hvalid eq_refl) as Hamount.
  destruct (required_property _ _ _ "status" _ _ Hvalid eq_refl) as (raw & Hraw & [Hst _]%Forall_cons).
  destruct (enum_read _ _ _ Hst) as [status Hstatus]. unfold webhook_dto. rewrite Hraw, Hstatus.
  eexists. split; [reflexivity|]. split; [|exact Hamount]. unfold well_formed_notification.
  cbn [dto_eventId dto_aggregatorReference dto_amount dto_currency dto_occurredAt dto_failureReason]. split_and!.
  - exact (proj1 (sized_property _ _ _ "eventId" _ _ _ Hvalid eq_refl)).
  - exact (proj2 (sized_property _ _ _ "eventId" _ _ _ Hvalid eq_refl)).
  - exact (proj1 (sized_property _ _ _ "aggregatorReference" _ _ _ Hvalid eq_refl)).
  - exact (proj2 (sized_property _ _ _ "aggregatorReference" _ _ _ Hvalid eq_refl)).
  - exact (proj1 Hamount).
  - exact (currency_told _ _ _ Hvalid eq_refl).
  - destruct (required_property _ _ _ "occurredAt" _ _ Hvalid eq_refl) as (d & -> & [H _]%Forall_cons).
    change (isISO8601 d = true) in H. destruct (isISO8601_text _ H) as [s Hs]. unfold id. by subst d.
  - exact (optional_text _ _ _ "failureReason" _ _ _ Hvalid eq_refl (sized 1 512)).
Qed.

Definition well_formed_simulation (dto : SimulateMobileMoneyDto) : Prop :=
  (∀ c, sm_amount dto = Some c → 1 <= c)
  ∧ ∀ currency, sm_currency dto = Some currency → CURRENCY_CODE currency = true.

Lemma simulation_is_well_formed entries body :
  validate SimulateMobileMoneyDto_class entries = Some body → well_formed_simulation (simulate_dto body).
Proof.
  intros Hvalid. unfold simulate_dto. split; cbn [sm_amount sm_currency].
  - unfold opt_cents_in. intros c Hc.
    destruct (optional_property _ _ _ "amount" _ _ Hvalid eq_refl) as [Hnull|(raw & Hraw & [H _]%Forall_cons)].
    + by rewrite Hnull in Hc.
    + destruct (is_nullish _); [done|]. injection Hc as <-. rewrite Hraw. exact (proj1 (monetary_tells _ H)).
  - refine (optional_text _ _ _ "currency" _ _ (λ s, CURRENCY_CODE s = true) Hvalid eq_refl _).
    intros value [H _]%Forall_cons. by apply matches_text.
Qed.

Lemma simulation_amount_told entries body :
  validate SimulateMobileMoneyDto_class entries = Some body →
  tells_optional (field "amount" (JObject entries)) (sm_amount (simulate_dto body)).
Proof.
  intros Hvalid. destruct (validated_property _ _ _ (amount_property true) Hvalid eq_refl) as [Hfield Hholds].
  change (field "amount" body = field "amount" (JObject entries)) in Hfield.
  unfold simulate_dto, opt_cents_in, tells_optional. cbn [sm_amount]. rewrite Hfield.
  change (received entries (amount_property true)) with (field "amount" (JObject entries)) in Hholds.
  destruct (is_nullish (field "amount" (JObject entries))) eqn:Hnull; [done|].
  unfold property_holds in Hholds. rewrite Hnull in Hholds.
  apply andb_true_iff in Hholds as [H _]. by apply monetary_tells.
Qed.

(** An integer that has its bounds is read as it is. *)
Lemma at_least least z : number_ge (Num (inject_Z z)) least = true → least <= z.
Proof.
  intros [H%negb_true_iff|H]%orb_true_iff; cbn in H.
  - apply not_true_iff_false in H. rewrite Qle_bool_iff, <- Zle_Qle in H. lia.
  - apply Qeq_bool_iff in H. unfold Qeq in H. simpl in H. lia.
Qed.

Lemma at_most most z : number_gt (Num (inject_Z z)) most = false → z <= most.
Proof. cbn. intros H%negb_false_iff. by rewrite Qle_bool_iff, <- Zle_Qle in H. Qed.

Lemma counted value least :
  isInt value = true → isMin least value = true →
  ∃ z, least <= z ∧ count_in value = Some (Z.to_nat z) ∧ ∀ most, isMax most value = true → z <= most.
Proof.
  intros (text & z & -> & Hz)%isInt_spec (t1 & [= <-] & Hmin)%isMin_spec. rewrite Hz in Hmin.
  exists z. split; [by apply at_least|]. split.
  - unfold count_in. cbn [number_of]. by rewrite Hz, Qfloor_Z.
  - intros most (t2 & [= <-] & Hmax & _)%isMax_spec. rewrite Hz in Hmax. by apply at_most.
Qed.

Lemma nullish_uncounted value : is_nullish value = true → count_in value = None.
Proof. by destruct value. Qed.

Lemma sweep_is_bounded entries body n :
  validate SweepRequestDto_class entries = Some body → sweep_limit body = Some n → (1 <= n <= 500)%nat.
Proof.
  intros Hvalid. unfold sweep_limit.
  destruct (optional_property _ _ _ "limit" _ _ Hvalid eq_refl) as [Hnull|(raw & -> & Hrules)].
  - by rewrite nullish_uncounted.
  - rewrite !Forall_cons in Hrules. destruct Hrules as (Hint & Hmin & Hmax & _).
    destruct (counted _ _ Hint Hmin) as (z & H1 & -> & Hz). specialize (Hz _ Hmax). intros [= <-]. lia.
Qed.

Definition well_formed_query (dto : QueryTransfersDto) : Prop :=
  (1 <= qt_page dto)%nat ∧ (1 <= qt_limit dto <= 100)%nat
  ∧ ∀ currency, qt_currency dto = Some currency → CURRENCY_CODE currency = true.

Lemma query_is_well_formed entries body :
  validate QueryTransfersDto_class entries = Some body → well_formed_query (query_dto body).
Proof.
  intros Hvalid. unfold query_dto. split; [|split]; cbn [qt_page qt_limit qt_currency].
  - destruct (optional_property _ _ _ "page" _ _ Hvalid eq_refl) as [Hnull|(raw & -> & Hrules)].
    + rewrite nullish_uncounted by done. simpl. lia.
    + rewrite !Forall_cons in Hrules. destruct Hrules as (Hint & Hmin & _).
      destruct (counted _ _ Hint Hmin) as (z & H1 & -> & _). simpl. lia.
  - destruct (optional_property _ _ _ "limit" _ _ Hvalid eq_refl) as [Hnull|(raw & -> & Hrules)].
    + rewrite nullish_uncounted by done. simpl. lia.
    + rewrite !Forall_cons in Hrules. destruct Hrules as (Hint & Hmin & Hmax & _).
      destruct (counted _ _ Hint Hmin) as (z & H1 & -> & Hz). specialize (Hz _ Hmax). simpl. lia.
  - refine (optional_text _ _ _ "currency" _ _ (λ s, CURRENCY_CODE s = true) Hvalid eq_refl _).
    intros value [H _]%Forall_cons. by apply matches_text.
Qed.

Lemma reference_is_well_formed raw reference :
  validated_reference raw = Some reference →
  REFERENCE_PATTERN reference = true ∧ reference = toUpperCase (trim raw).
Proof.
  unfold validated_reference. intros (body & Hvalid & ->)%fmap_Some.
  destruct (validated_property _ _ _ (mkProperty "reference" false TrimUpper [matchesPattern REFERENCE_PATTERN])
              Hvalid eq_refl) as [Hfield Hholds].
  change (field "reference" body = JString (toUpperCase (trim raw))) in Hfield. rewrite Hfield.
  split; [|done]. unfold property_holds in Hholds. apply andb_true_iff in Hholds as [H _].
  by apply matches_text in H as [_ H].
Qed.

(** What a controller may assume of its request. *)
Definition well_formed (request : Request) : Prop :=
  match request with
  | PostTransfer dto _ => well_formed_transfer dto
  | PostMobileMoney dto _ => well_formed_payment dto
  | PostWebhook payload _ => well_formed_notification payload
  | PostSimulatorConfirm _ input => well_formed_simulation input
  | GetTransfers query => well_formed_query query
  | PostSweep limit => ∀ n, limit = Some n → (1 <= n <= 500)%nat
  | GetTransfer reference | GetTransferVerification reference | GetEvents reference
  | GetEventsVerification reference | PostRefund reference | PostRefundReopen reference
  | GetRefund reference | GetEntries reference => REFERENCE_PATTERN reference = true
  | _ => True
  end.

Lemma validated_well_formed wire request : validated wire = Some request → well_formed request.
Proof.
  destruct wire as [body key|body key|body signature|reference body|body|query|route reference|route]; cbn [validated].
  - intros (dto & Hvalid & ->)%fmap_Some. by destruct (transfer_is_well_formed _ _ Hvalid).
  - intros (dto & Hvalid & H)%bind_Some. destruct (payment_is_well_formed _ _ Hvalid) as (d & Hd & Hok & _).
    rewrite Hd in H. by injection H as <-.
  - intros (dto & Hvalid & H)%bind_Some. destruct (notification_is_well_formed _ _ Hvalid) as (d & Hd & Hok & _).
    rewrite Hd in H. by injection H as <-.
  - intros (dto & Hvalid & ->)%fmap_Some. by apply (simulation_is_well_formed body).
  - intros (dto & Hvalid & ->)%fmap_Some n. by apply (sweep_is_bounded body).
  - intros (dto & Hvalid & ->)%fmap_Some. by apply (query_is_well_formed query).
  - intros (r & Hr & ->)%fmap_Some. destruct (reference_is_well_formed _ _ Hr). by destruct route.
  - intros [= <-]. by destruct route.
Qed.

Definition received_amount (body : Body) : Json := field "amount" (JObject body).

(** The amount of a payment is the number of its body; that of a simulated confirmation too, or
    both are absent. *)
Definition tells_amount (wire : WireRequest) (request : Request) : Prop :=
  match wire, request with
  | WireTransfer body _, PostTransfer dto _ => tells (received_amount body) (ct_amount dto)
  | WireMobileMoney body _, PostMobileMoney dto _ => tells (received_amount body) (cd_amount dto)
  | WireWebhook body _, PostWebhook dto _ => tells (received_amount body) (dto_amount dto)
  | WireConfirm _ body, PostSimulatorConfirm _ dto => tells_optional (received_amount body) (sm_amount dto)
  | _, _ => True
  end.

Lemma validated_amount wire request : validated wire = Some request → tells_amount wire request.
Proof.
  destruct wire as [body key|body key|body signature|reference body|body|query|route reference|route]; cbn [validated]; [| | | |done..].
  - intros (dto & Hvalid & ->)%fmap_Some. by destruct (transfer_is_well_formed _ _ Hvalid).
  - intros (dto & Hvalid & H)%bind_Some. destruct (payment_is_well_formed _ _ Hvalid) as (d & Hd & _ & Htells).
    rewrite Hd in H. by injection H as <-.
  - intros (dto & Hvalid & H)%bind_Some. destruct (notification_is_well_formed _ _ Hvalid) as (d & Hd & _ & Htells).
    rewrite Hd in H. by injection H as <-.
  - intros (dto & Hvalid & ->)%fmap_Some. by apply simulation_amount_told.
Qed.

Lemma validated_scope wire request : validated wire = Some request → required_scope request = wire_scope wire.
Proof.
  destruct wire as [body key|body key|body signature|reference body|body|query|route reference|route]; cbn [validated].
  - by intros (dto & _ & ->)%fmap_Some.
  - intros (dto & _ & H)%bind_Some. by apply fmap_Some in H as (d & _ & ->).
  - intros (dto & _ & H)%bind_Some. by apply fmap_Some in H as (d & _ & ->).
  - by intros (dto & _ & ->)%fmap_Some.
  - by intros (dto & _ & ->)%fmap_Some.
  - by intros (dto & _ & ->)%fmap_Some.
  - intros (r & _ & ->)%fmap_Some. by destruct route.
  - intros [= <-]. by destruct route.
Qed.
End WellFormed.

(** * The pipe before the controllers *)

Section WireProperties.
Context {HV : ClassValidator} {HL : ClassValidatorLaws}.
Context {HH : Hashing} {HX : XsdEngine} {HE : Entropy} {HD : DateParser} {HM : Hmac} {HT : ErrorText}.
Context {HS : SoapClient} {HC : ChainClient} {HR : RefundProvider} {HA : Sha256}.
Context (config : GatewayConfig).

(** C25. A request whose body or reference is not valid changes nothing: it is refused by the
    guard, and if not with a 400.  One that is valid is the request of the gateway, with the
    scope of its endpoint: its account numbers are in normal form and have their key, its
    amount is the whole number of cents the number of the body is read as (the amount of a
    simulated confirmation may be absent from both), its currency is three capital letters,
    its texts have their bounds and their characters, the reference in the path, at
    an endpoint that validates it, matches [REFERENCE_PATTERN] (which admits more than the
    generator makes), a page has from 1 to 100 rows and a sweep from 1 to 500 payments. *)
Theorem only_valid_requests_reach_the_services locks authorization wire w :
  (validated wire = None →
     ∃ e, handle_wire config locks authorization wire w = (Throw e, w)
       ∧ (e = HttpException 400 "Bad Request"
          ∨ canActivate (gc_authEnabled config) (onModuleInit (gc_apiKeys config)) true (wire_metadata wire) authorization = Throw e))
  ∧ ∀ request, validated wire = Some request →
      handle_wire config locks authorization wire w = handle_request config locks authorization request w
      ∧ route_metadata request = wire_metadata wire
      ∧ well_formed request
      ∧ tells_amount wire request.
Proof.
  split.
  - intros Hnone. unfold handle_wire. rewrite Hnone. destruct (canActivate _ _ _ _ _) as [identity|e]; eexists; (split; [reflexivity|]); auto.
  - intros request Hvalid.
    assert (Hmeta : route_metadata request = wire_metadata wire)
      by (unfold route_metadata, wire_metadata; by rewrite (validated_scope _ _ Hvalid)).
    split_and!; [|exact Hmeta|by eapply validated_well_formed|].
    + unfold handle_wire, handle_request. by rewrite Hmeta, Hvalid.
    + by apply validated_amount.
Qed.
End WireProperties.

(** A body is transformed once: what the pipe made of it, sent again, is accepted and
    unchanged, for every class of the gateway. *)
Theorem transformed_body_is_kept `{ClassValidator} properties entries body :
  properties ∈ classes →
  validate properties entries = Some (JObject body) →
  validate properties body = Some (JObject body).
Proof.
  intros Hin Hvalid. destruct (proj1 (Forall_forall _ _) classes_are_stable _ Hin) as [Hnd Hstable].
  by apply (validate_again _ _ _ Hnd Hstable Hvalid).
Qed.

(** ** The columns of a transfer *)

Lemma char_length_bound s : (char_length s <= String.length s)%nat.
Proof. induction s as [|c s IH]; [done|]. simpl. destruct (continues c); lia. Qed.

Lemma short_fits n s : (String.length s <= n)%nat → fits n s = true.
Proof. intros H. apply Nat.leb_le. pose proof (char_length_bound s). lia. Qed.

(** The row of a valid transfer fits its columns, provided the identifiers of its headers
    do: the correlation identifier is checked ([SAFE_CORRELATION_ID]), the idempotency key
    is not. *)
Theorem valid_transfer_fits dto key reference correlationId :
  well_formed_transfer dto → REFERENCE_PATTERN reference = true →
  fits_opt 128 key = true → SAFE_CORRELATION_ID correlationId = true →
  transaction_fits (new_transfer dto key reference correlationId) = true.
Proof.
  intros (_ & _ & _ & _ & _ & Hcurrency & Hlabel) Href Hkey Hcorr.
  apply matches_length in Href. unfold SAFE_CORRELATION_ID in Hcorr.
  apply andb_true_iff in Hcorr as [[_ Hcorr%Nat.leb_le]%andb_true_iff _].
  unfold CURRENCY_CODE, of_class in Hcurrency. apply andb_true_iff in Hcurrency as [[_ Hcur%Nat.leb_le]%andb_true_iff _].
  assert (Hl : fits_opt 140 (ct_endToEndLabel dto) = true).
  { destruct (ct_endToEndLabel dto) as [label|]; [|done]. by apply short_fits, (Hlabel label). }
  unfold transaction_fits. cbn -[fits fits_opt]. rewrite Hkey, Hl, !short_fits by (rewrite ?Href; cbn; lia). done.
Qed.

(** * Witnesses *)

#[local] Instance sample_validator : ClassValidator := {
  isString j := match j with JString _ => true | _ => false end;
  lengthWithin lo hi j :=
    match j with JString s => Nat.leb lo (char_length s) && Nat.leb (char_length s) hi | _ => false end;
  maxLength hi j := match j with JString s => Nat.leb (char_length s) hi | _ => false end;
  matchesPattern pattern j := match j with JString s => pattern s | _ => false end;
  isEnum values j := match j with JString s => bool_decide (s ∈ values) | _ => false end;
  isISO8601 j := match j with JString s => non_empty s | _ => false end;
  isInt j :=
    match j with
    | JNumber text => match parseFloat text with Num q => Pos.eqb (Qden q) 1 | _ => false end
    | _ => false
    end;
  isMin least j := match j with JNumber text => number_ge (parseFloat text) least | _ => false end;
  isMax most j :=
    match j with
    | JNumber text => match parseFloat text with NaN => false | n => negb (number_gt n most) end
    | _ => false
    end
}.

#[local] Instance sample_laws : ClassValidatorLaws.
Proof.
  refine {| text_length := char_length |}.
  - intros s Hs. apply char_length_ascii. revert Hs. apply all_chars_weaken.
    intros [[] [] [] [] [] [] [] []]; by vm_compute.
  - intros j. split; [destruct j; try discriminate; by eexists|by intros [s ->]].
  - intros lo hi j. split.
    + destruct j; try discriminate. intros [H1%Nat.leb_le H2%Nat.leb_le]%andb_true_iff. by eexists.
    + intros (s & -> & H1 & H2). apply andb_true_iff. by rewrite !Nat.leb_le.
  - intros hi j. split; [|intros (s & -> & H); by apply Nat.leb_le].
    destruct j; try discriminate. intros H%Nat.leb_le. by eexists.
  - intros pattern j. split; [destruct j; try discriminate; by eexists|by intros (s & -> & H)].
  - intros values j. split; [|intros (s & -> & H); by apply bool_decide_eq_true].
    destruct j; try discriminate. intros H%bool_decide_eq_true. by eexists.
  - intros j. destruct j; try discriminate. by eexists.
  - intros j. split.
    + destruct j; try discriminate. cbn. destruct (parseFloat text) as [| |[z [d|d|]]] eqn:Hv; try discriminate.
      intros _. by eexists _, _.
    + intros (text & z & -> & H). cbn. by rewrite H.
  - intros least j. split; [destruct j; try discriminate; by eexists|by intros (text & -> & H)].
  - intros most j. split.
    + destruct j; try discriminate. cbn. destruct (parseFloat text) as [| |] eqn:Hv; try discriminate;
        intros H%negb_true_iff; eexists; (split; [done|]); by rewrite Hv.
    + intros (text & -> & H & Hnan). cbn. destruct (parseFloat text); [done|..]; apply negb_true_iff; exact H.
Qed.

#[local] Existing Instances Toy.hashing Toy.entropy Toy.xsd sample_dates sample_texts sample_hmac
  sample_bank Anchoring.ledger_chain simulator_provider sample_sha256.

Definition sample_wire : Body :=
  [("debtorIban", JString "fr76 3000-6000 0112 3456 7890 189"); ("creditorIban", JString "DE89370400440532013000");
   ("creditorName", JString " ACME GmbH "); ("amount", JNumber "1250.75"); ("currency", JString "usd")].

Example sample_wire_read :
  validated (WireTransfer sample_wire None)
  = Some (PostTransfer (mkCreateTransferDto "FR7630006000011234567890189" None "DE89370400440532013000"
                          "ACME GmbH" 125075 "USD" None) None)
  ∧ validated (WireTransfer (("fee", JNumber "0") :: sample_wire) None) = None
  ∧ validated (WireSweep [("limit", JNumber "501")]) = None
  ∧ validated (WireTransfers [("status", JString "failed"); ("limit", JString "5")])
    = Some (GetTransfers (mkQueryTransfersDto (Some TransactionStatus.FAILED) None 1 5))
  ∧ validated (WirePayment OneTransfer " trf-20260725-8f3a2c71 ") = Some (GetTransfer "TRF-20260725-8F3A2C71").
Proof. vm_compute. repeat split. Qed.

Lemma only_valid_requests_reach_the_services_witness :
  (∃ e, handle_wire sample_gateway sample_locks sample_header (WireSweep [("limit", JNumber "0")]) empty_world
        = (Throw e, empty_world))
  ∧ tells (JNumber "1250.75") 125075.
Proof.
  split.
  - destruct (only_valid_requests_reach_the_services sample_gateway sample_locks sample_header
                (WireSweep [("limit", JNumber "0")]) empty_world) as [Hinvalid _].
    destruct Hinvalid as (e & He & _); [vm_compute; reflexivity|]. by exists e.
  - destruct (only_valid_requests_reach_the_services sample_gateway sample_locks sample_header
                (WireTransfer sample_wire None) empty_world) as [_ Hvalid].
    destruct (Hvalid _ (proj1 sample_wire_read)) as (_ & _ & _ & Htells). exact Htells.
Defined.

Lemma transformed_body_is_kept_witness :
  validate SweepRequestDto_class [("limit", JNumber "7")] = Some (JObject [("limit", JNumber "7")]).
Proof.
  apply (transformed_body_is_kept SweepRequestDto_class [("limit", JNumber "7")]).
  - unfold classes. do 4 apply list_elem_of_further. apply list_elem_of_here.
  - vm_compute. reflexivity.
Defined.

(** A key of more than 128 characters is not refused with a 400: the insertion fails. *)
Example long_key_is_a_server_error :
  (handle_wire sample_gateway sample_locks sample_header
     (WireTransfer sample_wire (Some (String.concat "" (replicate 129 "k")))) empty_world).1
  = Throw (QueryFailedError PG_STRING_TRUNCATION "").
Proof. vm_compute. reflexivity. Qed.

Lemma valid_transfer_fits_witness :
  ∃ dto, validated (WireTransfer sample_wire (Some "key-1")) = Some (PostTransfer dto (Some "key-1"))
    ∧ transaction_fits (new_transfer dto (Some "key-1") "TRF-20260725-8F3A2C71" "corr-0001") = true.
Proof.
  eexists. split; [vm_compute; reflexivity|].
  apply valid_transfer_fits; [|vm_compute; reflexivity..].
  exact (validated_well_formed (WireTransfer sample_wire None) _ (proj1 sample_wire_read)).
Defined.
