(* ===== verification/Environment.v ===== *)
(** The environment of the process: its validation at start-up
    ([src/config/env.validation.ts]) and the configuration read from it
    ([src/config/configuration.ts]).

    A variable is absent or a text.  [validateEnv] gathers the faults of every rule and of
    the rules that bind several variables; what it accepts is then read by the factories
    of [configuration.ts], and the theorems tie the two: in production the guard is on,
    the secrets are those of the operator and the key ring is installed; the numbers of
    the configuration are in the ranges the services assume.  The URL parser of Node is a
    parameter. *)
From stdpp Require Import gmap.
From S2P Require Import Prelude Domain External EventXml Money Text Numbers Base64 Database FieldCipher ApiKeys MobileMoney Anchoring SoapService.
Open Scope Z_scope.

(** [process.env], and the [config] that [validateEnv] receives. *)
Abbreviation Env := (gmap string string).

(** [new URL(raw).protocol]; [None] is an exception. *)
Class UrlParser := { url_protocol : string → option string }.

Definition LOCAL_SECURITY_MASTER_KEY : string := "bG9jYWwtZGVtby1tYXN0ZXIta2V5LTMyLWJ5dGVzISE=".
Definition LEGACY_LOCAL_SECURITY_MASTER_KEY : string := "local-demo-master-key-a-remplacer".
Definition LOCAL_SECURITY_KEY_ID : string := "local-v1".
Definition DEFAULT_SECURITY_KEY_SALT : string := "banking-gateway-hkdf-salt".
Definition LOCAL_WEBHOOK_SECRET : string := "local-demo-webhook-secret".

Example local_master_key_text :
  fromBase64 LOCAL_SECURITY_MASTER_KEY
  = code_of <$> String.list_ascii_of_string "local-demo-master-key-32-bytes!!".
Proof. reflexivity. Qed.

(** * Rules *)

Module RuleKind.
Inductive RuleKind := string_kind | int | float | boolean | url | enum | pattern.
#[export] Instance eq_dec : EqDecision RuleKind.
Proof. solve_decision. Defined.
End RuleKind.
Abbreviation RuleKind := RuleKind.RuleKind.
#[export] Existing Instance RuleKind.eq_dec.

Record Rule := mkRule {
  r_key : string;
  r_required : bool;
  r_kind : option RuleKind;
  r_values : list string;
  r_min : option Z;
  r_max : option Z;
  r_exclusiveMax : bool;
  r_minLength : option nat;
  r_pattern : string → bool;
  r_expected : string;
  r_secret : bool
}.
#[export] Instance eta_Rule : Eta Rule :=
  λ r, mkRule (r_key r) (r_required r) (r_kind r) (r_values r) (r_min r) (r_max r)
         (r_exclusiveMax r) (r_minLength r) (r_pattern r) (r_expected r) (r_secret r).

(** A rule with a key only, and with a kind. *)
Definition rule (key : string) : Rule :=
  mkRule key false None [] None None false None (λ _, true) "au format attendu" false.
Definition rule_of (key : string) (kind : RuleKind) : Rule := (rule key) <| r_kind := Some kind |>.
Definition required (r : Rule) : Rule := r <| r_required := true |>.
Definition at_least (least : Z) (r : Rule) : Rule := r <| r_min := Some least |>.
Definition secret (r : Rule) : Rule := r <| r_secret := true |>.
Definition matching (key : string) (test : string → bool) (expected : string) : Rule :=
  (rule_of key RuleKind.pattern) <| r_pattern := test |> <| r_expected := expected |>.

(** [/^[A-Z]{2}[0-9]{2}[A-Z0-9]{11,30}$/] *)
Definition SETTLEMENT_IBAN_PATTERN (s : string) : bool :=
  let length := String.length s in
  Nat.leb 15 length && Nat.leb length 34
  && all_chars is_upper (String.substring 0 2 s)
  && all_chars is_digit (String.substring 2 2 s)
  && all_chars (λ c, is_upper c || is_digit c) (String.substring 4 (length - 4) s).

(** [/^0x[0-9a-fA-F]{n}$/] *)
Definition hex_word (n : nat) (s : string) : bool :=
  str_eqb (String.substring 0 2 s) "0x"
  && of_class is_hex_char n n (String.substring 2 (String.length s - 2) s).

Definition RULES : list Rule :=
  let int key least := at_least least (rule_of key RuleKind.int) in
  let boolean key := rule_of key RuleKind.boolean in
  let url key := rule_of key RuleKind.url in
  [ (rule_of "NODE_ENV" RuleKind.enum)
      <| r_values := ["development"; "test"; "staging"; "production"] |>;
    int "PORT" 1;
    required (rule "DB_HOST");
    required (int "DB_PORT" 1);
    required (rule "DB_USERNAME");
    required (rule "DB_PASSWORD");
    required (rule "DB_NAME");
    boolean "DB_SYNCHRONIZE";
    boolean "DB_LOGGING";
    boolean "DB_SSL";
    required (url "SOAP_ENDPOINT");
    (rule_of "SOAP_WSDL_SOURCE" RuleKind.enum) <| r_values := ["local"; "remote"] |>;
    url "SOAP_WSDL_URL";
    int "SOAP_TIMEOUT_MS" 100;
    int "SOAP_MAX_RETRIES" 0;
    int "SOAP_RETRY_DELAY_MS" 0;
    int "SOAP_MAX_RESPONSE_BYTES" 1024;
    at_least 0 (rule_of "TRANSFER_MAX_AMOUNT" RuleKind.float);
    (at_least 0 (rule_of "MOBILE_MONEY_FEE_RATE" RuleKind.float))
      <| r_max := Some 1 |> <| r_exclusiveMax := true |>;
    matching "MOBILE_MONEY_SETTLEMENT_IBAN" SETTLEMENT_IBAN_PATTERN "un IBAN sans espaces";
    rule_of "MOBILE_MONEY_SETTLEMENT_NAME" RuleKind.string_kind;
    secret (rule_of "MOBILE_MONEY_WEBHOOK_SECRET" RuleKind.string_kind);
    boolean "MOBILE_MONEY_SIMULATOR_ENABLED";
    boolean "MOBILE_MONEY_BANK_WORKER_ENABLED";
    int "MOBILE_MONEY_BANK_WORKER_INTERVAL_MS" 100;
    int "MOBILE_MONEY_BANK_WORKER_MAX_ATTEMPTS" 1;
    boolean "MOBILE_MONEY_REFUND_WORKER_ENABLED";
    int "MOBILE_MONEY_REFUND_WORKER_INTERVAL_MS" 100;
    int "AUDIT_MAX_PAYLOAD_CHARS" 0;
    boolean "AUDIT_PERSIST_PAYLOADS";
    boolean "SWAGGER_ENABLED";
    boolean "AUTH_ENABLED";
    secret (matching "SECURITY_MASTER_KEY" MASTER_KEY_PATTERN
              "une cle Base64 representant exactement 32 octets");
    matching "SECURITY_CURRENT_KEY_ID" KEY_ID_PATTERN
      "un identifiant de cle (1 a 32 lettres, chiffres, _ ou -)";
    (rule_of "SECURITY_KEY_SALT" RuleKind.string_kind) <| r_minLength := Some 16%nat |>;
    boolean "BLOCKCHAIN_ENABLED";
    url "BLOCKCHAIN_RPC_URL";
    url "BLOCKCHAIN_EXPLORER_TX_URL";
    int "BLOCKCHAIN_CHAIN_ID" 1;
    matching "BLOCKCHAIN_CONTRACT_ADDRESS" (hex_word 40)
      "une adresse Ethereum (0x + 40 caracteres hexadecimaux)";
    secret (matching "BLOCKCHAIN_PRIVATE_KEY" (hex_word 64)
              "une cle privee (0x + 64 caracteres hexadecimaux)");
    int "BLOCKCHAIN_CONFIRMATIONS" 0;
    int "ANCHOR_BATCH_MAX_SIZE" 1;
    int "ANCHOR_INTERVAL_MS" 1000;
    int "ANCHOR_MAX_RETRIES" 1 ].

Definition BOOLEANS : list string := ["1"; "0"; "true"; "false"; "yes"; "no"; "on"; "off"].

Definition LOCAL_CHAIN_IDS : list Z := [31337; 1337; 5777].

Definition WELL_KNOWN_DEV_KEY : string :=
  "0xac0974bec39a17e36ba4a6b4d238ff944bacb478cbed5efcae784d7bf4f2ff80".

(** [/^-?\d+$/] *)
Definition INTEGER_PATTERN (raw : string) : bool :=
  let digits := match raw with
                | String "-"%char digits => digits
                | _ => raw
                end in
  non_empty digits && all_chars is_digit digits.

(** [(recu: "...")] *)
Definition received (raw : string) : string := " (recu: " +:+ quote +:+ raw +:+ quote +:+ ")".

(** [parsed < rule.min], and the comparison with [rule.max]. *)
Definition below_min (rule : Rule) (parsed : Number) : bool :=
  match r_min rule with Some least => number_lt parsed least | None => false end.
Definition above_max (rule : Rule) (parsed : Number) : bool :=
  match r_max rule with
  | Some most => if r_exclusiveMax rule then number_ge parsed most else number_gt parsed most
  | None => false
  end.

(** The bounds of a number, once read. *)
Definition check_bounds (rule : Rule) (parsed : Number) (raw : string) : option string :=
  if below_min rule parsed
  then Some (r_key rule +:+ " doit etre >= " +:+ pretty (default 0 (r_min rule)) +:+ received raw)
  else if above_max rule parsed
  then Some (r_key rule +:+ " doit etre " +:+ (if r_exclusiveMax rule then "<" else "<=")
         +:+ " " +:+ pretty (default 0 (r_max rule)) +:+ received raw)
  else None.

Section validation.
Context {HU : UrlParser}.

(** The [switch] on the kind. *)
Definition check_kind (rule : Rule) (raw : string) : option string :=
  match r_kind rule with
  | Some RuleKind.int =>
      if negb (INTEGER_PATTERN raw) then Some (r_key rule +:+ " doit etre un entier" +:+ received raw)
      else check_bounds rule (parseInt raw) raw
  | Some RuleKind.float =>
      let parsed := parseFloat raw in
      if negb (is_finite parsed) then Some (r_key rule +:+ " doit etre un nombre" +:+ received raw)
      else check_bounds rule parsed raw
  | Some RuleKind.boolean =>
      if bool_decide (toLowerCase raw ∈ BOOLEANS) then None
      else Some (r_key rule +:+ " doit etre un booleen" +:+ received raw)
  | Some RuleKind.url =>
      match url_protocol raw with
      | Some protocol =>
          if bool_decide (protocol ∈ ["http:"; "https:"]) then None
          else Some (r_key rule +:+ " doit utiliser http(s)" +:+ received raw)
      | None => Some (r_key rule +:+ " doit etre une URL valide" +:+ received raw)
      end
  | Some RuleKind.enum =>
      if bool_decide (toLowerCase raw ∈ r_values rule) then None
      else Some (r_key rule +:+ " doit valoir l'une de [" +:+ String.concat ", " (r_values rule) +:+ "]"
                 +:+ received raw)
  | _ => None
  end.

Definition checkRule (rule : Rule) (raw : option string) : option string :=
  match raw with
  | None | Some EmptyString =>
      if r_required rule then Some (r_key rule +:+ " est requis mais absent") else None
  | Some raw =>
      if match r_minLength rule with
         | Some least => Nat.ltb (utf16_length raw) least
         | None => false
         end
      then Some (r_key rule +:+ " doit contenir au moins "
             +:+ pretty (Z.of_nat (default 0%nat (r_minLength rule))) +:+ " caracteres"
             +:+ (if r_secret rule then " (valeur masquee)" else ""))
      else if is_eq (r_kind rule) (Some RuleKind.pattern) then
        if r_pattern rule raw then None
        else Some (r_key rule +:+ " doit etre " +:+ r_expected rule
               +:+ (if r_secret rule then " (valeur masquee)" else received raw))
      else check_kind rule raw
  end.

(** * Rules that bind several variables *)

(** [read(key)] *)
Definition read (env : Env) (key : string) : string := default "" (env !! key).

Definition in_production (env : Env) : bool := str_eqb (read env "NODE_ENV") "production".

Definition production_errors (env : Env) : list string :=
  if negb (in_production env) then []
  else
    (if bool_decide (toLowerCase (read env "AUTH_ENABLED") ∈ ["0"; "false"; "no"; "off"])
     then ["AUTH_ENABLED ne peut pas valoir false en production"] else [])
    ++ (if negb (non_empty (trim (read env "API_KEYS")))
        then ["API_KEYS est requis en production : aucune cle declaree"] else [])
    ++ (if negb (non_empty (read env "SECURITY_MASTER_KEY"))
           || str_eqb (read env "SECURITY_MASTER_KEY") LOCAL_SECURITY_MASTER_KEY
        then ["SECURITY_MASTER_KEY doit etre un secret explicite en production (valeur masquee)"]
        else [])
    ++ (if negb (non_empty (read env "SECURITY_CURRENT_KEY_ID"))
           || str_eqb (read env "SECURITY_CURRENT_KEY_ID") LOCAL_SECURITY_KEY_ID
        then ["SECURITY_CURRENT_KEY_ID doit etre explicite en production"] else []).

(** [new Set(Buffer.from(encoded, 'base64')).size < 4] *)
Definition weak_key (encoded : string) : bool :=
  Nat.ltb (length (remove_dups (fromBase64 encoded))) 4.

Definition entropy_errors (env : Env) : list string :=
  let currentMasterKey := read env "SECURITY_MASTER_KEY" in
  if MASTER_KEY_PATTERN currentMasterKey && weak_key currentMasterKey
  then ["SECURITY_MASTER_KEY presente une entropie manifestement insuffisante (valeur masquee)"]
  else [].

(** The loop over the entries, [seen] being the identifiers already met. *)
Fixpoint previous_keys_valid (current : string) (seen entries : list string) : bool :=
  match entries with
  | [] => true
  | entry :: entries =>
      let parts := split "|"%char (trim entry) in
      let keyId := default "" (parts !! 0%nat) in
      let encoded := default "" (parts !! 1%nat) in
      let extra := drop 2 parts in
      if Nat.ltb 0 (length extra) || negb (KEY_ID_PATTERN keyId)
         || negb (MASTER_KEY_PATTERN encoded) || weak_key encoded
         || bool_decide (keyId ∈ seen) || str_eqb keyId current
      then false
      else previous_keys_valid current (keyId :: seen) entries
  end.

Definition previous_keys_errors (env : Env) : list string :=
  let previousKeys := read env "SECURITY_PREVIOUS_KEYS" in
  if non_empty previousKeys
     && negb (previous_keys_valid (read env "SECURITY_CURRENT_KEY_ID") [] (split ","%char previousKeys))
  then ["SECURITY_PREVIOUS_KEYS doit contenir des entrees uniques keyId|Base64-32-octets "
        +:+ "(valeurs masquees), distinctes de SECURITY_CURRENT_KEY_ID"]
  else [].

Definition webhook_secret_errors (env : Env) : list string :=
  if bool_decide (env !! "NODE_ENV" = Some "production")
     && (negb (truthy (env !! "MOBILE_MONEY_WEBHOOK_SECRET"))
         || bool_decide (env !! "MOBILE_MONEY_WEBHOOK_SECRET" = Some LOCAL_WEBHOOK_SECRET))
  then ["MOBILE_MONEY_WEBHOOK_SECRET doit etre un secret explicite en production"]
  else [].

(** [String(n)], of the integers below [10^21]. *)
Definition number_text (n : Number) : string :=
  match n with
  | NaN => "NaN"
  | Infinite negative => (if negative then "-" else "") +:+ "Infinity"
  | Num q => pretty (Qfloor q)
  end.

Definition declared_chain (env : Env) : Number :=
  parseInt (default "31337" (env !! "BLOCKCHAIN_CHAIN_ID")).
Definition anchoring_enabled (env : Env) : bool :=
  negb (bool_decide (toLowerCase (default "true" (env !! "BLOCKCHAIN_ENABLED"))
                       ∈ ["false"; "0"; "no"; "off"])).
Definition local_chain (chainId : Number) : bool := existsb (number_eq chainId) LOCAL_CHAIN_IDS.

Definition dev_key_errors (env : Env) : list string :=
  let chainId := declared_chain env in
  let privateKey := default WELL_KNOWN_DEV_KEY (env !! "BLOCKCHAIN_PRIVATE_KEY") in
  if anchoring_enabled env && negb (local_chain chainId) && str_eqb privateKey WELL_KNOWN_DEV_KEY
  then ["BLOCKCHAIN_PRIVATE_KEY est la cle de developpement publique d'Anvil, inutilisable "
        +:+ "sur la chaine " +:+ number_text chainId
        +:+ " : quiconque la connait pourrait ancrer a votre place"]
  else [].

Definition rule_errors (env : Env) : list string :=
  omap (λ rule, checkRule rule (env !! r_key rule)) RULES.

Definition env_errors (env : Env) : list string :=
  rule_errors env ++ production_errors env ++ entropy_errors env ++ previous_keys_errors env
  ++ webhook_secret_errors env ++ dev_key_errors env.

Definition validateEnv (env : Env) : Outcome GatewayError Env :=
  let errors := env_errors env in
  if Nat.ltb 0 (length errors)
  then Throw (PlainError ("Configuration invalide — corrigez votre fichier .env :" +:+ newline +:+ "  - "
                +:+ String.concat (newline +:+ "  - ") errors))
  else Return env.
End validation.

(** * The configuration *)

Definition authEnabled (env : Env) : bool := toBool (env !! "AUTH_ENABLED") true.

(** [authConfig.apiKeys] *)
Definition authApiKeys (env : Env) : list string :=
  List.filter non_empty (trim <$> split ";"%char (default "" (env !! "API_KEYS"))).

(** [securityConfig]; [parsePreviousKeys] may throw. *)
Definition securityConfig (env : Env) : option SecurityConfig :=
  previousKeys ← parsePreviousKeys (default "" (env !! "SECURITY_PREVIOUS_KEYS"));
  Some (mkSecurityConfig
    (default LOCAL_SECURITY_KEY_ID (env !! "SECURITY_CURRENT_KEY_ID"))
    (default LOCAL_SECURITY_MASTER_KEY (env !! "SECURITY_MASTER_KEY"))
    (default DEFAULT_SECURITY_KEY_SALT (env !! "SECURITY_KEY_SALT"))
    previousKeys).

Definition mobileMoneyConfig (env : Env) : MobileMoneyConfig := {|
  mm_settlementIban := default "FR7630006000011234567890189" (env !! "MOBILE_MONEY_SETTLEMENT_IBAN");
  mm_settlementName := default "Mobile Money Settlement" (env !! "MOBILE_MONEY_SETTLEMENT_NAME");
  mm_feeRate := toFloat (env !! "MOBILE_MONEY_FEE_RATE") (double (15 # 1000));
  mm_bankWorkerMaxAttempts := toInt (env !! "MOBILE_MONEY_BANK_WORKER_MAX_ATTEMPTS") 4;
  mm_webhookSecret := default LOCAL_WEBHOOK_SECRET (env !! "MOBILE_MONEY_WEBHOOK_SECRET")
|}.

(** [mobileMoneyConfig.simulatorEnabled] *)
Definition simulatorEnabled (env : Env) : bool :=
  toBool (env !! "MOBILE_MONEY_SIMULATOR_ENABLED")
    (negb (bool_decide (env !! "NODE_ENV" = Some "production"))).

Definition soapConfig (env : Env) : SoapConfig := {|
  sc_maxRetries := toInt (env !! "SOAP_MAX_RETRIES") 2;
  sc_maxResponseBytes := toInt (env !! "SOAP_MAX_RESPONSE_BYTES") 1048576
|}.

(** [blockchainConfig.enabled] and [blockchainConfig.chainId]. *)
Definition blockchainEnabled (env : Env) : bool := toBool (env !! "BLOCKCHAIN_ENABLED") true.
Definition blockchainChainId (env : Env) : Z := toInt (env !! "BLOCKCHAIN_CHAIN_ID") 31337.

(** What the anchoring service reads of [blockchainConfig] and [anchorConfig]. *)
Definition anchorConfig (env : Env) : AnchorConfig := {|
  an_enabled := blockchainEnabled env;
  an_chainId := pretty (blockchainChainId env);
  an_contractAddress := default "" (env !! "BLOCKCHAIN_CONTRACT_ADDRESS");
  an_batchMaxSize := Z.to_nat (toInt (env !! "ANCHOR_BATCH_MAX_SIZE") 50);
  an_maxRetries := toInt (env !! "ANCHOR_MAX_RETRIES") 3
|}.

(** The ceiling in cents: an amount exceeds [maxAmount] when its cents exceed this. *)
Definition businessConfig (env : Env) : BusinessConfig := {|
  bc_allowedCurrencies := toList (env !! "ALLOWED_CURRENCIES")
    ["EUR"; "USD"; "GBP"; "CHF"; "XOF"; "XAF"; "CDF"];
  bc_maxAmount := cents_up_to (toFloat (env !! "TRANSFER_MAX_AMOUNT") (double (99999999999 # 100)))
|}.

(** [blockchainConfig.privateKey] *)
Definition blockchainPrivateKey (env : Env) : string :=
  default WELL_KNOWN_DEV_KEY (env !! "BLOCKCHAIN_PRIVATE_KEY").

(** * Lemmas *)

(** [rule_errors] before [omap]: the list of rules is long. *)
Strategy expand [rule_errors].

Section accepted.
Context {HU : UrlParser}.

Lemma validateEnv_inv env env' : validateEnv env = Return env' → env' = env ∧ env_errors env = [].
Proof.
  unfold validateEnv. destruct (env_errors env); [|done]. by intros [= ->].
Qed.

Lemma validateEnv_accepts env : env_errors env = [] → validateEnv env = Return env.
Proof. intros H. unfold validateEnv. by rewrite H. Qed.

Lemma env_errors_inv env :
  env_errors env = [] →
  rule_errors env = [] ∧ production_errors env = [] ∧ entropy_errors env = []
  ∧ previous_keys_errors env = [] ∧ webhook_secret_errors env = [] ∧ dev_key_errors env = [].
Proof.
  unfold env_errors. intros [? [? [? [? [? ?]%app_eq_nil]%app_eq_nil]%app_eq_nil]%app_eq_nil]%app_eq_nil.
  done.
Qed.

Lemma omap_nil_inv {A B} (f : A → option B) l n x : omap f l = [] → l !! n = Some x → f x = None.
Proof.
  revert n. induction l as [|y l IH]; intros n; [done|]. simpl.
  destruct (f y) eqn:Hy; [done|]. destruct n as [|n]; [by intros _ [= <-]|apply IH].
Qed.

Lemma rule_accepted env n r :
  env_errors env = [] → RULES !! n = Some r → checkRule r (env !! r_key r) = None.
Proof.
  intros (Hrules & _)%env_errors_inv.
  exact (omap_nil_inv (λ rule, checkRule rule (env !! r_key rule)) RULES n r Hrules).
Qed.

(** A text of a numeric rule, once accepted, is within the bounds of the rule, or absent. *)
Lemma int_accepted key least value fallback :
  least <= fallback → checkRule (at_least least (rule_of key RuleKind.int)) value = None →
  least <= toInt value fallback.
Proof.
  intros Hf H. destruct value as [[|c raw]|]; [done| |done]. apply toInt_least; [done|].
  revert H. cbn -[INTEGER_PATTERN parseInt]. unfold check_bounds, below_min.
  destruct (INTEGER_PATTERN _); [|done]. cbn -[parseInt]. by destruct (number_lt _ _).
Qed.

Lemma float_accepted key least most value fallback :
  (inject_Z least <= fallback)%Q → (fallback < inject_Z most)%Q →
  checkRule ((at_least least (rule_of key RuleKind.float)) <| r_max := Some most |>
               <| r_exclusiveMax := true |>) value = None →
  (inject_Z least <= toFloat value fallback)%Q ∧ (toFloat value fallback < inject_Z most)%Q.
Proof.
  intros Hl Hm H. destruct value as [[|c raw]|]; [done| |done]. apply toFloat_between; [done..| |];
    revert H; cbn -[parseFloat]; unfold check_bounds, below_min, above_max;
    destruct (is_finite _); try done; cbn -[parseFloat];
    destruct (number_lt _ _); try done; by destruct (number_ge _ _).
Qed.

Lemma toFloat_least value fallback least :
  (inject_Z least <= fallback)%Q → number_lt (parseFloat (default "" value)) least = false →
  (inject_Z least <= toFloat value fallback)%Q.
Proof.
  intros Hf. unfold toFloat. destruct (parseFloat _) as [|neg|q]; [done..|].
  by intros ?%negb_false_iff%Qle_bool_iff.
Qed.

Lemma float_least_accepted key least value fallback :
  (inject_Z least <= fallback)%Q → checkRule (at_least least (rule_of key RuleKind.float)) value = None →
  (inject_Z least <= toFloat value fallback)%Q.
Proof.
  intros Hf H. destruct value as [[|c raw]|]; [done| |done]. apply toFloat_least; [done|].
  revert H. cbn -[parseFloat]. unfold check_bounds, below_min. destruct (is_finite _); [|done].
  cbn -[parseFloat]. by destruct (number_lt _ _).
Qed.

Lemma toList_nonempty value fallback : fallback ≠ [] → toList value fallback ≠ [].
Proof.
  intros Hf. unfold toList. destruct (negb _); [done|].
  by destruct (List.filter non_empty _).
Qed.

(** C18. What is accepted at start-up gives the services the configuration they assume:
    a fee rate of at least 0 and below 1, at least one attempt for the bank worker and for a
    batch, room for at least one fact in a batch, no negative number of retries nor
    ceiling, and at least one currency.  The text of each of these variables is read twice,
    by the rules of the validation and by the readers of the configuration: what the first
    accepts, the second turns into a value within these bounds. *)
Theorem accepted_configuration_is_sound env env' :
  validateEnv env = Return env' →
  (0 <= mm_feeRate (mobileMoneyConfig env') < 1)%Q
  ∧ 1 <= mm_bankWorkerMaxAttempts (mobileMoneyConfig env')
  ∧ 0 <= sc_maxRetries (soapConfig env') ∧ 1024 <= sc_maxResponseBytes (soapConfig env')
  ∧ (1 <= an_batchMaxSize (anchorConfig env'))%nat ∧ 1 <= an_maxRetries (anchorConfig env')
  ∧ 0 <= bc_maxAmount (businessConfig env') ∧ bc_allowedCurrencies (businessConfig env') ≠ [].
Proof.
  intros (-> & Henv)%validateEnv_inv.
  assert (Hrule : ∀ n r, RULES !! n = Some r → checkRule r (env !! r_key r) = None).
  { intros n r. by apply rule_accepted. }
  unfold mobileMoneyConfig, soapConfig, anchorConfig, businessConfig.
  cbn [mm_feeRate mm_bankWorkerMaxAttempts sc_maxRetries sc_maxResponseBytes an_batchMaxSize
       an_maxRetries bc_maxAmount bc_allowedCurrencies].
  split; [exact (float_accepted _ 0 1 _ (double (15 # 1000)) ltac:(by vm_compute) ltac:(by vm_compute) (Hrule 18%nat _ eq_refl))|].
  split; [apply (int_accepted _ 1 _ 4 ltac:(lia) (Hrule 25%nat _ eq_refl))|].
  split; [apply (int_accepted _ 0 _ 2 ltac:(lia) (Hrule 14%nat _ eq_refl))|].
  split; [apply (int_accepted _ 1024 _ 1048576 ltac:(lia) (Hrule 16%nat _ eq_refl))|].
  split; [assert (1 <= toInt (env !! "ANCHOR_BATCH_MAX_SIZE") 50); [|lia];
          exact (int_accepted _ 1 _ 50 ltac:(lia) (Hrule 42%nat _ eq_refl))|].
  split; [apply (int_accepted _ 1 _ 3 ltac:(lia) (Hrule 44%nat _ eq_refl))|].
  split; [|by apply toList_nonempty].
  apply cents_up_to_pos.
  exact (float_least_accepted _ 0 _ (double (99999999999 # 100)) ltac:(by vm_compute) (Hrule 17%nat _ eq_refl)).
Qed.

(** ** Production *)

Lemma production_inv env :
  env_errors env = [] → env !! "NODE_ENV" = Some "production" →
  (toLowerCase (read env "AUTH_ENABLED") ∉ ["0"; "false"; "no"; "off"])
  ∧ (∃ key, env !! "SECURITY_MASTER_KEY" = Some key ∧ key ≠ "" ∧ key ≠ LOCAL_SECURITY_MASTER_KEY)
  ∧ (∃ id, env !! "SECURITY_CURRENT_KEY_ID" = Some id ∧ id ≠ "" ∧ id ≠ LOCAL_SECURITY_KEY_ID)
  ∧ (∃ secret, env !! "MOBILE_MONEY_WEBHOOK_SECRET" = Some secret ∧ secret ≠ ""
       ∧ secret ≠ LOCAL_WEBHOOK_SECRET).
Proof.
  intros (_ & Hp & _ & _ & Hw & _)%env_errors_inv Henv.
  assert (Hread : ∀ key default, non_empty (read env key) = true → str_eqb (read env key) default = false →
            ∃ v, env !! key = Some v ∧ v ≠ "" ∧ v ≠ default).
  { intros key dflt. unfold read. destruct (env !! key) as [v|]; [|done]. simpl. intros Hv Hd.
    exists v. split_and!; [done|by intros ->|intros ->; by rewrite str_eqb_refl in Hd]. }
  unfold production_errors, in_production in Hp. unfold read at 1 in Hp. rewrite Henv in Hp.
  change (negb (str_eqb _ "production")) with false in Hp. cbn beta iota in Hp.
  apply app_eq_nil in Hp as [Hauth [_ [Hkey Hid]%app_eq_nil]%app_eq_nil].
  case_bool_decide; [done|]. split; [done|]. clear Hauth.
  destruct (negb (non_empty (read env "SECURITY_MASTER_KEY")) || _) eqn:Hk; [done|].
  destruct (negb (non_empty (read env "SECURITY_CURRENT_KEY_ID")) || _) eqn:Hi; [done|].
  apply orb_false_iff in Hk as [Hk1%negb_false_iff Hk2], Hi as [Hi1%negb_false_iff Hi2].
  split; [by apply Hread|]. split; [by apply Hread|].
  unfold webhook_secret_errors in Hw. rewrite Henv, bool_decide_eq_true_2 in Hw by done. simpl in Hw.
  destruct (env !! "MOBILE_MONEY_WEBHOOK_SECRET") as [secret|]; [|done]. exists secret.
  split_and!; [done|by intros ->|]. intros ->. by rewrite bool_decide_eq_true_2, orb_true_r in Hw.
Qed.

(** Every accepted text of [AUTH_ENABLED] that is not a denial is read as [true]. *)
Lemma auth_enabled env :
  env_errors env = [] → (toLowerCase (read env "AUTH_ENABLED") ∉ ["0"; "false"; "no"; "off"]) →
  authEnabled env = true.
Proof.
  intros Henv Hno. pose proof (rule_accepted env 31 _ Henv eq_refl) as Hrule. clear Henv.
  unfold authEnabled, read, toBool in *. cbn [r_key rule_of rule assign] in Hrule.
  destruct (env !! "AUTH_ENABLED") as [[|c raw]|]; [done| |done].
  assert (Hin : toLowerCase (String c raw) ∈ BOOLEANS).
  { destruct (decide (toLowerCase (String c raw) ∈ BOOLEANS)) as [|Hout]; [done|]. exfalso.
    revert Hrule. cbn -[toLowerCase BOOLEANS]. by rewrite !bool_decide_eq_false_2. }
  cbn [default] in Hno. set (s := toLowerCase _) in *. clearbody s.
  change (bool_decide (s ∈ ["1"; "true"; "yes"; "on"]) = true). apply bool_decide_eq_true_2.
  unfold BOOLEANS in Hin. rewrite !elem_of_cons in *. tauto.
Qed.

Lemma split_nonempty c s : split c s ≠ [].
Proof. destruct s as [|d s]; [done|]. simpl. destruct (Ascii.eqb d c); [done|]. by destruct (split c s). Qed.

Lemma split_one c s b : split c s = [b] → s = b.
Proof.
  revert b. induction s as [|d s IH]; intros b; simpl; [by intros [= <-]|].
  pose proof (split_nonempty c s). destruct (Ascii.eqb d c); [by intros [= _ ?]|].
  destruct (split c s) as [|p ps]; [done|]. intros [= <- ->]. f_equal. by apply IH.
Qed.

Lemma split_two c s a b : split c s = [a; b] → cut_at c s = Some (a, b).
Proof.
  revert a. induction s as [|d s IH]; intros a; [done|]. simpl.
  destruct (Ascii.eqb d c) eqn:Hd; [intros [= <- Hs]; by apply split_one in Hs as <-|].
  destruct (split c s) as [|p ps] eqn:Hs; [by apply split_nonempty in Hs|]. intros [= <- ->]. by rewrite (IH p).
Qed.

Lemma key_id_nonempty s : KEY_ID_PATTERN s = true → non_empty s = true.
Proof. by destruct s. Qed.

(** An entry that passes the validation is read, trimmed, as the same two parts. *)
Lemma previous_keys_read current seen entries :
  previous_keys_valid current seen entries = true →
  ∃ keys, mapM (λ entry, parts ← cut_at "|"%char entry;
                  if non_empty parts.1 then Some (mkEncodedKey parts.1 parts.2) else None)
            (List.filter non_empty (trim <$> entries)) = Some keys
    ∧ Forall (λ k, KEY_ID_PATTERN (ek_keyId k) = true ∧ MASTER_KEY_PATTERN (ek_masterKey k) = true
                   ∧ weak_key (ek_masterKey k) = false ∧ ek_keyId k ≠ current ∧ ek_keyId k ∉ seen) keys
    ∧ NoDup (ek_keyId <$> keys).
Proof.
  revert seen. induction entries as [|entry entries IH]; intros seen.
  { intros _. exists []. split_and!; [done|constructor|constructor]. }
  cbn [previous_keys_valid]. destruct (_ || _) eqn:Hbad; [done|]. intros Hrest.
  destruct (IH _ Hrest) as (keys & Hread & Hkeys & Hnodup). clear IH Hrest.
  rewrite !orb_false_iff, !negb_false_iff in Hbad. destruct Hbad as [[[[[Hextra Hid] Hkey] Hweak] Hseen] Hcur].
  apply bool_decide_eq_false in Hseen. set (e := trim entry) in *.
  destruct (split "|"%char e) as [|id [|key [|? ?]]] eqn:Hsplit; try done. cbn in Hid, Hkey, Hweak, Hseen, Hcur.
  assert (Hcut := split_two _ _ _ _ Hsplit). assert (Hne := key_id_nonempty id Hid).
  exists (mkEncodedKey id key :: keys). cbn [fmap list_fmap]. fold e.
  assert (He : non_empty e = true) by (destruct e; done).
  cbn [List.filter]. rewrite He. split.
  { apply mapM_Some. apply mapM_Some in Hread. constructor; [|exact Hread].
    rewrite Hcut. cbn [mbind option_bind fst snd]. by rewrite Hne. }
  cbn [fmap list_fmap ek_keyId]. split.
  - constructor; cbn [ek_keyId ek_masterKey].
    + split_and!; try done. intros ->. by rewrite str_eqb_refl in Hcur.
    + eapply Forall_impl; [exact Hkeys|]. intros k (? & ? & ? & ? & Hk). split_and!; try done.
      intros ?. apply Hk. by right.
  - constructor; [|done]. intros (k & -> & Hk)%list_elem_of_fmap. rewrite Forall_forall in Hkeys.
    destruct (Hkeys k Hk) as (_ & _ & _ & _ & Hn). apply Hn. left.
Qed.

Lemma pattern_accepted env n r value :
  env_errors env = [] → RULES !! n = Some r → r_minLength r = None → r_kind r = Some RuleKind.pattern →
  env !! r_key r = Some value → value ≠ "" → r_pattern r value = true.
Proof.
  intros Henv Hn Hmin Hkind Hv Hne. apply (rule_accepted env n r) in Hn; [|done]. rewrite Hv in Hn.
  destruct value as [|c raw]; [done|]. unfold checkRule in Hn.
  rewrite Hmin, Hkind, bool_decide_eq_true_2 in Hn by done. by destruct (r_pattern r _).
Qed.

Lemma decode_valid key :
  MASTER_KEY_PATTERN key = true → weak_key key = false → decodeMasterKey key = Return (fromBase64 key).
Proof.
  intros Hp Hw. unfold decodeMasterKey. rewrite Hp, (master_key_length key Hp). cbn [negb].
  by rewrite Nat.eqb_refl; unfold weak_key in Hw; rewrite Hw.
Qed.

Lemma previous_keys_accepted env :
  env_errors env = [] →
  ∃ keys, parsePreviousKeys (read env "SECURITY_PREVIOUS_KEYS") = Some keys
    ∧ Forall (λ k, KEY_ID_PATTERN (ek_keyId k) = true ∧ MASTER_KEY_PATTERN (ek_masterKey k) = true
                   ∧ weak_key (ek_masterKey k) = false
                   ∧ ek_keyId k ≠ read env "SECURITY_CURRENT_KEY_ID") keys
    ∧ NoDup (ek_keyId <$> keys).
Proof.
  intros (_ & _ & _ & Hprev & _ & _)%env_errors_inv. unfold previous_keys_errors in Hprev.
  destruct (read env "SECURITY_PREVIOUS_KEYS") as [|c raw] eqn:Hraw.
  { exists []. split_and!; [done|constructor|constructor]. }
  cbn [non_empty andb] in Hprev. destruct (previous_keys_valid _ _ _) eqn:Hvalid; [|done].
  apply previous_keys_read in Hvalid as (keys & Hread & Hkeys & Hnodup). exists keys. split_and!; try done.
  eapply Forall_impl; [exact Hkeys|]. by intros k (? & ? & ? & ? & _).
Qed.

Lemma add_previous_other `{Aead} salt previous : ∀ keys ring id,
  id ∉ (ek_keyId <$> previous) → add_previous salt previous keys = Return ring → ring !! id = keys !! id.
Proof.
  induction previous as [|p previous IH]; intros keys ring id Hid; simpl; [by intros [= ->]|].
  rewrite fmap_cons, not_elem_of_cons in Hid. destruct Hid as [Hp Hid].
  destruct (decodeMasterKey (ek_masterKey p)); [|done]. intros Hadd.
  by rewrite (IH _ _ _ Hid Hadd), lookup_insert_ne.
Qed.

(** The ring of a configuration whose keys are all valid, and whose previous keys do not
    bear the current name. *)
Lemma valid_ring_installed `{AeadLaws} security :
  KEY_ID_PATTERN (sec_currentKeyId security) = true →
  MASTER_KEY_PATTERN (sec_masterKey security) = true → weak_key (sec_masterKey security) = false →
  Forall (λ k, KEY_ID_PATTERN (ek_keyId k) = true ∧ MASTER_KEY_PATTERN (ek_masterKey k) = true
               ∧ weak_key (ek_masterKey k) = false ∧ ek_keyId k ≠ sec_currentKeyId security)
    (sec_previousKeys security) →
  ∃ keys, getDataEncryptionKeyRing security = Return (sec_currentKeyId security, keys)
    ∧ useKeyRing (sec_currentKeyId security) keys
      = Return (mkFieldCipher (Some (sec_currentKeyId security)) keys)
    ∧ keys !! sec_currentKeyId security
      = Some (deriveDataEncryptionKey (fromBase64 (sec_masterKey security)) (sec_keySalt security)).
Proof.
  intros Hid Hkey Hweak Hprev. rewrite Forall_forall in Hprev.
  assert (Hids : Forall (λ p, KEY_ID_PATTERN (ek_keyId p) = true) (sec_previousKeys security)).
  { apply Forall_forall. intros k Hk. by apply Hprev. }
  destruct (configured_ring_is_installed security Hid Hids) as [_ Hring].
  destruct (getDataEncryptionKeyRing security) as [[id keys]|e] eqn:Hget.
  - destruct Hring as (-> & Huse & _). exists keys. split_and!; [done|exact Huse|].
    revert Hget. unfold getDataEncryptionKeyRing. rewrite decode_valid by done.
    destruct (add_previous _ _ _) as [ring|] eqn:Hadd; [|done]. intros [= ->].
    rewrite (add_previous_other _ _ _ _ _ ltac:(
      intros (k & Heq & Hk)%list_elem_of_fmap; by apply (Hprev k Hk)) Hadd).
    by rewrite lookup_singleton, decide_True.
  - exfalso. apply Exists_exists in Hring as (key & Hin & e' & He').
    apply elem_of_cons in Hin as [->|(k & -> & Hk)%list_elem_of_fmap]; [by rewrite decode_valid in He'|].
    destruct (Hprev k Hk) as (_ & Hm & Hw & _). by rewrite decode_valid in He'.
Qed.

(** C19. A production that starts is closed and holds its own secrets.  When the
    environment is accepted with [NODE_ENV=production], the guard of the API is on, the
    secret of the callbacks and the master key are not those of the demonstration, and
    the key ring read from the very same variables is one the cipher installs, whose
    current key is derived from the operator's master key and replaced by none of the
    previous keys. *)
Theorem production_starts_closed `{AeadLaws} env env' :
  validateEnv env = Return env' → env !! "NODE_ENV" = Some "production" →
  authEnabled env' = true
  ∧ mm_webhookSecret (mobileMoneyConfig env') ≠ LOCAL_WEBHOOK_SECRET
  ∧ mm_webhookSecret (mobileMoneyConfig env') ≠ ""
  ∧ ∃ security keys, securityConfig env' = Some security
    ∧ sec_masterKey security ≠ LOCAL_SECURITY_MASTER_KEY
    ∧ sec_currentKeyId security ≠ LOCAL_SECURITY_KEY_ID
    ∧ getDataEncryptionKeyRing security = Return (sec_currentKeyId security, keys)
    ∧ useKeyRing (sec_currentKeyId security) keys
      = Return (mkFieldCipher (Some (sec_currentKeyId security)) keys)
    ∧ keys !! sec_currentKeyId security
      = Some (deriveDataEncryptionKey (fromBase64 (sec_masterKey security)) (sec_keySalt security)).
Proof.
  intros (-> & Henv)%validateEnv_inv Hprod.
  destruct (production_inv env Henv Hprod) as (Hauth & (key & Hkey & Hk1 & Hk2) & (keyId & Hid & Hi1 & Hi2)
    & (secret & Hsecret & Hs1 & Hs2)).
  split; [by apply auth_enabled|]. unfold mobileMoneyConfig. cbn [mm_webhookSecret]. rewrite Hsecret.
  do 2 (split; [done|]).
  assert (Hkp : MASTER_KEY_PATTERN key = true).
  { exact (pattern_accepted env 32 _ key Henv eq_refl eq_refl eq_refl Hkey Hk1). }
  assert (Hip : KEY_ID_PATTERN keyId = true).
  { exact (pattern_accepted env 33 _ keyId Henv eq_refl eq_refl eq_refl Hid Hi1). }
  assert (Hweak : weak_key key = false).
  { destruct (env_errors_inv env Henv) as (_ & _ & Hent & _). unfold entropy_errors in Hent.
    assert (Hread : read env "SECURITY_MASTER_KEY" = key) by (unfold read; by rewrite Hkey).
    rewrite Hread, Hkp in Hent. by destruct (weak_key key). }
  destruct (previous_keys_accepted env Henv) as (previous & Hread & Hprev & _).
  assert (Hsec : securityConfig env = Some (mkSecurityConfig keyId key
            (default DEFAULT_SECURITY_KEY_SALT (env !! "SECURITY_KEY_SALT")) previous)).
  { unfold securityConfig. fold (read env "SECURITY_PREVIOUS_KEYS"). by rewrite Hread, Hid, Hkey. }
  unfold read in Hprev. rewrite Hid in Hprev.
  destruct (valid_ring_installed (mkSecurityConfig keyId key
    (default DEFAULT_SECURITY_KEY_SALT (env !! "SECURITY_KEY_SALT")) previous) Hip Hkp Hweak Hprev)
    as (keys & Hring & Huse & Hcur).
  exists (mkSecurityConfig keyId key
    (default DEFAULT_SECURITY_KEY_SALT (env !! "SECURITY_KEY_SALT")) previous), keys. done.
Qed.

(** ** Secrets and messages *)

Definition SECRETS : list string :=
  ["SECURITY_MASTER_KEY"; "SECURITY_PREVIOUS_KEYS"; "MOBILE_MONEY_WEBHOOK_SECRET";
   "BLOCKCHAIN_PRIVATE_KEY"; "API_KEYS"].

Definition without_secrets (env : Env) : Env := foldr delete env SECRETS.

Lemma without_secrets_lookup env key : key ∉ SECRETS → without_secrets env !! key = env !! key.
Proof.
  unfold without_secrets. induction SECRETS as [|s l IH]; [done|]. rewrite not_elem_of_cons.
  intros [Hs Hl]. simpl. rewrite lookup_delete_ne by done. by apply IH.
Qed.

(** What the messages can be, from the public variables alone. *)
Definition masked_message (r : Rule) : string :=
  r_key r +:+ " doit etre " +:+ r_expected r +:+ " (valeur masquee)".
Definition chain_message (env : Env) : string :=
  "BLOCKCHAIN_PRIVATE_KEY est la cle de developpement publique d'Anvil, inutilisable "
  +:+ "sur la chaine " +:+ number_text (declared_chain env)
  +:+ " : quiconque la connait pourrait ancrer a votre place".
Definition FIXED_MESSAGES : list string :=
  ["AUTH_ENABLED ne peut pas valoir false en production";
   "API_KEYS est requis en production : aucune cle declaree";
   "SECURITY_MASTER_KEY doit etre un secret explicite en production (valeur masquee)";
   "SECURITY_CURRENT_KEY_ID doit etre explicite en production";
   "SECURITY_MASTER_KEY presente une entropie manifestement insuffisante (valeur masquee)";
   "SECURITY_PREVIOUS_KEYS doit contenir des entrees uniques keyId|Base64-32-octets (valeurs masquees), distinctes de SECURITY_CURRENT_KEY_ID";
   "MOBILE_MONEY_WEBHOOK_SECRET doit etre un secret explicite en production"].
Definition possible_errors (public : Env) : list string :=
  omap (λ r, if r_secret r then None else checkRule r (public !! r_key r)) RULES
  ++ (masked_message <$> List.filter r_secret RULES) ++ FIXED_MESSAGES ++ [chain_message public].

(** The rules of the secrets are optional patterns, or no rule at all; every other rule
    is about a public variable. *)
Lemma rules_secrecy :
  Forall (λ r, if r_secret r
               then r_required r = false ∧ r_minLength r = None
                    ∧ (r_kind r = Some RuleKind.pattern ∨ r_kind r = Some RuleKind.string_kind)
               else r_key r ∉ SECRETS) RULES.
Proof.
  assert (H : forallb (λ r, if r_secret r
    then negb (r_required r) && bool_decide (r_minLength r = None)
         && (is_eq (r_kind r) (Some RuleKind.pattern) || is_eq (r_kind r) (Some RuleKind.string_kind))
    else negb (bool_decide (r_key r ∈ SECRETS))) RULES = true) by (vm_compute; reflexivity).
  revert H. generalize RULES. intros rules H. rewrite forallb_forall in H.
  apply Forall_forall. intros r Hr%list_elem_of_In. specialize (H r Hr). destruct (r_secret r).
  - rewrite !andb_true_iff, orb_true_iff, negb_true_iff, !bool_decide_eq_true in H. tauto.
  - by apply negb_true_iff, bool_decide_eq_false in H.
Qed.

Lemma secret_rule_message r value m :
  r_secret r = true → r_required r = false → r_minLength r = None →
  (r_kind r = Some RuleKind.pattern ∨ r_kind r = Some RuleKind.string_kind) →
  checkRule r value = Some m → m = masked_message r.
Proof.
  intros Hs Hr Hm Hk. unfold checkRule, check_kind. rewrite Hr, Hm, Hs.
  destruct value as [[|c raw]|]; [done| |done]. destruct Hk as [-> | ->]; case_bool_decide; try done.
  destruct (r_pattern r _); [done|]. by intros [= <-].
Qed.

Lemma cross_errors_possible env m :
  m ∈ production_errors env ++ entropy_errors env ++ previous_keys_errors env
      ++ webhook_secret_errors env ++ dev_key_errors env →
  m ∈ FIXED_MESSAGES ++ [chain_message env].
Proof.
  assert (Hincl : ∀ l1 l2 : list string, Forall (λ x, x ∈ l2) l1 → m ∈ l1 → m ∈ l2).
  { intros l1 l2 Hall Hm. rewrite Forall_forall in Hall. by apply Hall. }
  assert (Hone : ∀ (b : bool) n x, (FIXED_MESSAGES ++ [chain_message env]) !! n = Some x →
            Forall (λ x, x ∈ FIXED_MESSAGES ++ [chain_message env]) (if b then [x] else [])).
  { intros b n x Hx. destruct b; constructor; [by eapply list_elem_of_lookup_2|constructor]. }
  apply Hincl. repeat apply Forall_app_2.
  - unfold production_errors. destruct (negb (in_production env)); [constructor|].
    repeat apply Forall_app_2.
    + exact (Hone _ 0%nat _ eq_refl).
    + exact (Hone _ 1%nat _ eq_refl).
    + exact (Hone _ 2%nat _ eq_refl).
    + exact (Hone _ 3%nat _ eq_refl).
  - exact (Hone _ 4%nat _ eq_refl).
  - exact (Hone _ 5%nat _ eq_refl).
  - exact (Hone _ 6%nat _ eq_refl).
  - exact (Hone _ 7%nat _ eq_refl).
Qed.

(** The message of a refused start discloses no secret: whatever the master key, the
    previous keys, the callback secret, the signing key or the declared API keys, each of
    its lines is one of a list computed from the other variables alone. *)
Theorem start_up_message_keeps_secrets env :
  match validateEnv env with
  | Return _ => True
  | Throw e => ∃ lines, e = PlainError ("Configuration invalide — corrigez votre fichier .env :"
                   +:+ newline +:+ "  - " +:+ String.concat (newline +:+ "  - ") lines)
      ∧ Forall (λ line, line ∈ possible_errors (without_secrets env)) lines
  end.
Proof.
  unfold validateEnv. destruct (Nat.ltb 0 _); [|done]. exists (env_errors env). split; [done|].
  apply Forall_forall. intros m. unfold env_errors, possible_errors.
  rewrite elem_of_app. intros [Hm|Hm%cross_errors_possible].
  - unfold rule_errors in Hm. apply list_elem_of_omap in Hm as (r & Hr & Hcheck).
    pose proof rules_secrecy as Hall. rewrite Forall_forall in Hall. specialize (Hall r Hr).
    destruct (r_secret r) eqn:Hs.
    + rewrite elem_of_app, elem_of_app. right. left. destruct Hall as (Hreq & Hmin & Hkind).
      rewrite (secret_rule_message r _ m Hs Hreq Hmin Hkind Hcheck).
      apply list_elem_of_fmap_2, list_elem_of_In, filter_In. by rewrite <- list_elem_of_In.
    + rewrite elem_of_app. left. apply list_elem_of_omap. exists r. rewrite Hs.
      by rewrite without_secrets_lookup.
  - rewrite !elem_of_app in *. right. right.
    assert (Hchain : chain_message (without_secrets env) = chain_message env); [|by rewrite Hchain].
    unfold chain_message, declared_chain. rewrite without_secrets_lookup; [done|].
    apply (bool_decide_unpack _). vm_compute. exact I.
Qed.
End accepted.

(** * Witnesses *)

Definition sample_urls : UrlParser := {|
  url_protocol raw :=
    if str_eqb (String.substring 0 7 raw) "http://" then Some "http:"
    else if str_eqb (String.substring 0 8 raw) "https://" then Some "https:" else None
|}.
#[local] Existing Instances sample_urls sample_aead sample_aead_laws.

Definition sample_variables : list (string * string) :=
  [("DB_HOST", "localhost"); ("DB_PORT", "5432"); ("DB_USERNAME", "banking");
   ("DB_PASSWORD", "banking"); ("DB_NAME", "banking_soap");
   ("SOAP_ENDPOINT", "https://bank.example/soap"); ("MOBILE_MONEY_FEE_RATE", "0.02");
   ("SECURITY_MASTER_KEY", "AAECAwQFBgcICQoLDA0ODxAREhMUFRYXGBkaGxwdHh8=");
   ("MOBILE_MONEY_WEBHOOK_SECRET", "s3cret")].

Definition sample_production : Env :=
  list_to_map ([("NODE_ENV", "production"); ("API_KEYS", "ops|00|ledger:read");
    ("SECURITY_CURRENT_KEY_ID", "cle-2");
    ("SECURITY_PREVIOUS_KEYS", "cle-1|IB8eHRwbGhkYFxYVFBMSERAPDg0MCwoJCAcGBQQDAgE=")]
    ++ sample_variables).

Lemma accepted_configuration_is_sound_witness :
  validateEnv sample_production = Return sample_production
  ∧ (mm_feeRate (mobileMoneyConfig sample_production) < 1)%Q.
Proof.
  assert (Hrun : validateEnv sample_production = Return sample_production) by (apply validateEnv_accepts; vm_compute; reflexivity).
  split; [exact Hrun|]. apply (accepted_configuration_is_sound _ _ Hrun).
Defined.

Lemma production_starts_closed_witness :
  authEnabled sample_production = true
  ∧ ∃ security, securityConfig sample_production = Some security
      ∧ sec_currentKeyId security ≠ LOCAL_SECURITY_KEY_ID.
Proof.
  assert (Hrun : validateEnv sample_production = Return sample_production) by (apply validateEnv_accepts; vm_compute; reflexivity).
  destruct (production_starts_closed sample_production sample_production Hrun eq_refl)
    as (Hauth & _ & _ & security & keys & Hsec & _ & Hid & _).
  split; [exact Hauth|]. exists security. exact (conj Hsec Hid).
Defined.

(** * What the validation lets through *)

(** The name of the environment is validated without regard to case and then compared
    exactly: written in capitals, it is accepted, and none of the rules of production
    applies.  The API is open and the simulator is on. *)
Example production_in_capitals_is_open :
  let env : Env := list_to_map ([("NODE_ENV", "PRODUCTION"); ("AUTH_ENABLED", "false")]
                                ++ sample_variables) in
  validateEnv env = Return env ∧ authEnabled env = false ∧ simulatorEnabled env = true.
Proof. intros env. split; [apply validateEnv_accepts|split_and?]; vm_compute; reflexivity. Qed.

(** The published development key is compared as a text: with other capitals it is the
    same key, and it is accepted on a public chain. *)
Example dev_key_in_capitals_is_accepted :
  let env : Env := list_to_map ([("BLOCKCHAIN_CHAIN_ID", "11155111");
      ("BLOCKCHAIN_PRIVATE_KEY", "0x" +:+ toUpperCase (String.substring 2 64 WELL_KNOWN_DEV_KEY))]
      ++ sample_variables) in
  validateEnv env = Return env
  ∧ toLowerCase (blockchainPrivateKey env) = WELL_KNOWN_DEV_KEY ∧ blockchainChainId env = 11155111.
Proof. intros env. split; [apply validateEnv_accepts|split_and?]; vm_compute; reflexivity. Qed.

(** [API_KEYS] must not be blank, but may hold no entry at all. *)
Example no_key_is_accepted :
  let env : Env := list_to_map ([("NODE_ENV", "production"); ("API_KEYS", " ; ");
      ("SECURITY_CURRENT_KEY_ID", "cle-2")] ++ sample_variables) in
  validateEnv env = Return env ∧ authApiKeys env = [].
Proof. intros env. split; [apply validateEnv_accepts|split_and?]; vm_compute; reflexivity. Qed.

(** Outside production, the identifier of the current key may be left to its default,
    which a previous key may then bear: that key silently replaces the current one. *)
Example default_identifier_is_replaced :
  let env : Env := list_to_map ([("SECURITY_PREVIOUS_KEYS",
      "local-v1|IB8eHRwbGhkYFxYVFBMSERAPDg0MCwoJCAcGBQQDAgE=")] ++ sample_variables) in
  validateEnv env = Return env
  ∧ ∃ security, securityConfig env = Some security
    ∧ match getDataEncryptionKeyRing security with
      | Return (id, keys) => id = "local-v1"
          ∧ keys !! id = Some (deriveDataEncryptionKey
              (fromBase64 "IB8eHRwbGhkYFxYVFBMSERAPDg0MCwoJCAcGBQQDAgE=") (sec_keySalt security))
      | Throw _ => False
      end.
Proof.
  intros env. split; [apply validateEnv_accepts; vm_compute; reflexivity|].
  eexists. split; [vm_compute; reflexivity|]. split; [reflexivity|]. vm_compute. reflexivity.
Qed.
