(* ===== verification/AuditTrail.v ===== *)
(** The trail of the exchanges with the bank: [src/audit/audit.service.ts], its entity, and
    [maskXml] of [src/common/utils/masking.util.ts], which every stored document goes
    through.

    The table is a list of rows; a write may fail, and is then absorbed.  The rest of the
    development leaves the calls of this service out, since it neither fails nor is read by
    the others.  Truncation counts the bytes of the text, as in [Masking]. *)
From stdpp Require Import gmap.
From S2P Require Import Prelude Text Domain External EventXml Database Ledger EventLedger Iban Transfers Numbers.
From S2P Require Import Masking Responses Environment.
Open Scope Z_scope.

(** * Masking of a document *)

(** The tags of [SENSITIVE_XML_TAGS], read without regard to case. *)
Definition SENSITIVE_XML_TAGS : list string :=
  ["iban"; "debtorIban"; "creditorIban"; "accountNumber"; "bic"; "password"; "token"].
Definition is_sensitive (tag : string) : bool :=
  bool_decide (toLowerCase tag ∈ toLowerCase <$> SENSITIVE_XML_TAGS).

(** [[\w.-]] *)
Definition is_prefix_char (c : Ascii.ascii) : bool :=
  is_word c || Ascii.eqb c "." || Ascii.eqb c "-".

(** [(?:[\w.-]+:)]: the prefix of a qualified name, colon included. *)
Definition read_prefix (s : string) : option (string * string) :=
  let '(name, rest) := span is_prefix_char s in
  match rest with
  | String c rest => if non_empty name && Ascii.eqb c ":" then Some (name +:+ ":", rest) else None
  | EmptyString => None
  end.

(** [(tag)\b[^>]*>]: a sensitive tag, which the boundary makes a whole word, the rest of its
    element and what follows. *)
Definition read_tag (s : string) : option (string * string * string) :=
  let '(tag, rest) := span is_word s in
  if is_sensitive tag then
    let '(attributes, rest) := span (λ c, negb (Ascii.eqb c ">")) rest in
    match rest with
    | String _ content => Some (tag, tag +:+ attributes +:+ ">", content)
    | EmptyString => None
    end
  else None.

(** The text without [tag] at its head, case aside. *)
Fixpoint strip_tag (tag s : string) : option (string * string) :=
  match tag, s with
  | EmptyString, s => Some (EmptyString, s)
  | String a tag, String b s =>
      if Ascii.eqb (to_lower a) (to_lower b) then
        match strip_tag tag s with Some (name, rest) => Some (String b name, rest) | None => None end
      else None
  | String _ _, EmptyString => None
  end.

(** [\2>] *)
Definition close_name (tag s : string) : option (string * string) :=
  match strip_tag tag s with
  | Some (name, String c rest) => if Ascii.eqb c ">" then Some (name +:+ ">", rest) else None
  | _ => None
  end.

(** [</(?:[\w.-]+:)?\2>] at the head of the text. *)
Definition close_at (tag s : string) : option (string * string) :=
  match s with
  | String "<" (String "/" s) =>
      let plain := match close_name tag s with
                   | Some (close, rest) => Some ("</" +:+ close, rest)
                   | None => None
                   end in
      match read_prefix s with
      | Some (prefix, rest) =>
          match close_name tag rest with
          | Some (close, rest) => Some ("</" +:+ prefix +:+ close, rest)
          | None => plain
          end
      | None => plain
      end
  | _ => None
  end.

(** [([\s\S]*?)] up to the first closing tag: the content, the closing tag. *)
Fixpoint content_until (tag s : string) : option (string * string) :=
  match close_at tag s with
  | Some (close, _) => Some (EmptyString, close)
  | None =>
      match s with
      | EmptyString => None
      | String c s =>
          match content_until tag s with
          | Some (content, close) => Some (String c content, close)
          | None => None
          end
      end
  end.

(** A match that opens with [open]: what replaces it, and its length. *)
Definition masked_element (open tag rest : string) : option (string * nat) :=
  match content_until tag rest with
  | Some (content, close) =>
      let masked := if bool_decide (normalizeKey tag ∈ IBAN_KEYS) then maskIban (trim content)
                    else REDACTED in
      Some (open +:+ masked +:+ close,
            (String.length open + String.length content + String.length close)%nat)
  | None => None
  end.

(** [XML_TAG_PATTERN] at the head of the text, with a prefix, else without. *)
Definition element_at (s : string) : option (string * nat) :=
  match s with
  | String "<" s =>
      let plain := match read_tag s with
                   | Some (tag, open, rest) => masked_element ("<" +:+ open) tag rest
                   | None => None
                   end in
      match read_prefix s with
      | Some (prefix, rest) =>
          match read_tag rest with
          | Some (tag, open, rest) =>
              match masked_element ("<" +:+ prefix +:+ open) tag rest with
              | Some found => Some found
              | None => plain
              end
          | None => plain
          end
      | None => plain
      end
  | _ => None
  end.

(** [xml.replace(XML_TAG_PATTERN, ...)], from left to right: [skip] characters of the text
    belong to the match that was just replaced. *)
Fixpoint mask_elements (skip : nat) (xml : string) : string :=
  match xml with
  | EmptyString => EmptyString
  | String c rest =>
      match skip with
      | S skip => mask_elements skip rest
      | O =>
          match element_at xml with
          | Some (replacement, length) => replacement +:+ mask_elements (length - 1) rest
          | None => String c (mask_elements 0 rest)
          end
      end
  end.

Definition maskXml (xml : string) : string := maskFreeText (mask_elements 0 xml).

Example masked_document :
  maskXml "<r><ns:IBAN a='1'> FR7630006000011234567890189 </ns:iban><token>x</token><bic>y</BIX></r>"
  = "<r><ns:IBAN a='1'>FR76****0189</ns:iban><token>[REDACTED]</token><bic>y</BIX></r>".
Proof. vm_compute. reflexivity. Qed.

(** * The rows *)

Module AuditDirection.
Inductive AuditDirection :=
  | DOCUMENT_VALIDATED | OUTBOUND_REQUEST | INBOUND_RESPONSE | INBOUND_FAULT | COMMUNICATION_ERROR.
End AuditDirection.
Abbreviation AuditDirection := AuditDirection.AuditDirection.

Module AuditOutcome.
Inductive AuditOutcome := SUCCESS | FAULT | ERROR.
End AuditOutcome.
Abbreviation AuditOutcome := AuditOutcome.AuditOutcome.

Record AuditLog := mkAuditLog {
  al_id : string;
  al_correlationId : string;
  al_transactionReference : option string;
  al_direction : AuditDirection;
  al_outcome : AuditOutcome;
  al_operation : string;
  al_endpoint : option string;
  al_payload : option string;
  al_payloadBytes : option Z;
  al_httpStatus : option Z;
  al_durationMs : option Z;
  al_faultCode : option string;
  al_faultString : option string;
  al_message : option string;
  al_createdAt : Z
}.

Record AuditEntryInput := mkAuditEntryInput {
  ai_direction : AuditDirection;
  ai_outcome : AuditOutcome;
  ai_operation : string;
  ai_transactionReference : option string;
  ai_correlationId : option string;
  ai_endpoint : option string;
  ai_rawPayload : option string;
  ai_httpStatus : option Z;
  ai_durationMs : option Z;
  ai_faultCode : option string;
  ai_faultString : option string;
  ai_message : option string
}.

Record AuditConfig := mkAuditConfig { ac_maxPayloadChars : Z; ac_persistPayloads : bool }.

Definition auditConfig (env : Env) : AuditConfig :=
  mkAuditConfig (toInt (env !! "AUDIT_MAX_PAYLOAD_CHARS") 8000)
    (toBool (env !! "AUDIT_PERSIST_PAYLOADS") true).

(** The widths of the columns. *)
Definition audit_fits (log : AuditLog) : bool :=
  fits 128 (al_correlationId log) && fits_opt 32 (al_transactionReference log)
  && fits 64 (al_operation log) && fits_opt 512 (al_endpoint log)
  && fits_opt 128 (al_faultCode log) && fits_opt 1024 (al_faultString log)
  && fits_opt 1024 (al_message log).

(** * The service *)

Section AuditService.
Context {HE : Entropy} (config : AuditConfig).

Definition preparePayload (rawPayload : option string) : option string :=
  if negb (truthy rawPayload) || negb (ac_persistPayloads config) then None
  else Some (truncate (maskXml (or_default rawPayload "")) (Z.to_nat (ac_maxPayloadChars config))).

Definition clamp (value : option string) (max : nat) : option string :=
  if truthy value then slice max <$> value else None.

(** [repository.create({...})]: the identity and the date are the insertion's. *)
Definition audit_row (entry : AuditEntryInput) (current id : string) (date : Z) : AuditLog := {|
  al_id := id;
  al_correlationId := or_default (ai_correlationId entry) current;
  al_transactionReference := ai_transactionReference entry;
  al_direction := ai_direction entry;
  al_outcome := ai_outcome entry;
  al_operation := ai_operation entry;
  al_endpoint := ai_endpoint entry;
  al_payload := preparePayload (ai_rawPayload entry);
  al_payloadBytes := if truthy (ai_rawPayload entry)
                     then (λ raw, Z.of_nat (String.length raw)) <$> ai_rawPayload entry else None;
  al_httpStatus := ai_httpStatus entry;
  al_durationMs := ai_durationMs entry;
  al_faultCode := ai_faultCode entry;
  al_faultString := clamp (ai_faultString entry) 1024;
  al_message := clamp (ai_message entry) 1024;
  al_createdAt := date
|}.

(** [repository.save]: [available] is whether the database answers. *)
Definition audit_save (available : bool) (log : AuditLog) (table : list AuditLog) :
    Outcome GatewayError AuditLog * list AuditLog :=
  if negb available then (Throw (PlainError "Connection terminated"), table)
  else if negb (audit_fits log) then (Throw (QueryFailedError PG_STRING_TRUNCATION ""), table)
  else (Return log, table ++ [log]).

(** [AuditService.record]: a failure is logged and absorbed. *)
Definition audit_record (available : bool) (entry : AuditEntryInput) (current id : string) (date : Z)
    (table : list AuditLog) : option AuditLog * list AuditLog :=
  match audit_save available (audit_row entry current id date) table with
  | (Return log, table) => (Some log, table)
  | (Throw _, table) => (None, table)
  end.

Definition findByTransactionReference (reference : string) (table : list AuditLog) : list AuditLog :=
  sort_by al_createdAt
    (List.filter (λ log, bool_decide (al_transactionReference log = Some reference)) table).
End AuditService.

(** [TransactionsService.getAuditTrail], which [TransactionsController.findAuditTrail]
    answers: the rows of a payment that exists, oldest first; the table is an argument. *)
Definition getAuditTrail (table : list AuditLog) (reference : string) : App (list AuditLog) :=
  findTransfer reference ;; mret (findByTransactionReference reference table).

(** [DOCUMENT_VALIDATED] of [TransactionsService.processTransaction]: the document of the
    request, as it was validated. *)
Definition document_validated (dto : CreateTransferDto) (t : Transaction) : AuditEntryInput :=
  mkAuditEntryInput AuditDirection.DOCUMENT_VALIDATED AuditOutcome.SUCCESS SCHEMAS.transferRequest
    (Some (tx_reference t)) (Some (tx_correlationId t)) None (Some (buildTransferRequest dto))
    None None None None None.

(** * Lemmas *)

(** ** Reading *)

Lemma span_app p a c s : all_chars p a = true → p c = false → span p (a +:+ String c s) = (a, String c s).
Proof.
  intros Ha Hc. induction a as [|d a IH]; simpl in *; [by rewrite Hc|].
  apply andb_true_iff in Ha as [-> Ha]. by rewrite IH.
Qed.

Lemma word_prefix_chars name : all_chars is_word name = true → all_chars is_prefix_char name = true.
Proof. apply all_chars_weaken. intros c Hc. unfold is_prefix_char. by rewrite Hc. Qed.

Lemma read_prefix_word name s : all_chars is_word name = true → read_prefix (name +:+ String ">" s) = None.
Proof.
  intros Hname. unfold read_prefix. rewrite span_app by (done || by apply word_prefix_chars).
  by rewrite andb_false_r.
Qed.

Lemma read_tag_word name s :
  all_chars is_word name = true →
  read_tag (name +:+ String ">" s) = if is_sensitive name then Some (name, name +:+ ">", s) else None.
Proof. intros Hname. unfold read_tag. by rewrite span_app. Qed.

Lemma close_name_same name s : close_name name (name +:+ String ">" s) = Some (name +:+ ">", s).
Proof.
  unfold close_name.
  assert (Hstrip : strip_tag name (name +:+ String ">" s) = Some (name, String ">" s)).
  { induction name as [|c name IH]; [done|].
    change (String c name +:+ String ">" s) with (String c (name +:+ String ">" s)).
    cbn [strip_tag]. by rewrite Ascii.eqb_refl, IH. }
  by rewrite Hstrip.
Qed.

(** [a] holds no character that opens a tag. *)
Definition opens_nothing (a : string) : bool := all_chars (λ c, negb (Ascii.eqb c "<")) a.

Lemma opens_nothing_escape value : opens_nothing (escape value) = true.
Proof.
  apply has_char_all. apply (has_char_weaken structural); [|apply escape_plain].
  intros c ->%Ascii.eqb_eq. reflexivity.
Qed.

Lemma opens_nothing_word a : all_chars is_word a = true → opens_nothing a = true.
Proof.
  apply all_chars_weaken. intros c Hc. apply negb_true_iff, Ascii.eqb_neq. by intros ->.
Qed.


Lemma close_at_other tag c s : negb (Ascii.eqb c "<") = true → close_at tag (String c s) = None.
Proof. by destruct c as [[] [] [] [] [] [] [] []]. Qed.

Lemma element_at_other c s : negb (Ascii.eqb c "<") = true → element_at (String c s) = None.
Proof. by destruct c as [[] [] [] [] [] [] [] []]. Qed.

Lemma content_until_close name value s :
  all_chars is_word name = true → opens_nothing value = true →
  content_until name (value +:+ "</" +:+ name +:+ String ">" s) = Some (value, "</" +:+ name +:+ ">").
Proof.
  intros Hname. induction value as [|c value IH]; intros Hvalue.
  - change ("" +:+ "</" +:+ name +:+ String ">" s) with (String "<" (String "/" (name +:+ String ">" s))).
    cbn [content_until close_at]. by rewrite read_prefix_word, close_name_same.
  - simpl in Hvalue. apply andb_true_iff in Hvalue as [Hc Hvalue].
    change (String c value +:+ "</" +:+ name +:+ String ">" s)
      with (String c (value +:+ "</" +:+ name +:+ String ">" s)).
    cbn [content_until]. by rewrite close_at_other, IH.
Qed.

(** ** Replacing *)

Lemma mask_elements_skip a s : mask_elements (String.length a) (a +:+ s) = mask_elements 0 s.
Proof. induction a as [|c a IH]; [by destruct s|exact IH]. Qed.

Lemma mask_elements_text a s : opens_nothing a = true → mask_elements 0 (a +:+ s) = a +:+ mask_elements 0 s.
Proof.
  induction a as [|c a IH]; [done|]. intros [Hc Ha]%andb_true_iff.
  change (String c a +:+ s) with (String c (a +:+ s)). cbn [mask_elements].
  rewrite element_at_other by done. exact (f_equal (String c) (IH Ha)).
Qed.

(** What stands for the content of a sensitive element. *)
Definition masked_content (name value : string) : string :=
  if is_sensitive name then
    if bool_decide (normalizeKey name ∈ IBAN_KEYS) then maskIban (trim (escape value)) else REDACTED
  else escape value.

Definition masked_line (e : string * string) : string :=
  INDENT +:+ "<" +:+ e.1 +:+ ">" +:+ masked_content e.1 e.2 +:+ "</" +:+ e.1 +:+ ">".

Lemma element_at_word name s :
  all_chars is_word name = true →
  element_at (String "<" (name +:+ String ">" s))
  = if is_sensitive name then masked_element ("<" +:+ name +:+ ">") name s else None.
Proof.
  intros Hname. cbn [element_at]. rewrite read_prefix_word, read_tag_word by done.
  by destruct (is_sensitive name).
Qed.

Lemma element_at_slash s : element_at (String "<" (String "/" s)) = None.
Proof. reflexivity. Qed.

Lemma mask_open_plain name s :
  all_chars is_word name = true → is_sensitive name = false →
  mask_elements 0 ("<" +:+ name +:+ String ">" s) = "<" +:+ name +:+ ">" +:+ mask_elements 0 s.
Proof.
  intros Hname Hplain. change ("<" +:+ name +:+ String ">" s) with (String "<" (name +:+ String ">" s)).
  cbn [mask_elements]. rewrite element_at_word, Hplain by done.
  rewrite mask_elements_text by by apply opens_nothing_word.
  change (String ">" s) with (">" +:+ s). by rewrite (mask_elements_text ">").
Qed.

Lemma mask_close name s :
  all_chars is_word name = true →
  mask_elements 0 ("</" +:+ name +:+ String ">" s) = "</" +:+ name +:+ ">" +:+ mask_elements 0 s.
Proof.
  intros Hname. change ("</" +:+ name +:+ String ">" s) with (String "<" (String "/" (name +:+ String ">" s))).
  cbn [mask_elements]. rewrite element_at_slash, element_at_other by done.
  rewrite mask_elements_text by by apply opens_nothing_word.
  change (String ">" s) with (">" +:+ s). by rewrite (mask_elements_text ">").
Qed.

Lemma mask_sensitive name value s :
  all_chars is_word name = true → is_sensitive name = true →
  mask_elements 0 ("<" +:+ name +:+ String ">" (escape value +:+ "</" +:+ name +:+ String ">" s))
  = "<" +:+ name +:+ ">" +:+ masked_content name value +:+ "</" +:+ name +:+ ">" +:+ mask_elements 0 s.
Proof.
  intros Hname Hsensitive.
  change ("<" +:+ name +:+ String ">" ?r) with (String "<" (name +:+ String ">" r)).
  cbn [mask_elements]. rewrite element_at_word, Hsensitive by done.
  unfold masked_element. rewrite content_until_close by (done || apply opens_nothing_escape).
  unfold masked_content. rewrite Hsensitive. rewrite !append_assoc. do 7 apply (f_equal (String.append _)).
  set (match_tail := name +:+ ">" +:+ escape value +:+ "</" +:+ name +:+ ">").
  transitivity (mask_elements (String.length match_tail) (match_tail +:+ s)); [|apply mask_elements_skip].
  f_equal.
  - subst match_tail. rewrite !append_length. cbn [String.length]. lia.
  - subst match_tail. by rewrite !append_assoc.
Qed.

Lemma mask_line e s :
  all_chars is_word e.1 = true →
  mask_elements 0 (element e.1 e.2 1 +:+ s) = masked_line e +:+ mask_elements 0 s.
Proof.
  destruct e as [name value]. cbn [fst snd]. intros Hname. unfold element, masked_line. cbn [fst snd].
  change (repeat_string INDENT 1) with INDENT. rewrite !append_assoc.
  rewrite mask_elements_text by done. f_equal.
  change (">" +:+ s) with (String ">" s).
  change (">" +:+ ?r) with (String ">" r).
  destruct (is_sensitive name) eqn:Hsensitive; [by rewrite mask_sensitive|].
  rewrite mask_open_plain, mask_elements_text, mask_close by (done || apply opens_nothing_escape).
  unfold masked_content. by rewrite Hsensitive.
Qed.

Lemma concat_cons sep (a : string) l :
  String.concat sep (a :: l) = a +:+ match l with [] => "" | _ => sep +:+ String.concat sep l end.
Proof. destruct l; [|done]. simpl. by rewrite append_empty. Qed.

Lemma mask_lines l s :
  Forall (λ e, all_chars is_word e.1 = true) l →
  mask_elements 0 (String.concat newline ((λ e, element e.1 e.2 1) <$> l) +:+ s)
  = String.concat newline (masked_line <$> l) +:+ mask_elements 0 s.
Proof.
  induction 1 as [|e l He Hl IH]; [done|]. rewrite !fmap_cons, !concat_cons, !append_assoc.
  rewrite mask_line by done. f_equal. destruct l as [|f l]; [done|].
  rewrite !fmap_cons in *. rewrite !append_assoc. rewrite mask_elements_text by done. by rewrite IH.
Qed.

Lemma request_names dto : Forall (λ e, all_chars is_word e.1 = true) (request_elements dto).
Proof.
  unfold request_elements. destruct (written (ct_debtorName dto)), (written (ct_endToEndLabel dto));
    repeat (constructor; [reflexivity|]); constructor.
Qed.

(** ** The document of a request *)

Definition document_head : string :=
  "<?xml version=" +:+ quote +:+ "1.0" +:+ quote +:+ " encoding=" +:+ quote +:+ "UTF-8"
    +:+ quote +:+ "?>" +:+ newline +:+ "<TransferRequest xmlns=" +:+ quote +:+ TRANSFER_NAMESPACE
    +:+ quote +:+ ">" +:+ newline.
Definition document_foot : string := newline +:+ "</TransferRequest>".

Definition masked_document_of (dto : CreateTransferDto) : string :=
  document_head +:+ String.concat newline (masked_line <$> request_elements dto) +:+ document_foot.

Lemma request_document dto :
  buildTransferRequest dto
  = document_head +:+ String.concat newline ((λ e, element e.1 e.2 1) <$> request_elements dto)
    +:+ document_foot.
Proof.
  unfold buildTransferRequest. rewrite request_body. cbv zeta. unfold document_head, document_foot.
  cbn [String.concat]. by rewrite !append_assoc.
Qed.

Lemma mask_head s : mask_elements 0 (document_head +:+ s) = document_head +:+ mask_elements 0 s.
Proof. reflexivity. Qed.

Lemma mask_request dto : mask_elements 0 (buildTransferRequest dto) = masked_document_of dto.
Proof.
  rewrite request_document, mask_head, mask_lines by apply request_names. reflexivity.
Qed.

(** An account number as the validated requests carry it. *)
Definition plain_account (iban : string) : Prop := all_chars is_alnum iban = true.

Lemma plain_account_char c : is_alnum c = true → escape_char c = String c EmptyString ∧ is_space c = false.
Proof. by destruct c as [[] [] [] [] [] [] [] []]. Qed.

Lemma plain_account_escape iban : plain_account iban → escape iban = iban ∧ trim iban = iban.
Proof.
  unfold plain_account. induction iban as [|c iban IH]; [done|]. simpl. intros [Hc Hiban]%andb_true_iff.
  destruct (plain_account_char c Hc) as [He Hs]. destruct (IH Hiban) as [IHe IHt]. split.
  - rewrite escape_cons, He, IHe. reflexivity.
  - unfold trim in *. cbn [trim_start]. rewrite Hs. cbn [trim_end].
    assert (Hstart : trim_start iban = iban).
    { destruct iban as [|d iban]; [done|]. simpl in Hiban. apply andb_true_iff in Hiban as [Hd _].
      cbn [trim_start]. by rewrite (proj2 (plain_account_char d Hd)). }
    rewrite Hstart in IHt. rewrite IHt. destruct iban; [by rewrite Hs|done].
Qed.

Lemma masked_account name a b :
  is_sensitive name = true → normalizeKey name ∈ IBAN_KEYS →
  plain_account a → plain_account b → same_ends a b → masked_line (name, a) = masked_line (name, b).
Proof.
  intros Hs Hk [Ha Hta]%plain_account_escape [Hb Htb]%plain_account_escape Hends%maskIban_ends.
  unfold masked_line, masked_content. cbn [fst snd]. rewrite Hs, bool_decide_eq_true_2 by done.
  by rewrite Ha, Hb, Hta, Htb, Hends.
Qed.

Definition between (debtor creditor : string) (dto : CreateTransferDto) : CreateTransferDto :=
  dto <| ct_debtorIban := debtor |> <| ct_creditorIban := creditor |>.

Lemma masked_document_between dto debtor debtor' creditor creditor' :
  plain_account debtor → plain_account debtor' → same_ends debtor debtor' →
  plain_account creditor → plain_account creditor' → same_ends creditor creditor' →
  masked_document_of (between debtor creditor dto) = masked_document_of (between debtor' creditor' dto).
Proof.
  intros Hd Hd' Hde Hc Hc' Hce. 
  apply (f_equal (λ l, document_head +:+ String.concat newline l +:+ document_foot)).
  assert (Hline : ∀ name a b, name = "debtorIban" ∨ name = "creditorIban" →
            plain_account a → plain_account b → same_ends a b → masked_line (name, a) = masked_line (name, b)).
  { intros name a b Hname Ha Hb Hab. apply masked_account; [| |exact Ha|exact Hb|exact Hab];
      destruct Hname as [->| ->]; [reflexivity|reflexivity|..];
      apply (bool_decide_unpack _); vm_compute; exact I. }
  unfold request_elements. cbn [between ct_debtorIban ct_creditorIban ct_debtorName ct_creditorName
    ct_amount ct_currency ct_endToEndLabel].
  destruct dto as [? dn ? cn amount currency label].
  cbn -[masked_line written formatAmount]. destruct (written dn), (written label);
    cbn -[masked_line formatAmount];
    rewrite (Hline "debtorIban" debtor debtor'), (Hline "creditorIban" creditor creditor') by auto;
    reflexivity.
Qed.

(** The masked document is never empty: it begins with a character of no word. *)
Lemma shown_length dto : (0 < String.length (maskFreeText (masked_document_of dto)))%nat.
Proof.
  unfold maskFreeText, masked_document_of.
  change (document_head +:+ ?r) with (String "<" (String.substring 1 200 document_head +:+ r)).
  cbn [replace_words is_word]. simpl. lia.
Qed.

(** * Properties *)

(** C23. The trail keeps of a request no more than the ends of its accounts.  Two requests
    that differ by their account numbers, with the same ends, leave the same document in
    the trail, whatever their other fields hold: a name or a label that imitates a tag
    changes nothing.  What fits the ceiling is stored as the document with its two account
    elements masked, in which no word reads as an IBAN or as a number of thirteen digits or
    more (an account written with spaces, or glued to other letters, in a name or a label
    is not such a word and stays in clear); without retention nothing is stored.  And recording never fails: either the row is appended, or the table is as it
    was. *)
Theorem trail_hides_accounts config dto t debtor debtor' creditor creditor' current id date :
  plain_account debtor → plain_account debtor' → same_ends debtor debtor' →
  plain_account creditor → plain_account creditor' → same_ends creditor creditor' →
  let row dto := audit_row config (document_validated dto t) current id date in
  let shown := maskFreeText (masked_document_of (between debtor creditor dto)) in
  al_payload (row (between debtor creditor dto)) = al_payload (row (between debtor' creditor' dto))
  ∧ (ac_persistPayloads config = true → Z.of_nat (String.length shown) <= ac_maxPayloadChars config →
       al_payload (row (between debtor creditor dto)) = Some shown ∧ clean shown)
  ∧ (ac_persistPayloads config = false → al_payload (row (between debtor creditor dto)) = None)
  ∧ ∀ available entry table,
      let '(log, table') := audit_record config available entry current id date table in
      (log = None ∧ table' = table) ∨ ∃ row, log = Some row ∧ table' = table ++ [row].
Proof.
  intros Hd Hd' Hde Hc Hc' Hce row shown.
  assert (Hpayload : ∀ dto, al_payload (row dto)
    = if ac_persistPayloads config
      then Some (truncate (maskFreeText (masked_document_of dto)) (Z.to_nat (ac_maxPayloadChars config)))
      else None).
  { intros d. subst row. cbn [al_payload audit_row ai_rawPayload document_validated].
    unfold preparePayload, maskXml. rewrite (mask_request d : mask_elements 0 (or_default (Some _) "") = _).
    assert (Htruthy : truthy (Some (buildTransferRequest d)) = true) by by rewrite request_document.
    rewrite Htruthy. by destruct (ac_persistPayloads config). }
  rewrite !Hpayload. split_and!.
  - by rewrite (masked_document_between dto debtor debtor' creditor creditor').
  - intros -> Hroom. split; [|apply maskFreeText_clean]. f_equal. unfold truncate. fold shown.
    assert (Hpos : (0 < String.length shown)%nat) by (subst shown; apply shown_length).
    rewrite (proj2 (Nat.eqb_neq _ _)), (proj2 (Nat.leb_le _ _)) by lia. done.
  - by intros ->.
  - intros available entry table. unfold audit_record, audit_save.
    destruct (negb available); [by left|]. destruct (negb (audit_fits _)); [by left|].
    right. by eexists.
Qed.

(** * Witness *)

Definition sample_order : CreateTransferDto :=
  mkCreateTransferDto "" (Some "<iban>Kongo</iban>") "" "ACME" 125075 "EUR" None.

Lemma trail_hides_accounts_witness :
  al_payload (audit_row (mkAuditConfig 8000 true)
    (document_validated (between "FR7630006000011234567890189" "DE89370400440532013000" sample_order)
       sample_payment) "" "" 0)
  = al_payload (audit_row (mkAuditConfig 8000 true)
    (document_validated (between "FR7610107001011234567890189" "DE89500105170000003000" sample_order)
       sample_payment) "" "" 0).
Proof.
  assert (Hends : ∀ a b, bool_decide (same_ends a b) = true → same_ends a b) by (intros a b; apply bool_decide_eq_true_1).
  destruct (trail_hides_accounts (mkAuditConfig 8000 true) sample_order sample_payment
    "FR7630006000011234567890189" "FR7610107001011234567890189"
    "DE89370400440532013000" "DE89500105170000003000" "" "" 0) as [Hsame _];
    [vm_compute; reflexivity | vm_compute; reflexivity | apply Hends; vm_compute; reflexivity
    |vm_compute; reflexivity | vm_compute; reflexivity | apply Hends; vm_compute; reflexivity|].
  exact Hsame.
Defined.

(** * Consultation *)

Lemma findTransfer_run reference w :
  findTransfer reference w
  = (match List.find (by_reference reference) (db_transactions (w_db w)) with
     | Some t => Return t
     | None => Throw (HttpException 404 "TRANSACTION_NOT_FOUND")
     end, w).
Proof. unfold findTransfer. erewrite bind_return by reflexivity. by destruct (List.find _ _). Qed.

(** The consultation reads only, answers the rows of the payment and no other, in the
    order they were written, and refuses a reference that is not known. *)
Theorem consultation_answers_its_payment table reference w :
  match List.find (by_reference reference) (db_transactions (w_db w)) with
  | None => getAuditTrail table reference w = (Throw (HttpException 404 "TRANSACTION_NOT_FOUND"), w)
  | Some _ =>
      ∃ rows, getAuditTrail table reference w = (Return rows, w)
        ∧ StronglySorted (λ x y, al_createdAt x <= al_createdAt y) rows
        ∧ ∀ log, log ∈ rows ↔ log ∈ table ∧ al_transactionReference log = Some reference
  end.
Proof.
  pose proof (findTransfer_run reference w) as Hrun. unfold getAuditTrail.
  destruct (List.find (by_reference reference) (db_transactions (w_db w))) as [t|].
  - exists (findByTransactionReference reference table). split.
    { by rewrite (bind_return _ _ _ _ _ Hrun). }
    split; [apply sort_by_ordered|]. intros log. unfold findByTransactionReference.
    rewrite elem_of_sort_by, list_elem_of_In, List.filter_In, bool_decide_eq_true, <- list_elem_of_In. done.
  - by rewrite (bind_throw _ _ _ _ _ Hrun).
Qed.
