(* ===== verification/EncryptionMigration.v ===== *)
(** The migration that closes the path back to the clear:
    [src/database/migrations/2026072511000-EnforceEncryptedPartyFields.ts].

    The rest of the development reads party columns in the clear, behind the transparent
    cipher; here the rows are what the database holds.  [up] rewrites every historical
    value, clear or in the old form, under the current key, then adds the constraints;
    [down] is the way back.  The two tables, their constraints and the append-only
    trigger are a record; a statement is an operation on it that may fail with the
    SQLSTATE of PostgreSQL.  The default of the version column, which only later insertions
    read, is left out.  The class attribute [legacyDataKey] and the static key ring of
    [FieldCipher] are part of the state. *)
From stdpp Require Import gmap.
From S2P Require Import Prelude Domain External EventXml Money Text Base64 Database FieldCipher Numbers Environment.
Open Scope Z_scope.

(** * The tables *)

Module PartyTable.
Inductive PartyTable := transactions | transaction_events.
Definition show (t : PartyTable) : string :=
  match t with transactions => "transactions" | transaction_events => "transaction_events" end.
#[export] Instance eq_dec : EqDecision PartyTable.
Proof. solve_decision. Defined.
End PartyTable.
Abbreviation PartyTable := PartyTable.PartyTable.
#[export] Existing Instance PartyTable.eq_dec.

Module PartyField.
Inductive PartyField := debtor_iban | debtor_name | creditor_iban | creditor_name.
Definition show (c : PartyField) : string :=
  match c with
  | debtor_iban => "debtor_iban" | debtor_name => "debtor_name"
  | creditor_iban => "creditor_iban" | creditor_name => "creditor_name"
  end.
End PartyField.
Abbreviation PartyField := PartyField.PartyField.

Definition COLUMN_NAMES : list PartyField :=
  [PartyField.debtor_iban; PartyField.debtor_name; PartyField.creditor_iban; PartyField.creditor_name].

(** [PartyRow], with the version the migration adds. *)
Record PartyRow := mkPartyRow {
  pr_id : string;
  pr_debtor_iban : option string;
  pr_debtor_name : option string;
  pr_creditor_iban : option string;
  pr_creditor_name : option string;
  pr_encryption_version : Z
}.
#[export] Instance eta_PartyRow : Eta PartyRow :=
  λ r, mkPartyRow (pr_id r) (pr_debtor_iban r) (pr_debtor_name r) (pr_creditor_iban r)
         (pr_creditor_name r) (pr_encryption_version r).

(** [row[column]] *)
Definition row_value (r : PartyRow) (column : PartyField) : option string :=
  match column with
  | PartyField.debtor_iban => pr_debtor_iban r
  | PartyField.debtor_name => pr_debtor_name r
  | PartyField.creditor_iban => pr_creditor_iban r
  | PartyField.creditor_name => pr_creditor_name r
  end.

(** [SET "debtor_iban" = $1, "debtor_name" = $2, "creditor_iban" = $3, "creditor_name" = $4] *)
Definition set_values (values : list (option string)) (r : PartyRow) : PartyRow :=
  match values with
  | [a; b; c; d] =>
      r <| pr_debtor_iban := a |> <| pr_debtor_name := b |>
        <| pr_creditor_iban := c |> <| pr_creditor_name := d |>
  | _ => r
  end.

(** One table: its rows, whether [encryption_version] exists, the columns under their
    [CHECK], the [CHECK] of the version, and the append-only trigger. *)
Record PartyStore := mkPartyStore {
  ps_rows : list PartyRow;
  ps_versioned : bool;
  ps_checked : bool;
  ps_versionChecked : bool;
  ps_appendOnly : bool
}.
#[export] Instance eta_PartyStore : Eta PartyStore :=
  λ s, mkPartyStore (ps_rows s) (ps_versioned s) (ps_checked s) (ps_versionChecked s) (ps_appendOnly s).

(** The database and the static state of the process. *)
Record Migration := mkMigration {
  mg_transactions : PartyStore;
  mg_events : PartyStore;
  mg_cipher : FieldCipher;
  mg_legacyDataKey : option (list Z);
  mg_world : World
}.
#[export] Instance eta_Migration : Eta Migration :=
  λ m, mkMigration (mg_transactions m) (mg_events m) (mg_cipher m) (mg_legacyDataKey m) (mg_world m).

Abbreviation Mig := (Eff Migration GatewayError).

Definition store (table : PartyTable) (m : Migration) : PartyStore :=
  match table with
  | PartyTable.transactions => mg_transactions m
  | PartyTable.transaction_events => mg_events m
  end.
Definition set_store (table : PartyTable) (s : PartyStore) (m : Migration) : Migration :=
  match table with
  | PartyTable.transactions => m <| mg_transactions := s |>
  | PartyTable.transaction_events => m <| mg_events := s |>
  end.

(** [try { m } finally { f }] *)
Definition try_finally {A} (m : Mig A) (f : Migration → Migration) : Mig A :=
  λ s, let '(o, s') := m s in (o, f s').

(** * Statements *)

(** [CHECK ("column" IS NULL OR "column" ~ '^enc\.v1\.[A-Za-z0-9_-]{1,32}\.[A-Za-z0-9_-]+$')] *)
Definition encrypted_or_null (value : option string) : bool :=
  match value with None => true | Some value => bool_decide (is_Some (match_v1 value)) end.

Definition row_encrypted (r : PartyRow) : bool :=
  forallb (λ column, encrypted_or_null (row_value r column)) COLUMN_NAMES.

(** What the constraints in force say of a row. *)
Definition row_admitted (s : PartyStore) (r : PartyRow) : bool :=
  (negb (ps_checked s) || row_encrypted r)
  && (negb (ps_versionChecked s) || (pr_encryption_version r =? 1)).

(** [ALTER TABLE ... ADD COLUMN "encryption_version" smallint NOT NULL DEFAULT 0] *)
Definition add_version (table : PartyTable) : Mig unit :=
  s ← gets (store table);
  throw_unless (negb (ps_versioned s)) (QueryFailedError "42701" "encryption_version") ;;
  modify (set_store table
    (s <| ps_versioned := true |>
       <| ps_rows := (λ r, r <| pr_encryption_version := 0 |>) <$> ps_rows s |>)).

(** [ALTER TABLE ... DROP COLUMN "encryption_version"] *)
Definition drop_version (table : PartyTable) : Mig unit :=
  modify (λ m, set_store table ((store table m) <| ps_versioned := false |>) m).

(** [ALTER TABLE ... DISABLE / ENABLE TRIGGER "trg_transaction_events_append_only"] *)
Definition set_trigger (enabled : bool) : Mig unit :=
  modify (λ m, m <| mg_events := (mg_events m) <| ps_appendOnly := enabled |> |>).

(** [ADD CONSTRAINT], checked against the rows, and [DROP CONSTRAINT]; the eight
    constraints of the columns are added together and dropped together. *)
Definition add_checks (table : PartyTable) : Mig unit :=
  s ← gets (store table);
  throw_unless (forallb row_encrypted (ps_rows s))
    (QueryFailedError PG_CHECK_VIOLATION "encrypted") ;;
  modify (set_store table (s <| ps_checked := true |>)).
Definition drop_checks (table : PartyTable) : Mig unit :=
  modify (λ m, set_store table ((store table m) <| ps_checked := false |>) m).
Definition add_version_check (table : PartyTable) : Mig unit :=
  s ← gets (store table);
  throw_unless (forallb (λ r, pr_encryption_version r =? 1) (ps_rows s))
    (QueryFailedError PG_CHECK_VIOLATION "encryption_version") ;;
  modify (set_store table (s <| ps_versionChecked := true |>)).
Definition drop_version_check (table : PartyTable) : Mig unit :=
  modify (λ m, set_store table ((store table m) <| ps_versionChecked := false |>) m).

(** [UPDATE ... WHERE "id" = $5]: the trigger, the width of the columns, the constraints. *)
Definition update_party (table : PartyTable) (values : list (option string)) (id : string) : Mig unit :=
  s ← gets (store table);
  let matches r := str_eqb (pr_id r) id in
  throw_unless (negb (ps_appendOnly s && existsb matches (ps_rows s)))
    (QueryFailedError PG_RESTRICT_VIOLATION "trg_transaction_events_append_only") ;;
  throw_unless (negb (existsb matches (ps_rows s)) || forallb (fits_opt 512) values)
    (QueryFailedError PG_STRING_TRUNCATION "") ;;
  throw_unless (forallb (λ r, negb (matches r) || row_admitted s (set_values values r)) (ps_rows s))
    (QueryFailedError PG_CHECK_VIOLATION "encrypted") ;;
  modify (set_store table (s <| ps_rows := update_where matches (set_values values) (ps_rows s) |>)).

(** [UPDATE ... SET "encryption_version" = 1] *)
Definition update_version (table : PartyTable) : Mig unit :=
  s ← gets (store table);
  throw_unless (negb (ps_appendOnly s && Nat.ltb 0 (length (ps_rows s))))
    (QueryFailedError PG_RESTRICT_VIOLATION "trg_transaction_events_append_only") ;;
  modify (set_store table
    (s <| ps_rows := (λ r, r <| pr_encryption_version := 1 |>) <$> ps_rows s |>)).

(** [SELECT ... WHERE "debtor_iban" IS NOT NULL OR ...] *)
Definition has_party (r : PartyRow) : bool :=
  existsb (λ column, bool_decide (is_Some (row_value r column))) COLUMN_NAMES.

Section migration.
Context {HA : Aead} {HE : Entropy} (env : Env).

Definition of_outcome {A} (o : Outcome GatewayError A) : Mig A :=
  match o with Return a => mret a | Throw e => throw e end.

(** A draw of the process. *)
Definition lift {A} (m : App A) : Mig A :=
  λ s, let '(o, w) := m (mg_world s) in (o, s <| mg_world := w |>).

(** * Keys *)

(** The bytes of a text, as [hkdfSync] reads a key given as a string. *)
Definition utf8_bytes (s : string) : list Z := code_of <$> String.list_ascii_of_string s.

Definition deriveLegacyDataEncryptionKey (legacyMasterKey keySalt : string) : list Z :=
  hkdf (utf8_bytes legacyMasterKey) keySalt "iban-at-rest" DATA_KEY_BYTES.

Definition env_keySalt : string := default DEFAULT_SECURITY_KEY_SALT (env !! "SECURITY_KEY_SALT").

(** The ring of the environment, and the key of the old values. *)
Definition installed_ring : Outcome GatewayError FieldCipher :=
  let masterKey := default LOCAL_SECURITY_MASTER_KEY (env !! "SECURITY_MASTER_KEY") in
  let currentKeyId := default LOCAL_SECURITY_KEY_ID (env !! "SECURITY_CURRENT_KEY_ID") in
  match decodeMasterKey masterKey with
  | Throw e => Throw e
  | Return master =>
      match parsePreviousKeys (default "" (env !! "SECURITY_PREVIOUS_KEYS")) with
      | None => Throw (PlainError "Entree SECURITY_PREVIOUS_KEYS invalide")
      | Some previous =>
          match add_previous env_keySalt previous
                  {[currentKeyId := deriveDataEncryptionKey master env_keySalt]} with
          | Throw e => Throw e
          | Return keys => useKeyRing currentKeyId keys
          end
      end
  end.

Definition legacy_key : list Z :=
  deriveLegacyDataEncryptionKey
    match env !! "SECURITY_LEGACY_MASTER_KEY" with
    | Some key => key
    | None => default LEGACY_LOCAL_SECURITY_MASTER_KEY (env !! "SECURITY_MASTER_KEY")
    end env_keySalt.

Definition installKey : Mig unit :=
  cipher ← of_outcome installed_ring;
  modify (λ m, m <| mg_cipher := cipher |> <| mg_legacyDataKey := Some legacy_key |>).

(** The [finally] blocks. *)
Definition forget (m : Migration) : Migration :=
  m <| mg_cipher := forgetKey |> <| mg_legacyDataKey := None |>.

(** * Rows *)

Definition context (table : PartyTable) (column : PartyField) : string :=
  PartyTable.show table +:+ "." +:+ PartyField.show column.

(** One value in [encryptLegacyRows]. *)
Definition encrypt_value (table : PartyTable) (row : PartyRow) (column : PartyField) :
    Mig (option string) :=
  match row_value row column with
  | None => mret None
  | Some value =>
      if bool_decide (is_Some (match_v1 value)) then mret (Some value)
      else
        legacy ← gets mg_legacyDataKey;
        clear ← (if bool_decide (is_Some (strip_prefix "enc.v1." value))
                 then of_outcome (decryptLegacyV1 value (context table column) (default [] legacy))
                 else mret value);
        cipher ← gets mg_cipher;
        lift (encrypt cipher (Some clear) (context table column))
  end.

(** One value in [decryptRows]. *)
Definition decrypt_value (table : PartyTable) (row : PartyRow) (column : PartyField) :
    Mig (option string) :=
  cipher ← gets mg_cipher;
  of_outcome (decrypt cipher (row_value row column) (context table column)).

(** The loops over the rows. *)
Fixpoint rewrite_rows (value : PartyRow → PartyField → Mig (option string)) (table : PartyTable)
    (rows : list PartyRow) : Mig unit :=
  match rows with
  | [] => mret tt
  | row :: rows =>
      values ← mapM (value row) COLUMN_NAMES;
      update_party table values (pr_id row) ;;
      rewrite_rows value table rows
  end.

Definition encryptLegacyRows (table : PartyTable) : Mig unit :=
  s ← gets (store table);
  rewrite_rows (encrypt_value table) table (List.filter has_party (ps_rows s)) ;;
  update_version table.

Definition decryptRows (table : PartyTable) : Mig unit :=
  s ← gets (store table);
  rewrite_rows (decrypt_value table) table (ps_rows s).

(** * The migration *)

Definition up_statements : Mig unit :=
  add_version PartyTable.transactions ;;
  add_version PartyTable.transaction_events ;;
  encryptLegacyRows PartyTable.transactions ;;
  set_trigger false ;;
  encryptLegacyRows PartyTable.transaction_events ;;
  set_trigger true ;;
  add_checks PartyTable.transactions ;;
  add_checks PartyTable.transaction_events ;;
  add_version_check PartyTable.transactions ;;
  add_version_check PartyTable.transaction_events.

Definition up : Mig unit := installKey ;; try_finally up_statements forget.

Definition down_statements : Mig unit :=
  drop_version_check PartyTable.transaction_events ;;
  drop_version_check PartyTable.transactions ;;
  drop_checks PartyTable.transaction_events ;;
  drop_checks PartyTable.transactions ;;
  decryptRows PartyTable.transactions ;;
  set_trigger false ;;
  decryptRows PartyTable.transaction_events ;;
  set_trigger true ;;
  drop_version PartyTable.transaction_events ;;
  drop_version PartyTable.transactions.

Definition down : Mig unit := installKey ;; try_finally down_statements forget.
End migration.

(** * Lemmas *)

(** ** States *)

Lemma store_set table s m : store table (set_store table s m) = s.
Proof. by destruct table. Qed.
Lemma set_store_twice table s s' m : set_store table s (set_store table s' m) = set_store table s m.
Proof. by destruct table. Qed.
Lemma set_store_world table s w m :
  (set_store table s m) <| mg_world := w |> = set_store table s (m <| mg_world := w |>).
Proof. by destruct table. Qed.
Lemma set_store_same table m : set_store table (store table m) m = m.
Proof. by destruct table, m. Qed.

Definition with_rows (rows : list PartyRow) (s : PartyStore) : PartyStore := s <| ps_rows := rows |>.

(** A table whose rows may be rewritten: no trigger, no constraint yet. *)
Definition rewritable (s : PartyStore) : Prop :=
  ps_appendOnly s = false ∧ ps_checked s = false ∧ ps_versionChecked s = false.

Lemma update_party_run table values id m :
  rewritable (store table m) → forallb (fits_opt 512) values = true →
  update_party table values id m
  = (Return tt, set_store table (with_rows
       (update_where (λ r, str_eqb (pr_id r) id) (set_values values) (ps_rows (store table m)))
       (store table m)) m).
Proof.
  intros (Ht & Hc & Hv) Hfits. unfold update_party. erewrite bind_return by reflexivity.
  rewrite Ht, Hfits, orb_true_r. cbn [negb andb throw_unless]. erewrite bind_return by reflexivity.
  erewrite bind_return by reflexivity.
  assert (Hall : ∀ rows, forallb (λ r, negb (str_eqb (pr_id r) id)
            || row_admitted (store table m) (set_values values r)) rows = true).
  { intros rows. apply forallb_forall. intros r _. unfold row_admitted. rewrite Hc, Hv. by rewrite orb_true_r. }
  rewrite Hall. reflexivity.
Qed.

Lemma update_version_run table m :
  ps_appendOnly (store table m) = false →
  update_version table m
  = (Return tt, set_store table (with_rows ((λ r, r <| pr_encryption_version := 1 |>)
       <$> ps_rows (store table m)) (store table m)) m).
Proof.
  intros Ht. unfold update_version. erewrite bind_return by reflexivity. rewrite Ht. reflexivity.
Qed.

(** ** The loop over the rows *)

Section loop.
Context (value : PartyRow → PartyField → Mig (option string)) (table : PartyTable).
Context (cipher : FieldCipher) (legacy : option (list Z)).
Context (Pre : PartyRow → Prop) (Post : PartyRow → list (option string) → Prop).

(** What rewriting a row asks of its values. *)
Hypothesis values_run : ∀ r m,
  Pre r → mg_cipher m = cipher → mg_legacyDataKey m = legacy →
  ∃ values w, mapM (value r) COLUMN_NAMES m = (Return values, m <| mg_world := w |>)
    ∧ forallb (fits_opt 512) values = true ∧ Post r values.

(** Each row of [todo] is replaced; the others keep their place and their values. *)
Definition rewritten (todo : list string) (f : PartyRow → PartyRow) (r : PartyRow) : Prop :=
  if bool_decide (pr_id r ∈ todo) then ∃ values, Post r values ∧ f r = set_values values r
  else f r = r.

Lemma set_values_id values r : pr_id (set_values values r) = pr_id r.
Proof. by destruct values as [|? [|? [|? [|? [|? ?]]]]]. Qed.

Lemma update_where_ids id values rows :
  pr_id <$> update_where (λ r, str_eqb (pr_id r) id) (set_values values) rows = pr_id <$> rows.
Proof.
  unfold update_where. rewrite <- list_fmap_compose. apply list_fmap_ext. intros _ r _. simpl.
  destruct (str_eqb _ _); [apply set_values_id|done].
Qed.

Lemma same_row (rows : list PartyRow) r x :
  NoDup (pr_id <$> rows) → r ∈ rows → x ∈ rows → pr_id x = pr_id r → x = r.
Proof.
  intros Hn [i Hi]%list_elem_of_lookup [j Hj]%list_elem_of_lookup Heq.
  assert (Hij : i = j).
  { eapply (NoDup_lookup _ i j (pr_id r) Hn); rewrite list_lookup_fmap; [by rewrite Hi|rewrite Hj; simpl; congruence]. }
  congruence.
Qed.

Lemma rewrite_rows_run todo : ∀ m,
  mg_cipher m = cipher → mg_legacyDataKey m = legacy → rewritable (store table m) →
  NoDup (pr_id <$> ps_rows (store table m)) → NoDup (pr_id <$> todo) →
  Forall (λ r, r ∈ ps_rows (store table m) ∧ Pre r) todo →
  ∃ f w, rewrite_rows value table todo m
      = (Return tt, set_store table (with_rows (f <$> ps_rows (store table m)) (store table m))
                      (m <| mg_world := w |>))
    ∧ ∀ r, r ∈ ps_rows (store table m) → rewritten (pr_id <$> todo) f r.
Proof.
  induction todo as [|row todo IH]; intros m Hc Hl Hs Hids Htodo Hall.
  { exists id, (mg_world m). split; [|by intros r _].
    rewrite list_fmap_id. unfold with_rows. by destruct table, m as [[] [] ? ? ?]. }
  apply Forall_cons in Hall as [[Hrow Hpre] Hall]. rewrite fmap_cons in Htodo.
  apply NoDup_cons in Htodo as [Hnot Htodo].
  destruct (values_run row m Hpre Hc Hl) as (values & w & Hrun & Hfits & Hpost).
  cbn [rewrite_rows]. erewrite bind_return by exact Hrun.
  set (rows := ps_rows (store table m)) in *.
  set (g := λ r, if str_eqb (pr_id r) (pr_id row) then set_values values r else r).
  set (m1 := set_store table (with_rows (g <$> rows) (store table m)) (m <| mg_world := w |>)).
  assert (Hm1 : update_party table values (pr_id row) (m <| mg_world := w |>) = (Return tt, m1)).
  { rewrite update_party_run; [|by destruct table|done]. unfold m1. by destruct table. }
  erewrite bind_return by exact Hm1.
  assert (Hstore : store table m1 = with_rows (g <$> rows) (store table m)) by apply store_set.
  assert (Hg : ∀ r, r ∈ rows → pr_id r ≠ pr_id row → g r = r).
  { intros r _ Hne. unfold g. destruct (str_eqb _ _) eqn:He; [|done]. by apply str_eqb_spec in He. }
  assert (Hgid : ∀ r, pr_id (g r) = pr_id r).
  { intros r. unfold g. destruct (str_eqb _ _); [apply set_values_id|done]. }
  destruct (IH m1) as (f & w' & Hrest & Hf).
  - by destruct table.
  - by destruct table.
  - rewrite Hstore. exact Hs.
  - rewrite Hstore. cbn [with_rows ps_rows assign]. rewrite <- list_fmap_compose.
    erewrite list_fmap_ext; [exact Hids|]. intros _ r _. apply Hgid.
  - exact Htodo.
  - rewrite Forall_forall in *. intros r Hr. destruct (Hall r Hr) as [Hin Hp]. split; [|done].
    rewrite Hstore. cbn [with_rows ps_rows assign]. apply list_elem_of_fmap. exists r. split; [|done].
    symmetry. apply Hg; [done|]. intros Heq. apply Hnot. rewrite <- Heq. by apply list_elem_of_fmap_2.
  - exists (f ∘ g), w'. split.
    + rewrite Hrest, Hstore. unfold m1. cbn [with_rows ps_rows assign]. rewrite list_fmap_compose.
      unfold with_rows. by destruct table.
    + intros r Hr. assert (Hgr : g r ∈ ps_rows (store table m1)).
      { rewrite Hstore. by apply list_elem_of_fmap_2. }
      specialize (Hf (g r) Hgr). unfold rewritten in *. rewrite Hgid in Hf. cbn [compose].
      destruct (decide (pr_id r = pr_id row)) as [Heq|Hne].
      * assert (r = row) as -> by exact (same_row rows row r Hids Hrow Hr Heq).
        rewrite bool_decide_eq_false_2 in Hf by done.
        rewrite bool_decide_eq_true_2 by (rewrite fmap_cons; left). exists values. split; [done|].
        rewrite Hf. unfold g. by rewrite str_eqb_refl.
      * rewrite (Hg r Hr Hne) in *. rewrite fmap_cons.
        destruct (decide (pr_id r ∈ pr_id <$> todo)) as [Hin|Hout].
        -- rewrite bool_decide_eq_true_2 in * by (try right; done). done.
        -- rewrite bool_decide_eq_false_2 in * by (rewrite ?not_elem_of_cons; done). done.
Qed.
End loop.

(** ** One row *)

Lemma columns_run (value : PartyField → Mig (option string)) cipher legacy
    (R : PartyField → option string → Prop) columns :
  (∀ c m, mg_cipher m = cipher → mg_legacyDataKey m = legacy →
     ∃ v w, value c m = (Return v, m <| mg_world := w |>) ∧ fits_opt 512 v = true ∧ R c v) →
  ∀ m, mg_cipher m = cipher → mg_legacyDataKey m = legacy →
  ∃ values w, mapM value columns m = (Return values, m <| mg_world := w |>)
    ∧ forallb (fits_opt 512) values = true ∧ Forall2 R columns values.
Proof.
  intros Hvalue. induction columns as [|c columns IH]; intros m Hc Hl.
  { exists [], (mg_world m). split_and!; [by destruct m|done|constructor]. }
  destruct (Hvalue c m Hc Hl) as (v & w & Hv & Hfit & HR).
  destruct (IH (m <| mg_world := w |>)) as (values & w' & Hrest & Hfits & HRs); [done..|].
  exists (v :: values), w'. split_and!; [| |by constructor].
  - change (mapM value (c :: columns)) with (y ← value c; k ← mapM value columns; mret (y :: k)).
    erewrite bind_return by exact Hv. erewrite bind_return by exact Hrest. reflexivity.
  - simpl. by rewrite Hfit.
Qed.

Lemma row_value_set (R : PartyField → option string → Prop) values r :
  Forall2 R COLUMN_NAMES values → ∀ c, R c (row_value (set_values values r) c).
Proof.
  unfold COLUMN_NAMES. intros H. repeat (inversion_clear H as [|? ? ? ? ? H']; rename H' into H).
  inversion_clear H. by intros [].
Qed.

Section values.
Context {HA : Aead} {HL : AeadLaws} {HE : Entropy} {HEL : EntropyLaws} (env : Env).
Context (keyId : string) (keys : gmap string (list Z)) (cipher : FieldCipher) (legacy : list Z).
Hypothesis installed : useKeyRing keyId keys = Return cipher.

(** The text a stored value stands for, in any of its three historical forms. *)
Inductive stands_for (ctx value text : string) : Prop :=
  | Current : decrypt cipher (Some value) ctx = Return (Some text) → stands_for ctx value text
  | Legacy : match_v1 value = None → is_Some (strip_prefix "enc.v1." value) →
      decryptLegacyV1 value ctx legacy = Return text → stands_for ctx value text
  | Clear : strip_prefix "enc.v1." value = None → value = text → stands_for ctx value text.

(** A value whose text is [text], absent together with it.  Two conditions are not written in
    the migration but decided by the column, [varchar(512)]: the value fits it, and so does
    its encrypted form, for which 280 bytes of text are enough whatever the key. *)
Definition stored_as (ctx : string) (value text : option string) : Prop :=
  match value, text with
  | None, None => True
  | Some value, Some text =>
      stands_for ctx value text ∧ fits 512 value = true ∧ (String.length text <= 280)%nat
  | _, _ => False
  end.

(** A value in the current form. *)
Definition sealed_as (ctx : string) (value text : option string) : Prop :=
  encrypted_or_null value = true ∧ decrypt cipher value ctx = Return text
  ∧ (value = None → text = None).

Definition row_stored (table : PartyTable) (row clear : PartyRow) : Prop :=
  pr_id row = pr_id clear
  ∧ ∀ c, stored_as (context table c) (row_value row c) (row_value clear c).

Definition row_sealed (table : PartyTable) (row clear : PartyRow) : Prop :=
  pr_id row = pr_id clear
  ∧ ∀ c, sealed_as (context table c) (row_value row c) (row_value clear c).

Lemma match_v1_prefix value : is_Some (match_v1 value) → is_Some (strip_prefix "enc.v1." value).
Proof. unfold match_v1. destruct (strip_prefix "enc.v1." value); [by eexists|by intros [? ?]]. Qed.

Lemma decrypt_match value ctx text :
  decrypt cipher (Some value) ctx = Return text → is_Some (match_v1 value).
Proof. unfold decrypt. destruct (match_v1 value); [by eexists|done]. Qed.

(** A text in clear is sealed: its stored form fits, and reads back. *)
Lemma encrypt_sealed ctx text w :
  (String.length text <= 280)%nat →
  ∃ stored w', encrypt cipher (Some text) ctx w = (Return (Some stored), w')
    ∧ fits 512 stored = true ∧ sealed_as ctx (Some stored) (Some text).
Proof.
  intros Hlen. destruct (useKeyRing_return _ _ _ installed) as (Hcipher & Hk & key & Hkey & _).
  destruct (encrypt_run cipher keyId key text ctx w) as (payload & w' & Hrun & Hp & Hopen & _);
    [by rewrite Hcipher|done|by rewrite Hcipher|].
  exists (stored_value keyId payload), w'. split; [exact Hrun|].
  destruct (encrypt_width _ _ _ _ _ _ _ _ installed Hrun) as [Hchars Hid]. split.
  - unfold fits. rewrite Hchars. apply Nat.leb_le.
    pose proof (Nat.div_mod_eq (4 * (28 + String.length text) + 2) 3).
    pose proof (Nat.mod_upper_bound (4 * (28 + String.length text) + 2) 3). lia.
  - split; [|split; [rewrite decrypt_stored, Hcipher by done; simpl; by rewrite Hkey, Hopen|done]].
    apply bool_decide_eq_true_2. exists (keyId, payload). by apply match_v1_spec.
Qed.

Lemma encrypt_value_run table row clear c m :
  row_stored table row clear → mg_cipher m = cipher → mg_legacyDataKey m = Some legacy →
  ∃ v w, encrypt_value table row c m = (Return v, m <| mg_world := w |>)
    ∧ fits_opt 512 v = true ∧ sealed_as (context table c) v (row_value clear c).
Proof.
  intros [_ Hrow] Hc Hl. specialize (Hrow c). unfold encrypt_value. set (ctx := context table c) in *.
  destruct (row_value row c) as [value|], (row_value clear c) as [text|]; try done.
  2: { exists None, (mg_world m). split_and!; [by destruct m|done..]. }
  destruct Hrow as (Hstands & Hfits & Hlen).
  destruct (decide (is_Some (match_v1 value))) as [Hm|Hm].
  - rewrite bool_decide_eq_true_2 by done. exists (Some value), (mg_world m).
    split_and!; [by destruct m|done|].
    split; [by apply bool_decide_eq_true_2|]. split; [|done].
    destruct Hstands as [Hd|Hn _ _|Hn _]; [done|by rewrite Hn in Hm; destruct Hm|].
    apply match_v1_prefix in Hm. rewrite Hn in Hm. by destruct Hm.
  - rewrite bool_decide_eq_false_2 by done.
    destruct (encrypt_sealed ctx text (mg_world m) Hlen) as (stored & w & Hrun & Hfit & Hsealed).
    exists (Some stored), w. split_and!; [|done..].
    erewrite bind_return by reflexivity.
    assert (Hclear : (if bool_decide (is_Some (strip_prefix "enc.v1." value))
              then of_outcome (decryptLegacyV1 value ctx (default [] (mg_legacyDataKey m)))
              else mret value) m = (Return text, m)).
    { rewrite Hl. destruct Hstands as [Hd|_ Hn Hd|Hn ->].
      - by apply decrypt_match in Hd.
      - rewrite bool_decide_eq_true_2 by done. simpl. by rewrite Hd.
      - rewrite bool_decide_eq_false_2; [done|]. rewrite Hn. by intros [? ?]. }
    erewrite bind_return by exact Hclear. erewrite bind_return by reflexivity.
    unfold lift. rewrite Hc, Hrun. reflexivity.
Qed.

Lemma decrypt_value_run table row clear c m :
  row_sealed table row clear → (∀ c t, row_value clear c = Some t → (String.length t <= 280)%nat) →
  mg_cipher m = cipher →
  decrypt_value table row c m = (Return (row_value clear c), m) ∧ fits_opt 512 (row_value clear c) = true.
Proof.
  intros [_ Hrow] Hlen Hc. destruct (Hrow c) as (_ & Hd & _). split.
  - unfold decrypt_value. erewrite bind_return by reflexivity. rewrite Hc, Hd. reflexivity.
  - destruct (row_value clear c) as [t|] eqn:Ht; [|done]. apply Hlen in Ht. simpl. unfold fits.
    apply Nat.leb_le. transitivity (String.length t); [|lia]. clear.
    induction t as [|a t IH]; simpl; [lia|]. destruct (continues a); lia.
Qed.

(** ** One table *)

(** Rows paired in order with others of the same identifiers: a function of the row. *)
Lemma paired_rows (P : PartyRow → PartyRow → Prop) rows clears :
  NoDup (pr_id <$> rows) → Forall2 P rows clears →
  ∃ clear, clears = clear <$> rows ∧ Forall (λ r, P r (clear r)) rows.
Proof.
  intros Hn H. induction H as [|r c rows clears Hr H IH]; [by exists id|].
  rewrite fmap_cons in Hn. apply NoDup_cons in Hn as [Hout Hn]. destruct (IH Hn) as (clear & -> & Hall).
  exists (λ x, if str_eqb (pr_id x) (pr_id r) then c else clear x).
  assert (Hother : ∀ x, x ∈ rows → str_eqb (pr_id x) (pr_id r) = false).
  { intros x Hx. destruct (str_eqb _ _) eqn:He; [|done]. apply str_eqb_spec in He. exfalso. apply Hout.
    rewrite <- He. by apply list_elem_of_fmap_2. }
  rewrite fmap_cons, str_eqb_refl. split.
  - f_equal. apply list_fmap_ext. intros i x Hx%list_elem_of_lookup_2. by rewrite Hother.
  - constructor; [by rewrite str_eqb_refl|]. rewrite Forall_forall in *. intros x Hx.
    rewrite Hother by done. by apply Hall.
Qed.

Lemma rows_of_function (P : PartyRow → PartyRow → Prop) (f clear : PartyRow → PartyRow) rows :
  (∀ r, r ∈ rows → P (f r) (clear r)) → Forall2 P (f <$> rows) (clear <$> rows).
Proof.
  intros H. rewrite Forall2_fmap. apply Forall_Forall2_diag, Forall_forall. exact H.
Qed.

Lemma filter_ids (p : PartyRow → bool) rows : NoDup (pr_id <$> rows) → NoDup (pr_id <$> List.filter p rows).
Proof. intros H. eapply sublist_NoDup; [exact H|]. apply fmap_sublist, filter_sublist. Qed.

Lemma unparted_sealed table row clear :
  row_stored table row clear → has_party row = false → row_sealed table row clear.
Proof.
  intros [Hid Hrow] Hnone. split; [done|]. intros c. specialize (Hrow c).
  assert (Hv : row_value row c = None).
  { destruct (row_value row c) eqn:Hv; [|done]. exfalso. revert Hnone. unfold has_party.
    apply not_false_iff_true, existsb_exists. exists c. split; [destruct c; simpl; tauto|].
    rewrite Hv. by apply bool_decide_eq_true_2. }
  rewrite Hv in *. destruct (row_value clear c); [done|]. by split_and!.
Qed.

Lemma encryptLegacyRows_run table m clears :
  mg_cipher m = cipher → mg_legacyDataKey m = Some legacy → rewritable (store table m) →
  NoDup (pr_id <$> ps_rows (store table m)) →
  Forall2 (row_stored table) (ps_rows (store table m)) clears →
  ∃ rows w, encryptLegacyRows table m
      = (Return tt, set_store table (with_rows rows (store table m)) (m <| mg_world := w |>))
    ∧ Forall2 (λ r c, row_sealed table r c ∧ pr_encryption_version r = 1) rows clears.
Proof.
  intros Hc Hl Hs Hids Hclears. destruct (paired_rows _ _ _ Hids Hclears) as (clear & -> & Hstored).
  rewrite Forall_forall in Hstored. set (rows := ps_rows (store table m)) in *.
  destruct (rewrite_rows_run (encrypt_value table) table cipher (Some legacy)
    (λ r, row_stored table r (clear r))
    (λ r values, Forall2 (λ c v, sealed_as (context table c) v (row_value (clear r) c)) COLUMN_NAMES values))
    with (todo := List.filter has_party rows) (m := m) as (f & w & Hrun & Hf); try done.
  - intros r m' Hr Hc' Hl'. eapply columns_run; [|exact Hc'|exact Hl'].
    intros c m'' Hc'' Hl''. by apply encrypt_value_run.
  - by apply filter_ids.
  - apply Forall_forall. intros r [Hr _]%list_elem_of_In%filter_In.
    apply list_elem_of_In in Hr. split; [done|by apply Hstored].
  - exists ((λ r, (f r) <| pr_encryption_version := 1 |>) <$> rows), w. split.
    + unfold encryptLegacyRows. erewrite bind_return by reflexivity. fold rows.
      erewrite bind_return by exact Hrun. rewrite update_version_run, store_set, set_store_twice.
      * cbn [with_rows ps_rows assign]. rewrite <- list_fmap_compose. reflexivity.
      * rewrite store_set. apply Hs.
    + apply (rows_of_function (λ r c, row_sealed table r c ∧ pr_encryption_version r = 1)
               (λ r, (f r) <| pr_encryption_version := 1 |>)). intros r Hr. split; [|done].
      assert (Hsealed : row_sealed table (f r) (clear r)).
      { specialize (Hf r Hr). specialize (Hstored r Hr). unfold rewritten in Hf. case_bool_decide as Hin.
        - destruct Hf as (values & Hvalues & ->). split; [rewrite set_values_id; apply Hstored|].
          by apply (row_value_set (λ c v, sealed_as (context table c) v (row_value (clear r) c))).
        - rewrite Hf. apply unparted_sealed; [done|]. apply not_true_iff_false. intros Hp. apply Hin.
          apply list_elem_of_fmap_2, list_elem_of_In, filter_In. split; [by apply list_elem_of_In|done]. }
      destruct Hsealed as [Hid Hv]. split; [exact Hid|]. intros []; apply Hv.
Qed.

(** The parties of a row are those of another. *)
Definition same_parties (row clear : PartyRow) : Prop :=
  pr_id row = pr_id clear ∧ ∀ c, row_value row c = row_value clear c.

Lemma decryptRows_run table m clears :
  mg_cipher m = cipher → mg_legacyDataKey m = Some legacy → rewritable (store table m) →
  NoDup (pr_id <$> ps_rows (store table m)) →
  Forall2 (λ r clear, row_sealed table r clear
             ∧ ∀ c t, row_value clear c = Some t → (String.length t <= 280)%nat)
    (ps_rows (store table m)) clears →
  ∃ rows w, decryptRows table m
      = (Return tt, set_store table (with_rows rows (store table m)) (m <| mg_world := w |>))
    ∧ Forall2 same_parties rows clears.
Proof.
  intros Hc Hl Hs Hids Hclears. destruct (paired_rows _ _ _ Hids Hclears) as (clear & -> & Hsealed).
  rewrite Forall_forall in Hsealed. set (rows := ps_rows (store table m)) in *.
  destruct (rewrite_rows_run (decrypt_value table) table cipher (Some legacy)
    (λ r, row_sealed table r (clear r) ∧ ∀ c t, row_value (clear r) c = Some t → (String.length t <= 280)%nat)
    (λ r values, Forall2 (λ c v, v = row_value (clear r) c) COLUMN_NAMES values))
    with (todo := rows) (m := m) as (f & w & Hrun & Hf); try done.
  - intros r m' [Hr Hlen] Hc' Hl'. eapply columns_run; [|exact Hc'|exact Hl'].
    intros c m'' Hc'' _. destruct (decrypt_value_run table r (clear r) c m'' Hr Hlen Hc'') as [Hd Hfit].
    exists (row_value (clear r) c), (mg_world m''). split_and!; [rewrite Hd; by destruct m''|done|done].
  - apply Forall_forall. intros r Hr. by split; [|apply Hsealed].
  - exists (f <$> rows), w. split.
    + unfold decryptRows. erewrite bind_return by reflexivity. exact Hrun.
    + apply rows_of_function. intros r Hr. specialize (Hf r Hr). unfold rewritten in Hf.
      rewrite bool_decide_eq_true_2 in Hf by by apply list_elem_of_fmap_2.
      destruct Hf as (values & Hvalues & ->). split; [rewrite set_values_id; apply (Hsealed r Hr)|].
      by apply (row_value_set (λ c v, v = row_value (clear r) c)).
Qed.

(** ** Up and down, once the keys are installed *)

Lemma sealed_rows_admitted table rows clears :
  Forall2 (λ r c, row_sealed table r c ∧ pr_encryption_version r = 1) rows clears →
  forallb row_encrypted rows = true ∧ forallb (λ r, pr_encryption_version r =? 1) rows = true.
Proof.
  intros H. induction H as [|r c rows clears [[_ Hv] Hver] H [IH1 IH2]]; [done|]. simpl.
  rewrite IH1, IH2, Hver, andb_true_r. split; [|done]. apply forallb_forall. intros col _. apply Hv.
Qed.

Lemma row_stored_version table r clear v :
  row_stored table r clear → row_stored table (r <| pr_encryption_version := v |>) clear.
Proof. intros [Hid Hrow]. split; [exact Hid|]. intros []; apply Hrow. Qed.

Lemma versioned_stored table rows clears :
  Forall2 (row_stored table) rows clears →
  Forall2 (row_stored table) ((λ r, r <| pr_encryption_version := 0 |>) <$> rows) clears.
Proof.
  intros H. apply Forall2_fmap_l. eapply Forall2_impl; [exact H|]. intros r c Hr.
  by apply row_stored_version.
Qed.

Lemma versioned_ids rows :
  NoDup (pr_id <$> rows) → NoDup (pr_id <$> ((λ r, r <| pr_encryption_version := 0 |>) <$> rows)).
Proof. by rewrite <- list_fmap_compose. Qed.

Lemma up_statements_run rt re w clear_t clear_e :
  NoDup (pr_id <$> rt) → NoDup (pr_id <$> re) →
  Forall2 (row_stored PartyTable.transactions) rt clear_t →
  Forall2 (row_stored PartyTable.transaction_events) re clear_e →
  ∃ rt1 re1 w1,
    up_statements (mkMigration (mkPartyStore rt false false false false)
                     (mkPartyStore re false false false true) cipher (Some legacy) w)
    = (Return tt, mkMigration (mkPartyStore rt1 true true true false)
                    (mkPartyStore re1 true true true true) cipher (Some legacy) w1)
    ∧ Forall2 (row_sealed PartyTable.transactions) rt1 clear_t
    ∧ Forall2 (row_sealed PartyTable.transaction_events) re1 clear_e.
Proof.
  intros Hnt%versioned_ids Hne%versioned_ids Ht%versioned_stored He%versioned_stored.
  set (v0 := fmap (λ r, r <| pr_encryption_version := 0 |>)) in *.
  unfold up_statements. do 2 erewrite bind_return by reflexivity.
  fold (v0 rt) (v0 re).
  destruct (encryptLegacyRows_run PartyTable.transactions
    (mkMigration (mkPartyStore (v0 rt) true false false false)
       (mkPartyStore (v0 re) true false false true) cipher (Some legacy) w) clear_t)
    as (rt1 & w1 & Hrt & Hst); [done..|].
  erewrite bind_return by exact Hrt. erewrite bind_return by reflexivity.
  destruct (encryptLegacyRows_run PartyTable.transaction_events
    (mkMigration (mkPartyStore rt1 true false false false)
       (mkPartyStore (v0 re) true false false false) cipher (Some legacy) w1) clear_e)
    as (re1 & w2 & Hre & Hse); [done..|].
  erewrite bind_return by exact Hre. erewrite bind_return by reflexivity.
  destruct (sealed_rows_admitted _ _ _ Hst) as [Hct Hvt], (sealed_rows_admitted _ _ _ Hse) as [Hce Hve].
  exists rt1, re1, w2. split; [|split; (eapply Forall2_impl; [eassumption|by intros ?? [? _]])].
  unfold add_checks, add_version_check, mbind, Eff_bind. cbn -[forallb row_encrypted].
  rewrite Hct. cbn -[forallb row_encrypted]. rewrite Hce. cbn -[forallb row_encrypted].
  rewrite Hvt. cbn -[forallb row_encrypted]. rewrite Hve. reflexivity.
Qed.

Lemma down_statements_run rt re w clear_t clear_e :
  let readable table := λ r clear, row_sealed table r clear
     ∧ ∀ c t, row_value clear c = Some t → (String.length t <= 280)%nat in
  NoDup (pr_id <$> rt) → NoDup (pr_id <$> re) →
  Forall2 (readable PartyTable.transactions) rt clear_t →
  Forall2 (readable PartyTable.transaction_events) re clear_e →
  ∃ rt2 re2 w2,
    down_statements (mkMigration (mkPartyStore rt true true true false)
                       (mkPartyStore re true true true true) cipher (Some legacy) w)
    = (Return tt, mkMigration (mkPartyStore rt2 false false false false)
                    (mkPartyStore re2 false false false true) cipher (Some legacy) w2)
    ∧ Forall2 same_parties rt2 clear_t ∧ Forall2 same_parties re2 clear_e.
Proof.
  intros readable Hnt Hne Ht He. unfold down_statements. do 4 erewrite bind_return by reflexivity.
  destruct (decryptRows_run PartyTable.transactions
    (mkMigration (mkPartyStore rt true false false false)
       (mkPartyStore re true false false true) cipher (Some legacy) w) clear_t)
    as (rt2 & w1 & Hrt & Hst); [done..|].
  erewrite bind_return by exact Hrt. erewrite bind_return by reflexivity.
  destruct (decryptRows_run PartyTable.transaction_events
    (mkMigration (mkPartyStore rt2 true false false false)
       (mkPartyStore re true false false false) cipher (Some legacy) w1) clear_e)
    as (re2 & w2 & Hre & Hse); [done..|].
  erewrite bind_return by exact Hre. do 2 erewrite bind_return by reflexivity.
  exists rt2, re2, w2. split; [reflexivity|by split].
Qed.
End values.

(** * Properties *)

Section theorems.
Context {HA : Aead} {HL : AeadLaws} {HE : Entropy} {HEL : EntropyLaws} (env : Env).

Lemma installed_ring_return cipher :
  installed_ring env = Return cipher → ∃ keyId keys, useKeyRing keyId keys = Return cipher.
Proof.
  unfold installed_ring. destruct (decodeMasterKey _); [|done]. destruct (parsePreviousKeys _); [|done].
  destruct (add_previous _ _ _) as [keys|]; [|done]. by eexists _, keys.
Qed.

Lemma stored_ids cipher legacy table rows clears :
  Forall2 (row_stored cipher legacy table) rows clears → pr_id <$> rows = pr_id <$> clears.
Proof. intros H. induction H as [|r c rows clears [Hid _] H IH]; [done|]. rewrite !fmap_cons. by f_equal. Qed.

Lemma sealed_ids cipher table rows clears :
  Forall2 (row_sealed cipher table) rows clears → pr_id <$> rows = pr_id <$> clears.
Proof. intros H. induction H as [|r c rows clears [Hid _] H IH]; [done|]. rewrite !fmap_cons. by f_equal. Qed.

(** What is needed to read a sealed table back. *)
Lemma sealed_readable cipher legacy table rows rows1 clears :
  Forall2 (row_stored cipher legacy table) rows clears → Forall2 (row_sealed cipher table) rows1 clears →
  Forall2 (λ r clear, row_sealed cipher table r clear
             ∧ ∀ c t, row_value clear c = Some t → (String.length t <= 280)%nat) rows1 clears.
Proof.
  intros Hs. revert rows1. induction Hs as [|r c rows clears [_ Hr] Hs IH]; intros rows1 H1;
    inversion_clear H1 as [|r1 ? rows1' ? Hr1 H1']; constructor; [|by apply IH].
  split; [exact Hr1|]. intros col t Ht. specialize (Hr col). rewrite Ht in Hr.
  destruct (row_value r col); [apply Hr|done].
Qed.

(** C20. Closing the path to the clear loses nothing.  From tables without constraint, whose
    party values are in clear, in the old form or already in the current one, each
    readable under the keys of the environment as a text of at most 280 bytes (so that it
    fits the column of 512 characters once encrypted), the migration succeeds: afterwards every
    value is in the current form and reads back, in the context of its own column, as the
    text it stood for; the constraints and the append-only trigger are in force and the keys
    forgotten.  The way back then succeeds too and leaves exactly the clear texts, without
    the constraints, the trigger still in force. *)
Theorem encryption_migration_round_trip cipher rt re m clear_t clear_e :
  installed_ring env = Return cipher →
  mg_transactions m = mkPartyStore rt false false false false →
  mg_events m = mkPartyStore re false false false true →
  NoDup (pr_id <$> rt) → NoDup (pr_id <$> re) →
  Forall2 (row_stored cipher (legacy_key env) PartyTable.transactions) rt clear_t →
  Forall2 (row_stored cipher (legacy_key env) PartyTable.transaction_events) re clear_e →
  ∃ rt1 re1 m1, up env m = (Return tt, m1)
    ∧ mg_transactions m1 = mkPartyStore rt1 true true true false
    ∧ mg_events m1 = mkPartyStore re1 true true true true
    ∧ mg_cipher m1 = forgetKey ∧ mg_legacyDataKey m1 = None
    ∧ Forall2 (row_sealed cipher PartyTable.transactions) rt1 clear_t
    ∧ Forall2 (row_sealed cipher PartyTable.transaction_events) re1 clear_e
    ∧ ∃ rt2 re2 m2, down env m1 = (Return tt, m2)
      ∧ mg_transactions m2 = mkPartyStore rt2 false false false false
      ∧ mg_events m2 = mkPartyStore re2 false false false true
      ∧ mg_cipher m2 = forgetKey
      ∧ Forall2 same_parties rt2 clear_t ∧ Forall2 same_parties re2 clear_e.
Proof.
  intros Hring Hmt Hme Hnt Hne Ht He. destruct m as [st se c l w]. cbn in Hmt, Hme. subst st se.
  destruct (installed_ring_return _ Hring) as (keyId & keys & Hkeys).
  destruct (up_statements_run keyId keys cipher (legacy_key env) Hkeys rt re w clear_t clear_e Hnt Hne Ht He)
    as (rt1 & re1 & w1 & Hup & Hst & Hse).
  assert (Hidt : NoDup (pr_id <$> rt1)).
  { by rewrite (sealed_ids _ _ _ _ Hst), <- (stored_ids _ _ _ _ _ Ht). }
  assert (Hide : NoDup (pr_id <$> re1)).
  { by rewrite (sealed_ids _ _ _ _ Hse), <- (stored_ids _ _ _ _ _ He). }
  destruct (down_statements_run cipher (legacy_key env) rt1 re1 w1 clear_t clear_e Hidt Hide
    (sealed_readable _ _ _ _ _ _ Ht Hst) (sealed_readable _ _ _ _ _ _ He Hse))
    as (rt2 & re2 & w2 & Hdown & Hdt & Hde).
  exists rt1, re1. eexists. split.
  { unfold up, installKey, try_finally, mbind, Eff_bind. rewrite Hring. cbn -[up_statements].
    rewrite Hup. reflexivity. }
  do 6 (split; [done|]). exists rt2, re2. eexists. split.
  { unfold down, installKey, try_finally, mbind, Eff_bind. rewrite Hring. cbn -[down_statements].
    rewrite Hdown. reflexivity. }
  by split_and!.
Qed.
End theorems.

(** * Witness *)

#[local] Existing Instances sample_aead sample_aead_laws Toy.entropy.

Definition sample_migration_env : Env :=
  list_to_map [("SECURITY_MASTER_KEY", "AAECAwQFBgcICQoLDA0ODxAREhMUFRYXGBkaGxwdHh8=");
               ("SECURITY_CURRENT_KEY_ID", "cle-2")].

(** A payment in clear, and a fact whose creditor is in the old form. *)
Definition sample_old_form : string :=
  "enc.v1." +:+ toBase64url (replicate 12 7
    ++ sample_tag "transaction_events.creditor_iban" "CG39" ++ Toy.byte_codes "CG39").
Definition sample_clear_row : PartyRow :=
  mkPartyRow "t-1" (Some "FR76") (Some "Kongo SARL") (Some "CG39") None 0.
Definition sample_old_row : PartyRow := mkPartyRow "e-1" None None (Some sample_old_form) None 0.
Definition sample_old_clear : PartyRow := mkPartyRow "e-1" None None (Some "CG39") None 0.
Definition sample_unmigrated : Migration :=
  mkMigration (mkPartyStore [sample_clear_row] false false false false)
    (mkPartyStore [sample_old_row] false false false true) forgetKey None blank_world.

Lemma encryption_migration_round_trip_witness :
  ∃ m1 m2, up sample_migration_env sample_unmigrated = (Return tt, m1)
    ∧ down sample_migration_env m1 = (Return tt, m2)
    ∧ Forall2 same_parties (ps_rows (mg_events m2)) [sample_old_clear].
Proof.
  assert (Hring : ∃ cipher, installed_ring sample_migration_env = Return cipher).
  { eexists. vm_compute. reflexivity. }
  destruct Hring as [cipher Hring].
  assert (Ht : Forall2 (row_stored cipher (legacy_key sample_migration_env) PartyTable.transactions)
            [sample_clear_row] [sample_clear_row]).
  { constructor; [|constructor]. split; [done|].
    intros []; [| | |exact I]; (split; [apply Clear; reflexivity|split; [reflexivity|]]);
      apply Nat.leb_le; reflexivity. }
  assert (He : Forall2 (row_stored cipher (legacy_key sample_migration_env) PartyTable.transaction_events)
            [sample_old_row] [sample_old_clear]).
  { constructor; [|constructor]. split; [done|].
    intros []; [exact I|exact I| |exact I]. split; [|split; [vm_compute; reflexivity|]].
    - apply Legacy; [vm_compute; reflexivity|eexists; vm_compute; reflexivity|vm_compute; reflexivity].
    - apply Nat.leb_le. reflexivity. }
  destruct (encryption_migration_round_trip sample_migration_env cipher _ _ sample_unmigrated _ _
              Hring eq_refl eq_refl (NoDup_singleton _) (NoDup_singleton _) Ht He)
    as (rt1 & re1 & m1 & Hup & _ & _ & _ & _ & _ & _ & rt2 & re2 & m2 & Hdown & _ & Hme & _ & _ & Hsame).
  exists m1, m2. split; [exact Hup|]. split; [exact Hdown|]. rewrite Hme. exact Hsame.
Defined.

(** ** Beyond the bound *)

(** A name of [n] characters of three bytes. *)
Definition wide_name (n : nat) : string := String.concat EmptyString (replicate n "€").
Definition sample_wide_row : PartyRow :=
  mkPartyRow "t-1" (Some "FR76") (Some (wide_name 140)) (Some "CG39") None 0.

(** The bound is a real one.  A name of 140 characters of three bytes, which the DTO accepts,
    is 420 bytes long; encrypted, it no longer fits its column, and the migration fails. *)
Example wide_name_stops_the_migration :
  match up sample_migration_env
          (mkMigration (mkPartyStore [sample_wide_row] false false false false)
             (mkPartyStore [sample_old_row] false false false true) forgetKey None blank_world) with
  | (Throw _, _) => fits 140 (wide_name 140) = true
  | (Return _, _) => False
  end.
Proof. vm_compute. reflexivity. Qed.
