(* ===== verification/SchemaMigrations.v ===== *)
(** The migrations of [src/database/migrations/] that move, check or may lose data:
    [2026072502000-SplitPaymentStatuses], [2026072508000-AddStateInvariants],
    [2026072510000-EncryptPartyFields] and [2026072512000-AddEventActorsAndRefundActors].

    A table is the list of its rows, with the columns a migration looks at and the others,
    which it leaves, as a parameter.  A migration runs in one SQL transaction: when a
    statement throws, nothing of it stays. *)
From S2P Require Import Prelude Domain StateMachine Database FieldCipher.
Open Scope Z_scope.

(** * The split of the statuses *)

Module SplitPaymentStatuses.
Section split.
Context {Row : Type}.

(** A payment before: [mobile_money_status], [bank_status]; [row] is what does not move. *)
Record Before := mkBefore {
  bf_row : Row;
  bf_status : TransactionStatus;
  bf_paymentChannel : PaymentChannel;
  bf_mobileMoneyStatus : option ProviderStatus;
  bf_bankStatus : option BankProcessingStatus;
  bf_reconciliationStatus : option ReconciliationStatus
}.

(** And after: three columns more, the provider's renamed. *)
Record After := mkAfter {
  af_row : Row;
  af_status : TransactionStatus;
  af_paymentChannel : PaymentChannel;
  af_providerStatus : option ProviderStatus;
  af_bankStatus : option BankProcessingStatus;
  af_reconciliationStatus : option ReconciliationStatus;
  af_refundStatus : RefundStatus;
  af_caseStatus : CaseStatus;
  af_caseReason : option string
}.

(** The [WHERE] of the last statement, which selects a row when it is true. *)
Definition in_debt (r : After) : bool :=
  match sql_and (sql_and
          (sql_eq (Some (af_paymentChannel r)) PaymentChannel.MOBILE_MONEY)
          (sql_eq (af_providerStatus r) ProviderStatus.CONFIRMED))
          (sql_ne (af_bankStatus r) BankProcessingStatus.COMPLETED)
  with Some true => true | _ => false end.

Definition migration_reason : string :=
  "Reprise de migration : encaissement fournisseur sans virement abouti".

(** The columns with their defaults, then the [UPDATE]. *)
Definition add_columns (r : Before) : After :=
  mkAfter (bf_row r) (bf_status r) (bf_paymentChannel r) (bf_mobileMoneyStatus r) (bf_bankStatus r)
    (bf_reconciliationStatus r) RefundStatus.NOT_REQUIRED CaseStatus.NONE None.
Definition mark_debt (r : After) : After :=
  if in_debt r then
    mkAfter (af_row r) (af_status r) (af_paymentChannel r) (af_providerStatus r) (af_bankStatus r)
      (af_reconciliationStatus r) RefundStatus.REQUIRED CaseStatus.MANUAL_REVIEW (Some migration_reason)
  else r.

Definition up (rows : list Before) : list After := (λ r, mark_debt (add_columns r)) <$> rows.

Definition down (rows : list After) : list Before :=
  (λ r, mkBefore (af_row r) (af_status r) (af_paymentChannel r) (af_providerStatus r) (af_bankStatus r)
          (af_reconciliationStatus r)) <$> rows.

(** The statuses as the state machine reads them. *)
Definition state_of (r : After) : TransactionState :=
  mkTransactionState (af_status r) (af_providerStatus r) (af_bankStatus r) (af_reconciliationStatus r)
    (Some (af_refundStatus r)) (Some (af_caseStatus r)) (af_paymentChannel r).
End split.
Arguments Before Row : clear implicits.
Arguments After Row : clear implicits.
End SplitPaymentStatuses.

(** * The invariants between statuses *)

Module AddStateInvariants.
(** Adding a constraint checks the rows that are there. *)
Fixpoint add_constraints (constraints : list (string * (TransactionState → option bool)))
    (rows : list TransactionState) : Outcome string unit :=
  match constraints with
  | [] => Return tt
  | (name, predicate) :: constraints =>
      if forallb (λ s, check_passes (predicate s)) rows then add_constraints constraints rows
      else Throw name
  end.

Definition up (rows : list TransactionState) : Outcome string unit :=
  add_constraints transaction_checks rows.
End AddStateInvariants.

(** * The width of the party columns *)

Module EncryptPartyFields.
(** A column of a table: its type [varchar(width)], and its value in every row. *)
Record Column := mkColumn {
  co_iban : bool;
  co_width : nat;
  co_values : list (option string)
}.

Definition is_space (c : Ascii.ascii) : bool := Ascii.eqb c " "%char.

(** A text as a [varchar(room)]: an excess of spaces is cut, another is refused. *)
Fixpoint cut (room : nat) (s : string) : option string :=
  match s with
  | EmptyString => Some EmptyString
  | String c rest =>
      if continues c then String c <$> cut room rest
      else match room with
           | O => if all_chars is_space s then Some EmptyString else None
           | S room => String c <$> cut room rest
           end
  end.

Definition cut_value (room : nat) (value : option string) : option (option string) :=
  match value with None => Some None | Some v => Some <$> cut room v end.

Definition alter_width (width : nat) (c : Column) : Outcome string Column :=
  match mapM (cut_value width) (co_values c) with
  | Some values => Return (mkColumn (co_iban c) width values)
  | None => Throw "string_data_right_truncation"
  end.

(** [LIKE 'enc.v1.%'] *)
Definition is_encrypted (value : option string) : bool :=
  match value with
  | Some v => match strip_prefix "enc.v1." v with Some _ => true | None => false end
  | None => false
  end.

Fixpoint alter_all (width : Column → nat) (columns : list Column) : Outcome string (list Column) :=
  match columns with
  | [] => Return []
  | c :: columns =>
      match alter_width (width c) c with
      | Throw e => Throw e
      | Return c =>
          match alter_all width columns with
          | Throw e => Throw e
          | Return columns => Return (c :: columns)
          end
      end
  end.

Definition up (columns : list Column) : Outcome string (list Column) :=
  alter_all (λ _, 512%nat) columns.

Definition narrow (c : Column) : nat := if co_iban c then 34%nat else 140%nat.

Definition down (columns : list Column) : Outcome string (list Column) :=
  if existsb (λ c, existsb is_encrypted (co_values c)) columns then Throw "Retour arriere refuse"
  else alter_all narrow columns.
End EncryptPartyFields.

(** * The actors of a refund and of a fact *)

Module AddEventActors.
Section actors.
Context {R E : Type}.

Record RefundBefore := mkRefundBefore { rb_row : R; rb_requestedBy : option string }.
Record RefundAfter := mkRefundAfter {
  ra_row : R;
  ra_createdBy : option string;
  ra_lastRequestedBy : option string;
  ra_lastApprovedBy : option string
}.
Record EventAfter := mkEventAfter {
  ea_row : E;
  ea_actorId : option string;
  ea_actorRole : option string;
  ea_actionOrigin : option string
}.

(** [UPDATE "refunds" SET "last_requested_by" = "created_by" WHERE "created_by" IS NOT NULL] *)
Definition copy_creator (r : RefundAfter) : RefundAfter :=
  match ra_createdBy r with
  | Some creator => mkRefundAfter (ra_row r) (ra_createdBy r) (Some creator) (ra_lastApprovedBy r)
  | None => r
  end.

Definition up (refunds : list RefundBefore) (events : list E) : list RefundAfter * list EventAfter :=
  ((λ r, copy_creator (mkRefundAfter (rb_row r) (rb_requestedBy r) None None)) <$> refunds,
   (λ e, mkEventAfter e None None None) <$> events).

(** [CHK_transaction_events_actor_context] *)
Definition actor_context (e : EventAfter) : bool :=
  let set {A} (o : option A) := match o with Some _ => true | None => false end in
  (negb (set (ea_actorId e)) && negb (set (ea_actorRole e)) && negb (set (ea_actionOrigin e)))
  || (set (ea_actorId e) && set (ea_actorRole e) && set (ea_actionOrigin e)).

Definition has_actor (e : EventAfter) : bool :=
  match ea_actorId e with Some _ => true | None => false end.
Definition evolved (r : RefundAfter) : bool :=
  match ra_lastApprovedBy r with Some _ => true | None => false end
  || negb (bool_decide (ra_lastRequestedBy r = ra_createdBy r)).

Definition down (refunds : list RefundAfter) (events : list EventAfter) :
    Outcome string (list RefundBefore * list E) :=
  if existsb has_actor events || existsb evolved refunds then Throw "Retour arriere refuse"
  else Return ((λ r, mkRefundBefore (ra_row r) (ra_createdBy r)) <$> refunds, ea_row <$> events).
End actors.
Arguments RefundBefore R : clear implicits.
Arguments RefundAfter R : clear implicits.
Arguments EventAfter E : clear implicits.
End AddEventActors.

(** * Lemmas *)

Lemma cut_spec room s s' :
  EncryptPartyFields.cut room s = Some s' →
  fits room s' = true ∧ ∃ spaces, s = s' +:+ spaces ∧ all_chars EncryptPartyFields.is_space spaces = true.
Proof.
  unfold fits. revert room s'. induction s as [|c s IH]; intros room s'.
  { intros [= <-]. split; [done|by exists ""]. }
  cbn [EncryptPartyFields.cut]. destruct (continues c) eqn:Hc.
  - intros (t & Ht & ->)%fmap_Some. destruct (IH _ _ Ht) as (Hlen & spaces & -> & Hsp).
    split; [by cbn [char_length]; rewrite Hc|by exists spaces].
  - destruct room as [|room].
    + destruct (all_chars EncryptPartyFields.is_space (String c s)) eqn:Hsp; [|done]. intros [= <-].
      split; [done|by exists (String c s)].
    + intros (t & Ht & ->)%fmap_Some. destruct (IH _ _ Ht) as (Hlen & spaces & -> & Hsp).
      split; [by cbn [char_length]; rewrite Hc|by exists spaces].
Qed.

(** A value as it was, or without spaces it ended with. *)
Definition kept (before after : option string) : Prop :=
  match before, after with
  | Some v, Some v' => ∃ spaces, v = v' +:+ spaces ∧ all_chars EncryptPartyFields.is_space spaces = true
  | None, None => True
  | _, _ => False
  end.

Lemma cut_value_spec room v v' :
  EncryptPartyFields.cut_value room v = Some v' → kept v v' ∧ fits_opt room v' = true.
Proof.
  destruct v as [v|]; cbn; [|by intros [= <-]]. intros (t & Ht & ->)%fmap_Some.
  by destruct (cut_spec _ _ _ Ht).
Qed.

Lemma alter_width_spec width c c' :
  EncryptPartyFields.alter_width width c = Return c' →
  EncryptPartyFields.co_iban c' = EncryptPartyFields.co_iban c
  ∧ EncryptPartyFields.co_width c' = width
  ∧ Forall2 kept (EncryptPartyFields.co_values c) (EncryptPartyFields.co_values c')
  ∧ Forall (λ v, fits_opt width v = true) (EncryptPartyFields.co_values c').
Proof.
  unfold EncryptPartyFields.alter_width. destruct (mapM _ _) as [values|] eqn:Hv; [|done].
  intros [= <-]. apply mapM_Some in Hv. cbn. split; [done|]. split; [done|]. split.
  - eapply Forall2_impl; [exact Hv|]. intros v v' H. by apply (cut_value_spec width).
  - eapply Forall2_Forall_r; [exact Hv|]. apply Forall_forall. intros v _ v' H.
    by apply (cut_value_spec width v).
Qed.

(** What a change of width keeps, column by column. *)
Definition narrowed (width : EncryptPartyFields.Column → nat) (c c' : EncryptPartyFields.Column) : Prop :=
  EncryptPartyFields.co_iban c' = EncryptPartyFields.co_iban c
  ∧ EncryptPartyFields.co_width c' = width c
  ∧ Forall2 kept (EncryptPartyFields.co_values c) (EncryptPartyFields.co_values c')
  ∧ Forall (λ v, fits_opt (width c) v = true) (EncryptPartyFields.co_values c').

Lemma alter_all_spec width columns columns' :
  EncryptPartyFields.alter_all width columns = Return columns' →
  Forall2 (narrowed width) columns columns'.
Proof.
  revert columns'. induction columns as [|c columns IH]; intros columns'; cbn.
  { by intros [= <-]. }
  destruct (EncryptPartyFields.alter_width _ _) as [c1|] eqn:Hc; [|done].
  destruct (EncryptPartyFields.alter_all _ _) as [cs|] eqn:Hcs; [|done]. intros [= <-].
  constructor; [by apply alter_width_spec|by apply IH].
Qed.

(** ** The split *)

Section split_lemmas.
Import SplitPaymentStatuses.
Context {Row : Type}.

Lemma in_debt_spec (r : After Row) :
  in_debt r = true ↔
  af_paymentChannel r = PaymentChannel.MOBILE_MONEY
  ∧ af_providerStatus r = Some ProviderStatus.CONFIRMED
  ∧ ∃ b, af_bankStatus r = Some b ∧ b ≠ BankProcessingStatus.COMPLETED.
Proof.
  unfold in_debt, sql_ne, sql_eq.
  destruct r as [? ? [] [[]|] [[]|] ? ? ? ?]; cbn; split; try done;
    try (intros _; split_and!; [done..|by eexists]);
    intros (H1 & H2 & b & H3 & H4); simplify_eq; done.
Qed.

Lemma split_round_trip (rows : list (Before Row)) : down (up rows) = rows.
Proof.
  induction rows as [|r rows IH]; [done|]. unfold up, down in *. cbn [fmap list_fmap].
  f_equal; [|exact IH]. unfold mark_debt. by destruct r; destruct (in_debt _).
Qed.

(** The statuses of a payment before, as the invariants read them after. *)
Lemma marked_checks (r : Before Row) :
  failed_check (state_of (mark_debt (add_columns r))) = None
  ↔ check_passes (CHK_bank_requires_provider (state_of (add_columns r))) = true
    ∧ check_passes (CHK_matched_needs_both_legs (state_of (add_columns r))) = true
    ∧ check_passes (CHK_blocked_bank_needs_gap (state_of (add_columns r))) = true.
Proof.
  unfold mark_debt. destruct (in_debt (add_columns r)) eqn:Hd.
  - apply in_debt_spec in Hd as (Hch & Hp & b & Hb & Hne). destruct r as [row s ch p bk rec].
    cbn in Hch, Hp, Hb. subst. cbn.
    destruct b, rec as [[]|]; split; try (intros H; split_and!; done || discriminate H);
      intros (? & ? & ?); done.
  - destruct r as [row s ch p bk rec]. cbn.
    destruct ch, p as [[]|], bk as [[]|], rec as [[]|]; split;
      try (intros H; split_and!; done || discriminate H); intros (? & ? & ?); done.
Qed.
End split_lemmas.

(** ** The constraints *)

Lemma add_constraints_return constraints rows :
  AddStateInvariants.add_constraints constraints rows = Return tt
  ↔ Forall (λ c, Forall (λ s, check_passes (c.2 s) = true) rows) constraints.
Proof.
  induction constraints as [|[name predicate] constraints IH]; cbn; [by split|].
  rewrite Forall_cons_iff. cbn. destruct (forallb _ rows) eqn:Hall.
  - rewrite IH. split; [|by intros [_ ?]]. intros H. split; [|done].
    apply Forall_forall. intros s Hs. rewrite forallb_forall in Hall. by apply Hall, list_elem_of_In.
  - split; [done|]. intros [H _]. apply not_true_iff_false in Hall. exfalso. apply Hall.
    apply forallb_forall. intros s Hs%list_elem_of_In. rewrite Forall_forall in H. by apply H.
Qed.

Lemma invariants_accepted rows :
  AddStateInvariants.up rows = Return tt ↔ Forall (λ s, failed_check s = None) rows.
Proof.
  unfold AddStateInvariants.up. rewrite add_constraints_return, !Forall_forall. split.
  - intros H s Hs. apply failed_check_None, Forall_forall. intros c Hc.
    specialize (H c Hc). rewrite Forall_forall in H. by apply H.
  - intros H c Hc. apply Forall_forall. intros s Hs. specialize (H s Hs).
    apply failed_check_None in H. rewrite Forall_forall in H. by apply H.
Qed.

(** ** The actors *)

Section actors_lemmas.
Import AddEventActors.
Context {R E : Type}.

Lemma actors_up_down (refunds : list (RefundBefore R)) (events : list E) :
  down (up refunds events).1 (up refunds events).2 = Return (refunds, events).
Proof.
  unfold down, up. cbn [fst snd].
  assert (He : existsb has_actor ((λ e : E, mkEventAfter e None None None) <$> events) = false)
    by (induction events; done).
  assert (Hr : existsb evolved ((λ r : RefundBefore R,
      copy_creator (mkRefundAfter (rb_row r) (rb_requestedBy r) None None)) <$> refunds) = false).
  { induction refunds as [|[row [creator|]] refunds IH]; [done|..]; cbn; rewrite IH; [|done].
    unfold evolved. cbn. by rewrite bool_decide_eq_true_2. }
  rewrite He, Hr. cbn [orb]. f_equal. f_equal.
  - induction refunds as [|[row [creator|]] refunds IH]; [done|..]; cbn in *; f_equal; apply IH.
    all: by apply orb_false_iff in Hr as [_ ?].
  - clear He. induction events as [|e events IH]; [done|]. cbn. by f_equal.
Qed.

Lemma actors_down_up (refunds : list (RefundAfter R)) (events : list (EventAfter E)) before :
  Forall (λ e, actor_context e = true) events →
  down refunds events = Return before → up before.1 before.2 = (refunds, events).
Proof.
  intros Hctx. unfold down. destruct (existsb has_actor events) eqn:He; [done|].
  destruct (existsb evolved refunds) eqn:Hr; [done|]. intros [= <-]. unfold up. cbn [fst snd].
  f_equal.
  - clear He Hctx. induction refunds as [|r refunds IH]; [done|]. cbn in Hr |- *.
    apply orb_false_iff in Hr as [Hr Hrest]. f_equal; [|by apply IH].
    destruct r as [row creator requested [approver|]]; [done|]. unfold evolved in Hr. cbn in *.
    apply negb_false_iff, bool_decide_eq_true in Hr as ->. by destruct creator.
  - clear Hr. induction Hctx as [|e events Hc _ IH]; [done|]. cbn in He |- *.
    apply orb_false_iff in He as [He Hrest]. f_equal; [|by apply IH].
    by destruct e as [row [a|] [b|] [c|]].
Qed.
End actors_lemmas.

(** * Properties *)

(** The split of the statuses.  A payment becomes a debt under review exactly when its
    collection was confirmed and its bank leg is known and not completed; the other payments
    owe nothing; going back gives the former table; and the constraints added later are
    accepted exactly when no payment broke the ones on its bank leg, its match and its
    block: what the migration marks never stands in their way. *)
Theorem split_marks_debts {Row : Type} (rows : list (SplitPaymentStatuses.Before Row)) :
  Forall2 (λ r r',
    SplitPaymentStatuses.af_refundStatus r'
      = (if decide (SplitPaymentStatuses.bf_paymentChannel r = PaymentChannel.MOBILE_MONEY
                    ∧ SplitPaymentStatuses.bf_mobileMoneyStatus r = Some ProviderStatus.CONFIRMED
                    ∧ SplitPaymentStatuses.bf_bankStatus r ≠ None
                    ∧ SplitPaymentStatuses.bf_bankStatus r ≠ Some BankProcessingStatus.COMPLETED)
         then RefundStatus.REQUIRED else RefundStatus.NOT_REQUIRED))
    rows (SplitPaymentStatuses.up rows)
  ∧ SplitPaymentStatuses.down (SplitPaymentStatuses.up rows) = rows
  ∧ (AddStateInvariants.up (SplitPaymentStatuses.state_of <$> SplitPaymentStatuses.up rows) = Return tt
     ↔ Forall (λ r, let s := SplitPaymentStatuses.state_of (SplitPaymentStatuses.add_columns r) in
         check_passes (CHK_bank_requires_provider s) = true
         ∧ check_passes (CHK_matched_needs_both_legs s) = true
         ∧ check_passes (CHK_blocked_bank_needs_gap s) = true) rows).
Proof.
  split; [|split].
  - apply Forall2_fmap_r, Forall_Forall2_diag, Forall_forall. intros r _.
    unfold compose, SplitPaymentStatuses.mark_debt. cbn beta.
    destruct (SplitPaymentStatuses.in_debt (SplitPaymentStatuses.add_columns r)) eqn:Hd; cbn [SplitPaymentStatuses.af_refundStatus].
    + apply in_debt_spec in Hd as (Hch & Hp & b & Hb & Hne). cbn in Hch, Hp, Hb.
      rewrite decide_True; [done|]. rewrite Hb. split_and!; [done..|congruence].
    + rewrite decide_False; [done|]. intros (Hch & Hp & Hb & Hne).
      apply not_true_iff_false in Hd. apply Hd, in_debt_spec. cbn. split_and!; [done..|].
      destruct (SplitPaymentStatuses.bf_bankStatus r) as [b|]; [|done]. exists b. split; congruence.
  - apply split_round_trip.
  - rewrite invariants_accepted. unfold SplitPaymentStatuses.up. rewrite !Forall_fmap.
    apply Forall_iff. intros r. apply marked_checks.
Qed.

(** A rollback that is accepted loses nothing.  Giving the actors of facts and refunds back
    to the former schema, then migrating again, restores every column; a rollback that
    would lose an actor is refused.  Narrowing the party columns keeps every value, the
    spaces it ends with apart, and is refused while one is encrypted. *)
Theorem accepted_rollback_loses_nothing {R E : Type} (refunds : list (AddEventActors.RefundAfter R))
    (events : list (AddEventActors.EventAfter E)) columns :
  Forall (λ e, AddEventActors.actor_context e = true) events →
  match AddEventActors.down refunds events with
  | Return before => AddEventActors.up before.1 before.2 = (refunds, events)
  | Throw _ => Exists (λ e, AddEventActors.ea_actorId e ≠ None) events
               ∨ Exists (λ r, AddEventActors.ra_lastApprovedBy r ≠ None
                    ∨ AddEventActors.ra_lastRequestedBy r ≠ AddEventActors.ra_createdBy r) refunds
  end
  ∧ match EncryptPartyFields.down columns with
    | Return columns' =>
        Forall2 (narrowed EncryptPartyFields.narrow) columns columns'
        ∧ Forall (λ c, Forall (λ v, EncryptPartyFields.is_encrypted v = false)
                         (EncryptPartyFields.co_values c)) columns
    | Throw _ => True
    end.
Proof.
  intros Hctx. split.
  - destruct (AddEventActors.down refunds events) as [before|e] eqn:Hdown; [by apply actors_down_up|].
    unfold AddEventActors.down in Hdown. destruct (existsb AddEventActors.has_actor events) eqn:He.
    + left. apply existsb_exists in He as (ev & Hin & Ha). apply Exists_exists. exists ev.
      split; [by apply list_elem_of_In|]. unfold AddEventActors.has_actor in Ha.
      by destruct (AddEventActors.ea_actorId ev).
    + destruct (existsb AddEventActors.evolved refunds) eqn:Hr; [|done]. right.
      apply existsb_exists in Hr as (r & Hin & Ha). apply Exists_exists. exists r.
      split; [by apply list_elem_of_In|]. unfold AddEventActors.evolved in Ha.
      destruct (AddEventActors.ra_lastApprovedBy r); [by left|right].
      by apply negb_true_iff, bool_decide_eq_false in Ha.
  - unfold EncryptPartyFields.down. destruct (existsb _ columns) eqn:He; [done|].
    destruct (EncryptPartyFields.alter_all _ _) as [columns'|] eqn:Hall; [|done].
    split; [by apply alter_all_spec|]. apply Forall_forall. intros c Hc. apply Forall_forall. intros v Hv.
    apply not_true_iff_false. intros Henc. apply not_true_iff_false in He. apply He.
    apply existsb_exists. exists c. split; [by apply list_elem_of_In|].
    apply existsb_exists. exists v. split; [by apply list_elem_of_In|done].
Qed.

(** * What the migrations do not see *)

Definition sample_refunded : SplitPaymentStatuses.After unit :=
  SplitPaymentStatuses.mkAfter tt TransactionStatus.FAILED PaymentChannel.MOBILE_MONEY
    (Some ProviderStatus.CONFIRMED) (Some BankProcessingStatus.FAILED)
    (Some ReconciliationStatus.MISMATCH) RefundStatus.COMPLETED CaseStatus.RESOLVED None.

(** Rolled back and migrated again, a payment that was refunded owes its refund again. *)
Example rollback_reopens_debt :
  SplitPaymentStatuses.af_refundStatus <$>
    SplitPaymentStatuses.up (SplitPaymentStatuses.down [sample_refunded]) = [RefundStatus.REQUIRED].
Proof. reflexivity. Qed.

(** A payment collected whose bank leg is null is not marked: the condition is unknown. *)
Example unknown_leg_is_not_marked :
  SplitPaymentStatuses.af_refundStatus <$>
    SplitPaymentStatuses.up [SplitPaymentStatuses.mkBefore tt TransactionStatus.PENDING
      PaymentChannel.MOBILE_MONEY (Some ProviderStatus.CONFIRMED) None None] = [RefundStatus.NOT_REQUIRED].
Proof. reflexivity. Qed.

(** * Witness *)

Lemma accepted_rollback_loses_nothing_witness :
  let refunds := [AddEventActors.mkRefundAfter tt (Some "ops") (Some "ops") None] in
  let events := [AddEventActors.mkEventAfter tt None None None] in
  ∃ before, AddEventActors.down refunds events = Return before
    ∧ AddEventActors.up before.1 before.2 = (refunds, events).
Proof.
  intros refunds events.
  destruct (accepted_rollback_loses_nothing refunds events []) as [H _]; [by repeat constructor|].
  destruct (AddEventActors.down refunds events) as [before|e] eqn:Hd; [|discriminate Hd].
  exists before. split; [reflexivity|exact H].
Defined.
