(* ===== verification/RestoreVerification.v ===== *)
(** The consistency check after a restoration:
    [src/observability/restore-verification.service.ts].

    Every batch marked anchored in the database is compared with what the chain
    published for it: its root, and the number of its leaves against the number of
    facts the restored database holds.  The answers of the chain are a function of
    the calls made so far; [readings] lists them, and the verdict is shown to be the
    one the answers call for.  The dates of the report and its log lines are left out. *)
From S2P Require Import Prelude Domain External Database Ports EventLedger ChainVerification.
Open Scope Z_scope.

(** * The report *)

Module AuditVerdict.
Inductive AuditVerdict :=
  | COMPLETE | INCOMPLETE | ROOT_MISMATCH | ABSENT_ON_CHAIN | CHAIN_UNAVAILABLE.
#[export] Instance eq_dec : EqDecision AuditVerdict.
Proof. solve_decision. Defined.
End AuditVerdict.
Abbreviation AuditVerdict := AuditVerdict.AuditVerdict.
#[export] Existing Instance AuditVerdict.eq_dec.

Module RestoreVerdict.
Inductive RestoreVerdict :=
  | CONSISTENT | DATA_LOSS | CHAIN_MISMATCH | CHAIN_UNAVAILABLE.
#[export] Instance eq_dec : EqDecision RestoreVerdict.
Proof. solve_decision. Defined.
End RestoreVerdict.
Abbreviation RestoreVerdict := RestoreVerdict.RestoreVerdict.
#[export] Existing Instance RestoreVerdict.eq_dec.

Record BatchAudit := mkBatchAudit {
  au_batchId : string;
  au_anchoredAt : option Z;
  au_publishedLeafCount : option Z;
  au_restoredLeafCount : Z;
  au_missing : Z;
  au_verdict : AuditVerdict
}.

Record RestoreReport := mkRestoreReport {
  rr_verdict : RestoreVerdict;
  rr_batchesExamined : Z;
  rr_eventsMissing : Z;
  rr_batchesMismatched : Z;
  rr_batches : list BatchAudit;
  rr_findings : list string
}.

(** * Reading the database *)

(** [batches.find({ where: { status: ANCHORED }, order: { anchoredAt: 'ASC' } })]:
    PostgreSQL puts the unknown dates last. *)
Definition anchored_batches (d : Db) : list AnchorBatch :=
  let anchored := List.filter (λ b, is_eq (ab_status b) BatchStatus.ANCHORED) (db_batches d) in
  let dated := λ b, bool_decide (is_Some (ab_anchoredAt b)) in
  sort_by (λ b, default 0 (ab_anchoredAt b)) (List.filter dated anchored)
  ++ List.filter (λ b, negb (dated b)) anchored.

Definition in_batch (batchId : string) (e : TransactionEvent) : bool :=
  bool_decide (ev_batchId e = Some batchId).

(** [events.countBy({ batchId })] *)
Definition count_facts (batchId : string) (d : Db) : Z :=
  Z.of_nat (length (List.filter (in_batch batchId) (db_events d))).

Section RestoreVerification.
Context {HC : ChainClient}.

(** * One batch *)

Definition audited (batch : AnchorBatch) (restored : Z) (published : option Z) (missing : Z)
    (verdict : AuditVerdict) : BatchAudit :=
  mkBatchAudit (ab_id batch) (ab_anchoredAt batch) published restored missing verdict.

Definition auditBatch (batch : AnchorBatch) (restored : Z) : App BatchAudit :=
  try_catch
    (onChain ← getBatch (ab_id batch);
     match onChain with
     | None => mret (audited batch restored None 0 AuditVerdict.ABSENT_ON_CHAIN)
     | Some onChain =>
         let published := oc_leafCount onChain in
         if negb (str_eqb (toLowerCase (oc_merkleRoot onChain)) (toLowerCase (ab_merkleRoot batch)))
         then mret (audited batch restored (Some published) 0 AuditVerdict.ROOT_MISMATCH)
         else mret (audited batch restored (Some published) (Z.max 0 (published - restored))
                (if Z.eqb published restored then AuditVerdict.COMPLETE
                 else AuditVerdict.INCOMPLETE))
     end)
    (λ _, mret (audited batch restored None 0 AuditVerdict.CHAIN_UNAVAILABLE)).

(** * The whole base *)

(** The variables of the loop of [verify]. *)
Record Tally := mkTally {
  ta_audits : list BatchAudit;
  ta_chainUnavailable : bool;
  ta_eventsMissing : Z;
  ta_batchesMismatched : Z
}.

Definition diverges (audit : BatchAudit) : bool :=
  is_eq (au_verdict audit) AuditVerdict.ABSENT_ON_CHAIN
  || is_eq (au_verdict audit) AuditVerdict.ROOT_MISMATCH
  || (is_eq (au_verdict audit) AuditVerdict.INCOMPLETE && Z.eqb (au_missing audit) 0).

Definition add_audit (t : Tally) (audit : BatchAudit) : Tally := {|
  ta_audits := ta_audits t ++ [audit];
  ta_chainUnavailable :=
    if is_eq (au_verdict audit) AuditVerdict.CHAIN_UNAVAILABLE then true else ta_chainUnavailable t;
  ta_eventsMissing :=
    if 0 <? au_missing audit then ta_eventsMissing t + au_missing audit else ta_eventsMissing t;
  ta_batchesMismatched :=
    if diverges audit then ta_batchesMismatched t + 1 else ta_batchesMismatched t
|}.

Fixpoint audit_all (batches : list AnchorBatch) (t : Tally) : App Tally :=
  match batches with
  | [] => mret t
  | batch :: batches =>
      d ← get_db;
      audit ← auditBatch batch (count_facts (ab_id batch) d);
      audit_all batches (add_audit t audit)
  end.

Definition restore_findings (examined : Z) (t : Tally) : list string :=
  (if 0 <? ta_batchesMismatched t then
     [pretty (ta_batchesMismatched t) +:+ " lot(s) marque(s) ancre(s) en base divergent de la chaine : "
      +:+ "publication absente, racine differente ou nombre de feuilles local superieur. "
      +:+ "Ne remettez pas le service en ligne avant investigation."] else [])
  ++ (if 0 <? ta_eventsMissing t then
     [pretty (ta_eventsMissing t) +:+ " fait(s) publie(s) sur la chaine sont absents de la base. "
      +:+ "La sauvegarde restauree est anterieure a ces ancrages : rejouez les journaux "
      +:+ "de transaction jusqu au dernier lot publie avant de remettre le service en ligne.";
      "Ne pas confondre avec une alteration : les faits ne sont pas modifies, ils manquent. "
      +:+ "Une attaque laisserait des empreintes qui ne correspondent plus, pas des lots incomplets."]
     else [])
  ++ (if ta_chainUnavailable t then
     ["Chaine injoignable : la completude n a pas pu etre etablie. "
      +:+ "Ne remettez pas le service en ligne sur la foi de ce rapport."] else [])
  ++ (if Z.eqb (ta_batchesMismatched t) 0 && Z.eqb (ta_eventsMissing t) 0
         && negb (ta_chainUnavailable t) then
     ["Les " +:+ pretty examined +:+ " lot(s) ancre(s) sont complets : la base contient tout ce "
      +:+ "qui a ete publie. La restauration peut etre consideree comme fidele."] else []).

Definition restore_verdict (t : Tally) : RestoreVerdict :=
  if 0 <? ta_batchesMismatched t then RestoreVerdict.CHAIN_MISMATCH
  else if 0 <? ta_eventsMissing t then RestoreVerdict.DATA_LOSS
  else if ta_chainUnavailable t then RestoreVerdict.CHAIN_UNAVAILABLE
  else RestoreVerdict.CONSISTENT.

Definition verify_restore : App RestoreReport :=
  d ← get_db;
  let anchored := anchored_batches d in
  t ← audit_all anchored (mkTally [] false 0 0);
  mret (mkRestoreReport (restore_verdict t) (Z.of_nat (length anchored)) (ta_eventsMissing t)
          (ta_batchesMismatched t) (ta_audits t) (restore_findings (Z.of_nat (length anchored)) t)).
End RestoreVerification.

(** * Lemmas *)

(** ** The answers of the chain *)

Definition Reading : Type := AnchorBatch * Outcome GatewayError (option OnChainBatch).

Section readings.
Context {HC : ChainClient}.

(** The answer the chain gives for each batch, every call coming after the others. *)
Fixpoint readings (history : list ExternalCall) (batches : list AnchorBatch) : list Reading :=
  match batches with
  | [] => []
  | batch :: batches =>
      let history := history ++ [CallGetBatch (ab_id batch)] in
      (batch, chain_getBatch history (ab_id batch)) :: readings history batches
  end.

Definition same_root (batch : AnchorBatch) (onChain : OnChainBatch) : bool :=
  str_eqb (toLowerCase (oc_merkleRoot onChain)) (toLowerCase (ab_merkleRoot batch)).

Definition faithful (d : Db) (r : Reading) : Prop :=
  ∃ oc, r.2 = Return (Some oc) ∧ same_root r.1 oc = true
    ∧ oc_leafCount oc = count_facts (ab_id r.1) d.
Definition lost (d : Db) (r : Reading) : Prop :=
  ∃ oc, r.2 = Return (Some oc) ∧ same_root r.1 oc = true
    ∧ count_facts (ab_id r.1) d < oc_leafCount oc.
Definition divergent (d : Db) (r : Reading) : Prop :=
  r.2 = Return None
  ∨ ∃ oc, r.2 = Return (Some oc)
      ∧ (same_root r.1 oc = false ∨ oc_leafCount oc < count_facts (ab_id r.1) d).
Definition unread (r : Reading) : Prop := ∃ e, r.2 = Throw e.

(** The audit an answer calls for. *)
Definition audit_of (d : Db) (r : Reading) : BatchAudit :=
  let restored := count_facts (ab_id r.1) d in
  match r.2 with
  | Return (Some oc) =>
      if negb (same_root r.1 oc)
      then audited r.1 restored (Some (oc_leafCount oc)) 0 AuditVerdict.ROOT_MISMATCH
      else audited r.1 restored (Some (oc_leafCount oc)) (Z.max 0 (oc_leafCount oc - restored))
             (if Z.eqb (oc_leafCount oc) restored then AuditVerdict.COMPLETE
              else AuditVerdict.INCOMPLETE)
  | Return None => audited r.1 restored None 0 AuditVerdict.ABSENT_ON_CHAIN
  | Throw _ => audited r.1 restored None 0 AuditVerdict.CHAIN_UNAVAILABLE
  end.

Lemma readings_batches history batches : (readings history batches).*1 = batches.
Proof.
  revert history. induction batches as [|b batches IH]; intros history; [done|]. simpl. by rewrite IH.
Qed.

Lemma auditBatch_run batch w :
  auditBatch batch (count_facts (ab_id batch) (w_db w)) w
  = (Return (audit_of (w_db w)
       (batch, chain_getBatch (w_calls w ++ [CallGetBatch (ab_id batch)]) (ab_id batch))),
     w <| w_calls := w_calls w ++ [CallGetBatch (ab_id batch)] |>).
Proof.
  unfold auditBatch, try_catch, getBatch, audit_of, same_root, mbind, Eff_bind. rewrite ask_eq.
  destruct (chain_getBatch _ _) as [[oc|]|e]; [|done..]. cbn [fst snd].
  by destruct (negb _).
Qed.

Lemma audit_all_run batches t w :
  ∃ w', audit_all batches t w
      = (Return (fold_left add_audit (audit_of (w_db w) <$> readings (w_calls w) batches) t), w')
    ∧ w_db w' = w_db w.
Proof.
  revert t w. induction batches as [|b batches IH]; intros t w; [by exists w|].
  cbn [audit_all]. erewrite bind_return by reflexivity.
  erewrite bind_return by apply auditBatch_run.
  edestruct IH as (w' & -> & Hdb). exists w'. split; [done|exact Hdb].
Qed.

(** ** What the loop adds up *)

Definition total {A} (f : A → Z) (l : list A) : Z := foldr (λ a n, f a + n) 0 l.

Lemma tally_sums audits t :
  let t' := fold_left add_audit audits t in
  ta_batchesMismatched t' = ta_batchesMismatched t + Z.of_nat (length (List.filter diverges audits))
  ∧ ta_eventsMissing t' = ta_eventsMissing t + total (λ a, Z.max 0 (au_missing a)) audits
  ∧ ta_chainUnavailable t' = ta_chainUnavailable t
      || existsb (λ a, is_eq (au_verdict a) AuditVerdict.CHAIN_UNAVAILABLE) audits
  ∧ ta_audits t' = ta_audits t ++ audits.
Proof.
  revert t. induction audits as [|a audits IH]; intros t; simpl.
  { rewrite app_nil_r, orb_false_r. split_and!; [lia..|done|done]. }
  destruct (IH (add_audit t a)) as (-> & -> & -> & ->). unfold add_audit. simpl.
  split_and!.
  - destruct (diverges a); simpl; lia.
  - destruct (Z.ltb_spec 0 (au_missing a)); lia.
  - destruct (is_eq (au_verdict a) _); [by rewrite orb_true_r|done].
  - by rewrite <- app_assoc.
Qed.
End readings.

(** ** The verdict the answers call for *)

Section verdict.
Context {HC : ChainClient} (d : Db).

Lemma count_facts_pos id : 0 <= count_facts id d.
Proof. unfold count_facts. lia. Qed.

(** Each answer falls in one class, and its audit says which. *)
Lemma audit_of_classes r :
  (diverges (audit_of d r) = true ↔ divergent d r)
  ∧ (0 < Z.max 0 (au_missing (audit_of d r)) ↔ lost d r)
  ∧ (is_eq (au_verdict (audit_of d r)) AuditVerdict.CHAIN_UNAVAILABLE = true ↔ unread r)
  ∧ (faithful d r ∨ lost d r ∨ divergent d r ∨ unread r).
Proof.
  destruct r as [b [[oc|]|e]]; unfold audit_of, diverges, faithful, lost, divergent, unread; cbn [fst snd].
  - destruct (same_root b oc) eqn:Hroot; cbn [negb].
    + cbn [audited au_verdict au_missing].
      destruct (Z.eqb_spec (oc_leafCount oc) (count_facts (ab_id b) d)) as [Heq|Hne].
      * split_and!; try (split; [discriminate|by intros [? ?]]).
        -- split; [discriminate|]. intros [?|(oc' & [= <-] & [?|?])]; [done|congruence|lia].
        -- split; [lia|]. intros (oc' & [= <-] & _ & ?). lia.
        -- left. by exists oc.
      * destruct (Z.eqb_spec (Z.max 0 (oc_leafCount oc - count_facts (ab_id b) d)) 0) as [Hle|Hgt].
        -- split_and!; try (split; [discriminate|by intros [? ?]]).
           ++ split; [|done]. intros _. right. exists oc. split; [done|]. right. lia.
           ++ split; [lia|]. intros (oc' & [= <-] & _ & ?). lia.
           ++ right; right; left. right. exists oc. split; [done|]. right. lia.
        -- split_and!; try (split; [discriminate|by intros [? ?]]).
           ++ split; [discriminate|]. intros [?|(oc' & [= <-] & [?|?])]; [done|congruence|lia].
           ++ split; [|lia]. intros _. exists oc. split_and!; [done..|lia].
           ++ right; left. exists oc. split_and!; [done..|lia].
    + split_and!; try (split; [discriminate|by intros [? ?]]).
      * split; [|done]. intros _. right. exists oc. auto.
      * split; [simpl; lia|]. intros (oc' & [= <-] & ? & _). congruence.
      * right; right; left. right. exists oc. auto.
  - split_and!; try (split; [discriminate|by intros [? ?]]).
    + split; [by left|done].
    + split; [simpl; lia|]. by intros (? & ? & _).
    + right; right; left. by left.
  - split_and!.
    + split; [discriminate|]. by intros [?|(? & ? & _)].
    + split; [simpl; lia|]. by intros (? & ? & _).
    + split; [intros _; by exists e|done].
    + right; right; right. by exists e.
Qed.

Lemma total_pos {A} (f : A → Z) l : (∀ a, 0 <= f a) → 0 <= total f l.
Proof. intros Hf. induction l as [|a l IH]; simpl; [lia|]. specialize (Hf a). lia. Qed.

Lemma total_exists {A} (f : A → Z) l : (∀ a, 0 <= f a) → 0 < total f l ↔ Exists (λ a, 0 < f a) l.
Proof.
  intros Hf. induction l as [|a l IH]; simpl; [rewrite Exists_nil; lia|].
  rewrite Exists_cons, <- IH. pose proof (total_pos f l Hf). specialize (Hf a). lia.
Qed.

Lemma filter_exists {A} (p : A → bool) l :
  0 < Z.of_nat (length (List.filter p l)) ↔ Exists (λ a, p a = true) l.
Proof.
  induction l as [|a l IH]; simpl; [rewrite Exists_nil; lia|].
  rewrite Exists_cons, <- IH. destruct (p a); simpl; [split; [by left|lia]|].
  split; [by right|]. by intros [?|?].
Qed.

Lemma existsb_exists_rel {A} (p : A → bool) l : existsb p l = true ↔ Exists (λ a, p a = true) l.
Proof.
  induction l as [|a l IH]; simpl; [by rewrite Exists_nil|].
  by rewrite Exists_cons, orb_true_iff, IH.
Qed.

(** The three counters, in terms of the answers. *)
Lemma tally_answers rs :
  let t := fold_left add_audit (audit_of d <$> rs) (mkTally [] false 0 0) in
  (0 < ta_batchesMismatched t ↔ Exists (divergent d) rs)
  ∧ (0 < ta_eventsMissing t ↔ Exists (lost d) rs)
  ∧ (ta_chainUnavailable t = true ↔ Exists unread rs).
Proof.
  intros t. unfold t. destruct (tally_sums (audit_of d <$> rs) (mkTally [] false 0 0))
    as (-> & -> & -> & _). cbn [ta_batchesMismatched ta_eventsMissing ta_chainUnavailable].
  rewrite !Z.add_0_l, filter_exists, total_exists, orb_false_l, existsb_exists_rel by lia.
  rewrite !Exists_fmap. unfold compose.
  split_and!; (apply Exists_proper; [|done]); intros r; apply audit_of_classes.
Qed.

Lemma answers_cover rs x :
  x ∈ rs → faithful d x ∨ unread x ∨ Exists (divergent d) rs ∨ Exists (lost d) rs.
Proof.
  intros Hx. rewrite !Exists_exists. destruct (audit_of_classes x) as (_ & _ & _ & ?).
  intuition eauto.
Qed.

Lemma consistent_answers rs :
  restore_verdict (fold_left add_audit (audit_of d <$> rs) (mkTally [] false 0 0))
    = RestoreVerdict.CONSISTENT → Forall (faithful d) rs.
Proof.
  destruct (tally_answers rs) as (Hdiv & Hlost & Hun). set (t := fold_left _ _ _) in *. clearbody t.
  unfold restore_verdict. destruct (Z.ltb_spec 0 (ta_batchesMismatched t)); [done|].
  destruct (Z.ltb_spec 0 (ta_eventsMissing t)); [done|].
  destruct (ta_chainUnavailable t) eqn:Hc; [done|]. intros _. apply Forall_forall. intros x Hx.
  assert (Hnu : ¬ Exists unread rs) by (rewrite <- Hun; done). rewrite Exists_exists in Hnu.
  destruct (answers_cover rs x Hx) as [?|[?|[Hx2%Hdiv|Hx2%Hlost]]]; [done|exfalso; eauto|lia..].
Qed.
End verdict.

(** ** Facts that a restoration lost *)

(** The base without the facts [keep] drops. *)
Definition snapshot (keep : TransactionEvent → bool) (d : Db) : Db :=
  d <| db_events := List.filter keep (db_events d) |>.

(** The facts of anchored batches that are dropped. *)
Definition lost_facts (keep : TransactionEvent → bool) (d : Db) : list TransactionEvent :=
  List.filter (λ e, negb (keep e) && existsb (λ b, in_batch (ab_id b) e) (anchored_batches d))
    (db_events d).

Lemma anchored_batches_perm d :
  anchored_batches d ≡ₚ List.filter (λ b, is_eq (ab_status b) BatchStatus.ANCHORED) (db_batches d).
Proof. unfold anchored_batches. rewrite sort_by_perm. by apply filter_split. Qed.

Lemma anchored_batches_nodup d :
  NoDup (ab_id <$> db_batches d) → NoDup (ab_id <$> anchored_batches d).
Proof.
  intros Hd. rewrite (anchored_batches_perm d).
  eapply sublist_NoDup; [exact Hd|]. apply fmap_sublist, filter_sublist.
Qed.

Lemma count_snapshot keep d id :
  count_facts id d
  = count_facts id (snapshot keep d)
    + Z.of_nat (length (List.filter (λ e, negb (keep e) && in_batch id e) (db_events d))).
Proof.
  unfold count_facts, snapshot. cbn [db_events assign].
  induction (db_events d) as [|e events IH]; [done|]. cbn [List.filter].
  destruct (keep e), (in_batch id e) eqn:Hin; cbn [List.filter negb andb]; rewrite ?Hin; cbn [length]; lia.
Qed.

(** A fact is in one batch at most. *)
Lemma total_dropped (drop : TransactionEvent → bool) ids events :
  NoDup ids →
  total (λ id, Z.of_nat (length (List.filter (λ e, drop e && in_batch id e) events))) ids
  = Z.of_nat (length (List.filter (λ e, drop e && existsb (λ id, in_batch id e) ids) events)).
Proof.
  induction ids as [|id ids IH]; intros Hids.
  { simpl. induction events as [|e events IH']; [done|]. simpl. by rewrite andb_false_r. }
  apply NoDup_cons in Hids as [Hid Hids]. cbn [total foldr]. fold (total
    (λ id, Z.of_nat (length (List.filter (λ e, drop e && in_batch id e) events))) ids).
  rewrite (IH Hids). clear IH. induction events as [|e events IH]; [done|]. cbn [List.filter existsb] in *.
  destruct (drop e); [|exact IH]. cbn [andb].
  destruct (in_batch id e) eqn:Hin; cbn [orb].
  - destruct (existsb (λ id, in_batch id e) ids) eqn:Hex; [|cbn [length]; lia]. exfalso.
    apply existsb_exists in Hex as (id' & Hid'%list_elem_of_In & Hin').
    apply bool_decide_eq_true in Hin, Hin'. congruence.
  - destruct (existsb _ ids); cbn [length]; lia.
Qed.

Section snapshots.
Context {HC : ChainClient} (keep : TransactionEvent → bool) (d : Db).

Definition dropped_of (r : Reading) : Z :=
  Z.of_nat (length (List.filter (λ e, negb (keep e) && in_batch (ab_id r.1) e) (db_events d))).

(** What the snapshot's audits say of batches that were complete. *)
Lemma audit_faithful_snapshot r :
  faithful d r →
  diverges (audit_of (snapshot keep d) r) = false
  ∧ au_missing (audit_of (snapshot keep d) r) = dropped_of r
  ∧ is_eq (au_verdict (audit_of (snapshot keep d) r)) AuditVerdict.CHAIN_UNAVAILABLE = false.
Proof.
  destruct r as [b answer]. intros (oc & Hans & Hroot & Hcount). cbn [fst snd] in *. subst answer.
  rewrite (count_snapshot keep d (ab_id b)) in Hcount. unfold audit_of, diverges, dropped_of. cbn [fst snd].
  rewrite Hroot. cbn [negb audited au_verdict au_missing]. set (n := length _) in *.
  destruct (Z.eqb_spec (oc_leafCount oc) (count_facts (ab_id b) (snapshot keep d)));
    split_and!; try done; try lia.
  destruct (Z.eqb_spec (Z.max 0 (oc_leafCount oc - count_facts (ab_id b) (snapshot keep d))) 0); [lia|done].
Qed.

Lemma tally_faithful_snapshot rs :
  Forall (faithful d) rs →
  let t := fold_left add_audit (audit_of (snapshot keep d) <$> rs) (mkTally [] false 0 0) in
  ta_batchesMismatched t = 0 ∧ ta_eventsMissing t = total dropped_of rs ∧ ta_chainUnavailable t = false.
Proof.
  intros Hall t. unfold t.
  destruct (tally_sums (audit_of (snapshot keep d) <$> rs) (mkTally [] false 0 0)) as (-> & -> & -> & _).
  cbn [ta_batchesMismatched ta_eventsMissing ta_chainUnavailable]. rewrite !Z.add_0_l, orb_false_l.
  induction Hall as [|r rs Hr Hall IH]; [done|].
  destruct (audit_faithful_snapshot r Hr) as (Hd & Hm & Hc). destruct IH as (IHd & IHm & IHc).
  cbn [fmap list_fmap List.filter existsb total foldr] in *. rewrite Hd, Hm, Hc.
  split_and!; [exact IHd| |exact IHc]. unfold total in *. simpl. rewrite IHm. unfold dropped_of. lia.
Qed.

Lemma total_lost history :
  NoDup (ab_id <$> db_batches d) →
  total dropped_of (readings history (anchored_batches d)) = Z.of_nat (length (lost_facts keep d)).
Proof.
  intros Hids%anchored_batches_nodup. unfold lost_facts.
  assert (Hex : ∀ e, existsb (λ b, in_batch (ab_id b) e) (anchored_batches d)
                     = existsb (λ id, in_batch id e) (ab_id <$> anchored_batches d)).
  { intros e. clear Hids. induction (anchored_batches d) as [|b l IH]; [done|]. simpl. by f_equal. }
  rewrite (filter_ext _ (λ e, negb (keep e) && existsb (λ id, in_batch id e) (ab_id <$> anchored_batches d)))
    by (intros e; by rewrite Hex).
  rewrite <- total_dropped by done. clear Hex Hids. revert history.
  induction (anchored_batches d) as [|b l IH]; intros history; [done|]. simpl. by rewrite IH.
Qed.
End snapshots.

(** * Properties *)

Section theorems.
Context {HC : ChainClient}.

Lemma verify_restore_run w :
  let rs := readings (w_calls w) (anchored_batches (w_db w)) in
  let t := fold_left add_audit (audit_of (w_db w) <$> rs) (mkTally [] false 0 0) in
  ∃ r w', verify_restore w = (Return r, w') ∧ w_db w' = w_db w
    ∧ rr_verdict r = restore_verdict t ∧ rr_eventsMissing r = ta_eventsMissing t
    ∧ rr_batchesMismatched r = ta_batchesMismatched t
    ∧ rr_batches r = audit_of (w_db w) <$> rs.
Proof.
  intros rs t. unfold verify_restore. erewrite bind_return by reflexivity.
  destruct (audit_all_run (anchored_batches (w_db w)) (mkTally [] false 0 0) w) as (w' & Hrun & Hdb).
  erewrite bind_return by exact Hrun. eexists _, w'. split; [reflexivity|].
  split_and!; try done.
  exact (proj2 (proj2 (proj2 (tally_sums (audit_of (w_db w) <$> rs) (mkTally [] false 0 0))))).
Qed.

Lemma consistent_faithful w r w' :
  verify_restore w = (Return r, w') → rr_verdict r = RestoreVerdict.CONSISTENT →
  Forall (faithful (w_db w)) (readings (w_calls w) (anchored_batches (w_db w))).
Proof.
  intros Hrun Hv. destruct (verify_restore_run w) as (r' & w'' & Hrun' & _ & Hv' & _).
  rewrite Hrun in Hrun'. injection Hrun' as <- <-. rewrite Hv in Hv'. symmetry in Hv'.
  by apply consistent_answers in Hv'.
Qed.

(** The check after a restoration always ends, leaves the database as it is and
    gives the verdict the answers of the chain call for.  [CONSISTENT] is given only
    when the chain answered for every anchored batch, with the root of the database
    and the number of facts the database holds: one unreachable batch, one missing
    fact or one root that differs is enough to refuse it.  A divergence prevails over a
    loss, a loss over an unreachable chain. *)
Theorem restored_base_is_judged w :
  let rs := readings (w_calls w) (anchored_batches (w_db w)) in
  ∃ r w', verify_restore w = (Return r, w') ∧ w_db w' = w_db w
    ∧ match rr_verdict r with
      | RestoreVerdict.CONSISTENT => Forall (faithful (w_db w)) rs
      | RestoreVerdict.CHAIN_MISMATCH => Exists (divergent (w_db w)) rs
      | RestoreVerdict.DATA_LOSS => ¬ Exists (divergent (w_db w)) rs ∧ Exists (lost (w_db w)) rs
      | RestoreVerdict.CHAIN_UNAVAILABLE =>
          Exists unread rs ∧ Forall (λ r, faithful (w_db w) r ∨ unread r) rs
      end.
Proof.
  intros rs. destruct (verify_restore_run w) as (r & w' & Hrun & Hdb & Hv & _).
  exists r, w'. split_and!; [done..|]. rewrite Hv. fold rs.
  destruct (tally_answers (w_db w) rs) as (Hdiv & Hlost & Hun).
  assert (Hcons := consistent_answers (w_db w) rs). set (t := fold_left _ _ _) in *. clearbody t.
  assert (Hall := answers_cover (w_db w) rs).
  unfold restore_verdict in *. destruct (Z.ltb_spec 0 (ta_batchesMismatched t)); [by apply Hdiv|].
  assert (Hnd : ¬ Exists (divergent (w_db w)) rs) by (rewrite <- Hdiv; lia).
  destruct (Z.ltb_spec 0 (ta_eventsMissing t)); [by split; [|apply Hlost]|].
  assert (Hnl : ¬ Exists (lost (w_db w)) rs) by (rewrite <- Hlost; lia).
  destruct (ta_chainUnavailable t) eqn:Hc.
  - split; [by apply Hun|]. apply Forall_forall. intros x Hx. specialize (Hall x Hx). tauto.
  - by apply Hcons.
Qed.

(** A restoration from an old snapshot, as far as anchored facts go: if the base was
    consistent and only lost facts, the report counts exactly the facts of anchored
    batches that are gone, calls it a loss of data and never a divergence, and still
    calls the base consistent when none of the lost facts was anchored. *)
Theorem old_snapshot_is_a_counted_loss keep w r0 w0 :
  NoDup (ab_id <$> db_batches (w_db w)) →
  verify_restore w = (Return r0, w0) → rr_verdict r0 = RestoreVerdict.CONSISTENT →
  ∃ r w', verify_restore (w <| w_db := snapshot keep (w_db w) |>) = (Return r, w')
    ∧ rr_batchesMismatched r = 0
    ∧ rr_eventsMissing r = Z.of_nat (length (lost_facts keep (w_db w)))
    ∧ rr_verdict r = (if Nat.eqb (length (lost_facts keep (w_db w))) 0
                      then RestoreVerdict.CONSISTENT else RestoreVerdict.DATA_LOSS).
Proof.
  intros Hids Hrun Hcons. set (d := w_db w) in *. set (d' := snapshot keep d).
  set (rs := readings (w_calls w) (anchored_batches d)).
  assert (Hall : Forall (faithful d) rs) by (eapply consistent_faithful; eauto).
  destruct (verify_restore_run (w <| w_db := d' |>)) as (r & w' & Hrun' & _ & Hv & Hm & Hb & _).
  destruct (tally_faithful_snapshot keep d rs Hall) as (Hb0 & Hm0 & Hc0).
  assert (Hlost := total_lost keep d (w_calls w) Hids). fold rs in Hlost.
  exists r, w'. split; [exact Hrun'|]. split; [exact (eq_trans Hb Hb0)|].
  split; [etrans; [exact Hm|]; by rewrite <- Hlost|]. etrans; [exact Hv|].
  change (restore_verdict (fold_left add_audit (audit_of (snapshot keep d) <$> rs) (mkTally [] false 0 0))
    = (if Nat.eqb (length (lost_facts keep d)) 0
       then RestoreVerdict.CONSISTENT else RestoreVerdict.DATA_LOSS)).
  unfold restore_verdict. rewrite Hb0, Hm0, Hc0, Hlost.
  by destruct (lost_facts keep d).
Qed.
End theorems.

(** * Witness *)

(** The anchored case of [ChainVerification], restored from a snapshot taken before its
    closing fact. *)
Lemma old_snapshot_is_a_counted_loss_witness :
  ∃ r w', verify_restore (HC := sample_chain)
      ((sample_anchored id) <| w_db := snapshot (λ e, negb (is_closing e)) (w_db (sample_anchored id)) |>)
    = (Return r, w')
    ∧ rr_eventsMissing r = 1 ∧ rr_verdict r = RestoreVerdict.DATA_LOSS.
Proof.
  assert (Hbefore : ∃ r0 w0, verify_restore (HC := sample_chain) (sample_anchored id) = (Return r0, w0)
            ∧ rr_verdict r0 = RestoreVerdict.CONSISTENT).
  { eexists _, _. split; vm_compute; reflexivity. }
  destruct Hbefore as (r0 & w0 & Hrun & Hv).
  destruct (old_snapshot_is_a_counted_loss (HC := sample_chain) (λ e, negb (is_closing e))
              (sample_anchored id) r0 w0 (NoDup_singleton _) Hrun Hv)
    as (r & w' & Hrun' & _ & Hm & Hv').
  exists r, w'. split; [exact Hrun'|]. rewrite Hm, Hv'. split; vm_compute; reflexivity.
Defined.
