(* ===== verification/LedgerGuards.v ===== *)
(** The guards of the database: [src/accounting/ledger-guards.ts], the installers that put
    them back at start-up, [src/accounting/ledger-guards.installer.ts] and
    [src/events/append-only-guard.installer.ts], and the migration that creates the journal,
    [src/database/migrations/2026072509000-AddDoubleEntryLedger.ts].

    [Database] assumes what the triggers of the journal promise.  Here the triggers are
    modelled one by one, with the catalogue that says which are installed, and the promise is
    proved: whatever rows a session inserts, updates or deletes, in whatever order its
    deferred controls are run, and whatever other sessions commit meanwhile.  [TRUNCATE]
    fires none of them: it is modelled too, and the promise is that of a role without it. *)
From S2P Require Import Prelude Domain External Database Ledger.
Open Scope Z_scope.

(** * The catalogue *)

Inductive Trigger :=
  | trg_journal_entries_balanced
  | trg_journal_lines_balanced
  | trg_journal_entries_append_only
  | trg_journal_lines_append_only
  | trg_transaction_events_append_only.

Inductive TriggerFunction :=
  | journal_entries_balanced
  | journal_lines_balanced
  | journal_append_only
  | transaction_events_append_only.

#[export] Instance Trigger_eq_dec : EqDecision Trigger.
Proof. solve_decision. Defined.
#[export] Instance TriggerFunction_eq_dec : EqDecision TriggerFunction.
Proof. solve_decision. Defined.

(** [pg_proc] and [pg_trigger]; a trigger that is there may be disabled. *)
Record Catalog := mkCatalog {
  cat_functions : list TriggerFunction;
  cat_triggers : list (Trigger * bool)
}.

Definition installed (c : Catalog) (t : Trigger) : bool :=
  existsb (λ row, bool_decide (row.1 = t)) (cat_triggers c).
Definition active (c : Catalog) (t : Trigger) : bool :=
  existsb (λ row, bool_decide (row.1 = t) && row.2) (cat_triggers c).

Inductive Query :=
  | SelectTrigger (t : Trigger)
  | CreateOrReplaceFunction (f : TriggerFunction)
  | DropTriggerIfExists (t : Trigger)
  | CreateTrigger (t : Trigger) (f : TriggerFunction).

(** The effect of a query that the role may run and that reaches the server. *)
Definition run_query (q : Query) (c : Catalog) : Outcome string Catalog :=
  match q with
  | SelectTrigger _ => Return c
  | CreateOrReplaceFunction f =>
      Return (mkCatalog (f :: List.filter (λ g, negb (bool_decide (g = f))) (cat_functions c))
                (cat_triggers c))
  | DropTriggerIfExists t =>
      Return (mkCatalog (cat_functions c)
                (List.filter (λ row, negb (bool_decide (row.1 = t))) (cat_triggers c)))
  | CreateTrigger t f =>
      if installed c t then Throw "trigger already exists"
      else if negb (bool_decide (f ∈ cat_functions c)) then Throw "function does not exist"
      else Return (mkCatalog (cat_functions c) (cat_triggers c ++ [(t, true)]))
  end.

(** Queries one after the other, each committed by itself: the first that fails throws.
    [served n] says whether the [n]-th query is. *)
Fixpoint run_queries (served : nat → bool) (n : nat) (queries : list Query) (c : Catalog) :
    Outcome string nat * Catalog :=
  match queries with
  | [] => (Return n, c)
  | q :: queries =>
      if negb (served n) then (Throw "permission denied", c)
      else match run_query q c with
           | Throw e => (Throw e, c)
           | Return c' => run_queries served (S n) queries c'
           end
  end.

(** ** [ledger-guards.ts] *)

Definition BALANCE_FUNCTION : Query := CreateOrReplaceFunction journal_entries_balanced.
Definition BALANCE_TRIGGER : Query :=
  CreateTrigger trg_journal_entries_balanced journal_entries_balanced.
Definition LINE_BALANCE_FUNCTION : Query := CreateOrReplaceFunction journal_lines_balanced.
Definition LINE_BALANCE_TRIGGER : Query :=
  CreateTrigger trg_journal_lines_balanced journal_lines_balanced.
Definition APPEND_ONLY_FUNCTION : Query := CreateOrReplaceFunction journal_append_only.
Definition APPEND_ONLY_TRIGGERS : list Query :=
  [CreateTrigger trg_journal_entries_append_only journal_append_only;
   CreateTrigger trg_journal_lines_append_only journal_append_only].

Definition LEDGER_TRIGGERS : list Trigger :=
  [trg_journal_entries_balanced; trg_journal_lines_balanced;
   trg_journal_entries_append_only; trg_journal_lines_append_only].

Definition LEDGER_GUARD_STATEMENTS : list Query :=
  [BALANCE_FUNCTION; LINE_BALANCE_FUNCTION; APPEND_ONLY_FUNCTION;
   BALANCE_TRIGGER; LINE_BALANCE_TRIGGER] ++ APPEND_ONLY_TRIGGERS.

(** ** The installers *)

(** The log line of a start. *)
Inductive GuardEvent :=
  | GuardsPresent
  | GuardsInstalled (missing : list Trigger)
  | GuardsMissing (reason : string).

(** [LedgerGuardsInstaller.missingTriggers], once the table of triggers was read. *)
Definition missingTriggers (c : Catalog) : list Trigger :=
  List.filter (λ t, negb (installed c t)) LEDGER_TRIGGERS.

(** [LedgerGuardsInstaller.install] *)
Definition install : list Query :=
  (DropTriggerIfExists <$> LEDGER_TRIGGERS) ++ LEDGER_GUARD_STATEMENTS.

(** [LedgerGuardsInstaller.onModuleInit] *)
Definition onModuleInit (served : nat → bool) (c : Catalog) : GuardEvent * Catalog :=
  match run_queries served 0 (SelectTrigger <$> LEDGER_TRIGGERS) c with
  | (Throw reason, c) => (GuardsMissing reason, c)
  | (Return n, c) =>
      let missing := missingTriggers c in
      if Nat.eqb (length missing) 0 then (GuardsPresent, c)
      else match run_queries served n install c with
           | (Throw reason, c') => (GuardsMissing reason, c')
           | (Return _, c') => (GuardsInstalled missing, c')
           end
  end.

(** [AppendOnlyGuardInstaller.install] *)
Definition events_install : list Query :=
  [CreateOrReplaceFunction transaction_events_append_only;
   CreateTrigger trg_transaction_events_append_only transaction_events_append_only].

(** [AppendOnlyGuardInstaller.onModuleInit] *)
Definition events_onModuleInit (served : nat → bool) (c : Catalog) : GuardEvent * Catalog :=
  match run_queries served 0 [SelectTrigger trg_transaction_events_append_only] c with
  | (Throw reason, c) => (GuardsMissing reason, c)
  | (Return n, c) =>
      if installed c trg_transaction_events_append_only then (GuardsPresent, c)
      else match run_queries served n events_install c with
           | (Throw reason, c') => (GuardsMissing reason, c')
           | (Return _, c') => (GuardsInstalled [trg_transaction_events_append_only], c')
           end
  end.

(** [AddDoubleEntryLedger.up]: the guards of the tables it creates. *)
Definition up (served : nat → bool) (c : Catalog) : Outcome string nat * Catalog :=
  run_queries served 0 LEDGER_GUARD_STATEMENTS c.

(** * The tables of the journal *)

Record EntryRow := mkEntryRow {
  er_id : string;
  er_transactionReference : string;
  er_eventId : string;
  er_eventType : TransactionEventType;
  er_narration : string;
  er_currency : string;
  er_correlationId : string;
  er_occurredAt : Z
}.

Record LineRow := mkLineRow {
  lr_id : string;
  lr_entry : string;
  lr_line : PostingLine
}.

Record Tables := mkTables {
  t_entries : list EntryRow;
  t_lines : list LineRow
}.

Definition append (t d : Tables) : Tables :=
  mkTables (t_entries t ++ t_entries d) (t_lines t ++ t_lines d).

Definition entry_ids (t : Tables) : list string := er_id <$> t_entries t.

Definition lines_of (id : string) (t : Tables) : list PostingLine :=
  lr_line <$> List.filter (λ l, str_eqb (lr_entry l) id) (t_lines t).

(** An entry with its lines, as [LedgerPostingService] reads it. *)
Definition read_entry (t : Tables) (row : EntryRow) : JournalEntry :=
  mkJournalEntry (er_id row) (er_transactionReference row) (er_eventId row) (er_eventType row)
    (er_narration row) (er_currency row) (lines_of (er_id row) t) (er_correlationId row)
    (er_occurredAt row).

(** * The trigger functions *)

(** A control of a row event, deferred: the function and the entry it looks at. *)
Inductive Deferred :=
  | EntryEvent (id : string)
  | LineEvent (target : string).

(** A [numeric(18,2)], in cents. *)
Definition numeric_18_2 (n : Z) : bool := (- 10 ^ 18 <? n) && (n <? 10 ^ 18).

(** The two functions compute the same sums, into [numeric(18,2)] variables. *)
Definition run_function (event : Deferred) (t : Tables) : Outcome string unit :=
  let target := match event with EntryEvent id => id | LineEvent id => id end in
  let debits := total EntryDirection.DEBIT (lines_of target t) in
  let credits := total EntryDirection.CREDIT (lines_of target t) in
  if negb (numeric_18_2 debits && numeric_18_2 credits) then Throw "numeric_value_out_of_range"
  else if match event with EntryEvent _ => (debits =? 0) && (credits =? 0) | LineEvent _ => false end
  then Throw "restrict_violation"
  else if negb (debits =? credits) then Throw "restrict_violation"
  else Return tt.

(** * Sessions *)

(** What a session sees: the rows others committed, and its own; and the deferred controls
    it has not run yet. *)
Record Session := mkSession {
  s_seen : Tables;
  s_own : Tables;
  s_pending : list Deferred
}.

Definition visible (s : Session) : Tables := append (s_seen s) (s_own s).
Definition begin (t : Tables) : Session := mkSession t (mkTables [] []) [].

Inductive Statement :=
  | InsertEntry (row : EntryRow)
  | UpdateEntry (id : string) (row : EntryRow)
  | DeleteEntry (id : string)
  | InsertLine (row : LineRow)
  | UpdateLine (id : string) (row : LineRow)
  | DeleteLine (id : string)
  | TruncateEntries (cascade : bool)
  | TruncateLines.

(** A privilege of its own, which a role may lack. *)
Definition is_truncate (statement : Statement) : bool :=
  match statement with TruncateEntries _ | TruncateLines => true | _ => false end.

Definition is_entry (id : string) (row : EntryRow) : bool := str_eqb (er_id row) id.
Definition is_line (id : string) (row : LineRow) : bool := str_eqb (lr_id row) id.

(** Widths, keys, foreign keys and the [CHECK] of a row about to be written among [others]. *)
Definition entry_violation (events : list string) (others : list EntryRow) (row : EntryRow) :
    option string :=
  if negb (fits 32 (er_transactionReference row) && fits 256 (er_narration row)
           && fits 3 (er_currency row) && fits 128 (er_correlationId row))
  then Some "string_data_right_truncation"
  else if existsb (is_entry (er_id row)) others
     || existsb (λ f, str_eqb (er_eventId f) (er_eventId row)) others then Some "unique_violation"
  else if negb (bool_decide (er_eventId row ∈ events)) then Some "foreign_key_violation"
  else None.

Definition line_violation (entries : list EntryRow) (others : list LineRow) (row : LineRow) :
    option string :=
  if negb (numeric_18_2 (pl_amount (lr_line row))) then Some "numeric_value_out_of_range"
  else if pl_amount (lr_line row) <=? 0 then Some "check_violation"
  else if existsb (is_line (lr_id row)) others then Some "unique_violation"
  else if negb (existsb (is_entry (lr_entry row)) entries) then Some "foreign_key_violation"
  else None.

(** The control a trigger defers, when it fires. *)
Definition defer (c : Catalog) (t : Trigger) (event : Deferred) (s : Session) : Session :=
  mkSession (s_seen s) (s_own s) (s_pending s ++ if active c t then [event] else []).

Definition on_tables (f : Tables → Tables) (s : Session) : Session :=
  mkSession (f (s_seen s)) (f (s_own s)) (s_pending s).

Definition add_own (d : Tables) (s : Session) : Session :=
  mkSession (s_seen s) (append (s_own s) d) (s_pending s).

Definition set_rows {A} (p : A → bool) (row : A) (l : list A) : list A :=
  (λ r, if p r then row else r) <$> l.

Definition is_line_event (event : Deferred) : bool :=
  match event with LineEvent _ => true | EntryEvent _ => false end.

(** A statement on the rows of a session: the [BEFORE] triggers, the constraints, the write,
    and the controls that are deferred.  The triggers of the journal are all on rows, and
    [TRUNCATE] fires none; it is refused on the entries alone, which the lines refer to, and
    on a table that has controls to come. *)
Definition execute (events : list string) (c : Catalog) (statement : Statement) (s : Session) :
    Outcome string Session :=
  let v := visible s in
  let guard o k := match o with Some e => Throw e | None => k end in
  let referenced id := existsb (λ l, str_eqb (lr_entry l) id) (t_lines v) in
  match statement with
  | InsertEntry row =>
      guard (entry_violation events (t_entries v) row)
        (Return (defer c trg_journal_entries_balanced (EntryEvent (er_id row))
                   (add_own (mkTables [row] []) s)))
  | UpdateEntry id row =>
      if negb (existsb (is_entry id) (t_entries v)) then Return s
      else if active c trg_journal_entries_append_only then Throw "restrict_violation"
      else if negb (str_eqb (er_id row) id) && referenced id then Throw "foreign_key_violation"
      else guard (entry_violation events (List.filter (λ r, negb (is_entry id r)) (t_entries v)) row)
        (Return (defer c trg_journal_entries_balanced (EntryEvent (er_id row))
                   (on_tables (λ t, mkTables (set_rows (is_entry id) row (t_entries t)) (t_lines t)) s)))
  | DeleteEntry id =>
      if negb (existsb (is_entry id) (t_entries v)) then Return s
      else if active c trg_journal_entries_append_only then Throw "restrict_violation"
      else if referenced id then Throw "foreign_key_violation"
      else Return (on_tables (λ t,
             mkTables (List.filter (λ r, negb (is_entry id r)) (t_entries t)) (t_lines t)) s)
  | InsertLine row =>
      guard (line_violation (t_entries v) (t_lines v) row)
        (Return (defer c trg_journal_lines_balanced (LineEvent (lr_entry row))
                   (add_own (mkTables [] [row]) s)))
  | UpdateLine id row =>
      if negb (existsb (is_line id) (t_lines v)) then Return s
      else if active c trg_journal_lines_append_only then Throw "restrict_violation"
      else guard (line_violation (t_entries v) (List.filter (λ r, negb (is_line id r)) (t_lines v)) row)
        (Return (defer c trg_journal_lines_balanced (LineEvent (lr_entry row))
                   (on_tables (λ t, mkTables (t_entries t) (set_rows (is_line id) row (t_lines t))) s)))
  | DeleteLine id =>
      match List.find (is_line id) (t_lines v) with
      | None => Return s
      | Some old =>
          if active c trg_journal_lines_append_only then Throw "restrict_violation"
          else Return (defer c trg_journal_lines_balanced (LineEvent (lr_entry old))
                 (on_tables (λ t, mkTables (t_entries t)
                    (List.filter (λ r, negb (is_line id r)) (t_lines t))) s))
      end
  | TruncateEntries cascade =>
      if negb cascade then Throw "feature_not_supported"
      else if Nat.ltb 0 (length (s_pending s)) then Throw "object_in_use"
      else Return (on_tables (λ _, mkTables [] []) s)
  | TruncateLines =>
      if existsb is_line_event (s_pending s) then Throw "object_in_use"
      else Return (on_tables (λ t, mkTables (t_entries t) []) s)
  end.

(** What a session may add to the journal: entries under new identifiers, with lines; lines
    of positive amounts on entries that exist, that cancel entry by entry. *)
Record sound_addition (t d : Tables) : Prop := {
  added_once : NoDup (entry_ids (append t d));
  added_positive : Forall (λ l, 0 < pl_amount (lr_line l)) (t_lines d);
  added_known : Forall (λ l, lr_entry l ∈ entry_ids (append t d)) (t_lines d);
  added_balanced id : total EntryDirection.DEBIT (lines_of id d)
                      = total EntryDirection.CREDIT (lines_of id d);
  added_filled row : row ∈ t_entries d → lines_of (er_id row) d ≠ []
}.

Definition sound (t : Tables) : Prop := sound_addition (mkTables [] []) t.

(** A session goes on: it executes a statement; it runs one of its deferred controls, at
    the commit or before ([SET CONSTRAINTS]); or another session commits what it added.  A
    statement or a control that throws rolls the session back: the committed rows stay.
    [privileged]: the role of the session holds [TRUNCATE] on the journal. *)
Inductive step (events : list string) (c : Catalog) (privileged : bool) : Session → Session → Prop :=
  | step_execute statement s s' :
      (is_truncate statement = true → privileged = true) →
      execute events c statement s = Return s' → step events c privileged s s'
  | step_control before event after s :
      s_pending s = before ++ event :: after →
      run_function event (visible s) = Return tt →
      step events c privileged s (mkSession (s_seen s) (s_own s) (before ++ after))
  | step_others d s :
      sound_addition (s_seen s) d →
      NoDup (entry_ids (append (append (s_seen s) d) (s_own s))) →
      step events c privileged s (mkSession (append (s_seen s) d) (s_own s) (s_pending s)).

(** Statements in order, then the controls of the commit. *)
Fixpoint run_statements (events : list string) (c : Catalog) (statements : list Statement)
    (s : Session) : Outcome string Session :=
  match statements with
  | [] => Return s
  | statement :: statements =>
      match execute events c statement s with
      | Return s => run_statements events c statements s
      | Throw e => Throw e
      end
  end.

Fixpoint run_controls (pending : list Deferred) (t : Tables) : Outcome string unit :=
  match pending with
  | [] => Return tt
  | event :: pending =>
      match run_function event t with
      | Return _ => run_controls pending t
      | Throw e => Throw e
      end
  end.

(** A transaction of one session: its statements, its commit; what is committed after it. *)
Definition run_transaction (events : list string) (c : Catalog) (statements : list Statement)
    (t : Tables) : Outcome string unit * Tables :=
  match run_statements events c statements (begin t) with
  | Throw e => (Throw e, t)
  | Return s =>
      match run_controls (s_pending s) (visible s) with
      | Throw e => (Throw e, t)
      | Return _ => (Return tt, visible s)
      end
  end.

(** The triggers of the journal, installed and enabled. *)
Definition guarded (c : Catalog) : Prop := Forall (λ t, active c t = true) LEDGER_TRIGGERS.

(** A catalogue got by the migration, or by a start of the gateway whose queries were all
    served, when no trigger is disabled. *)
Inductive provisioned : Catalog → Prop :=
  | by_migration served c n c' : up served c = (Return n, c') → provisioned c'
  | by_start c :
      Forall (λ row, row.2 = true) (cat_triggers c) →
      provisioned (onModuleInit (λ _, true) c).2.

(** * Lemmas *)

(** ** The catalogue *)

Lemma active_installed c t : active c t = true → installed c t = true.
Proof.
  unfold active, installed. rewrite !existsb_exists. intros (row & Hin & [Ht _]%andb_true_iff). eauto.
Qed.

Lemma installed_active c t :
  Forall (λ row, row.2 = true) (cat_triggers c) → installed c t = true → active c t = true.
Proof.
  unfold active, installed. rewrite !existsb_exists. intros Hall (row & Hin & Ht).
  exists row. split; [done|]. cbn beta in Ht |- *. rewrite Ht. rewrite Forall_forall in Hall.
  by apply Hall, list_elem_of_In.
Qed.

Lemma run_query_active q c c' t :
  run_query q c = Return c' → q ≠ DropTriggerIfExists t →
  active c t = true ∨ (∃ f, q = CreateTrigger t f) → active c' t = true.
Proof.
  destruct q as [u|f|u|u f]; cbn [run_query].
  - by intros [= <-] _ [?|[? [=]]].
  - by intros [= <-] _ [?|[? [=]]].
  - intros [= <-] Hne [Hact|[? [=]]]. unfold active in *. cbn.
    rewrite existsb_exists in Hact |- *. destruct Hact as (row & Hin & Ht). exists row. split; [|done].
    apply filter_In. split; [done|]. apply andb_true_iff in Ht as [Ht%bool_decide_eq_true _].
    apply negb_true_iff, bool_decide_eq_false. intros Heq. congruence.
  - destruct (installed c u); [done|]. destruct (negb _); [done|]. intros [= <-] _ Hor.
    unfold active in *. cbn. rewrite existsb_app. apply orb_true_iff.
    destruct Hor as [?|[? [= -> ->]]]; [by left|right]. cbn. by rewrite bool_decide_eq_true_2.
Qed.

Lemma run_queries_active served n queries c m c' t :
  run_queries served n queries c = (Return m, c') →
  DropTriggerIfExists t ∉ queries →
  active c t = true ∨ (∃ f, CreateTrigger t f ∈ queries) → active c' t = true.
Proof.
  revert n c. induction queries as [|q queries IH]; intros n c; cbn [run_queries].
  - by intros [= <- <-] _ [?|[? ?%not_elem_of_nil]].
  - destruct (served n); [|done]. cbn [negb].
    destruct (run_query q c) as [c1|] eqn:Hq; [|done]. intros Hrun Hnd Hor.
    apply not_elem_of_cons in Hnd as [Hne Hnd]. eapply IH; [exact Hrun|exact Hnd|].
    destruct Hor as [Hact|[f [<-|Hin]%elem_of_cons]]; [left|left|right; eauto].
    + eapply run_query_active; eauto.
    + eapply run_query_active; eauto.
Qed.

Lemma run_queries_app served n q1 q2 c m c' :
  run_queries served n q1 c = (Return m, c') →
  run_queries served n (q1 ++ q2) c = run_queries served m q2 c'.
Proof.
  revert n c. induction q1 as [|q q1 IH]; intros n c; cbn [run_queries app].
  - by intros [= -> ->].
  - destruct (served n); [|done]. cbn [negb]. destruct (run_query q c); [|done]. apply IH.
Qed.

Lemma statements_guard served n c m c' :
  run_queries served n LEDGER_GUARD_STATEMENTS c = (Return m, c') → guarded c'.
Proof.
  intros Hrun. unfold guarded, LEDGER_TRIGGERS.
  repeat apply Forall_cons_2; [..|constructor];
    (eapply run_queries_active; [exact Hrun| |right; eexists]).
  all: unfold LEDGER_GUARD_STATEMENTS, BALANCE_FUNCTION, LINE_BALANCE_FUNCTION, APPEND_ONLY_FUNCTION,
         BALANCE_TRIGGER, LINE_BALANCE_TRIGGER, APPEND_ONLY_TRIGGERS; cbn [app].
  all: try (rewrite !not_elem_of_cons; repeat split; [discriminate..|apply not_elem_of_nil]).
  all: rewrite !elem_of_cons; eauto 10.
Qed.

(** Dropping triggers never fails, and leaves none of them. *)
Lemma drops_return n triggers c :
  ∃ c', run_queries (λ _, true) n (DropTriggerIfExists <$> triggers) c
        = (Return (n + length triggers)%nat, c')
    ∧ Forall (λ t, installed c' t = false) triggers
    ∧ ∀ t, installed c t = false → installed c' t = false.
Proof.
  revert n c. induction triggers as [|u triggers IH]; intros n c; cbn [fmap list_fmap run_queries].
  - exists c. rewrite Nat.add_0_r. split; [done|]. split; [constructor|done].
  - cbn [negb run_query]. set (c1 := mkCatalog _ _).
    destruct (IH (S n) c1) as (c' & Hrun & Hall & Hkeep).
    assert (Hc1 : ∀ t, installed c1 t = false ↔ installed c t = false ∨ t = u).
    { intros t. unfold installed, c1. cbn [cat_triggers]. rewrite <- !not_true_iff_false, !existsb_exists.
      split.
      - intros Hno. destruct (decide (t = u)); [by right|left]. intros (row & Hin & Ht). apply Hno.
        exists row. split; [|done]. apply filter_In. split; [done|]. apply bool_decide_eq_true in Ht.
        apply negb_true_iff, bool_decide_eq_false. congruence.
      - intros [Hno| ->] (row & [Hin Hu]%filter_In & Ht); [eauto|].
        apply bool_decide_eq_true in Ht. by apply negb_true_iff, bool_decide_eq_false in Hu. }
    exists c'. rewrite Hrun. split; [f_equal; f_equal; simpl; lia|]. split.
    + constructor; [|done]. apply Hkeep, Hc1. by right.
    + intros t Ht. apply Hkeep, Hc1. by left.
Qed.

Lemma function_step n f queries c :
  ∃ c', run_queries (λ _, true) n (CreateOrReplaceFunction f :: queries) c
        = run_queries (λ _, true) (S n) queries c'
    ∧ f ∈ cat_functions c' ∧ (∀ g, g ∈ cat_functions c → g ∈ cat_functions c')
    ∧ cat_triggers c' = cat_triggers c.
Proof.
  eexists. split; [reflexivity|]. cbn [cat_functions cat_triggers]. split; [left|]. split; [|done].
  intros g Hg. destruct (decide (g = f)) as [->|Hne]; [left|right].
  apply list_elem_of_In, filter_In. split; [by apply list_elem_of_In|].
  by apply negb_true_iff, bool_decide_eq_false.
Qed.

Lemma trigger_step n t f queries c :
  installed c t = false → f ∈ cat_functions c →
  ∃ c', run_queries (λ _, true) n (CreateTrigger t f :: queries) c
        = run_queries (λ _, true) (S n) queries c'
    ∧ cat_functions c' = cat_functions c ∧ ∀ u, u ≠ t → installed c' u = installed c u.
Proof.
  intros Hno Hf. cbn [run_queries negb run_query]. rewrite Hno, bool_decide_eq_true_2 by done.
  eexists. split; [reflexivity|]. split; [done|]. intros u Hu. unfold installed. cbn [cat_triggers].
  rewrite existsb_app. cbn. by rewrite bool_decide_eq_false_2, !orb_false_r by congruence.
Qed.

(** Once no trigger is there, the statements of the guards all succeed. *)
Lemma statements_return n c :
  Forall (λ t, installed c t = false) LEDGER_TRIGGERS →
  ∃ m c', run_queries (λ _, true) n LEDGER_GUARD_STATEMENTS c = (Return m, c').
Proof.
  unfold LEDGER_TRIGGERS. rewrite !Forall_cons_iff. intros (H1 & H2 & H3 & H4 & _).
  unfold LEDGER_GUARD_STATEMENTS, APPEND_ONLY_TRIGGERS. cbn [app].
  unfold BALANCE_FUNCTION at 1. edestruct function_step as (c1 & -> & Hf1 & _ & Ht1).
  unfold LINE_BALANCE_FUNCTION at 1. edestruct function_step as (c2 & -> & Hf2 & Hk2 & Ht2).
  unfold APPEND_ONLY_FUNCTION at 1. edestruct function_step as (c3 & -> & Hf3 & Hk3 & Ht3).
  assert (Hi : ∀ t, installed c3 t = installed c t)
    by (intros t; unfold installed; by rewrite Ht3, Ht2, Ht1).
  destruct (trigger_step (S (S (S n))) trg_journal_entries_balanced journal_entries_balanced
    [LINE_BALANCE_TRIGGER; CreateTrigger trg_journal_entries_append_only journal_append_only;
     CreateTrigger trg_journal_lines_append_only journal_append_only] c3)
    as (c4 & Hr4 & Hf4 & Hi4); [by rewrite Hi|auto|].
  unfold BALANCE_TRIGGER at 1. rewrite Hr4. unfold LINE_BALANCE_TRIGGER at 1.
  edestruct trigger_step as (c5 & -> & Hf5 & Hi5); [by rewrite Hi4, Hi|rewrite Hf4; auto|].
  edestruct trigger_step as (c6 & -> & Hf6 & Hi6); [by rewrite Hi5, Hi4, Hi|by rewrite Hf5, Hf4|].
  edestruct trigger_step as (c7 & -> & _ & _);
    [by rewrite Hi6, Hi5, Hi4, Hi|by rewrite Hf6, Hf5, Hf4|].
  by do 2 eexists.
Qed.

(** A start whose queries are served leaves the journal guarded. *)
Lemma start_guards c :
  Forall (λ row, row.2 = true) (cat_triggers c) → guarded (onModuleInit (λ _, true) c).2.
Proof.
  intros Hen. unfold onModuleInit. cbn [LEDGER_TRIGGERS fmap list_fmap run_queries run_query negb].
  destruct (Nat.eqb_spec (length (missingTriggers c)) 0) as [Hm|_].
  - change (guarded c). apply nil_length_inv in Hm. apply Forall_forall. intros t Hin. apply installed_active; [done|].
    apply not_false_iff_true. intros Hno. cut (t ∈ missingTriggers c); [by rewrite Hm; apply not_elem_of_nil|].
    apply list_elem_of_In, filter_In. rewrite Hno. split; [by apply list_elem_of_In|done].
  - destruct (drops_return 4 LEDGER_TRIGGERS c) as (c1 & Hdrop & Hall & _).
    destruct (statements_return (4 + length LEDGER_TRIGGERS) c1 Hall) as (m & c2 & Hrun).
    unfold install. erewrite run_queries_app, Hrun by exact Hdrop. cbn [snd].
    by eapply statements_guard.
Qed.

Lemma provisioned_guarded c : provisioned c → guarded c.
Proof. destruct 1; [by eapply statements_guard|by apply start_guards]. Qed.

(** ** The rows *)

Lemma lines_of_append id t d : lines_of id (append t d) = lines_of id t ++ lines_of id d.
Proof. unfold lines_of, append. cbn [t_lines]. by rewrite List.filter_app, fmap_app. Qed.

Lemma entry_ids_append t d : entry_ids (append t d) = entry_ids t ++ entry_ids d.
Proof. unfold entry_ids, append. cbn [t_entries]. apply fmap_app. Qed.

Lemma tables_append_nil t : append (mkTables [] []) t = t.
Proof. by destruct t. Qed.

Lemma tables_append_assoc t d e : append (append t d) e = append t (append d e).
Proof. unfold append. cbn [t_entries t_lines]. by rewrite <- !app_assoc. Qed.

Lemma elem_of_lines_of id t line :
  line ∈ lines_of id t ↔ ∃ row, row ∈ t_lines t ∧ lr_entry row = id ∧ lr_line row = line.
Proof.
  unfold lines_of. rewrite list_elem_of_fmap. split.
  - intros (row & -> & Hin%list_elem_of_In). apply filter_In in Hin as [Hin Hid%str_eqb_spec].
    exists row. split; [by apply list_elem_of_In|done].
  - intros (row & Hin & <- & <-). exists row. split; [done|].
    apply list_elem_of_In, filter_In. split; [by apply list_elem_of_In|apply str_eqb_refl].
Qed.

Lemma lines_of_unknown id t :
  Forall (λ l, lr_entry l ∈ entry_ids t) (t_lines t) → id ∉ entry_ids t → lines_of id t = [].
Proof.
  intros Hk Hid. apply elem_of_nil_inv. intros line (row & Hin & <- & _)%elem_of_lines_of.
  rewrite Forall_forall in Hk. by apply Hid, Hk.
Qed.

Definition balanced (id : string) (t : Tables) : Prop :=
  total EntryDirection.DEBIT (lines_of id t) = total EntryDirection.CREDIT (lines_of id t).

Lemma balanced_append id t d : balanced id t → balanced id (append t d) ↔ balanced id d.
Proof. unfold balanced. rewrite lines_of_append, !total_app. lia. Qed.

Lemma sound_append t d : sound t → sound_addition t d → sound (append t d).
Proof.
  intros [_ Hpt Hkt Hbt Hft] [Hod Hpd Hkd Hbd Hfd].
  rewrite tables_append_nil in Hkt.
  split; rewrite ?tables_append_nil.
  - done.
  - by apply Forall_app.
  - apply Forall_app. split; [|done]. eapply Forall_impl; [exact Hkt|]. cbn beta. intros l Hl.
    rewrite entry_ids_append. apply elem_of_app. by left.
  - intros id. apply balanced_append; [apply Hbt|apply Hbd].
  - intros row Hin. rewrite lines_of_append. cbn [append t_entries] in Hin.
    apply elem_of_app in Hin as [Hin%Hft|Hin%Hfd]; intros [??]%app_eq_nil; done.
Qed.

(** A control that passes, and the balance it looked at. *)
Lemma run_function_balanced event t :
  run_function event t = Return tt →
  match event with
  | EntryEvent id => balanced id t ∧ lines_of id t ≠ []
  | LineEvent id => balanced id t
  end.
Proof.
  unfold run_function, balanced. destruct event as [id|id].
  all: destruct (numeric_18_2 _ && numeric_18_2 _); cbn [negb]; [|done].
  - destruct (_ && _) eqn:Hz; [done|]. destruct (Z.eqb_spec
      (total EntryDirection.DEBIT (lines_of id t)) (total EntryDirection.CREDIT (lines_of id t))); [|done].
    intros _. split; [done|]. intros Hnil. by rewrite Hnil in Hz.
  - by destruct (Z.eqb_spec (total EntryDirection.DEBIT (lines_of id t))
      (total EntryDirection.CREDIT (lines_of id t))).
Qed.

(** What the balance trigger computes is the balance of [Database]. *)
Lemma entry_event_spec id t row :
  er_id row = id →
  numeric_18_2 (total EntryDirection.DEBIT (lines_of id t)) = true →
  numeric_18_2 (total EntryDirection.CREDIT (lines_of id t)) = true →
  run_function (EntryEvent id) t = Return tt ↔ entry_balanced (read_entry t row) = true.
Proof.
  intros <- Hd Hc. unfold run_function, entry_balanced. cbn [read_entry je_lines].
  rewrite Hd, Hc. cbn [andb negb]. destruct (_ && _); [done|]. by destruct (_ =? _).
Qed.

(** ** Sessions of a guarded journal *)

Section sessions.
Context (events : list string) (c : Catalog) (Hguarded : guarded c).

Lemma guards_active :
  active c trg_journal_entries_balanced = true ∧ active c trg_journal_lines_balanced = true
  ∧ active c trg_journal_entries_append_only = true ∧ active c trg_journal_lines_append_only = true.
Proof.
  pose proof Hguarded as H. unfold guarded, LEDGER_TRIGGERS in H. rewrite !Forall_cons_iff in H.
  by destruct H as (?&?&?&?&_).
Qed.

Lemma existsb_entry id entries : existsb (is_entry id) entries = true ↔ id ∈ er_id <$> entries.
Proof.
  rewrite existsb_exists, list_elem_of_fmap. unfold is_entry. split.
  - intros (row & Hin & Hid%str_eqb_spec). exists row. split; [done|by apply list_elem_of_In].
  - intros (row & -> & Hin). exists row. split; [by apply list_elem_of_In|apply str_eqb_refl].
Qed.

(** Under the guards a statement that succeeds writes nothing, or adds one row. *)
Lemma guarded_execute statement s s' :
  is_truncate statement = false → execute events c statement s = Return s' →
  s' = s
  ∨ (∃ row, (er_id row ∉ entry_ids (visible s))
      ∧ s' = mkSession (s_seen s) (append (s_own s) (mkTables [row] []))
               (s_pending s ++ [EntryEvent (er_id row)]))
  ∨ (∃ row, 0 < pl_amount (lr_line row) ∧ (lr_entry row ∈ entry_ids (visible s))
      ∧ s' = mkSession (s_seen s) (append (s_own s) (mkTables [] [row]))
               (s_pending s ++ [LineEvent (lr_entry row)])).
Proof.
  destruct guards_active as (Hbe & Hbl & Hae & Hal).
  destruct statement as [row|id row|id|row|id row|id|cascade|]; intros Hrow; try discriminate Hrow; cbn [execute].
  - unfold entry_violation. destruct (negb (_ && fits 128 _)); [intros Hx; discriminate Hx|].
    destruct (existsb (is_entry _) _) eqn:Hex; cbn [orb]; [intros Hx; discriminate Hx|].
    destruct (existsb (λ f, str_eqb (er_eventId f) _) _); [intros Hx; discriminate Hx|]. destruct (negb (bool_decide _)); [intros Hx; discriminate Hx|]. intros [= <-]. right. left.
    exists row. split; [|unfold defer, add_own; by rewrite Hbe].
    intros Hin. by apply not_true_iff_false in Hex; apply Hex, existsb_entry.
  - destruct (negb _); [by intros [= <-]; left|]. by rewrite Hae.
  - destruct (negb _); [by intros [= <-]; left|]. by rewrite Hae.
  - unfold line_violation. destruct (negb (numeric_18_2 _)); [intros Hx; discriminate Hx|].
    destruct (Z.leb_spec (pl_amount (lr_line row)) 0) as [|Hpos]; [intros Hx; discriminate Hx|].
    destruct (existsb (is_line _) _); [intros Hx; discriminate Hx|].
    destruct (existsb (is_entry _) _) eqn:Hex; [|intros Hx; discriminate Hx].
    intros [= <-]. right. right. exists row. split; [done|].
    split; [by apply existsb_entry|unfold defer, add_own; by rewrite Hbl].
  - destruct (negb _); [by intros [= <-]; left|]. by rewrite Hal.
  - destruct (List.find _ _); [by rewrite Hal|by intros [= <-]; left].
Qed.

(** What holds in a session at any time: what it sees is sound; every imbalance it made, and
    every empty entry, has a control to come. *)
Record in_order (t0 : Tables) (s : Session) : Prop := {
  io_seen : sound (s_seen s);
  io_kept : (t_entries t0 ⊆ t_entries (s_seen s)) ∧ (t_lines t0 ⊆ t_lines (s_seen s));
  io_once : NoDup (entry_ids (visible s));
  io_positive : Forall (λ l, 0 < pl_amount (lr_line l)) (t_lines (s_own s));
  io_known : Forall (λ l, lr_entry l ∈ entry_ids (visible s)) (t_lines (s_own s));
  io_balanced id : balanced id (s_own s) ∨ LineEvent id ∈ s_pending s;
  io_filled row : row ∈ t_entries (s_own s) →
    lines_of (er_id row) (s_own s) ≠ [] ∨ EntryEvent (er_id row) ∈ s_pending s
}.

Lemma begin_in_order t : sound t → in_order t (begin t).
Proof.
  intros Ht. pose proof (added_once _ _ Ht) as Honce. rewrite tables_append_nil in Honce.
  split; cbn [begin s_seen s_own s_pending t_lines t_entries];
    [done|split; by intros ?| |constructor..| |].
  - unfold visible. cbn [begin s_seen s_own]. rewrite entry_ids_append. cbn. by rewrite app_nil_r.
  - intros id. by left.
  - by intros row ?%not_elem_of_nil.
Qed.

Lemma insert_entry_in_order t0 s row :
  er_id row ∉ entry_ids (visible s) → in_order t0 s →
  in_order t0 (mkSession (s_seen s) (append (s_own s) (mkTables [row] []))
                 (s_pending s ++ [EntryEvent (er_id row)])).
Proof.
  intros Hnew [Hs Hk Ho Hp Hkn Hb Hf].
  assert (Hids : entry_ids (append (s_seen s) (append (s_own s) (mkTables [row] [])))
    = entry_ids (visible s) ++ [er_id row])
    by (unfold visible; by rewrite <- tables_append_assoc, entry_ids_append).
  split; unfold visible; cbn [s_seen s_own s_pending append t_entries t_lines]; [done|done| | | | |].
  - rewrite Hids. apply NoDup_app. split; [done|]. split; [|apply NoDup_singleton].
    by intros id Hid ->%list_elem_of_singleton.
  - by rewrite app_nil_r.
  - rewrite app_nil_r, Hids. eapply Forall_impl; [exact Hkn|]. cbn beta. intros l Hl.
    apply elem_of_app. by left.
  - intros id. destruct (Hb id) as [Hbal|Hin]; [left|right; apply elem_of_app; by left].
    by apply balanced_append.
  - intros r [Hin|Hin]%elem_of_app.
    + destruct (Hf r Hin) as [Hl|Hl]; [left|right; apply elem_of_app; by left].
      rewrite lines_of_append. by intros [??]%app_eq_nil.
    + apply list_elem_of_singleton in Hin as ->. right. apply elem_of_app. right.
      by apply list_elem_of_singleton.
Qed.

Lemma insert_line_in_order t0 s row :
  0 < pl_amount (lr_line row) → lr_entry row ∈ entry_ids (visible s) → in_order t0 s →
  in_order t0 (mkSession (s_seen s) (append (s_own s) (mkTables [] [row]))
                 (s_pending s ++ [LineEvent (lr_entry row)])).
Proof.
  intros Hpos Hknown [Hs Hk Ho Hp Hkn Hb Hf].
  assert (Hids : entry_ids (append (s_seen s) (append (s_own s) (mkTables [] [row])))
    = entry_ids (visible s))
    by (unfold visible; rewrite <- tables_append_assoc, entry_ids_append; cbn; by rewrite app_nil_r).
  split; unfold visible; cbn [s_seen s_own s_pending append t_entries t_lines]; [done|done| | | | |].
  - by rewrite Hids.
  - apply Forall_app. split; [done|]. by repeat constructor.
  - rewrite Hids. apply Forall_app. split; [done|]. by repeat constructor.
  - intros id. destruct (decide (id = lr_entry row)) as [->|Hne].
    { right. apply elem_of_app. right. by apply list_elem_of_singleton. }
    destruct (Hb id) as [Hbal|Hin]; [left|right; apply elem_of_app; by left].
    apply balanced_append; [done|]. unfold balanced, lines_of. cbn.
    destruct (str_eqb (lr_entry row) id) eqn:E; [|done]. by apply str_eqb_spec in E.
  - rewrite app_nil_r. intros r Hin.
    destruct (Hf r Hin) as [Hl|Hl]; [left|right; apply elem_of_app; by left].
    rewrite lines_of_append. by intros [??]%app_eq_nil.
Qed.

Lemma control_in_order t0 s before event after :
  s_pending s = before ++ event :: after →
  run_function event (visible s) = Return tt → in_order t0 s →
  in_order t0 (mkSession (s_seen s) (s_own s) (before ++ after)).
Proof.
  intros Hpend Hrun%run_function_balanced [Hs Hk Ho Hp Hkn Hb Hf]. rewrite Hpend in *.
  pose proof (added_known _ _ Hs) as Hks. rewrite tables_append_nil in Hks.
  split; cbn [s_seen s_own s_pending]; [done..| |].
  - intros id. destruct (Hb id) as [Hbal|Hin]; [by left|].
    apply elem_of_app in Hin as [Hin|[Heq|Hin]%elem_of_cons];
      [right; apply elem_of_app; by left| |right; apply elem_of_app; by right].
    left. subst event. eapply balanced_append; [exact (added_balanced _ _ Hs id)|exact Hrun].
  - intros row Hin. destruct (Hf row Hin) as [Hl|Hev]; [by left|].
    apply elem_of_app in Hev as [Hev|[Heq|Hev]%elem_of_cons];
      [right; apply elem_of_app; by left| |right; apply elem_of_app; by right].
    left. subst event. destruct Hrun as [_ Hne]. unfold visible in Hne.
    rewrite lines_of_append, (lines_of_unknown _ (s_seen s)) in Hne; [done|done|].
    unfold visible in Ho. rewrite entry_ids_append in Ho. apply NoDup_app in Ho as (_ & Hdisj & _).
    intros Hseen. apply (Hdisj _ Hseen). unfold entry_ids. by apply list_elem_of_fmap_2.
Qed.

Lemma others_in_order t0 s d :
  sound_addition (s_seen s) d →
  NoDup (entry_ids (append (append (s_seen s) d) (s_own s))) → in_order t0 s →
  in_order t0 (mkSession (append (s_seen s) d) (s_own s) (s_pending s)).
Proof.
  intros Hd Honce [Hs [Hke Hkl] Ho Hp Hkn Hb Hf].
  split; unfold visible; cbn [s_seen s_own s_pending append t_entries t_lines]; [|split|done|done| |done|done].
  - by apply sound_append.
  - intros row Hin. apply elem_of_app. left. by apply Hke.
  - intros row Hin. apply elem_of_app. left. by apply Hkl.
  - eapply Forall_impl; [exact Hkn|]. cbn beta. intros l. unfold visible.
    rewrite !entry_ids_append, !elem_of_app. tauto.
Qed.

Lemma step_in_order t0 s s' : step events c false s s' → in_order t0 s → in_order t0 s'.
Proof.
  destruct 1 as [statement s s' Hpriv Hrun|before event after s Hpend Hrun|d s Hd Honce]; intros Hs.
  - assert (Hrow : is_truncate statement = false) by (by destruct (is_truncate statement); [discriminate Hpriv|]).
    apply guarded_execute in Hrun as [->|[(row & Hnew & ->)|(row & Hpos & Hknown & ->)]]; [done| | |done].
    + by apply insert_entry_in_order.
    + by apply insert_line_in_order.
  - by eapply control_in_order.
  - by apply others_in_order.
Qed.

Lemma steps_in_order t0 s s' : rtc (step events c false) s s' → in_order t0 s → in_order t0 s'.
Proof. induction 1 as [|s s' s'' Hstep _ IH]; [done|]. intros Hs. by eapply IH, step_in_order. Qed.

(** A session with no control to come may commit: what it adds is sound. *)
Lemma commit_sound t0 s :
  in_order t0 s → s_pending s = [] → sound_addition (s_seen s) (s_own s).
Proof.
  intros [Hs Hk Ho Hp Hkn Hb Hf] Hnil. rewrite Hnil in *. split; [done..| |].
  - intros id. destruct (Hb id) as [?|?%not_elem_of_nil]; done.
  - intros row Hin. destruct (Hf row Hin) as [?|?%not_elem_of_nil]; done.
Qed.
End sessions.

(** A journal whose entries are sound reads as balanced entries. *)
Lemma sound_reads t row :
  sound t → row ∈ t_entries t → entry_balanced (read_entry t row) = true.
Proof.
  intros [_ Hp _ Hb Hf] Hin. apply (balanced_entry (lines_of (er_id row) t)); [|by apply Hf|done].
  split; [apply Hb|]. apply Forall_forall. intros line (l & Hl & _ & <-)%elem_of_lines_of.
  rewrite Forall_forall in Hp. by apply Hp.
Qed.

(** The register of facts is protected as well by a start whose queries are served. *)
Lemma events_start_guards c :
  (installed c trg_transaction_events_append_only = true →
   active c trg_transaction_events_append_only = true) →
  active (events_onModuleInit (λ _, true) c).2 trg_transaction_events_append_only = true.
Proof.
  intros Hen. unfold events_onModuleInit. cbn [run_queries run_query negb].
  destruct (installed c trg_transaction_events_append_only) eqn:Hi; [by apply Hen|].
  unfold events_install. edestruct function_step as (c1 & -> & Hf & _ & Ht).
  edestruct trigger_step as (c2 & Hrun & _ & _); [|exact Hf|].
  { unfold installed. rewrite Ht. exact Hi. }
  destruct (run_queries _ _ [CreateTrigger _ _] c1) as [[m|e] c3] eqn:Hq; [|by rewrite Hrun in Hq].
  cbn [snd]. eapply run_queries_active; [exact Hq| |right; eexists; left].
  apply not_elem_of_cons. split; [done|apply not_elem_of_nil].
Qed.

(** ** Transactions *)

Lemma run_statements_steps events c privileged statements s s' :
  Forall (λ statement, is_truncate statement = true → privileged = true) statements →
  run_statements events c statements s = Return s' → rtc (step events c privileged) s s'.
Proof.
  intros Hall. revert s. induction Hall as [|statement statements Hst Hall IH]; intros s; cbn [run_statements].
  - intros [= ->]. constructor.
  - destruct (execute events c statement s) as [s1|e] eqn:He; [|done]. intros Hrun.
    eapply rtc_l; [by eapply step_execute|by apply IH].
Qed.

Lemma run_controls_steps events c privileged pending s :
  s_pending s = pending → run_controls pending (visible s) = Return tt →
  rtc (step events c privileged) s (mkSession (s_seen s) (s_own s) []).
Proof.
  revert s. induction pending as [|event pending IH]; intros s Hp Hrun.
  - destruct s. cbn in *. subst. constructor.
  - cbn [run_controls] in Hrun. destruct (run_function event (visible s)) as [[]|] eqn:He; [|done].
    eapply rtc_l; [by apply (step_control events c privileged [] event pending)|].
    by apply (IH (mkSession (s_seen s) (s_own s) pending)).
Qed.

(** A transaction is a session that reaches its commit, or changes nothing. *)
Lemma run_transaction_steps events c privileged statements t :
  Forall (λ statement, is_truncate statement = true → privileged = true) statements →
  match run_transaction events c statements t with
  | (Return _, t') => ∃ s, rtc (step events c privileged) (begin t) s ∧ s_pending s = [] ∧ visible s = t'
  | (Throw _, t') => t' = t
  end.
Proof.
  intros Hall. unfold run_transaction. destruct (run_statements _ _ _ _) as [s|e] eqn:Hs; [|done].
  destruct (run_controls _ _) as [[]|e] eqn:Hc; [|done].
  exists (mkSession (s_seen s) (s_own s) []). split; [|done].
  etrans; [by eapply run_statements_steps|by eapply run_controls_steps].
Qed.

(** ** What a start does not see *)

Definition all_functions : list TriggerFunction :=
  [journal_entries_balanced; journal_lines_balanced; journal_append_only].

(** A trigger that is there and disabled is reported as present. *)
Example disabled_guards_are_reported_present :
  let c := mkCatalog all_functions ((λ t, (t, false)) <$> LEDGER_TRIGGERS) in
  onModuleInit (λ _, true) c = (GuardsPresent, c)
  ∧ forallb (λ t, negb (active c t)) LEDGER_TRIGGERS = true.
Proof. split; vm_compute; reflexivity. Qed.

(** One trigger is missing, the role may drop triggers and may not replace functions: after
    the start the three that protected the journal are gone. *)
Example interrupted_start_unprotects :
  let c := mkCatalog all_functions ((λ t, (t, true)) <$> tail LEDGER_TRIGGERS) in
  let c' := (onModuleInit (λ n, Nat.ltb n 8) c).2 in
  forallb (active c) (tail LEDGER_TRIGGERS) = true
  ∧ forallb (λ t, negb (active c' t)) LEDGER_TRIGGERS = true.
Proof. split; vm_compute; reflexivity. Qed.

(** * Properties *)

(** C22. The guarded journal.  However the schema was provisioned, by the migration or by a
    start that repaired it, a session whose role does not hold [TRUNCATE] may execute any
    [INSERT], [UPDATE] and [DELETE] on the journal, run its deferred controls in any order
    and while other sessions commit: once no control is left to run, so that it may commit,
    every entry is balanced and has lines, every row that was there is still there,
    unchanged, and what the session adds is sound for the other sessions in their turn.
    [TRUNCATE] passes the triggers, which are all on rows ([truncation_passes_the_guards]). *)
Theorem journal_is_guarded events c t s :
  provisioned c → sound t → rtc (step events c false) (begin t) s → s_pending s = [] →
  sound_addition (s_seen s) (s_own s)
  ∧ sound (visible s)
  ∧ (t_entries t ⊆ t_entries (visible s)) ∧ (t_lines t ⊆ t_lines (visible s))
  ∧ ∀ row, row ∈ t_entries (visible s) → entry_balanced (read_entry (visible s) row) = true.
Proof.
  intros Hc%provisioned_guarded Ht%begin_in_order Hsteps Hnil.
  apply (steps_in_order events c Hc t) in Hsteps as Hs; [|done].
  pose proof (commit_sound _ _ Hs Hnil) as Hadd. destruct (io_kept _ _ Hs) as [Hke Hkl].
  assert (Hv : sound (visible s)) by (apply sound_append; [apply (io_seen _ _ Hs)|done]).
  split; [done|]. split; [done|]. split; [|split].
  - intros row Hin. apply elem_of_app. left. by apply Hke.
  - intros row Hin. apply elem_of_app. left. by apply Hkl.
  - intros row. by apply sound_reads.
Qed.

(** The posting of a collection, by a session of a journal provisioned by the migration. *)
Definition sample_catalog : Catalog := (up (λ _, true) (mkCatalog [] [])).2.

Definition sample_row : EntryRow :=
  mkEntryRow "e1" "TRF-1" "fact-1" TransactionEventType.PROVIDER_CONFIRMED "Encaissement" "CDF" "corr" 0.
Definition sample_line (id : string) (account : LedgerAccount) (direction : EntryDirection) : LineRow :=
  mkLineRow id "e1" (mkPostingLine account direction 10000).

Definition sample_statements : list Statement :=
  [InsertEntry sample_row;
   InsertLine (sample_line "l1" LedgerAccount.PROVIDER_FLOAT EntryDirection.DEBIT);
   InsertLine (sample_line "l2" LedgerAccount.PAYER_PAYABLE EntryDirection.CREDIT)].


(** The posting is committed; one line alone is not; nor is a rewriting of the entry. *)
Example sample_transactions :
  let run statements t := run_transaction ["fact-1"] sample_catalog statements t in
  let posted := (run sample_statements (mkTables [] [])).2 in
  (run sample_statements (mkTables [] [])).1 = Return tt
  ∧ (run (take 2 sample_statements) (mkTables [] [])) = (Throw "restrict_violation", mkTables [] [])
  ∧ (run (take 1 sample_statements) (mkTables [] [])) = (Throw "restrict_violation", mkTables [] [])
  ∧ run [DeleteLine "l1"] posted = (Throw "restrict_violation", posted)
  ∧ run [UpdateEntry "e1" sample_row] posted = (Throw "restrict_violation", posted).
Proof. cbv zeta. split_and!; vm_compute; reflexivity. Qed.

(** The triggers are installed and enabled, and the lines are gone. *)
Example truncation_passes_the_guards :
  let run statements t := run_transaction ["fact-1"] sample_catalog statements t in
  let posted := (run sample_statements (mkTables [] [])).2 in
  guarded sample_catalog
  ∧ run [TruncateLines] posted = (Return tt, mkTables [sample_row] [])
  ∧ run [TruncateEntries false] posted = (Throw "feature_not_supported", posted)
  ∧ run [TruncateEntries true] posted = (Return tt, mkTables [] []).
Proof. cbv zeta. split_and!; [repeat constructor|vm_compute; reflexivity..]. Qed.

Lemma journal_is_guarded_witness :
  let posted := (run_transaction ["fact-1"] sample_catalog sample_statements (mkTables [] [])).2 in
  entry_balanced (read_entry posted sample_row) = true.
Proof.
  intros posted.
  assert (Hrows : Forall (λ statement, is_truncate statement = true → false = true) sample_statements)
    by (repeat constructor; intros Hx; discriminate Hx).
  pose proof (run_transaction_steps ["fact-1"] sample_catalog false sample_statements (mkTables [] []) Hrows) as H.
  destruct (run_transaction _ _ _ _) as [[[]|e] t'] eqn:Hrun; [|vm_compute in Hrun; discriminate Hrun].
  destruct H as (s & Hsteps & Hnil & Hv).
  destruct (journal_is_guarded ["fact-1"] sample_catalog (mkTables [] []) s)
    as (_ & _ & _ & _ & Hall); [|split; [constructor..|done|by intros row ?%not_elem_of_nil]|done..|].
  - apply (by_migration (λ _, true) (mkCatalog [] []) 7). vm_compute. reflexivity.
  - unfold posted. cbn [snd]. rewrite <- Hv. apply Hall. rewrite Hv.
    vm_compute in Hrun. injection Hrun as <-. left.
Defined.
